(* ===== verification/_CoqProject ===== *)
-Q . S2P
Prelude.v
Bytes.v
Db.v
StoreTheorems.v
Trie.v
TrieSpec.v
TrieFacts.v
WorldState.v
Concrete.v
TrieTheorems.v
WorldStateI.v
Block.v
BlockFacts.v
BlockTheorems.v
MainList.v
Consensus.v
ConsensusFacts.v
ConsensusTheorems.v
HistoryFacts.v
HistoryTheorems.v
ChainState.v
SimpleBlock.v
Chain.v
ChainFacts.v
ChainTheorems.v
Trustee.v
TrusteeFacts.v
TrusteeTheorems.v
Peers.v
PeersTheorems.v
Platform.v
PlatformFacts.v
PlatformTheorems.v
Produced.v
PlatformWitnesses.v
SyncTheorems.v
SyncAccept.v
Pager.v
PagerTheorems.v
CounterProto.v
CounterTheorems.v
CounterOps.v
CounterOpsTheorems.v
Sessions.v
SessionTheorems.v
LevelDb.v
Config.v
ConfigTheorems.v
Logger.v
TimeBound.v
Text.v
Countr.v
CountrTheorems.v
Cli.v
CliTheorems.v
CliWitnesses.v
PagerApp.v
PagerAppTheorems.v
PagerAppWitnesses.v
