(* ===== verification/Prelude.v ===== *)
(** * A verification library for go-trust-net

    go-trust-net is a permissioned block-chain platform in Go.  This library
    models its core as Rocq definitions that can be run, and proves what
    makes the core correct.  This file is the root: it documents the whole
    library and holds what all the files share.

    ** The program

    - [src/core/trie]: a world state is a 16-ary Merkle trie over a key/value
      store, keyed by nibbles of the key; [Update] and [Delete] write new
      nodes under their hashes and move the root, [Rebase] moves to an older
      root, [Cleanup] deletes the nodes of a transient one.  Transactions are
      registered in a table of their own.
    - [src/consensus]: a block holds a private world state over the shared
      database, buffers reads and writes in [variables], and on hashing writes
      them to the trie, takes the root as its [STATE] and searches a nonce.
      [BlockChainConsensus] keeps a tree of chain nodes in the database, of
      which those on the path to the tip are flagged as main list; adding a
      heavier block rebases the world state and moves the flags.
    - [src/core], [src/core/chain]: a second, simpler chain of [SimpleBlock]s
      without world state; new blocks are given uncles, which raise their
      weight.
    - [src/db], [src/common]: the key/value interface with an in-memory
      implementation and one by LevelDB, serialization by encoding/gob, and
      calls with a time limit.
    - [src/network]: the platform manager of a node.  It admits peers after
      a handshake, synchronizes with peers whose chain is better, processes
      and relays their blocks, and fills and mines blocks of its own from a
      queue of transactions, which an application's callback interprets.  The
      trustee pays miners: the first transaction of a block credits the miner
      and the uncle miners, and every peer verifies it.  [src/common/set.go]
      and [src/db/peerSetDbInMem.go] hold what is known about peers.
    - [src/protocol], [src/protocol/pager], [src/protocol/counter]: an older
      base for protocols, the pager, which floods text messages over it, and
      an older counter protocol over the consensus layer.
    - [src/config], [src/log]: the configuration of a node, read from a file,
      with the key that is its identity, and the log.
    - [src/countrApp]: an application of named counters and transfers over the
      platform, with a command line; [main] configures the node, starts the
      platform, runs the command line and stops.
    - [src/app]: an older application, a command line over the pager and the
      counter protocol.

    ** The files

    - [Prelude] (this file): errors, [result]s for Go's pairs of value and
      error, the monad [outcome] of runs that return, panic (nil dereference)
      or use up their fuel, 64-bit integers as [Z] with [u64], tactics.
    - [Bytes] ([src/core/types.go]): fixed-size byte arrays, the conversions
      [BytesToByteN] and the big-endian [Uint64] / [Uint64ToByte8].
    - [Db] ([src/db/database.go], [src/db/databaseInMem.go],
      [src/common/util.go]): the interfaces [Database], [Codec] and [Sha512]
      as classes with laws, table keys, and in [InMem] the in-memory database.
      [StoreTheorems] has the theorems of these two files.
    - [Trie] ([src/core/trie/trieImpl.go]): nodes and all operations of
      [MptWorldState].  [TrieSpec] is the abstract trie with its laws,
      [TrieFacts] and [WorldState] relate the operations to it,
      [TrieTheorems] states the theorems.
    - [WorldStateI] ([src/core/trie/trie.go]): the Go interface as the class
      [WorldState] with [WorldStateLaws]; the consensus files are written
      against it and [MptWorldState] is an instance.
    - [Block] ([src/consensus/block.go], [transaction.go], [chainNode.go],
      [error.go]), with [BlockFacts] and [BlockTheorems].
    - [MainList]: block trees, their main-list flags, and the three loops that
      both chains use to move the flags, over an abstract view of the nodes.
    - [Consensus] ([src/consensus/blockChainConsensus.go]), with
      [ConsensusFacts] and [ConsensusTheorems].  [HistoryFacts] and
      [HistoryTheorems] have what holds along the whole life of a chain:
      growth, restarts, ancestors and descendants; [ChainState] follows the
      world state of the tip from a candidate block to the next best block.
    - [SimpleBlock] ([src/core/block.go]) and [Chain]
      ([src/core/chain/blockChain.go], [blockNode.go]), with [ChainFacts] and
      [ChainTheorems].
    - [Trustee] ([src/network/trustee.go], [trusteeTransactions.go]): balances,
      reward transactions and their verification, with [TrusteeFacts] and
      [TrusteeTheorems].
    - [Peers] ([src/common/set.go], [src/network/node.go], [protocol.go],
      [src/db/peerSetDbInMem.go]): sets, messages, peers, channels and the
      peer data base, with [PeersTheorems].
    - [Platform] ([src/network/platform.go], [types.go]): the class [Engine] is
      the Go interface of the consensus layer, [chain_engine] its instance by
      [Consensus]; then the manager with all its handlers, the synchronization
      and the block producer.  [PlatformFacts] has the calculus for its calls
      and the invariant [plat_inv], [PlatformTheorems] the theorems.
    - [Produced]: the meaning of an application's programs, of rewards and of
      whole blocks as a function of what the parent state answers, and from it
      that what a producer mines passes a peer.  [PlatformWitnesses] runs two
      nodes that exchange handshakes, mine, relay and accept a block.
      [SyncTheorems] composes two whole nodes over a round of synchronization;
      [SyncAccept] follows the blocks of the answer into the chain.
    - [Pager] ([src/protocol/manager.go], [node.go], [types.go],
      [src/protocol/pager/manager.go]), with [PagerTheorems].
    - [CounterProto] ([src/protocol/counter/manager.go], [messages.go]), with
      [CounterTheorems]; [CounterOps] has its constructor, [delta],
      [Increment] and [Decrement], with [CounterOpsTheorems].
    - [Sessions]: whole connections, the function [Run] of the protocols of
      [src/network/platform.go], the pager and the counter, with
      [SessionTheorems].
    - [LevelDb] ([src/db/databaseLevelDB.go]): the wrapper, over goleveldb as a
      class whose laws are about opening and closing handles only; an instance
      of [Database].
    - [Config] ([src/config/config.go], [errors.go]), with [ConfigTheorems];
      [Logger] ([src/log/logger.go]).
    - [TimeBound] ([RunTimeBound] of [src/common/util.go]).
    - [Text]: what the command line uses of Go's standard library (runes, the
      words of a line, formats, hexadecimal numbers).
    - [Countr] ([src/countrApp/app.go], the transactions and callbacks), with
      [CountrTheorems]; [Cli] ([src/countrApp/app.go], the command line and
      [main], and [configureP2P] of [src/network/platform.go]), with
      [CliTheorems] and [CliWitnesses].
    - [PagerApp] ([src/app/main.go], with the protocols that the pager and the
      counter register), with [PagerAppTheorems] and [PagerAppWitnesses].
    - [Concrete]: instances of the interfaces that compute (a serialization,
      an executable stand-in for SHA-512, a checker for collision freedom),
      on which the witnesses of the theorems are run.

    The files [Trie], [Block], [Consensus], [SimpleBlock], [Chain], [Trustee],
    [Peers], [Platform], [Pager], [CounterProto], [CounterOps], [Sessions],
    [Config], [Countr], [Cli] and [PagerApp] hold definitions only (the record of a part, one definition per function,
    named as in the code; a prefix such as [block_] or [cn_] keeps methods of
    the same name apart).  State is passed explicitly: an operation takes the
    database [d] and the objects it changes and returns them.

    ** How the code is read

    - A pointer that can be nil where it is used is an [option], and
      following it is [deref], which panics on [None].  Pointers that every
      constructor and decoder sets are the value they point to.
    - A Go [error] is an [option error], or the [Err] of a [result].  What
      the parts log is left out, except in [Cli] and [PagerApp].  A lock held for a whole method makes the method one step;
      [MineCandidateBlock] does its work in a goroutine, which is such a step.
    - Ranging over a Go map visits the entries in any order: [persistState]
      takes the order as a parameter, and theorems quantify over it.
    - The proof-of-work loop runs until a timer fires: [attempts] is the
      number of hashes tried.  The time of day is a parameter [now].
    - SHA-512, encoding/gob and the database are the classes of [Db].  A
      theorem that needs collision freedom says so for the nodes that occur
      ([universe]); the witnesses discharge it for a concrete hash function.

    - The platform manager's calls run in the state monad [M] of [Platform]
      (with [do!]); the state holds what is shared with its goroutines: the
      heap of peers (peers are references, since the peer data base, a
      listener and a synchronization hold the same object), the producer's
      variables and the messages sent.  A handler, a round of a listener, a
      round of the producer, and a synchronization between two waits are
      atomic steps; their interleavings are the step relation [plat_step].
      What the manager gets from outside is an argument: [env] (clock,
      randomness, orders of ranging), [net] (what sending returns) and what
      reading gives.
    - A buffered channel is the queue of its values, a sender beyond the
      capacity being a value that waits in it; a closed empty channel gives
      the zero value.  In Go such a sender waits until there is room, here its
      goroutine goes on: the model has more interleavings than the program.
      A call that waits on a channel that nobody serves is [Blocked].
    - An application's callback is a program [appProg] that looks keys up,
      updates and deletes them and returns a verdict; [runApp] runs it on the
      block.  A set of interface values compares pointers by address: the
      hash of a block object is such a pointer ([ItemPtr]).
    - The command line runs in the monad [T] of [Cli], over a terminal: the
      platform manager, the log level, what was printed and the calls made so
      far.  What other goroutines do to the manager before the [i]th call is
      [others i], what the call gets from outside is [envs i]; what those
      goroutines print or log is left out.  [PagerApp] reads the older command
      line in the same way, over both managers, of which the counter manager
      may be nil; each of its scanners defers one more send to [main], which
      receives one, so that a command line that is told to quit after an end
      of input is [Blocked].  A panic ends a run, without the deferred sends.
    - The steps of the chain ([chain_step]) take for granted that the world
      state of a block that is mined or accepted is in the database once the
      block is hashed ([persists]), which the code does not check.  For the
      world state of [Trie] it is proved ([trie_persists]); when the database
      has lost it, the chain can be left with a tip that has no node
      ([failed_rebase_leaves_dangling_tip]).
    - Files ([Config]) can fail to be opened, created or written in full; the
      result of the write is ignored, as in the code.
    - A connection ([Sessions]) is a list of rounds, each with what other
      goroutines do before the listener reads its next message; where the list
      ends the connection is open and [Run] is [Blocked].
    - [CounterOps] is written for an older consensus layer: [NewTransaction]
      and [NewBlockChainConsensus] as it calls them are parameters.
    - [RunTimeBound] is a sequence of events of its caller, its goroutine and
      the timer ([tb_run]); the handshakes take what reading gives within the
      time limit as an argument.
    - RLP encoding of messages, the elliptic-curve library, goleveldb, JSON
      and the parser of node addresses are classes or parameters with laws;
      the p2p server itself is not modelled.

    ** Fuel

    Loops that follow stored links take fuel.  It is enough as follows:
    climbing or descending the main list, [length] of the longest path of the
    tree ([rebalance_spec], [addValidatedBlock_spec], [validation_terminates],
    [flushLoop_spec]); for the simple chain, one more than the number of calls
    made so far ([core_main_list_invariant]); for [Cleanup] of a settled
    state, 1, since nodes are flagged unmarked and the recursion stops at once
    ([cleanup_forgets_state]).  The theorems state that these runs return;
    more fuel never changes a result ([outcome_le]).  A synchronization with a
    peer that has gone is resumed at most once more than there are answers
    left ([sync_ends_after_disconnect], [counter_sync_ends]).  For
    mining and accepting some fuel, bounded by the longest path, is enough and
    beyond it the result is one and the same ([mine_and_accept_return]).  In [Text] and [Cli] the
    fuel is the length of the line or of its words, which the definitions
    supply themselves; that of [CLI] (also in [PagerApp]) is the number of
    scanners it makes, one and one more for each end of its input.  The
    other files need no fuel.

    ** What is proved

    - The world state is a map from keys to non-empty values
      ([world_state_is_map]); its root hash does not depend on the order of
      changes and binds the contents; rebasing restores every lookup.
    - Blocks: what a client reads and writes on a block refines a map over the
      parent state; a mined block verifies at a peer whatever the map orders;
      mining stops at the first approved nonce; the parent state survives; and
      what was written to a block that becomes the tip is what the best block
      reads ([mined_writes_are_read]).
    - The chain: from a new chain, along any steps of the consensus interface,
      the nodes form a tree rooted at genesis, exactly the path to the tip is
      flagged, and no stored node beats the tip
      ([canonical_chain_invariant]); adding a block returns, and moves the tip
      exactly when the block is better ([add_block_moves_main_list]);
      validation returns and accepts only blocks of the right depth and
      weight.  Along the life of a node its history only grows and always adds
      up ([history_is_append_only], [stored_chain_adds_up]), a restart resumes
      it ([restart_resumes]), mining and accepting return with one result, and
      [Ancestor] and [Descendents] read paths and the main list.
    - The simple chain: the same invariant with an explicit fuel bound, the
      outcome of each call on every branch, reading, flushing and restarting.
    - Storage: conversions are inverse where they should be; the in-memory
      database is a map on keys told apart by their first 64 bytes.
    - Rewards: processing pays exactly the awards and nothing else, and a
      reward that a miner made verifies at every peer
      ([reward_processing_exact], [reward_tx_verifies_at_peer]).
    - The platform: an invariant over all interleavings
      ([platform_invariant]); every message sent decodes at its type; an
      accepted block is relayed once, to exactly the other peers; who is
      admitted; who synchronizes, and that it ends; that pending transactions
      are mined or reported dead; and that a block filled and mined by one
      node passes another, unless a transaction that was dropped on the way
      has left writes in it ([produced_block_passes_peer]).  A round of
      synchronization between two nodes delivers the next blocks of the main
      list, in order ([sync_round_delivers_main_list]), and an answer that is
      handled without an error leaves the chain of the node correct and with
      all these blocks ([sync_response_extends_chain]).  A connection is a
      sequence of the steps of the invariant, and leaves nothing of its peer
      behind when it has ended ([peer_session_ends_clean]).
    - The pager shows the first arrival of each page and floods it.  A counter
      manager counts a peer's block exactly and relays it to the other peers
      ([counter_block_counted_and_relayed]), keeps its invariant along all its
      calls ([counter_invariant], [counter_changes_keep_invariant]), moves a
      counter by exactly the amount asked for ([counter_changes_exactly]), and
      its synchronizations end.
    - The pager application does what its typed words say, compared with a
      reference interpreter, and returns or blocks when told to quit
      ([pager_session_runs_script]); a typed page is
      shown by the peers ([typed_page_is_shown]); a saved key is the one that
      the configuration reads back; [main] ends with the database closed
      ([pager_main_closes]).
    - A call of [InitializeConfig] succeeds or leaves the configuration unset
      and every database handle as before; the identity of a node survives a
      restart; a log line is written exactly at its level; a call with a time
      limit returns when the timer fires, whatever the method does.
    - The counter application changes exactly the counters and balances it
      names, from the typed line to the block ([increments_add_up]); every
      typed line does what its words say ([cli_does_what_is_typed]); the id
      printed for a transaction finds it again; [main] ends with the platform
      stopped and the database closed.
    - Some theorems show behaviour that is surprising: a failed synchronization
      leaves block production suspended and [Stop] then blocks, an admitted
      peer cannot be disconnected, a rejected transaction leaves its writes in
      the block, a reward without a signature's numbers or a request for very
      many hashes panics a node, counters and balances share one key space, a
      failing rebase leaves
      a dangling tip, an uncle can be counted repeatedly, the depth of a block
      is not hashed, a restart of the simple chain forgets its weight, a batch
      of a synchronization can hold no new block, a key file that cannot be
      read is replaced and one that cannot be written in full is kept, the command line spins when its input ends and shows
      a transaction off the main list as rejected, a counter without a name is
      refused by every peer, a time-out leaves a goroutine blocked forever,
      [Increment] returns another counter than the one it changed, and the
      pager program panics at its end without a counter manager.

    ** What is not modelled, and what comes next

    The p2p server, flag parsing, and time stamps in logs belong to libraries.
    Two functions of an older consensus layer, which the counter protocol calls
    and the repository no longer has, are parameters of [CounterOps].  Handlers
    that interleave within one another are not modelled, nor are accessors
    that return a field and are called by no other code.  What could follow:
    that the blocks of a round of synchronization are never refused by an
    honest node. *)

From Stdlib Require Export ZArith Lia.
From stdpp Require Export base gmap list strings numbers.

Set Default Goal Selector "!".
#[global] Open Scope Z_scope.

(** ** Errors and results

    Go's [error] interface: a [*core.CoreError] carries a numeric code (read
    back by the platform layer), an [errors.New] value only a message. *)
Inductive error :=
  | CoreError (code : Z) (msg : string)
  | StdError (msg : string).

(** [err.Error()] *)
Definition Error_string (e : error) : string :=
  match e with CoreError _ m => m | StdError m => m end.

Definition error_code (e : error) : option Z :=
  match e with CoreError c _ => Some c | StdError _ => None end.

(** A Go pair [(value, error)] in which exactly one side is meaningful. *)
Inductive result (A : Type) :=
  | Ok (a : A)
  | Err (e : error).
Arguments Ok {A} a.
Arguments Err {A} e.

Definition is_ok {A} (r : result A) : bool :=
  match r with Ok _ => true | Err _ => false end.

Definition result_opt {A} (r : result A) : option A :=
  match r with Ok a => Some a | Err _ => None end.

(** What running a Go function can do: return, panic (a nil dereference) or,
    for a loop modelled with fuel, still be running when the fuel is used up. *)
Inductive outcome (A : Type) :=
  | Ret (a : A)
  | Panic
  | OutOfFuel.
Arguments Ret {A} a.
Arguments Panic {A}.
Arguments OutOfFuel {A}.

Definition outcome_bind {A B} (f : A → outcome B) (o : outcome A) : outcome B :=
  match o with Ret a => f a | Panic => Panic | OutOfFuel => OutOfFuel end.

(** Following a Go pointer: [None] is [nil]. *)
Definition deref {A} (p : option A) : outcome A :=
  match p with Some a => Ret a | None => Panic end.

Declare Scope go_scope.
Delimit Scope go_scope with go.

(** [let! x := e in k] runs [e] and passes its value to [k]. *)
Notation "'let!' x ':=' e 'in' k" := (outcome_bind (λ x, k) e)
  (at level 10, x pattern, e at level 100, k at level 200) : go_scope.
#[global] Open Scope go_scope.

Lemma outcome_bind_ret {A B} (f : A → outcome B) (o : outcome A) b :
  outcome_bind f o = Ret b ↔ ∃ a, o = Ret a ∧ f a = Ret b.
Proof. destruct o; naive_solver. Qed.

Lemma outcome_bind_assoc {A B C} (f : A → outcome B) (g : B → outcome C) o :
  outcome_bind g (outcome_bind f o) = outcome_bind (λ a, outcome_bind g (f a)) o.
Proof. by destruct o. Qed.

(** [o'] is [o], unless [o] ran out of fuel. *)
Definition outcome_le {A} (o o' : outcome A) : Prop := o = OutOfFuel ∨ o = o'.

Lemma outcome_le_refl {A} (o : outcome A) : outcome_le o o.
Proof. by right. Qed.

Lemma outcome_le_ret {A} (o o' : outcome A) a : outcome_le o o' → o = Ret a → o' = Ret a.
Proof. intros [->| ->]; done. Qed.

(** A call that returns and whose result no fuel changes has one result. *)
Lemma outcome_le_settles {A} (f : nat → outcome A) k :
  (∀ fuel, (k ≤ fuel)%nat → outcome_le (f k) (f fuel)) → (∃ a, f k = Ret a) → ∃ a, ∀ fuel, (k ≤ fuel)%nat → f fuel = Ret a.
Proof. intros Hle [a Ha]. exists a. intros fuel Hf. exact (outcome_le_ret _ _ _ (Hle fuel Hf) Ha). Qed.

Lemma outcome_le_bind {A B} (f f' : A → outcome B) o o' :
  outcome_le o o' → (∀ a, outcome_le (f a) (f' a)) →
  outcome_le (outcome_bind f o) (outcome_bind f' o').
Proof.
  intros [->| ->] Hf; [by left|]. destruct o' as [a| |]; [apply Hf | by right | by right].
Qed.

(** Run [f] on the elements of a list, concatenating the results. *)
Fixpoint outcome_concat {A B} (f : A → outcome (list B)) (l : list A) : outcome (list B) :=
  match l with
  | [] => Ret []
  | a :: l => let! x := f a in let! y := outcome_concat f l in Ret (x ++ y)
  end.

(** ** Machine integers: a [uint64] is a [Z] kept in range by [u64] *)
Definition u64 (z : Z) : Z := z `mod` 2 ^ 64.
Definition is_u64 (z : Z) : Prop := 0 ≤ z < 2 ^ 64.

Lemma u64_range z : is_u64 (u64 z).
Proof. unfold u64, is_u64. apply Z.mod_pos_bound. lia. Qed.

Lemma u64_small z : is_u64 z → u64 z = z.
Proof. unfold u64, is_u64. intros. by apply Z.mod_small. Qed.

Lemma u64_idemp z : u64 (u64 z) = u64 z.
Proof. apply u64_small, u64_range. Qed.

Lemma u64_add_small z w : 0 ≤ z → 0 ≤ w → z + w < 2 ^ 64 → u64 (z + w) = z + w.
Proof. intros. apply u64_small. unfold is_u64. lia. Qed.

(** [a - (a - b)] on [uint64] is [b], whatever wraps around in between. *)
Lemma u64_sub_sub a b : is_u64 b → u64 (a - u64 (a - b)) = b.
Proof.
  intros Hb. unfold u64. rewrite Zminus_mod_idemp_r.
  replace (a - (a - b)) with b by lia. by apply u64_small.
Qed.

Create HintDb go discriminated.
#[export] Hint Resolve u64_range u64_small outcome_le_refl : go.

(** ** Tactics *)

(** Split the next [match] in the goal or in a hypothesis, keeping the equation. *)
Ltac split_match :=
  match goal with
  | |- context [match ?x with _ => _ end] =>
      lazymatch x with context [match _ with _ => _ end] => fail | _ => destruct x eqn:? end
  | H : context [match ?x with _ => _ end] |- _ =>
      lazymatch x with context [match _ with _ => _ end] => fail | _ => destruct x eqn:? end
  end.

(** Case analysis until no [match] is left, discarding the impossible branches. *)
Ltac split_matches := repeat (split_match; simplify_eq/=).

(** [lia] with division and remainder by constants. *)
Ltac zlia := zify; Z.to_euclidean_division_equations; lia.

(** ** Lists *)

(** Equal-length blocks: a concatenation of blocks determines the blocks. *)
Lemma concat_inj {A} (n : nat) (l k : list (list A)) :
  (0 < n)%nat →
  Forall (λ x, length x = n) l → Forall (λ x, length x = n) k →
  concat l = concat k → l = k.
Proof.
  intros Hn Hl. revert k.
  induction Hl as [|x l Hx Hl IH]; intros k Hk Heq; destruct Hk as [|y k Hy Hk]; simpl in *.
  - done.
  - destruct y; simpl in *; [lia | done].
  - destruct x; simpl in *; [lia | done].
  - apply app_inj_1 in Heq as [-> Heq]; [|lia]. f_equal. by apply IH.
Qed.

Lemma length_concat_blocks {A} (n : nat) (l : list (list A)) :
  Forall (λ x, length x = n) l → length (concat l) = (length l * n)%nat.
Proof. induction 1 as [|x l Hx Hl IH]; simpl; [done|]. rewrite length_app. lia. Qed.
