(* ===== verification/Bytes.v ===== *)
(** * Bytes and fixed-size arrays ([src/core/types.go])

    Go's [byte] is [Byte.byte]; Go's fixed-size array type [[n]T] is the type
    [arr T n] of lists of length [n].  On top of them the file models
    [Byte8], [Byte16], [Byte32] and [Byte64], the copying conversions
    [BytesToByteN], and the big-endian conversions between [uint64] and
    [Byte8], and proves that they are what their names promise. *)

From Stdlib Require Import Strings.Byte.
From S2P Require Import Prelude.

Abbreviation byte := Byte.byte.
Abbreviation bytes := (list Byte.byte).

#[global] Instance byte_eq_dec : EqDecision byte := Byte.byte_eq_dec.
#[global] Instance byte_countable : Countable byte :=
  inj_countable Byte.to_N Byte.of_N Byte.of_to_N.

(** ** One byte as an integer *)

Definition byte_val (b : byte) : Z := Z.of_N (Byte.to_N b).

(** Go's conversion [byte(z)]: the low eight bits. *)
Definition byte_of (z : Z) : byte :=
  match Byte.of_N (Z.to_N (z `mod` 256)) with Some b => b | None => x00 end.

Lemma byte_val_range b : 0 ≤ byte_val b < 256.
Proof. unfold byte_val. pose proof (Byte.to_N_bounded b). lia. Qed.

Lemma byte_val_of z : byte_val (byte_of z) = z `mod` 256.
Proof.
  unfold byte_val, byte_of. pose proof (Z.mod_pos_bound z 256 eq_refl).
  destruct (Byte.of_N _) as [b|] eqn:E.
  - apply Byte.to_of_N in E. rewrite E. lia.
  - apply Byte.of_N_None_iff in E. lia.
Qed.

Lemma byte_val_inj b c : byte_val b = byte_val c → b = c.
Proof.
  unfold byte_val. intros H%N2Z.inj.
  pose proof (Byte.of_to_N b) as Hb. pose proof (Byte.of_to_N c) as Hc.
  rewrite H in Hb. congruence.
Qed.

Lemma byte_of_val b : byte_of (byte_val b) = b.
Proof.
  apply byte_val_inj. rewrite byte_val_of. apply Z.mod_small, byte_val_range.
Qed.

(** ** Fixed-size arrays *)

Record arr (A : Type) (n : nat) := Arr {
  arr_list : list A;
  arr_ok : Is_true (length arr_list =? n)%nat;
}.
Arguments Arr {A n}.
Arguments arr_list {A n}.
Arguments arr_ok {A n}.

(** The length proof is rebuilt from the length, so that evaluating an array
    gives a closed value. *)
Definition mk_arr {A n} (l : list A) (H : Is_true (length l =? n)%nat) : arr A n :=
  Arr l (match (length l =? n)%nat as b return Is_true b → Is_true b with
         | true => λ _, I
         | false => λ f, f
         end H).

Lemma arr_length {A n} (a : arr A n) : length (arr_list a) = n.
Proof. destruct a as [l H]. simpl. by apply Nat.eqb_eq, Is_true_true. Qed.

Lemma length_arr_ok {A n} (l : list A) : length l = n → Is_true (length l =? n)%nat.
Proof. intros H. by apply Is_true_true, Nat.eqb_eq. Qed.

Lemma arr_eq {A n} (a b : arr A n) : arr_list a = arr_list b → a = b.
Proof.
  destruct a as [l H], b as [k K]. simpl. intros ->. f_equal. apply proof_irrel.
Qed.

Lemma arr_list_mk {A n} (l : list A) (H : Is_true (length l =? n)%nat) :
  arr_list (mk_arr (n:=n) l H) = l.
Proof. done. Qed.

#[global] Instance arr_eq_dec {A n} `{EqDecision A} : EqDecision (arr A n).
Proof.
  refine (λ a b, cast_if (decide (arr_list a = arr_list b))).
  - by apply arr_eq.
  - congruence.
Defined.

Definition arr_of_list {A n} (l : list A) : option (arr A n) :=
  match decide (length l = n) with
  | left H => Some (mk_arr l (length_arr_ok l H))
  | right _ => None
  end.

Lemma arr_of_list_list {A n} (a : arr A n) : arr_of_list (arr_list a) = Some a.
Proof.
  unfold arr_of_list. destruct (decide _) as [H|H].
  - f_equal. by apply arr_eq.
  - destruct H. apply arr_length.
Qed.

#[global] Instance arr_countable {A n} `{Countable A} : Countable (arr A n) :=
  inj_countable arr_list arr_of_list arr_of_list_list.

(** [var a [n]T]: every element is the zero value [z] of [T]. *)
Definition arr_zero {A} (z : A) (n : nat) : arr A n :=
  mk_arr (replicate n z) (length_arr_ok _ (length_replicate n z)).

(** [a[i]]; [z] stands for the bounds panic, which no caller reaches. *)
Definition arr_get {A n} (z : A) (a : arr A n) (i : nat) : A :=
  default z (arr_list a !! i).

(** [a[i] = x] *)
Definition arr_set {A n} (a : arr A n) (i : nat) (x : A) : arr A n :=
  mk_arr (<[i:=x]> (arr_list a))
    (length_arr_ok _ (eq_trans (length_insert _ _ _) (arr_length a))).

Lemma arr_get_lookup {A n} (z : A) (a : arr A n) i :
  (i < n)%nat → arr_list a !! i = Some (arr_get z a i).
Proof.
  intros Hi. unfold arr_get. rewrite <- (arr_length a) in Hi.
  by destruct (lookup_lt_is_Some_2 _ _ Hi) as [x ->].
Qed.

Lemma arr_get_set {A n} (z : A) (a : arr A n) i x :
  (i < n)%nat → arr_get z (arr_set a i x) i = x.
Proof.
  intros Hi. unfold arr_get, arr_set. simpl.
  rewrite list_lookup_insert_eq; [done | by rewrite arr_length].
Qed.

Lemma arr_get_set_ne {A n} (z : A) (a : arr A n) i j x :
  i ≠ j → arr_get z (arr_set a i x) j = arr_get z a j.
Proof. intros Hi. unfold arr_get, arr_set. simpl. by rewrite list_lookup_insert_ne. Qed.

Lemma arr_ext {A n} (z : A) (a b : arr A n) :
  (∀ i, (i < n)%nat → arr_get z a i = arr_get z b i) → a = b.
Proof.
  intros H. apply arr_eq, list_eq. intros i.
  destruct (decide (i < n)%nat) as [Hi|Hi].
  - rewrite !(arr_get_lookup z) by done. f_equal. by apply H.
  - rewrite !lookup_ge_None_2; [done | rewrite arr_length; lia..].
Qed.

(** ** The array types of [core/types.go] *)

Definition HashLength : nat := 32.
Definition UUIDLength : nat := 16.
Definition EnodeLength : nat := 64.

Definition Byte8 : Type := arr byte 8.
Definition Byte16 : Type := arr byte UUIDLength.
Definition Byte32 : Type := arr byte HashLength.
Definition Byte64 : Type := arr byte EnodeLength.

#[global] Instance Byte8_eq_dec : EqDecision Byte8 := _.
#[global] Instance Byte16_eq_dec : EqDecision Byte16 := _.
#[global] Instance Byte32_eq_dec : EqDecision Byte32 := _.
#[global] Instance Byte64_eq_dec : EqDecision Byte64 := _.
#[global] Instance Byte64_countable : Countable Byte64 := _.

(** [func (bytes *ByteN) Bytes() []byte] *)
Definition Bytes {n} (a : arr byte n) : bytes := arr_list a.

(** The loop of [copyBytes], at loop variable [i]: it runs from [i] down to 1. *)
Fixpoint copyLoop (i : nat) (source dest : bytes) : bytes :=
  match i with
  | O => dest
  | S i' => copyLoop i' source (<[i' := default x00 (source !! i')]> dest)
  end.

(** [func copyBytes(source []byte, dest []byte, size int)]; the destination
    slice is returned. *)
Definition copyBytes (source dest : bytes) (size : nat) : bytes :=
  copyLoop (if decide (size < length source)%nat then size else length source) source dest.

Lemma copyLoop_length i source dest : length (copyLoop i source dest) = length dest.
Proof.
  revert dest. induction i as [|i IH]; intros dest; simpl; [done|].
  by rewrite IH, length_insert.
Qed.

Lemma copyBytes_length source dest size :
  length (copyBytes source dest size) = length dest.
Proof. apply copyLoop_length. Qed.

Lemma copyLoop_lookup i source dest j :
  (i ≤ length source)%nat → (i ≤ length dest)%nat →
  copyLoop i source dest !! j = if decide (j < i)%nat then source !! j else dest !! j.
Proof.
  revert dest. induction i as [|i IH]; intros dest Hs Hd; simpl.
  - done.
  - rewrite IH by (rewrite ?length_insert; lia).
    destruct (decide (j = i)) as [->|Hj].
    + repeat case_decide; try lia. rewrite list_lookup_insert_eq by lia.
      by destruct (lookup_lt_is_Some_2 source i) as [x ->]; [lia|].
    + rewrite list_lookup_insert_ne by done.
      repeat case_decide; done || lia.
Qed.

(** The body shared by [BytesToByte8/16/32/64]: copy into a zeroed array. *)
Definition BytesToArr (n : nat) (source : bytes) : arr byte n :=
  mk_arr (copyBytes source (Bytes (arr_zero x00 n)) n)
    (length_arr_ok _ (eq_trans (copyBytes_length _ _ _) (arr_length (arr_zero x00 n)))).

Definition BytesToByte8 (source : bytes) : Byte8 := BytesToArr 8 source.
Definition BytesToByte16 (source : bytes) : Byte16 := BytesToArr UUIDLength source.
Definition BytesToByte32 (source : bytes) : Byte32 := BytesToArr HashLength source.
Definition BytesToByte64 (source : bytes) : Byte64 := BytesToArr EnodeLength source.

(** A conversion keeps the first [n] bytes and pads with zeros. *)
Lemma Bytes_BytesToArr n source :
  Bytes (BytesToArr n source) = take n (source ++ replicate n x00).
Proof.
  unfold Bytes, BytesToArr, copyBytes. simpl. apply list_eq. intros j.
  rewrite copyLoop_lookup by (rewrite ?length_replicate; case_decide; lia).
  destruct (decide (j < n)%nat) as [Hj|Hj].
  - rewrite lookup_take_lt by done.
    destruct (decide (j < length source)%nat) as [Hs|Hs].
    + rewrite lookup_app_l by done. repeat case_decide; done || lia.
    + rewrite lookup_app_r by lia. rewrite lookup_replicate_2 by lia.
      repeat case_decide; try lia; by rewrite lookup_replicate_2 by lia.
  - rewrite lookup_take_ge by lia.
    assert (replicate n x00 !! j = None) as -> by (apply lookup_ge_None_2; rewrite length_replicate; lia).
    repeat case_decide; done || lia.
Qed.

(** Converting the bytes of an array back gives the array. *)
Lemma BytesToArr_Bytes {n} (a : arr byte n) : BytesToArr n (Bytes a) = a.
Proof.
  apply arr_eq. change (arr_list ?x) with (Bytes x) at 1. rewrite Bytes_BytesToArr.
  rewrite take_app_le by (unfold Bytes; rewrite arr_length; lia).
  apply take_ge. unfold Bytes. rewrite arr_length. lia.
Qed.

(** [func (bytes *Byte8) Uint64() uint64], i.e. [binary.BigEndian.Uint64]:
    [uint64(b[7]) | uint64(b[6])<<8 | ... | uint64(b[0])<<56]. *)
Fixpoint be_combine (acc : Z) (l : bytes) : Z :=
  match l with
  | [] => acc
  | b :: l => be_combine (Z.lor (Z.shiftl acc 8) (byte_val b)) l
  end.

Definition Uint64 (b : Byte8) : Z := be_combine 0 (Bytes b).

(** [binary.BigEndian.PutUint64]: [b[i] = byte(v >> (56 - 8*i))]. *)
Definition be_split (v : Z) : bytes :=
  map (λ s, byte_of (Z.shiftr v s)) [56; 48; 40; 32; 24; 16; 8; 0].

Definition Uint64ToByte8 (source : Z) : Byte8 :=
  mk_arr (n:=8) (be_split source) I.

(** *** Endianness lemmas *)

Lemma lor_shiftl_8 acc v : 0 ≤ v < 256 → Z.lor (Z.shiftl acc 8) v = acc * 256 + v.
Proof.
  intros Hv. rewrite Z.shiftl_mul_pow2 by lia. change (2 ^ 8) with 256.
  rewrite <- Z.lxor_lor; [rewrite <- Z.add_nocarry_lxor; [done|]|];
    rewrite <- (Z.mod_small v (2 ^ 8)) by lia; rewrite <- Z.land_ones by lia;
    change 256 with (2 ^ 8); rewrite <- Z.shiftl_mul_pow2 by lia;
    apply Z.bits_inj'; intros k Hk;
    rewrite !Z.land_spec, Z.bits_0;
    (destruct (decide (k < 8));
      [by rewrite Z.shiftl_spec_low by lia
      |rewrite Z.ones_spec_high by lia; by rewrite !andb_false_r]).
Qed.

Lemma be_combine_cons acc b l : be_combine acc (b :: l) = be_combine (acc * 256 + byte_val b) l.
Proof. simpl. by rewrite lor_shiftl_8 by apply byte_val_range. Qed.

Lemma be_combine_range acc l :
  0 ≤ acc → 0 ≤ be_combine acc l < (acc + 1) * 256 ^ Z.of_nat (length l).
Proof.
  revert acc. induction l as [|b l IH]; intros acc Ha.
  - simpl. lia.
  - rewrite be_combine_cons. pose proof (byte_val_range b).
    specialize (IH (acc * 256 + byte_val b) ltac:(lia)).
    rewrite length_cons, Nat2Z.inj_succ, Z.pow_succ_r by lia.
    assert (0 < 256 ^ Z.of_nat (length l)) by (apply Z.pow_pos_nonneg; lia). nia.
Qed.

Lemma Uint64_range b : is_u64 (Uint64 b).
Proof.
  unfold Uint64, is_u64. pose proof (be_combine_range 0 (Bytes b) ltac:(lia)) as H.
  unfold Bytes in *. rewrite arr_length in H. exact H.
Qed.
#[export] Hint Resolve Uint64_range byte_val_range : go.

Lemma mod_step w k m :
  0 ≤ k → 0 < m →
  ((w / 2 ^ (k + 8)) `mod` m) * 256 + (w / 2 ^ k) `mod` 256 = (w / 2 ^ k) `mod` (256 * m).
Proof.
  intros Hk Hm. rewrite Z.pow_add_r by lia. change (2 ^ 8) with 256.
  rewrite <- Z.div_div by lia. rewrite (Z.rem_mul_r _ 256 m) by lia. lia.
Qed.

(** Reading back a written [uint64] gives its value modulo 2^64. *)
Lemma Uint64_Uint64ToByte8 z : Uint64 (Uint64ToByte8 z) = u64 z.
Proof.
  unfold Uint64, Uint64ToByte8, Bytes, be_split. simpl arr_list. cbn [map].
  rewrite !be_combine_cons, !byte_val_of, !Z.shiftr_div_pow2 by lia.
  rewrite Z.mul_0_l, Z.add_0_l. cbn [be_combine].
  rewrite (mod_step z 48), (mod_step z 40), (mod_step z 32), (mod_step z 24),
    (mod_step z 16), (mod_step z 8), (mod_step z 0) by lia.
  by rewrite Z.div_1_r.
Qed.

Lemma be_combine_inj a c l k :
  length l = length k → be_combine a l = be_combine c k → a = c ∧ l = k.
Proof.
  revert a c k. induction l as [|b l IH]; intros a c [|b' k] Hlen; try done.
  rewrite !be_combine_cons. intros Heq.
  apply IH in Heq as [Heq ->]; [|by injection Hlen].
  pose proof (byte_val_range b). pose proof (byte_val_range b').
  assert (byte_val b = byte_val b') as ->%byte_val_inj by lia. split; [lia | done].
Qed.

#[global] Instance Uint64_inj : Inj (=) (=) Uint64.
Proof.
  intros b c Heq. apply arr_eq. unfold Uint64, Bytes in Heq.
  by apply be_combine_inj in Heq as [_ ?]; [|by rewrite !arr_length].
Qed.

Lemma Uint64ToByte8_Uint64 b : Uint64ToByte8 (Uint64 b) = b.
Proof. apply (inj Uint64). rewrite Uint64_Uint64ToByte8. apply u64_small, Uint64_range. Qed.

