(* ===== verification/Db.v ===== *)
(** * Storage and library interfaces ([src/db/database.go],
      [src/db/databaseInMem.go], [src/common/util.go])

    The consensus stack reaches the outside through three interfaces, which
    are type classes here:

    - [Sha512]: the function [sha512.Sum512].  The development is
      parameterised by it; nothing is assumed about it globally.
    - [Codec]: [common.Serialize] / [common.Deserialize] (encoding/gob) at one
      type, with the round-trip law in [CodecLaws].
    - [Database]: the interface [db.Database], with in [DatabaseLaws] what a
      working key/value store promises.

    [DatabaseInMem] is the repository's own implementation of [Database]; it
    truncates keys to 64 bytes, and the file proves exactly when it behaves as
    the map the other components expect. *)

From S2P Require Import Prelude Bytes.

(** ** Hashing *)

Class Sha512 := Sum512 : bytes → Byte64.

(** ** Serialization *)

Class Codec (A : Type) := {
  Serialize : A → result bytes;
  Deserialize : bytes → result A;
}.

Class CodecLaws (A : Type) `{Codec A} := {
  serialize_ok (x : A) : ∃ b, Serialize x = Ok b;
  deserialize_serialize (x : A) b : Serialize x = Ok b → Deserialize b = Ok x;
}.

Lemma serialize_inj `{CodecLaws A} (x y : A) b :
  Serialize x = Ok b → Serialize y = Ok b → x = y.
Proof.
  intros Hx%deserialize_serialize Hy%deserialize_serialize. congruence.
Qed.

(** ** Tables

    Every package of the chain keeps its records under a table prefix. *)

Definition str_bytes (s : string) : bytes := String.list_byte_of_string s.

(** [func tableKey(prefix []byte, key *core.Byte64) []byte] *)
Definition tableKey (prefix : bytes) (key : Byte64) : bytes := prefix ++ Bytes key.

#[global] Instance tableKey_inj p : Inj (=) (=) (tableKey p).
Proof. intros h h' H. apply arr_eq. by apply (inj (p ++.)) in H. Qed.

(** Tables whose prefixes have different lengths do not overlap. *)
Lemma tableKey_ne p p' h h' : length p ≠ length p' → tableKey p h ≠ tableKey p' h'.
Proof.
  intros Hne Heq. apply (f_equal length) in Heq. unfold tableKey in Heq.
  rewrite !length_app in Heq. unfold Bytes in Heq. rewrite !arr_length in Heq. lia.
Qed.

(** ** Key/value stores *)

(** The interface [db.Database].  [Put], [Delete] and [Close] return the
    store after the call next to the Go [error] ([None] is [nil]). *)
Class Database (D : Type) := {
  Put : bytes → bytes → D → D * option error;
  Get : bytes → D → result bytes;
  Has : bytes → D → bool * option error;
  Delete : bytes → D → D * option error;
  Close : D → D * option error;
}.

(** What a store that works promises: it is a finite map from byte strings to
    byte strings, and its operations do not fail. *)
Class DatabaseLaws (D : Type) `{Database D} := {
  contents : D → gmap bytes bytes;
  put_none k v d : (Put k v d).2 = None;
  put_contents k v d : contents (Put k v d).1 = <[k:=v]> (contents d);
  get_contents k d : result_opt (Get k d) = contents d !! k;
  has_contents k d : Has k d = (bool_decide (is_Some (contents d !! k)), None);
  delete_none k d : (Delete k d).2 = None;
  delete_contents k d : contents (Delete k d).1 = delete k (contents d);
}.

Lemma put_eq `{DatabaseLaws D} k v d : Put k v d = ((Put k v d).1, None).
Proof. rewrite <- (put_none k v d). by destruct (Put k v d). Qed.

Lemma delete_eq `{DatabaseLaws D} k d : Delete k d = ((Delete k d).1, None).
Proof. rewrite <- (delete_none k d). by destruct (Delete k d). Qed.

Lemma get_ok_iff `{DatabaseLaws D} k d v : Get k d = Ok v ↔ contents d !! k = Some v.
Proof. rewrite <- get_contents. destruct (Get k d); simpl; naive_solver. Qed.

Lemma get_err_iff `{DatabaseLaws D} k d : (∃ e, Get k d = Err e) ↔ contents d !! k = None.
Proof. rewrite <- get_contents. destruct (Get k d); simpl; naive_solver. Qed.

Lemma get_same `{DatabaseLaws D} k (d d' : D) :
  contents d' !! k = contents d !! k → result_opt (Get k d') = result_opt (Get k d).
Proof. by rewrite !get_contents. Qed.

(** The map itself is such a store. *)
#[global] Instance mapDb : Database (gmap bytes bytes) := {
  Put k v m := (<[k:=v]> m, None);
  Get k m := match m !! k with Some v => Ok v | None => Err (StdError "not found") end;
  Has k m := (bool_decide (is_Some (m !! k)), None);
  Delete k m := (delete k m, None);
  Close m := (m, None);
}.

#[global] Instance mapDb_laws : DatabaseLaws (gmap bytes bytes).
Proof.
  refine {| contents m := m |}; simpl; try done. intros k m. by destruct (m !! k).
Defined.

(** *** The in-memory database *)
Module InMem.

(** [type DatabaseInMem struct { mdb map[core.Byte64][]byte; lock ... }] *)
Record DatabaseInMem := { mdb : gmap Byte64 bytes }.

Definition NewDatabaseInMem : DatabaseInMem := {| mdb := ∅ |}.

Definition Put (key value : bytes) (db : DatabaseInMem) : DatabaseInMem * option error :=
  ({| mdb := <[BytesToByte64 key := value]> (mdb db) |}, None).

Definition Get (key : bytes) (db : DatabaseInMem) : result bytes :=
  match mdb db !! BytesToByte64 key with
  | None => Err (StdError "not found")
  | Some data => Ok data
  end.

Definition Has (key : bytes) (db : DatabaseInMem) : bool * option error :=
  (bool_decide (is_Some (mdb db !! BytesToByte64 key)), None).

Definition Delete (key : bytes) (db : DatabaseInMem) : DatabaseInMem * option error :=
  ({| mdb := delete (BytesToByte64 key) (mdb db) |}, None).

Definition Close (db : DatabaseInMem) : DatabaseInMem * option error := (db, None).

#[global] Instance database : Database DatabaseInMem :=
  { Put := Put; Get := Get; Has := Has; Delete := Delete; Close := Close }.

(** A client's call on a store, and what it observes. *)
Inductive call := CPut (k v : bytes) | CGet (k : bytes) | CHas (k : bytes) | CDelete (k : bytes).
Inductive reply := RErr (e : option error) | RGet (r : result bytes) | RHas (b : bool) (e : option error).

Definition call_key (c : call) : bytes :=
  match c with CPut k _ | CGet k | CHas k | CDelete k => k end.

Definition step `{Database D} (c : call) (d : D) : D * reply :=
  match c with
  | CPut k v => let '(d, e) := Db.Put k v d in (d, RErr e)
  | CGet k => (d, RGet (Db.Get k d))
  | CHas k => let '(b, e) := Db.Has k d in (d, RHas b e)
  | CDelete k => let '(d, e) := Db.Delete k d in (d, RErr e)
  end.

Fixpoint run `{Database D} (cs : list call) (d : D) : list reply :=
  match cs with
  | [] => []
  | c :: cs => let '(d, r) := step c d in r :: run cs d
  end.

(** The keys of [K] are told apart by their first 64 bytes. *)
Definition separated (K : bytes → Prop) : Prop :=
  ∀ k k', K k → K k' → BytesToByte64 k = BytesToByte64 k' → k = k'.

(** The in-memory store holds, for the keys of [K], what the map holds. *)
Definition agrees (K : bytes → Prop) (db : DatabaseInMem) (m : gmap bytes bytes) : Prop :=
  ∀ k, K k → mdb db !! BytesToByte64 k = m !! k.

Lemma step_agrees K db m c :
  separated K → agrees K db m → K (call_key c) →
  (step c db).2 = (step c m).2 ∧ agrees K (step c db).1 (step c m).1.
Proof.
  intros Hsep Ha Hk. destruct c as [k v|k|k|k]; simpl in Hk |- *;
    unfold Get, Has; rewrite ?(Ha k Hk); (split; [done|]).
  - intros k' Hk'. unfold Put. simpl. destruct (decide (k = k')) as [->|Hne].
    + by simplify_map_eq.
    + rewrite !lookup_insert_ne; [by apply Ha | done | by intros ?%Hsep].
  - done.
  - done.
  - intros k' Hk'. unfold Delete. simpl. destruct (decide (k = k')) as [->|Hne].
    + by simplify_map_eq.
    + rewrite !lookup_delete_ne; [by apply Ha | done | by intros ?%Hsep].
Qed.

Lemma run_agrees K db m cs :
  separated K → agrees K db m → Forall (λ c, K (call_key c)) cs → run cs db = run cs m.
Proof.
  intros Hsep Ha Hcs. revert db m Ha.
  induction Hcs as [|c cs Hc _ IH]; intros db m Ha; [done|].
  simpl. destruct (step_agrees K db m c Hsep Ha Hc) as [Hr Ha'].
  destruct (step c db) as [db' r], (step c m) as [m' r']. simpl in *.
  subst r'. f_equal. by apply IH.
Qed.

(** Keys that differ only after their first 64 bytes are one key here. *)
Lemma same_prefix_same_key p s s' :
  length p = EnodeLength → BytesToByte64 (p ++ s) = BytesToByte64 (p ++ s').
Proof.
  intros Hp. apply arr_eq. change (Bytes (BytesToByte64 (p ++ s)) = Bytes (BytesToByte64 (p ++ s'))).
  unfold BytesToByte64. rewrite !Bytes_BytesToArr, <- !(assoc_L (++)), <- Hp.
  by rewrite !take_app_length.
Qed.
End InMem.
