(* ===== verification/StoreTheorems.v ===== *)
(** * Theorems about byte arrays and the in-memory database

    The properties of [src/core/types.go] and [src/db/databaseInMem.go]. *)

From Stdlib Require Import Strings.Byte.
From S2P Require Import Prelude Bytes Db.

(** BytesToByte64 copies at most 64 bytes and pads with zeros; it is exact on slices of 64 bytes
    and inverse to Bytes. *)
Theorem bytes_to_byte64_pads_and_truncates source :
  Bytes (BytesToByte64 source) = take 64 (source ++ replicate 64 x00) ∧
  (length source = 64%nat → Bytes (BytesToByte64 source) = source) ∧
  (∀ a : Byte64, BytesToByte64 (Bytes a) = a).
Proof.
  assert (Hp : Bytes (BytesToByte64 source) = take 64 (source ++ replicate 64 x00))
    by exact (Bytes_BytesToArr EnodeLength source).
  split_and!; [done| |].
  - intros Hl. by rewrite Hp, <- Hl, take_app_length.
  - intros a. exact (BytesToArr_Bytes a).
Qed.

(** Uint64ToByte8 and Uint64 are inverse to each other on the 64-bit range, and Uint64 never
    leaves it. *)
Theorem uint64_byte8_round_trip :
  (∀ z, Uint64 (Uint64ToByte8 z) = z `mod` 2 ^ 64) ∧
  (∀ b, Uint64ToByte8 (Uint64 b) = b) ∧
  (∀ b, 0 ≤ Uint64 b < 2 ^ 64).
Proof.
  split_and!; [apply Uint64_Uint64ToByte8 | apply Uint64ToByte8_Uint64 | apply Uint64_range].
Qed.

(** A new in-memory database answers any sequence of calls like a map, provided the keys used
    are told apart by their first 64 bytes. *)
Theorem in_mem_is_map_on_separated_keys (K : bytes → Prop) cs :
  InMem.separated K → Forall (λ c, K (InMem.call_key c)) cs →
  InMem.run cs InMem.NewDatabaseInMem = InMem.run cs (∅ : gmap bytes bytes).
Proof.
  intros Hs Hc. apply (InMem.run_agrees K); [done| |done]. intros k _. simpl. by rewrite !lookup_empty.
Qed.

(** Keys with the same first 64 bytes are one key to the in-memory database: what is put or
    deleted under one is read or missing under the other. *)
Theorem in_mem_keys_share_64_bytes p s s' v db :
  length p = EnodeLength →
  InMem.Get (p ++ s') (InMem.Put (p ++ s) v db).1 = Ok v ∧
  InMem.Get (p ++ s') (InMem.Delete (p ++ s) db).1 = Err (StdError "not found").
Proof.
  intros Hp. unfold InMem.Get, InMem.Put, InMem.Delete. simpl.
  rewrite (InMem.same_prefix_same_key p s' s Hp). by rewrite lookup_insert_eq, lookup_delete_eq.
Qed.

(** ** Witnesses *)

Definition w_keys (k : bytes) : Prop := k = [x01] ∨ k = [x02].
Definition w_calls : list InMem.call :=
  [InMem.CPut [x01] [x0a]; InMem.CGet [x02]; InMem.CPut [x02] [x0b]; InMem.CHas [x01]; InMem.CDelete [x01]; InMem.CGet [x01]].

Lemma w_keys_separated : InMem.separated w_keys.
Proof.
  intros k k' Hk Hk' Heq. apply (f_equal Bytes) in Heq. destruct Hk, Hk'; subst; try done;
    vm_compute in Heq; discriminate Heq.
Qed.

Lemma w_calls_keys : Forall (λ c, w_keys (InMem.call_key c)) w_calls.
Proof. unfold w_calls, w_keys. repeat (constructor; [simpl; auto|]). constructor. Qed.

Lemma in_mem_is_map_on_separated_keys_witness :
  InMem.run w_calls InMem.NewDatabaseInMem = InMem.run w_calls (∅ : gmap bytes bytes).
Proof. exact (in_mem_is_map_on_separated_keys w_keys w_calls w_keys_separated w_calls_keys). Defined.

Lemma in_mem_keys_share_64_bytes_witness :
  InMem.Get (replicate 64 x05 ++ [x02]) (InMem.Put (replicate 64 x05 ++ [x01]) [x07] InMem.NewDatabaseInMem).1 = Ok [x07] ∧
  InMem.Get (replicate 64 x05 ++ [x02]) (InMem.Delete (replicate 64 x05 ++ [x01]) InMem.NewDatabaseInMem).1 = Err (StdError "not found").
Proof. exact (in_mem_keys_share_64_bytes (replicate 64 x05) [x01] [x02] [x07] InMem.NewDatabaseInMem eq_refl). Defined.
