(* ===== verification/Trie.v ===== *)
(** * The world-state trie ([src/core/trie/trieImpl.go])

    Definitions only: the nodes, the tables of the store they live in, and
    every operation of [MptWorldState].  The store [D] is passed explicitly,
    because several world states (the chain's and one per block) share one
    database.  Theorems are in the files [TrieSpec] and [TrieFacts]. *)

From Stdlib Require Import Strings.Byte.
From S2P Require Import Prelude Bytes Db.

(** ** Nodes *)

(** [null = *core.BytesToByte64(nil)] *)
Definition null : Byte64 := BytesToByte64 [].

Definition uninitialized : byte := x00.
Definition marked : byte := x01.
Definition unmarked : byte := x02.

(** [type node struct] *)
Record node := Node {
  Idxs : arr Byte64 16;
  Value : bytes;
  Tombstone : byte;
}.

#[global] Instance node_eq_dec : EqDecision node.
Proof. solve_decision. Defined.

(** [&node{Tombstone: uninitialized}] *)
Definition emptyNode : node :=
  Node (arr_zero (arr_zero x00 EnodeLength) 16) [] uninitialized.

Definition set_Tombstone (b : byte) (n : node) : node := Node (Idxs n) (Value n) b.
Definition set_Value (v : bytes) (n : node) : node := Node (Idxs n) v (Tombstone n).
Definition set_Idx (i : nat) (h : Byte64) (n : node) : node :=
  Node (arr_set (Idxs n) i h) (Value n) (Tombstone n).

Definition tableTransactionRootByWorldState : bytes := str_bytes "TransactionRootByWorldState-".
Definition tableTransactionNode : bytes := str_bytes "MptTransactionNode-".
Definition tableTransactionFlatKV : bytes := str_bytes "MptTransactionFlatKV-".
Definition tableMptWorldStateNode : bytes := str_bytes "MptWorldStateNode-".

Definition ERR_NOT_FOUND : Z := 0x404.
Definition ERR_UPDATE_FAILED : Z := 0x500.

(** The bytes hashed for a node.  The buffer is made with a length (not only
    a capacity), so the data start with that many zero bytes. *)
Definition node_bytes (n : node) : bytes :=
  replicate (16 * 64 + length (Value n)) x00 ++
  concat (map Bytes (arr_list (Idxs n))) ++ Value n.

(** [func (n *node) hash() *core.Byte64] *)
Definition node_hash `{Sha512} (n : node) : Byte64 :=
  BytesToByte64 (Bytes (Sum512 (node_bytes n))).

(** [func makeHex(data []byte) []byte]: two nibbles per byte, high one first. *)
Fixpoint makeHex (data : bytes) : bytes :=
  match data with
  | [] => []
  | b :: data => byte_of (byte_val b `div` 0x10) :: byte_of (byte_val b `mod` 0x10) :: makeHex data
  end.

(** A byte used as an array index. *)
Definition idx (k : byte) : nat := Z.to_nat (byte_val k).

(** [func (t *MptWorldState) tombStone(put putter, currNode *node)]: the
    marking code is commented out, the node is always flagged [unmarked]. *)
Definition tombStone (n : node) : node := set_Tombstone unmarked n.

(** [type MptWorldState struct], without the shared database *)
Record MptWorldState := WS {
  rootHash : Byte64;
  rootNode : node;
  txNode : node;
}.

Section operations.
Context {D : Type} {dbo : Database D} {sha : Sha512} {cdc : Codec node}.

(** [type putter], [type getter], [type deleter] *)
Definition putter : Type := Byte64 → node → D → D * option error.
Definition getter : Type := Byte64 → D → option node.
Definition deleter : Type := Byte64 → D → D * option error.

Definition putNode (key : bytes) (n : node) (d : D) : D * option error :=
  match Serialize n with
  | Ok data => Put key data d
  | Err e => (d, Some e)
  end.

Definition putState : putter := λ hash n, putNode (tableKey tableMptWorldStateNode hash) n.
Definition putTx : putter := λ hash n, putNode (tableKey tableTransactionNode hash) n.

Definition getNode (key : bytes) (d : D) : option node :=
  match Get key d with
  | Err _ => None
  | Ok data => match Deserialize data with Ok n => Some n | Err _ => None end
  end.

Definition deleteNode (key : bytes) (d : D) : D * option error := Delete key d.
Definition deleteTx : deleter := λ hash, deleteNode (tableKey tableTransactionNode hash).
Definition deleteState : deleter := λ hash, deleteNode (tableKey tableMptWorldStateNode hash).

Definition getState : getter := λ hash, getNode (tableKey tableMptWorldStateNode hash).
Definition getTx : getter := λ hash, getNode (tableKey tableTransactionNode hash).

(** [func NewMptWorldState(db db.Database) WorldState]; [None] is [nil]. *)
Definition NewMptWorldState (d : D) : D * option MptWorldState :=
  let root := emptyNode in
  let tx := emptyNode in
  let hash := node_hash root in
  let '(d, err) := putState hash root d in
  match err with
  | Some _ => (d, None)
  | None =>
      let '(d, err) := putNode (tableKey tableTransactionRootByWorldState hash) tx d in
      match err with
      | Some _ => (d, None)
      | None => (d, Some (WS hash root tx))
      end
  end.

(** [updateDepthFirst]: the node is updated in place, so the node after the
    call is returned between the store and the hash. *)
Fixpoint updateDepthFirst (put : putter) (get : getter) (currNode : node)
    (keyHex value : bytes) (d : D) : D * node * Byte64 :=
  match keyHex with
  | [] =>
      let currNode := set_Value value (tombStone currNode) in
      let newHash := node_hash currNode in
      let '(d, err) := put newHash currNode d in
      match err with
      | Some _ => (d, currNode, null)
      | None => (d, currNode, newHash)
      end
  | k :: rest =>
      let childHash := arr_get null (Idxs currNode) (idx k) in
      let childNode :=
        if decide (childHash ≠ null) then
          match get childHash d with Some c => c | None => emptyNode end
        else emptyNode in
      let '(d, _, childHash) := updateDepthFirst put get childNode rest value d in
      if decide (childHash = null) then (d, currNode, null)
      else
        let currNode := set_Idx (idx k) childHash (tombStone currNode) in
        let newHash := node_hash currNode in
        let '(d, err) := put newHash currNode d in
        match err with
        | Some _ => (d, currNode, null)
        | None => (d, currNode, newHash)
        end
  end.

(** [deleteDepthFirst] *)
Fixpoint deleteDepthFirst (put : putter) (get : getter) (currNode : node)
    (keyHex : bytes) (d : D) : D * node * Byte64 :=
  match keyHex with
  | [] =>
      let currNode := set_Value [] (tombStone currNode) in
      let newHash := node_hash currNode in
      let '(d, err) := put newHash currNode d in
      match err with
      | Some _ => (d, currNode, null)
      | None => (d, currNode, newHash)
      end
  | k :: rest =>
      let childHash := arr_get null (Idxs currNode) (idx k) in
      if decide (childHash ≠ null) then
        match get childHash d with
        | None => (d, currNode, null)
        | Some childNode =>
            let '(d, _, childHash) := deleteDepthFirst put get childNode rest d in
            if decide (childHash = null) then (d, currNode, null)
            else
              let currNode := set_Idx (idx k) childHash (tombStone currNode) in
              let newHash := node_hash currNode in
              let '(d, err) := put newHash currNode d in
              match err with
              | Some _ => (d, currNode, null)
              | None => (d, currNode, newHash)
              end
        end
      else (d, currNode, null)
  end.

(** [lookupDepthFirst] *)
Fixpoint lookupDepthFirst (get : getter) (currNode : node) (keyHex : bytes) (d : D) : bytes :=
  match keyHex with
  | [] => Value currNode
  | k :: rest =>
      let childHash := arr_get null (Idxs currNode) (idx k) in
      if decide (childHash ≠ null) then
        match get childHash d with
        | Some childNode => lookupDepthFirst get childNode rest d
        | None => []
        end
      else []
  end.

(** [cleanupDepthFirst]; the fuel bounds the depth of the recursion. *)
Fixpoint cleanupDepthFirst (fuel : nat) (del : deleter) (get : getter)
    (currNode : node) (d : D) : outcome D :=
  match fuel with
  | O => OutOfFuel
  | S fuel =>
      if decide (Tombstone currNode = unmarked) then Ret d
      else
        let! d :=
          fold_left (λ acc childHash,
            let! d := acc in
            if decide (childHash = null) then Ret d
            else match get childHash d with
                 | Some childNode => cleanupDepthFirst fuel del get childNode d
                 | None => Ret d
                 end) (arr_list (Idxs currNode)) (Ret d) in
        Ret (del (node_hash currNode) d).1
  end.

(** The tail shared by [Update] and [Delete]: hand the transaction root over
    from the old world state to the new one, then switch to the new root. *)
Definition switchRoot (t : MptWorldState) (root : node) (newHash : Byte64) (d : D)
    : D * MptWorldState * Byte64 :=
  if decide (newHash = null) then (d, WS (rootHash t) root (txNode t), rootHash t)
  else
    let '(d, _) := putNode (tableKey tableTransactionRootByWorldState (rootHash t))
                     (set_Tombstone marked (txNode t)) d in
    let tx := set_Tombstone unmarked (txNode t) in
    let '(d, err) := putNode (tableKey tableTransactionRootByWorldState newHash) tx d in
    match err with
    | Some _ => (d, WS (rootHash t) root tx, rootHash t)
    | None => (d, WS newHash root tx, newHash)
    end.

(** [func (t *MptWorldState) Update(key, value []byte) core.Byte64] *)
Definition Update (t : MptWorldState) (key value : bytes) (d : D)
    : D * MptWorldState * Byte64 :=
  let keyHex := makeHex key in
  let '(d, root, newHash) := updateDepthFirst putState getState (rootNode t) keyHex value d in
  switchRoot t root newHash d.

(** [func (t *MptWorldState) Delete(key []byte) core.Byte64] *)
Definition Delete (t : MptWorldState) (key : bytes) (d : D) : D * MptWorldState * Byte64 :=
  let keyHex := makeHex key in
  let '(d, root, newHash) := deleteDepthFirst putState getState (rootNode t) keyHex d in
  switchRoot t root newHash d.

(** [func (t *MptWorldState) Lookup(key []byte) ([]byte, error)] *)
Definition Lookup (t : MptWorldState) (key : bytes) (d : D) : result bytes :=
  let keyHex := makeHex key in
  match lookupDepthFirst getState (rootNode t) keyHex d with
  | [] => Err (CoreError ERR_NOT_FOUND "key does not exists")
  | value => Ok value
  end.

(** [func (t *MptWorldState) Hash() core.Byte64] *)
Definition Hash (t : MptWorldState) : Byte64 := rootHash t.

(** [func (t *MptWorldState) Rebase(hash core.Byte64) error] *)
Definition Rebase (t : MptWorldState) (hash : Byte64) (d : D)
    : D * MptWorldState * option error :=
  match getState hash d with
  | None => (d, t, Some (CoreError ERR_NOT_FOUND "hash does not exists"))
  | Some root =>
      match getNode (tableKey tableTransactionRootByWorldState hash) d with
      | None => (d, t, Some (CoreError ERR_NOT_FOUND "transaction trie does not exists"))
      | Some tx =>
          let root := set_Tombstone unmarked root in
          let '(d, err) := putState (node_hash root) root d in
          match err with
          | Some e => (d, t, Some e)
          | None =>
              let tx := set_Tombstone unmarked tx in
              let '(d, err) :=
                putNode (tableKey tableTransactionRootByWorldState (node_hash root)) tx d in
              match err with
              | Some e => (d, t, Some e)
              | None =>
                  let '(d, _) :=
                    putNode (tableKey tableTransactionRootByWorldState (rootHash t))
                      (set_Tombstone marked (txNode t)) d in
                  (d, WS hash root tx, None)
              end
          end
      end
  end.

(** [func (t *MptWorldState) Cleanup(hash core.Byte64) error] *)
Definition Cleanup (fuel : nat) (hash : Byte64) (d : D) : outcome (D * option error) :=
  match getState hash d with
  | None => Ret (d, Some (CoreError ERR_NOT_FOUND "hash does not exists"))
  | Some staleNode =>
      let! d := cleanupDepthFirst fuel deleteState getState staleNode d in
      match getNode (tableKey tableTransactionRootByWorldState hash) d with
      | Some tx =>
          let! d := cleanupDepthFirst fuel deleteTx getTx tx d in
          let '(d, _) := deleteNode (tableKey tableTransactionRootByWorldState hash) d in
          Ret (d, None)
      | None => Ret (d, None)
      end
  end.

(** [hasTransactionInFlatKV], the body of [HasTransaction] *)
Definition hasTransactionInFlatKV (txId : Byte64) (d : D) : result Byte64 :=
  match Get (tableKey tableTransactionFlatKV txId) d with
  | Err e => Err e
  | Ok data => Ok (BytesToByte64 data)
  end.

Definition HasTransaction (t : MptWorldState) (txId : Byte64) (d : D) : result Byte64 :=
  hasTransactionInFlatKV txId d.

(** [hasTransactionInTrie], the variant that is commented out of [HasTransaction] *)
Definition hasTransactionInTrie (t : MptWorldState) (txId : Byte64) (d : D) : result Byte64 :=
  match lookupDepthFirst getTx (txNode t) (makeHex (Bytes txId)) d with
  | [] => Err (CoreError ERR_NOT_FOUND "transaction does not exists")
  | value => Ok (BytesToByte64 value)
  end.

(** [registerTransactionToFlatKV], the body of [RegisterTransaction] *)
Definition registerTransactionToFlatKV (txId blockId : Byte64) (d : D) : D * option error :=
  Put (tableKey tableTransactionFlatKV txId) (Bytes blockId) d.

Definition RegisterTransaction (t : MptWorldState) (txId blockId : Byte64) (d : D)
    : D * option error :=
  registerTransactionToFlatKV txId blockId d.

(** [registerTransactionToTrie], the variant that is commented out of
    [RegisterTransaction] *)
Definition registerTransactionToTrie (fuel : nat) (t : MptWorldState) (txId blockId : Byte64)
    (d : D) : outcome (D * MptWorldState * option error) :=
  let '(d, txCopy, newHash) :=
    updateDepthFirst putTx getTx (txNode t) (makeHex (Bytes txId)) (Bytes blockId) d in
  if decide (newHash ≠ null) then
    let '(d, err) := putNode (tableKey tableTransactionRootByWorldState (rootHash t)) txCopy d in
    match err with
    | Some e => Ret (d, t, Some (CoreError ERR_UPDATE_FAILED (Error_string e)))
    | None =>
        let old := tombStone (txNode t) in
        let! d := cleanupDepthFirst fuel deleteTx getTx old d in
        Ret (d, WS (rootHash t) (rootNode t) txCopy, None)
    end
  else Ret (d, t, Some (CoreError ERR_UPDATE_FAILED "transaction update failed")).
End operations.
