(* ===== verification/TrieSpec.v ===== *)
(** * Abstract tries

    The specification of the world-state trie: a tree with a value and
    sixteen optional children per node, addressed by paths of nibbles, with
    pure lookup, update and delete.  The file proves the map laws of these
    operations, that operations on different keys commute (so the result of a
    set of changes does not depend on the order in which they are applied),
    and that the root hash of a tree binds its contents. *)

From Stdlib Require Import Strings.Byte.
From S2P Require Import Prelude Bytes Db Trie.

Definition path := list nat.

#[warnings="-register-all"]
Inductive tree := Tree (v : bytes) (kids : list (option tree)).

Definition tval (t : tree) : bytes := let 'Tree v _ := t in v.
Definition tkids (t : tree) : list (option tree) := let 'Tree _ k := t in k.

Definition kid (t : tree) (i : nat) : option tree :=
  match tkids t !! i with Some (Some c) => Some c | _ => None end.

(** Replace child [i]. *)
Definition set_kid (t : tree) (i : nat) (c : tree) : tree :=
  Tree (tval t) (<[i := Some c]> (tkids t)).

Definition t_empty : tree := Tree [] (replicate 16 None).

Fixpoint t_lookup (t : tree) (p : path) : bytes :=
  match p with
  | [] => tval t
  | i :: p => match kid t i with Some c => t_lookup c p | None => [] end
  end.

Fixpoint t_update (t : tree) (p : path) (v : bytes) : tree :=
  match p with
  | [] => Tree v (tkids t)
  | i :: p => set_kid t i (t_update (default t_empty (kid t i)) p v)
  end.

Fixpoint t_delete (t : tree) (p : path) : tree :=
  match p with
  | [] => Tree [] (tkids t)
  | i :: p => match kid t i with Some c => set_kid t i (t_delete c p) | None => t end
  end.

(** Is there a node at the end of the path? *)
Fixpoint sub (t : tree) (p : path) : option tree :=
  match p with
  | [] => Some t
  | i :: p => match kid t i with Some c => sub c p | None => None end
  end.

(** Every node has sixteen child slots. *)
Definition wf_tree (t : tree) : Prop := ∀ p c, sub t p = Some c → length (tkids c) = 16%nat.
Definition wf_path (p : path) : Prop := Forall (λ i, (i < 16)%nat) p.

(** A change: a new value for a path, or its deletion. *)
Definition change : Type := path * option bytes.
Definition t_apply (t : tree) (c : change) : tree :=
  match c.2 with Some v => t_update t c.1 v | None => t_delete t c.1 end.

(** ** Structure *)

Lemma kid_set_eq t i c : (i < length (tkids t))%nat → kid (set_kid t i c) i = Some c.
Proof. intros. unfold kid, set_kid. simpl. by rewrite list_lookup_insert_eq. Qed.

Lemma kid_set_ne t i j c : i ≠ j → kid (set_kid t i c) j = kid t j.
Proof. intros. unfold kid, set_kid. simpl. by rewrite list_lookup_insert_ne. Qed.

Lemma set_kid_set_eq t i c c' : set_kid (set_kid t i c) i c' = set_kid t i c'.
Proof. unfold set_kid. simpl. by rewrite list_insert_insert_eq. Qed.

Lemma set_kid_comm t i j c c' :
  i ≠ j → set_kid (set_kid t i c) j c' = set_kid (set_kid t j c') i c.
Proof. intros. unfold set_kid. simpl. by rewrite list_insert_insert_ne. Qed.

Lemma set_kid_id t i c : kid t i = Some c → set_kid t i c = t.
Proof.
  unfold kid, set_kid. destruct t as [v kids]. simpl.
  destruct (kids !! i) as [[c'|]|] eqn:E; intros [= ->]. by rewrite list_insert_id.
Qed.

Lemma length_tkids_set t i c : length (tkids (set_kid t i c)) = length (tkids t).
Proof. unfold set_kid. simpl. apply length_insert. Qed.

Lemma tval_set_kid t i c : tval (set_kid t i c) = tval t.
Proof. done. Qed.

Lemma kid_empty i : kid t_empty i = None.
Proof.
  unfold kid, t_empty. cbn [tkids].
  destruct (replicate 16 None !! i) as [[c|]|] eqn:E; try done.
  by apply lookup_replicate in E as [[=] _].
Qed.

Lemma wf_root t : wf_tree t → length (tkids t) = 16%nat.
Proof. intros H. by apply (H []). Qed.

Lemma wf_kid t i c : wf_tree t → kid t i = Some c → wf_tree c.
Proof. intros H Hc p x Hx. apply (H (i :: p)). simpl. by rewrite Hc. Qed.

Lemma wf_empty : wf_tree t_empty.
Proof. intros [|i p] c; simpl; [by intros [= <-] | by rewrite kid_empty]. Qed.

Lemma wf_intro t :
  length (tkids t) = 16%nat → (∀ i c, kid t i = Some c → wf_tree c) → wf_tree t.
Proof.
  intros Hl Hk [|i p] c; simpl; [by intros [= <-]|].
  destruct (kid t i) as [x|] eqn:E; [|done]. intros Hc. by apply (Hk i x E p).
Qed.

Lemma wf_set_kid t i c : wf_tree t → wf_tree c → wf_tree (set_kid t i c).
Proof.
  intros Ht Hc. apply wf_intro; [rewrite length_tkids_set; by apply wf_root|].
  intros j x. destruct (decide (i = j)) as [->|Hne].
  - destruct (decide (j < length (tkids t))%nat) as [Hl|Hl].
    + rewrite kid_set_eq by done. by intros [= <-].
    + unfold kid, set_kid. simpl. rewrite list_insert_ge by lia. intros Hx. by apply (wf_kid t j).
  - rewrite kid_set_ne by done. intros Hx. by apply (wf_kid t j).
Qed.

Lemma wf_default t i : wf_tree t → wf_tree (default t_empty (kid t i)).
Proof.
  intros H. destruct (kid t i) as [c|] eqn:E; simpl; [by apply (wf_kid t i) | apply wf_empty].
Qed.

Lemma wf_set_val t v : wf_tree t → wf_tree (Tree v (tkids t)).
Proof.
  intros H. apply wf_intro; [by apply (wf_root t)|].
  intros i c Hc. by apply (wf_kid t i).
Qed.

#[export] Hint Resolve wf_root wf_empty wf_set_kid wf_default wf_set_val : go.

Lemma wf_update t p v : wf_tree t → wf_tree (t_update t p v).
Proof. revert t. induction p as [|i p IH]; intros t H; simpl; auto with go. Qed.

Lemma wf_delete t p : wf_tree t → wf_tree (t_delete t p).
Proof.
  revert t. induction p as [|i p IH]; intros t H; simpl; [auto with go|].
  destruct (kid t i) as [c|] eqn:E; [|done].
  apply wf_set_kid; [done|]. apply IH. by apply (wf_kid t i).
Qed.

Lemma wf_apply t c : wf_tree t → wf_tree (t_apply t c).
Proof. intros H. unfold t_apply. destruct c.2; auto using wf_update, wf_delete. Qed.

#[export] Hint Resolve wf_update wf_delete wf_apply : go.

(** ** The map laws *)

Lemma t_lookup_empty p : t_lookup t_empty p = [].
Proof. destruct p as [|i p]; simpl; [done | by rewrite kid_empty]. Qed.

Lemma t_lookup_default t i p :
  t_lookup (default t_empty (kid t i)) p = t_lookup t (i :: p).
Proof. simpl. destruct (kid t i); simpl; [done | apply t_lookup_empty]. Qed.

Lemma t_lookup_update_eq t p v :
  wf_tree t → wf_path p → t_lookup (t_update t p v) p = v.
Proof.
  intros Ht Hp. revert t Ht. induction Hp as [|i p Hi Hp IH]; intros t Ht; simpl; [done|].
  rewrite kid_set_eq by (rewrite wf_root; auto). apply IH. auto with go.
Qed.

Lemma t_lookup_update_ne t p q v :
  wf_tree t → wf_path p → p ≠ q → t_lookup (t_update t p v) q = t_lookup t q.
Proof.
  intros Ht Hp. revert t q Ht.
  induction Hp as [|i p Hi Hp IH]; intros t [|j q] Ht Hne; try done.
  simpl. destruct (decide (i = j)) as [->|Hij].
  - rewrite kid_set_eq by (rewrite wf_root; auto).
    rewrite IH by (auto with go || congruence). apply t_lookup_default.
  - by rewrite kid_set_ne.
Qed.

Lemma t_lookup_delete_eq t p : wf_tree t → wf_path p → t_lookup (t_delete t p) p = [].
Proof.
  intros Ht Hp. revert t Ht. induction Hp as [|i p Hi Hp IH]; intros t Ht; simpl; [done|].
  destruct (kid t i) as [c|] eqn:E; [|by rewrite E].
  rewrite kid_set_eq by (rewrite wf_root; auto). apply IH. by apply (wf_kid t i).
Qed.

Lemma t_lookup_delete_ne t p q :
  wf_tree t → wf_path p → p ≠ q → t_lookup (t_delete t p) q = t_lookup t q.
Proof.
  intros Ht Hp. revert t q Ht.
  induction Hp as [|i p Hi Hp IH]; intros t [|j q] Ht Hne; simpl; try done.
  - by destruct (kid t i).
  - destruct (kid t i) as [c|] eqn:E; [|done]. destruct (decide (i = j)) as [->|Hij].
    + rewrite kid_set_eq, E by (rewrite wf_root; auto).
      apply IH; [by apply (wf_kid t j) | congruence].
    + by rewrite kid_set_ne.
Qed.

(** ** Changes that change nothing *)

(** Deleting a key that has no value leaves the tree as it is. *)
Lemma t_delete_absent t p : t_lookup t p = [] → t_delete t p = t.
Proof.
  revert t. induction p as [|i p IH]; intros [v kids] H; simpl in *; [by subst|].
  destruct (kid (Tree v kids) i) as [c|] eqn:E; [|done].
  rewrite IH by done. by apply set_kid_id.
Qed.

(** Writing back the value a key has leaves the tree as it is. *)
Lemma t_update_same t p v : t_lookup t p = v → v ≠ [] → t_update t p v = t.
Proof.
  revert t. induction p as [|i p IH]; intros t Hv Hne; simpl in *.
  - destruct t. by subst.
  - destruct (kid t i) as [c|] eqn:E; [|by subst].
    simpl. rewrite IH by done. by apply set_kid_id.
Qed.

Lemma t_delete_empty p : t_delete t_empty p = t_empty.
Proof. apply t_delete_absent, t_lookup_empty. Qed.

Lemma t_update_twice t p v : wf_tree t → wf_path p → t_update (t_update t p v) p v = t_update t p v.
Proof.
  intros Ht Hp. revert t Ht. induction Hp as [|i p Hi Hp IH]; intros t Ht; [done|]. simpl.
  rewrite kid_set_eq by (rewrite wf_root; auto). simpl.
  by rewrite IH, set_kid_set_eq by auto with go.
Qed.

(** ** Order independence *)

Lemma t_update_update_comm t p q v w :
  wf_tree t → wf_path p → wf_path q → p ≠ q →
  t_update (t_update t p v) q w = t_update (t_update t q w) p v.
Proof.
  intros Ht Hp. revert t q Ht.
  induction Hp as [|i p Hi Hp IH]; intros t [|j q] Ht Hq Hne; try done.
  inversion_clear Hq as [|? ? Hj Hq']. simpl.
  destruct (decide (i = j)) as [->|Hij].
  - rewrite !kid_set_eq by (rewrite wf_root; auto). simpl.
    rewrite !set_kid_set_eq. f_equal. apply IH; [auto with go | done | congruence].
  - rewrite !kid_set_ne by done. by apply set_kid_comm.
Qed.

Lemma t_update_delete_comm t p q v :
  wf_tree t → wf_path p → wf_path q → p ≠ q →
  t_delete (t_update t p v) q = t_update (t_delete t q) p v.
Proof.
  intros Ht Hp. revert t q Ht.
  induction Hp as [|i p Hi Hp IH]; intros t [|j q] Ht Hq Hne; simpl; try done.
  { change (kid (Tree v (tkids t)) j) with (kid t j). by destruct (kid t j). }
  inversion_clear Hq as [|? ? Hj Hq'].
  destruct (decide (i = j)) as [->|Hij].
  - rewrite kid_set_eq by (rewrite wf_root; auto).
    rewrite IH by (auto with go || congruence).
    destruct (kid t j) as [c|] eqn:E; simpl.
    + rewrite kid_set_eq by (rewrite wf_root; auto). simpl. by rewrite !set_kid_set_eq.
    + by rewrite t_delete_empty, E, set_kid_set_eq.
  - rewrite kid_set_ne by done. destruct (kid t j) as [c|] eqn:E; [|done].
    rewrite kid_set_ne by done. by apply set_kid_comm.
Qed.

Lemma t_delete_delete_comm t p q :
  wf_tree t → wf_path p → wf_path q → p ≠ q →
  t_delete (t_delete t p) q = t_delete (t_delete t q) p.
Proof.
  intros Ht Hp. revert t q Ht.
  induction Hp as [|i p Hi Hp IH]; intros t [|j q] Ht Hq Hne; simpl; try done.
  { change (kid (Tree [] (tkids t)) j) with (kid t j). by destruct (kid t j). }
  { change (kid (Tree [] (tkids t)) i) with (kid t i). by destruct (kid t i). }
  inversion_clear Hq as [|? ? Hj Hq'].
  destruct (decide (i = j)) as [->|Hij].
  - destruct (kid t j) as [c|] eqn:E; [|by rewrite E].
    rewrite !kid_set_eq by (rewrite wf_root; auto). rewrite !set_kid_set_eq. f_equal.
    apply IH; [by apply (wf_kid t j) | done | congruence].
  - destruct (kid t i) as [c|] eqn:E, (kid t j) as [c'|] eqn:E'; rewrite ?kid_set_ne by done;
      rewrite ?E, ?E'; try done. by apply set_kid_comm.
Qed.

Lemma t_apply_comm t c c' :
  wf_tree t → wf_path c.1 → wf_path c'.1 → c.1 ≠ c'.1 →
  t_apply (t_apply t c) c' = t_apply (t_apply t c') c.
Proof.
  intros Ht Hc Hc' Hne. unfold t_apply.
  destruct c as [p [v|]], c' as [q [w|]]; simpl in *.
  - by apply t_update_update_comm.
  - by apply t_update_delete_comm.
  - symmetry. by apply t_update_delete_comm.
  - by apply t_delete_delete_comm.
Qed.

Definition t_apply_all (t : tree) (cs : list change) : tree := fold_left t_apply cs t.

Lemma wf_apply_all t cs : wf_tree t → wf_tree (t_apply_all t cs).
Proof.
  revert t. induction cs as [|c cs IH]; intros t H; simpl; [done|].
  unfold t_apply_all in *. simpl. apply IH. auto with go.
Qed.

(** The tree after a set of changes to distinct keys does not depend on the
    order in which the changes are applied. *)
Lemma t_apply_all_perm t cs cs' :
  wf_tree t → Forall (λ c, wf_path c.1) cs → NoDup (map fst cs) →
  cs ≡ₚ cs' → t_apply_all t cs = t_apply_all t cs'.
Proof.
  intros Ht Hwf Hnd Hp. revert t Ht Hwf Hnd.
  induction Hp as [|c cs cs' Hp IH|c c' cs|cs1 cs2 cs3 Hp1 IH1 Hp2 IH2];
    intros t Ht Hwf Hnd; unfold t_apply_all in *; simpl in *.
  - done.
  - inversion_clear Hwf. inversion_clear Hnd. apply IH; auto with go.
  - inversion_clear Hwf as [|? ? Hc Hwf']. inversion_clear Hwf' as [|? ? Hc' Hwf''].
    inversion_clear Hnd as [|? ? Hnin Hnd']. rewrite t_apply_comm; [done..|].
    intros Heq. apply Hnin. rewrite Heq. left.
  - rewrite IH1 by done. apply IH2; [done | by rewrite <- Hp1 | by rewrite <- Hp1].
Qed.

(** ** Nodes and their values *)

(** The value of the node at a path, if there is a node. *)
Definition tview (t : tree) (p : path) : option bytes := tval <$> sub t p.

Lemma t_lookup_view t p : t_lookup t p = default [] (tview t p).
Proof.
  unfold tview. revert t. induction p as [|i p IH]; intros t; simpl; [done|].
  destruct (kid t i); [apply IH | done].
Qed.

Lemma tview_default t i p v : tview t (i :: p) = Some v → tview (default t_empty (kid t i)) p = Some v.
Proof. unfold tview. simpl. by destruct (kid t i). Qed.

Lemma tview_update_eq t p v : wf_tree t → wf_path p → tview (t_update t p v) p = Some v.
Proof.
  intros Ht Hp. revert t Ht. unfold tview.
  induction Hp as [|i p Hi Hp IH]; intros t Ht; simpl; [done|].
  rewrite kid_set_eq by (rewrite wf_root; auto). apply IH. auto with go.
Qed.

(** A change elsewhere neither removes a node nor changes its value. *)
Lemma tview_update_ne t p q v w :
  wf_tree t → wf_path p → p ≠ q → tview t q = Some w → tview (t_update t p v) q = Some w.
Proof.
  intros Ht Hp. revert t q Ht.
  induction Hp as [|i p Hi Hp IH]; intros t [|j q] Ht Hne Hq; try done.
  unfold tview in *. simpl in *. destruct (decide (i = j)) as [->|Hij].
  - rewrite kid_set_eq by (rewrite wf_root; auto).
    destruct (kid t j) as [c|] eqn:E; [|done]. apply IH; [|congruence|done].
    simpl. by apply (wf_kid t j).
  - by rewrite kid_set_ne.
Qed.

Lemma tview_delete_ne t p q w :
  wf_tree t → wf_path p → p ≠ q → tview t q = Some w → tview (t_delete t p) q = Some w.
Proof.
  intros Ht Hp. revert t q Ht.
  induction Hp as [|i p Hi Hp IH]; intros t [|j q] Ht Hne Hq; try done.
  - unfold tview in *. simpl in *. by destruct (kid t i).
  - unfold tview in *. simpl in *. destruct (kid t i) as [c|] eqn:E; [|done].
    destruct (decide (i = j)) as [->|Hij].
    + rewrite E in Hq. rewrite kid_set_eq by (rewrite wf_root; auto).
      apply IH; [by apply (wf_kid t j) | congruence | done].
    + by rewrite kid_set_ne.
Qed.

Lemma t_update_view t p v : tview t p = Some v → t_update t p v = t.
Proof.
  unfold tview. revert t. induction p as [|i p IH]; intros t; simpl.
  - intros [= <-]. by destruct t.
  - destruct (kid t i) as [c|] eqn:E; [|done]. intros Hv. simpl. rewrite IH by done. by apply set_kid_id.
Qed.

Lemma tview_delete_eq t p : wf_tree t → wf_path p → is_Some (tview t p) → tview (t_delete t p) p = Some [].
Proof.
  intros Ht Hp. revert t Ht. unfold tview. induction Hp as [|i p Hi Hp IH]; intros t Ht; simpl; [done|].
  destruct (kid t i) as [c|] eqn:E; [|by intros [? [=]]]. intros Hs.
  rewrite kid_set_eq by (rewrite wf_root; auto). apply IH; [by apply (wf_kid t i) | done].
Qed.

(** A change to a key other than [q] keeps the node at [q]. *)
Lemma tview_apply_ne t c q w :
  wf_tree t → wf_path c.1 → c.1 ≠ q → tview t q = Some w → tview (t_apply t c) q = Some w.
Proof.
  intros. unfold t_apply. destruct c as [p [v|]]; [by apply tview_update_ne | by apply tview_delete_ne].
Qed.

(** A change that changes the tree leaves a trace at its own path. *)
Lemma t_apply_effective t c :
  wf_tree t → wf_path c.1 → t_apply t c ≠ t →
  ∃ v, tview (t_apply t c) c.1 = Some v ∧ tview t c.1 ≠ Some v.
Proof.
  intros Ht Hp Hne. unfold t_apply in *. destruct c as [p [v|]]; simpl in *.
  - exists v. split; [by apply tview_update_eq|]. intros ?. by apply Hne, t_update_view.
  - destruct (decide (t_lookup t p = [])) as [Ha|Ha]; [by apply t_delete_absent in Ha|].
    rewrite t_lookup_view in Ha. destruct (tview t p) as [w|] eqn:E; [|done]. simpl in Ha.
    exists []. split; [apply tview_delete_eq; rewrite ?E; by eauto | congruence].
Qed.

(** ** Hashes *)

(** What a node's hash covers: the child hashes and the value. *)
Definition content : Type := list Byte64 * bytes.
Definition content_of (n : node) : content := (arr_list (Idxs n), Value n).

Section hashes.
Context {sha : Sha512}.

Definition chash (c : content) : Byte64 :=
  BytesToByte64 (Bytes (Sum512
    (replicate (16 * 64 + length c.2) x00 ++ concat (map Bytes c.1) ++ c.2))).

Lemma node_hash_content n : node_hash n = chash (content_of n).
Proof. done. Qed.

(** The root hash of a tree: children are hashed first. *)
Fixpoint thash (t : tree) : Byte64 :=
  match t with
  | Tree v kids =>
      chash (map (λ o, match o with Some c => thash c | None => null end) kids, v)
  end.

Definition khash (o : option tree) : Byte64 :=
  match o with Some c => thash c | None => null end.
Definition tcontent (t : tree) : content := (map khash (tkids t), tval t).

Lemma thash_content t : thash t = chash (tcontent t).
Proof. by destruct t. Qed.

Lemma tcontent_kid t i o : tkids t !! i = Some o → (tcontent t).1 !! i = Some (khash o).
Proof. intros H. simpl. by rewrite list_lookup_fmap, H. Qed.

(** ** Collision freedom

    [U] is the set of node contents under consideration: SHA-512 has no
    collision inside [U] and gives none of its members the hash [null]. *)
Record universe (U : content → Prop) : Prop := {
  u_inj c c' : U c → U c' → chash c = chash c' → c = c';
  u_null c : U c → chash c ≠ null;
}.

(** All nodes of a tree have their contents in [U]. *)
Definition covered (U : content → Prop) (t : tree) : Prop :=
  ∀ p c, sub t p = Some c → U (tcontent c).

Lemma covered_kid U t i c : covered U t → kid t i = Some c → covered U c.
Proof. intros H Hc p x Hx. apply (H (i :: p)). simpl. by rewrite Hc. Qed.

Lemma covered_root U t : covered U t → U (tcontent t).
Proof. intros H. by apply (H []). Qed.

Lemma tcontent_eq_kid U t t' i :
  universe U → covered U t → covered U t' → tcontent t = tcontent t' →
  option_relation (λ c c', thash c = thash c') (λ _, False) (λ _, False) (kid t i) (kid t' i).
Proof.
  intros HU Ht Ht' Heq.
  assert (Hlen : length (tkids t) = length (tkids t')).
  { apply (f_equal (λ c : content, length c.1)) in Heq. simpl in Heq. by rewrite !length_map in Heq. }
  assert (Hnull : ∀ t i c, covered U t → kid t i = Some c → thash c ≠ null).
  { intros x j c Hx Hc. rewrite thash_content. apply (u_null _ HU), (Hx [j]). simpl. by rewrite Hc. }
  unfold kid in *. specialize (Hnull t i) as H1. specialize (Hnull t' i) as H2.
  destruct (tkids t !! i) as [o|] eqn:E, (tkids t' !! i) as [o'|] eqn:E'.
  - assert (Hk : khash o = khash o').
    { apply tcontent_kid in E, E'. rewrite Heq in E. congruence. }
    destruct o, o'; simpl in *; [done | | | done]; exfalso.
    + by apply (H1 t0).
    + by apply (H2 t0).
  - apply lookup_lt_Some in E. apply lookup_ge_None in E'. lia.
  - apply lookup_lt_Some in E'. apply lookup_ge_None in E. lia.
  - done.
Qed.

(** Two trees with the same root hash have the same nodes, with the same values. *)
Lemma thash_binds_view U t t' p :
  universe U → covered U t → covered U t' → thash t = thash t' → tview t p = tview t' p.
Proof.
  intros HU. unfold tview. revert t t'. induction p as [|i p IH]; intros t t' Ht Ht' Heq.
  - rewrite !thash_content in Heq. apply (u_inj _ HU) in Heq; [|by apply covered_root..].
    simpl. f_equal. by injection Heq.
  - rewrite !thash_content in Heq. apply (u_inj _ HU) in Heq; [|by apply covered_root..].
    pose proof (tcontent_eq_kid U t t' i HU Ht Ht' Heq) as Hk. simpl.
    destruct (kid t i) as [c|] eqn:E, (kid t' i) as [c'|] eqn:E'; simpl in Hk; try done.
    apply IH; [by apply (covered_kid U t i) | by apply (covered_kid U t' i) | done].
Qed.

Lemma thash_binds U t t' p :
  universe U → covered U t → covered U t' → thash t = thash t' →
  t_lookup t p = t_lookup t' p.
Proof. intros. rewrite !t_lookup_view. by erewrite thash_binds_view. Qed.
End hashes.
