(* ===== verification/TrieFacts.v ===== *)
(** * The trie implements its specification

    [updateDepthFirst], [deleteDepthFirst] and [lookupDepthFirst] are related
    to the abstract operations of [TrieSpec] through any pair of node [put]
    and [get] functions that satisfy the interface [NodeStore]; the world-state
    table and the transaction table of a working database are two such pairs.
    The second half of the file lifts this to the operations of
    [MptWorldState]. *)

From Stdlib Require Import Strings.Byte.
From S2P Require Import Prelude Bytes Db Trie TrieSpec.

(** ** Nibbles and table keys *)

Definition nibbles (key : bytes) : path := map idx (makeHex key).

Lemma idx_byte_of z : 0 ≤ z < 256 → idx (byte_of z) = Z.to_nat z.
Proof. intros. unfold idx. by rewrite byte_val_of, Z.mod_small. Qed.

Lemma nibbles_cons b key :
  nibbles (b :: key) =
    Z.to_nat (byte_val b `div` 16) :: Z.to_nat (byte_val b `mod` 16) :: nibbles key.
Proof.
  unfold nibbles. simpl. pose proof (byte_val_range b). rewrite !idx_byte_of; [done|zlia..].
Qed.

Lemma nibbles_wf key : wf_path (nibbles key).
Proof.
  unfold wf_path. induction key as [|b key IH]; [constructor|].
  rewrite nibbles_cons. pose proof (byte_val_range b). do 2 (constructor; [zlia|]). done.
Qed.

#[global] Instance nibbles_inj : Inj (=) (=) nibbles.
Proof.
  intros k. induction k as [|b k IH]; intros [|b' k']; try done.
  rewrite !nibbles_cons. intros [= H1 H2 H3]. pose proof (byte_val_range b). pose proof (byte_val_range b').
  assert (byte_val b = byte_val b') as ->%byte_val_inj by zlia. f_equal. by apply IH.
Qed.

#[export] Hint Resolve nibbles_wf : go.

Lemma null_zero : null = arr_zero x00 EnodeLength.
Proof. by apply arr_eq. Qed.

(** ** The interface between the trie and its node table *)

Class NodeStore {D : Type} (put : @putter D) (get : @getter D) := {
  ns_ok h n d : (put h n d).2 = None;
  ns_get h n d h' : get h' (put h n d).1 = if decide (h = h') then Some n else get h' d;
}.

Lemma ns_put `{NodeStore D put get} h n d : put h n d = ((put h n d).1, None).
Proof. rewrite <- (ns_ok h n d). by destruct (put h n d). Qed.

Section refinement.
Context {sha : Sha512} {D : Type} (put : @putter D) (get : @getter D) {ns : NodeStore put get}.
Context (U : content → Prop) (HU : universe U).
(** A preorder on stores that every [put] of an unmarked node respects. *)
Context (F : D → D → Prop) {HF : PreOrder F}.
Context (put_F : ∀ h n d, Tombstone n = unmarked → F d (put h n d).1).

(** Every stored node sits under its own hash. *)
Definition store_ok (d : D) : Prop :=
  ∀ h n, get h d = Some n → node_hash n = h ∧ U (content_of n).

(** Every node of the tree is in the store. *)
Definition holds (d : D) (t : tree) : Prop :=
  ∀ p c, sub t p = Some c → ∃ n, get (thash c) d = Some n ∧ content_of n = tcontent c.

(** Nothing that was stored is lost. *)
Definition extends (d d' : D) : Prop :=
  ∀ h n, get h d = Some n → ∃ n', get h d' = Some n' ∧ content_of n' = content_of n.

#[global] Instance extends_preorder : PreOrder extends.
Proof.
  split; [by intros d h n; eauto|]. intros d1 d2 d3 H12 H23 h n Hn.
  destruct (H12 h n Hn) as (n2 & Hn2 & E2). destruct (H23 h n2 Hn2) as (n3 & Hn3 & E3).
  exists n3. split; [done | congruence].
Qed.

Lemma holds_extends d d' t : extends d d' → holds d t → holds d' t.
Proof.
  intros Hd H p c Hc. destruct (H p c Hc) as (n & Hn & E).
  destruct (Hd _ _ Hn) as (n' & Hn' & E'). exists n'. split; [done | congruence].
Qed.

Lemma holds_kid d t i c : holds d t → kid t i = Some c → holds d c.
Proof. intros H Hc p x Hx. apply (H (i :: p)). simpl. by rewrite Hc. Qed.

Lemma holds_intro d t n :
  get (thash t) d = Some n → content_of n = tcontent t →
  (∀ i c, kid t i = Some c → holds d c) → holds d t.
Proof.
  intros Hn Hc Hk [|i p] c; simpl; [intros [= <-]; by eauto|].
  destruct (kid t i) as [x|] eqn:E; [|done]. by apply (Hk i x E).
Qed.

Lemma holds_covered d t : store_ok d → holds d t → covered U t.
Proof.
  intros Hs Ht p c Hc. destruct (Ht p c Hc) as (n & Hn & <-). by apply (Hs _ _ Hn).
Qed.

(** Storing a node of the universe under its hash loses nothing. *)
Lemma put_spec d n :
  store_ok d → U (content_of n) →
  let d' := (put (node_hash n) n d).1 in
  get (node_hash n) d' = Some n ∧ store_ok d' ∧ extends d d'.
Proof.
  intros Hs Hn. simpl. split_and!.
  - rewrite ns_get. by rewrite decide_True.
  - intros h m. rewrite ns_get. case_decide; [intros [= <-]; by subst | apply Hs].
  - intros h m Hm. rewrite ns_get. case_decide; [|by eauto]. subst h.
    exists n. split; [done|]. destruct (Hs _ _ Hm) as [Heq Hm'].
    symmetry. by apply (u_inj U HU).
Qed.

Lemma content_idx n t i :
  content_of n = tcontent t → (i < 16)%nat →
  arr_get null (Idxs n) i = match kid t i with Some c => thash c | None => null end.
Proof.
  intros Hc Hi. unfold kid. injection Hc as Hidx _.
  pose proof (arr_get_lookup null (Idxs n) i Hi) as Hl.
  rewrite Hidx, list_lookup_fmap in Hl.
  destruct (tkids t !! i) as [[c|]|]; simpl in Hl; [by injection Hl..|done].
Qed.

Lemma holds_kid_nonnull d c : store_ok d → holds d c → thash c ≠ null.
Proof.
  intros Hs Hc. destruct (Hc [] c eq_refl) as (n & Hn & E).
  rewrite thash_content, <- E. apply (u_null U HU). by apply (Hs _ _ Hn).
Qed.

Lemma content_set_Value t n v :
  content_of n = tcontent t → content_of (set_Value v (tombStone n)) = tcontent (Tree v (tkids t)).
Proof. unfold content_of, tcontent. simpl. by intros [= -> _]. Qed.

Lemma content_set_Idx t n i c :
  content_of n = tcontent t → content_of (set_Idx i (thash c) (tombStone n)) = tcontent (set_kid t i c).
Proof.
  unfold content_of, tcontent, set_kid. simpl. intros [= -> ->].
  by rewrite list_fmap_insert.
Qed.

Lemma content_empty : content_of emptyNode = tcontent t_empty.
Proof. done. Qed.

(** What [updateDepthFirst] and [deleteDepthFirst] establish when they turn
    the node of [t] into the node of [t']. *)
Record became (d : D) (t' : tree) (d' : D) (n' : node) : Prop := {
  be_content : content_of n' = tcontent t';
  be_holds : holds d' t';
  be_stored : get (thash t') d' = Some n';
  be_tomb : Tombstone n' = unmarked;
  be_store : store_ok d';
  be_extends : extends d d';
  be_frame : F d d';
}.

(** Store the changed node [n'] of [t'], whose children are stored already. *)
Lemma put_became d d1 t' n' :
  store_ok d1 → extends d d1 → F d d1 →
  content_of n' = tcontent t' → U (tcontent t') → Tombstone n' = unmarked →
  (∀ i c, kid t' i = Some c → holds d1 c) →
  became d t' (put (node_hash n') n' d1).1 n' ∧ node_hash n' = thash t'.
Proof.
  intros Hs He HFd Hc HU' Htomb Hk.
  assert (Hh : node_hash n' = thash t') by (by rewrite node_hash_content, Hc, thash_content).
  rewrite <- Hc in HU'. destruct (put_spec d1 n' Hs HU') as (Hg & Hs' & He').
  split; [|done]. split; try done.
  - apply (holds_intro _ _ n'); [by rewrite <- Hh | done |].
    intros i c Hi. apply (holds_extends d1); [done|]. by apply Hk with i.
  - by rewrite <- Hh.
  - by rewrite He.
  - rewrite HFd. by apply put_F.
Qed.

(** The contents written along the path of a change. *)
Definition path_in_U (t' : tree) (p : path) : Prop :=
  ∀ q c, q `prefix_of` p → sub t' q = Some c → U (tcontent c).

Lemma path_in_U_kid t' i p c :
  path_in_U t' (i :: p) → kid t' i = Some c → path_in_U c p.
Proof.
  intros H Hc q x Hq Hx. apply (H (i :: q)); [by apply prefix_cons|]. simpl. by rewrite Hc.
Qed.

Lemma kid_set_kid_holds d t i c j x :
  (∀ j x, kid t j = Some x → holds d x) → holds d c → (i < length (tkids t))%nat →
  kid (set_kid t i c) j = Some x → holds d x.
Proof.
  intros Ht Hc Hi. destruct (decide (i = j)) as [->|Hne].
  - rewrite kid_set_eq by done. by intros [= <-].
  - rewrite kid_set_ne by done. apply Ht.
Qed.
(** The child node the descent continues with. *)
Lemma child_node d n t i :
  store_ok d → content_of n = tcontent t → (i < 16)%nat →
  (∀ j c, kid t j = Some c → holds d c) →
  ∃ n0,
    (if decide (arr_get null (Idxs n) i ≠ null) then
       match get (arr_get null (Idxs n) i) d with Some c => c | None => emptyNode end
     else emptyNode) = n0 ∧
    content_of n0 = tcontent (default t_empty (kid t i)) ∧
    ∀ j x, kid (default t_empty (kid t i)) j = Some x → holds d x.
Proof.
  intros Hs Hc Hi Hk. rewrite (content_idx n t i Hc Hi). eexists. split; [done|].
  destruct (kid t i) as [c|] eqn:E; cbn [default from_option id].
  - pose proof (Hk i c E) as Hh. rewrite decide_True by (by eapply holds_kid_nonnull).
    destruct (Hh [] c eq_refl) as (nc & -> & Hnc). split; [done|].
    intros j x Hx. by apply (holds_kid d c j).
  - rewrite decide_False by auto. split; [done|]. intros j x. by rewrite kid_empty.
Qed.

Lemma updateDepthFirst_refines n t keyHex v d :
  let p := map idx keyHex in
  store_ok d → content_of n = tcontent t → wf_tree t →
  (∀ i c, kid t i = Some c → holds d c) →
  wf_path p → path_in_U (t_update t p v) p →
  ∃ d' n', updateDepthFirst put get n keyHex v d = (d', n', thash (t_update t p v)) ∧
    became d (t_update t p v) d' n'.
Proof.
  intros p Hs Hc Ht Hk Hp HpU. subst p. revert n t d Hs Hc Ht Hk HpU.
  induction keyHex as [|k keyHex IH]; intros n t d Hs Hc Ht Hk HpU; simpl.
  - destruct (put_became d d (Tree v (tkids t)) (set_Value v (tombStone n)))
      as [Hb Hh]; [done | done | done | by apply content_set_Value | by apply (HpU []) | done | |].
    + intros i c Hi. by apply (Hk i).
    + rewrite ns_put, Hh in *. eauto.
  - simpl in Hp. inversion_clear Hp as [|? ? Hik Hp'].
    destruct (child_node d n t (idx k) Hs Hc Hik Hk) as (n0 & -> & Hc0 & Hk0).
    set (c0 := default t_empty (kid t (idx k))) in *.
    assert (Hlen : (idx k < length (tkids t))%nat) by (rewrite wf_root; done).
    destruct (IH Hp' n0 c0 d Hs Hc0 (wf_default _ _ Ht) Hk0) as (d1 & n1 & -> & Hb1).
    { apply (path_in_U_kid _ (idx k) _ _ HpU). by apply kid_set_eq. }
    rewrite decide_False by (eapply holds_kid_nonnull; [apply Hb1 | apply (be_holds _ _ _ _ Hb1)]).
    set (c1 := t_update c0 (map idx keyHex) v) in *.
    destruct (put_became d d1 (set_kid t (idx k) c1) (set_Idx (idx k) (thash c1) (tombStone n)))
      as [Hb Hh]; try done; try apply Hb1.
    + by apply content_set_Idx.
    + apply (HpU []); [apply prefix_nil | done].
    + intros i c. apply kid_set_kid_holds; [|apply Hb1|done].
      intros j x Hx. apply (holds_extends d); [apply Hb1 | by apply (Hk j)].
    + rewrite ns_put, Hh in *. eauto.
Qed.

(** A path that leads nowhere: nothing is written and [null] is returned. *)
Lemma deleteDepthFirst_missing n t keyHex d :
  let p := map idx keyHex in
  store_ok d → content_of n = tcontent t →
  (∀ i c, kid t i = Some c → holds d c) → wf_path p → sub t p = None →
  deleteDepthFirst put get n keyHex d = (d, n, null).
Proof.
  intros p Hs Hc Hk Hp Hsub. subst p. revert n t Hc Hk Hsub.
  induction keyHex as [|k keyHex IH]; intros n t Hc Hk Hsub; simpl; [done|].
  simpl in Hp, Hsub. inversion_clear Hp as [|? ? Hik Hp'].
  rewrite (content_idx n t (idx k) Hc Hik).
  destruct (kid t (idx k)) as [c|] eqn:E; [|by rewrite decide_False by auto].
  pose proof (Hk _ _ E) as Hh. rewrite decide_True by (by eapply holds_kid_nonnull).
  destruct (Hh [] c eq_refl) as (nc & -> & Hnc).
  rewrite (IH Hp' nc c); [by rewrite decide_True | done | | done].
  intros j x Hx. by apply (holds_kid d c j).
Qed.

Lemma deleteDepthFirst_refines n t keyHex d :
  let p := map idx keyHex in
  store_ok d → content_of n = tcontent t → wf_tree t →
  (∀ i c, kid t i = Some c → holds d c) →
  wf_path p → path_in_U (t_delete t p) p → is_Some (sub t p) →
  ∃ d' n', deleteDepthFirst put get n keyHex d = (d', n', thash (t_delete t p)) ∧
    became d (t_delete t p) d' n'.
Proof.
  intros p Hs Hc Ht Hk Hp HpU Hsub. subst p. revert n t d Hs Hc Ht Hk HpU Hsub.
  induction keyHex as [|k keyHex IH]; intros n t d Hs Hc Ht Hk HpU Hsub; simpl.
  - destruct (put_became d d (Tree [] (tkids t)) (set_Value [] (tombStone n)))
      as [Hb Hh]; [done | done | done | by apply content_set_Value | by apply (HpU []) | done | |].
    + intros i c Hi. by apply (Hk i).
    + rewrite ns_put, Hh in *. eauto.
  - simpl in Hp, Hsub, HpU. inversion_clear Hp as [|? ? Hik Hp'].
    rewrite (content_idx n t (idx k) Hc Hik).
    destruct (kid t (idx k)) as [c0|] eqn:E; [|by destruct Hsub].
    pose proof (Hk _ _ E) as Hh. rewrite decide_True by (by eapply holds_kid_nonnull).
    destruct (Hh [] c0 eq_refl) as (nc & -> & Hnc).
    assert (Hlen : (idx k < length (tkids t))%nat) by (rewrite wf_root; done).
    destruct (IH Hp' nc c0 d Hs Hnc) as (d1 & n1 & -> & Hb1).
    { by apply (wf_kid t (idx k)). }
    { intros j x Hx. by apply (holds_kid d c0 j). }
    { apply (path_in_U_kid _ (idx k) _ _ HpU). by apply kid_set_eq. }
    { done. }
    rewrite decide_False by (eapply holds_kid_nonnull; [apply Hb1 | apply (be_holds _ _ _ _ Hb1)]).
    set (c1 := t_delete c0 (map idx keyHex)) in *.
    destruct (put_became d d1 (set_kid t (idx k) c1) (set_Idx (idx k) (thash c1) (tombStone n)))
      as [Hb Hh']; try done; try apply Hb1.
    + by apply content_set_Idx.
    + apply (HpU []); [apply prefix_nil | done].
    + intros i c. apply kid_set_kid_holds; [|apply Hb1|done].
      intros j x Hx. apply (holds_extends d); [apply Hb1 | by apply (Hk j)].
    + rewrite ns_put, Hh' in *. eauto.
Qed.

Lemma lookupDepthFirst_refines n t keyHex d :
  let p := map idx keyHex in
  store_ok d → content_of n = tcontent t →
  (∀ i c, kid t i = Some c → holds d c) → wf_path p →
  lookupDepthFirst get n keyHex d = t_lookup t p.
Proof.
  intros p Hs Hc Hk Hp. subst p. revert n t Hc Hk.
  induction keyHex as [|k keyHex IH]; intros n t Hc Hk; simpl; [by injection Hc|].
  simpl in Hp. inversion_clear Hp as [|? ? Hik Hp'].
  rewrite (content_idx n t (idx k) Hc Hik).
  destruct (kid t (idx k)) as [c|] eqn:E; [|by rewrite decide_False by auto].
  pose proof (Hk _ _ E) as Hh. rewrite decide_True by (by eapply holds_kid_nonnull).
  destruct (Hh [] c eq_refl) as (nc & -> & Hnc). apply (IH Hp' nc c); [done|].
  intros j x Hx. by apply (holds_kid d c j).
Qed.
End refinement.

Arguments store_ok {sha D} get U d /.
Arguments holds {sha D} get d t.
Arguments extends {D} get d d'.
