(* ===== verification/WorldState.v ===== *)
(** * The operations of [MptWorldState] ([src/core/trie/trieImpl.go])

    The functional specification of the world state: over a working database,
    [Update], [Delete], [Lookup], [Rebase] and [Cleanup] act on the abstract
    trie that the world state represents. *)

From Stdlib Require Import Strings.Byte.
From S2P Require Import Prelude Bytes Db Trie TrieSpec TrieFacts.

Definition stateKey (h : Byte64) : bytes := tableKey tableMptWorldStateNode h.
Definition rootKey (h : Byte64) : bytes := tableKey tableTransactionRootByWorldState h.
Definition flatKey (h : Byte64) : bytes := tableKey tableTransactionFlatKV h.
Definition txNodeKey (h : Byte64) : bytes := tableKey tableTransactionNode h.

(** The keys the world-state operations write. *)
Definition trie_key (k : bytes) : Prop := ∃ h, k = stateKey h ∨ k = rootKey h.

Section world_state.
Context {D : Type} {dbo : Database D} {dbl : DatabaseLaws D}.
Context {sha : Sha512} {cdc : Codec node} {cdl : CodecLaws node}.

(** ** One table entry *)

Lemma putNode_ok k n (d : D) : (putNode k n d).2 = None.
Proof. unfold putNode. destruct (serialize_ok n) as [b ->]. apply put_none. Qed.

Lemma putNode_eq k n (d : D) : putNode k n d = ((putNode k n d).1, None).
Proof. rewrite <- (putNode_ok k n d). by destruct (putNode k n d). Qed.

Lemma putNode_contents k n (d : D) k' :
  k ≠ k' → contents (putNode k n d).1 !! k' = contents d !! k'.
Proof.
  intros Hne. unfold putNode. destruct (serialize_ok n) as [b ->].
  by rewrite put_contents, lookup_insert_ne.
Qed.

Lemma getNode_contents k (d d' : D) :
  contents d !! k = contents d' !! k → getNode k d = getNode k d'.
Proof.
  unfold getNode. rewrite <- !get_contents.
  destruct (Get k d), (Get k d'); simpl; naive_solver.
Qed.

Lemma getNode_putNode k n (d : D) k' :
  getNode k' (putNode k n d).1 = if decide (k = k') then Some n else getNode k' d.
Proof.
  case_decide as Heq.
  - subst k'. unfold putNode, getNode. destruct (serialize_ok n) as [b Hb]. rewrite Hb.
    assert (Get k (Put k b d).1 = Ok b) as ->.
    { apply get_ok_iff. by rewrite put_contents, lookup_insert_eq. }
    by rewrite (deserialize_serialize n b Hb).
  - by apply getNode_contents, putNode_contents.
Qed.

#[global] Instance state_store : NodeStore putState (getState (D:=D)).
Proof.
  split; intros; [apply putNode_ok|]. unfold getState, putState. rewrite getNode_putNode.
  destruct (decide (h = h')) as [->|Hne]; [by rewrite decide_True|].
  by rewrite decide_False by (by intros ?%(inj _)).
Qed.

#[global] Instance tx_store : NodeStore putTx (getTx (D:=D)).
Proof.
  split; intros; [apply putNode_ok|]. unfold getTx, putTx. rewrite getNode_putNode.
  destruct (decide (h = h')) as [->|Hne]; [by rewrite decide_True|].
  by rewrite decide_False by (by intros ?%(inj _)).
Qed.

Definition getTxRoot (h : Byte64) (d : D) : option node := getNode (rootKey h) d.

(** The state node of [h] is stored and will survive a cleanup. *)
Definition settled (d : D) (h : Byte64) : Prop :=
  ∃ n, getState h d = Some n ∧ Tombstone n = unmarked.

(** What a sequence of world-state node writes preserves. *)
Record state_step (d d' : D) : Prop := {
  ss_frame k : (∀ h, k ≠ stateKey h) → contents d' !! k = contents d !! k;
  ss_settled h : settled d h → settled d' h;
}.

#[global] Instance state_step_preorder : PreOrder state_step.
Proof.
  split.
  - intros d. by split.
  - intros d1 d2 d3 [F1 S1] [F2 S2]. split; [|by auto].
    intros k Hk. by rewrite F2, F1.
Qed.

Lemma putState_step h n (d : D) : Tombstone n = unmarked → state_step d (putState h n d).1.
Proof.
  intros Hn. split.
  - intros k Hk. apply putNode_contents. intros Heq. by apply (Hk h).
  - intros h' (m & Hm & Hmt). unfold settled. rewrite ns_get. case_decide; by eauto.
Qed.

(** ** Representation *)

Record db_ok (U : content → Prop) (d : D) : Prop := {
  ok_state : store_ok getState U d;
  ok_tx h n : getTxRoot h d = Some n → Idxs n = Idxs emptyNode;
}.

(** The world state [ws] over the database [d] represents the trie [t]. *)
Record repr (d : D) (ws : MptWorldState) (t : tree) : Prop := {
  rp_hash : rootHash ws = thash t;
  rp_node : content_of (rootNode ws) = tcontent t;
  rp_wf : wf_tree t;
  rp_holds : holds getState d t;
  rp_tx : Idxs (txNode ws) = Idxs emptyNode;
  rp_root : is_Some (getTxRoot (rootHash ws) d);
}.

(** A database after world-state operations other than [Cleanup]. *)
Record grows (d d' : D) : Prop := {
  gr_extends : extends getState d d';
  gr_root h : is_Some (getTxRoot h d) → is_Some (getTxRoot h d');
  gr_settled h : settled d h → settled d' h;
  gr_frame k : ¬ trie_key k → contents d' !! k = contents d !! k;
}.

#[global] Instance grows_preorder : PreOrder grows.
Proof.
  split.
  - intros d. by split.
  - intros d1 d2 d3 [E1 R1 S1 F1] [E2 R2 S2 F2]. split; auto.
    + by trans d2.
    + intros k Hk. by rewrite F2, F1.
Qed.

Lemma rootKey_stateKey h h' : rootKey h ≠ stateKey h'.
Proof. by apply tableKey_ne. Qed.

Lemma getTxRoot_step d d' h : state_step d d' → getTxRoot h d' = getTxRoot h d.
Proof.
  intros Hs. apply getNode_contents. apply (ss_frame _ _ Hs). intros h'. apply rootKey_stateKey.
Qed.

Lemma getState_putRoot h n (d : D) h' : getState h' (putNode (rootKey h) n d).1 = getState h' d.
Proof. apply getNode_contents, putNode_contents, rootKey_stateKey. Qed.

Lemma getTxRoot_putRoot h n (d : D) h' :
  getTxRoot h' (putNode (rootKey h) n d).1 = if decide (h = h') then Some n else getTxRoot h' d.
Proof.
  unfold getTxRoot. rewrite getNode_putNode. unfold rootKey.
  destruct (decide (h = h')) as [->|Hne]; [by rewrite decide_True|].
  by rewrite decide_False by (by intros ?%(inj _)).
Qed.

Lemma step_grows U d d' :
  extends getState d d' → state_step d d' → db_ok U d → store_ok getState U d' →
  grows d d' ∧ db_ok U d'.
Proof.
  intros He Hs [_ Htx] Hst. split; split; try done.
  - intros h. by rewrite (getTxRoot_step d d' h Hs).
  - apply Hs.
  - intros k Hk. apply (ss_frame _ _ Hs). intros h ->. apply Hk. exists h. by left.
  - intros h n. rewrite (getTxRoot_step d d' h Hs). apply Htx.
Qed.

(** Writing a transaction root that has no children. *)
Lemma putRoot_grows U h n d :
  Idxs n = Idxs emptyNode → db_ok U d →
  let d' := (putNode (rootKey h) n d).1 in grows d d' ∧ db_ok U d' ∧ is_Some (getTxRoot h d').
Proof.
  intros Hn [Hs Htx] d'. subst d'. split_and!; [split|split|].
  - intros h' m Hm. rewrite getState_putRoot. by eauto.
  - intros h'. rewrite getTxRoot_putRoot. by case_decide.
  - intros h' (m & Hm). exists m. by rewrite getState_putRoot.
  - intros k Hk. apply putNode_contents. intros <-. apply Hk. exists h. by right.
  - intros h' m. rewrite getState_putRoot. apply Hs.
  - intros h' m. rewrite getTxRoot_putRoot. case_decide; [by intros [= <-] | apply Htx].
  - rewrite getTxRoot_putRoot. by rewrite decide_True.
Qed.

Lemma repr_grows d d' ws t : grows d d' → repr d ws t → repr d' ws t.
Proof.
  intros Hg [H1 H2 H3 H4 H5 H6]. split; try done.
  - by apply (holds_extends _ d); [apply Hg|].
  - by apply Hg.
Qed.

Lemma repr_kid d ws t i c : repr d ws t → kid t i = Some c → holds getState d c.
Proof. intros Hr Hc. by apply (holds_kid _ d t i); [apply Hr|]. Qed.

Lemma rootKey_eq h : tableKey tableTransactionRootByWorldState h = rootKey h.
Proof. done. Qed.
(** ** Updating and deleting *)

(** [d] and [ws] after an operation that turned the trie into [t']. *)
Record turned (U : content → Prop) (d : D) (t' : tree) (d' : D) (ws' : MptWorldState) : Prop := {
  tu_repr : repr d' ws' t';
  tu_ok : db_ok U d';
  tu_grows : grows d d';
}.

Lemma switchRoot_spec U d d1 ws t t' root :
  universe U → db_ok U d → repr d ws t → wf_tree t' →
  became getState U state_step d t' d1 root →
  ∃ d' ws', switchRoot ws root (thash t') d1 = (d', ws', thash t') ∧
    turned U d t' d' ws' ∧ settled d' (thash t').
Proof.
  intros HU Hd Hr Hwf [Hbc Hbh Hbg Hbt Hbs Hbe Hbf]. unfold switchRoot.
  rewrite decide_False by by apply (holds_kid_nonnull getState U HU d1).
  destruct (step_grows U d d1 Hbe Hbf Hd Hbs) as [Hg1 Hd1].
  rewrite !rootKey_eq.
  destruct (putRoot_grows U (rootHash ws) (set_Tombstone marked (txNode ws)) d1 (rp_tx _ _ _ Hr) Hd1)
    as (Hg2 & Hd2 & _).
  set (d2 := (putNode (rootKey (rootHash ws)) (set_Tombstone marked (txNode ws)) d1).1) in *.
  rewrite putNode_eq. fold d2.
  destruct (putRoot_grows U (thash t') (set_Tombstone unmarked (txNode ws)) d2 (rp_tx _ _ _ Hr) Hd2)
    as (Hg3 & Hd3 & Hroot).
  rewrite putNode_eq. do 2 eexists. split; [done|].
  assert (Hg : grows d (putNode (rootKey (thash t')) (set_Tombstone unmarked (txNode ws)) d2).1)
    by (trans d1; [done | by trans d2]).
  split; [split; [|done..]|].
  - split; simpl; try done.
    + apply (holds_extends _ d1); [|done]. trans d2; [apply Hg2 | apply Hg3].
    + apply Hr.
  - apply Hg3, Hg2. by exists root.
Qed.

Lemma Update_refines U d ws t key v :
  universe U → db_ok U d → repr d ws t →
  path_in_U U (t_update t (nibbles key) v) (nibbles key) →
  ∃ d' ws', Update ws key v d = (d', ws', thash (t_update t (nibbles key) v)) ∧
    turned U d (t_update t (nibbles key) v) d' ws' ∧
    settled d' (thash (t_update t (nibbles key) v)).
Proof.
  intros HU Hd Hr Hp. unfold Update.
  destruct (updateDepthFirst_refines putState getState U HU state_step putState_step
    (rootNode ws) t (makeHex key) v d) as (d1 & root & -> & Hb).
  1-5: by (apply Hd || apply Hr || apply nibbles_wf || eauto using repr_kid).
  { done. }
  eapply switchRoot_spec; [done..|apply wf_update, Hr | done].
Qed.

Lemma WS_eta ws : WS (rootHash ws) (rootNode ws) (txNode ws) = ws.
Proof. by destruct ws. Qed.

(** Deleting below a path that does not exist writes nothing. *)
Lemma Delete_missing U d ws t key :
  universe U → db_ok U d → repr d ws t → sub t (nibbles key) = None →
  Trie.Delete ws key d = (d, ws, rootHash ws).
Proof.
  intros HU Hd Hr Hs. unfold Trie.Delete.
  rewrite (deleteDepthFirst_missing putState getState U HU (rootNode ws) t (makeHex key) d);
    [|by (apply Hd || apply Hr || apply nibbles_wf || eauto using repr_kid)..].
  unfold switchRoot. rewrite decide_True by done. by rewrite WS_eta.
Qed.

Lemma sub_lookup t p : sub t p = None → t_lookup t p = [].
Proof.
  revert t. induction p as [|i p IH]; intros t; simpl; [done|]. destruct (kid t i); auto.
Qed.

Lemma Delete_refines U d ws t key :
  universe U → db_ok U d → repr d ws t →
  path_in_U U (t_delete t (nibbles key)) (nibbles key) →
  ∃ d' ws', Trie.Delete ws key d = (d', ws', thash (t_delete t (nibbles key))) ∧
    turned U d (t_delete t (nibbles key)) d' ws' ∧
    (thash (t_delete t (nibbles key)) ≠ rootHash ws → settled d' (thash (t_delete t (nibbles key)))).
Proof.
  intros HU Hd Hr Hp. destruct (sub t (nibbles key)) as [c|] eqn:E.
  - unfold Trie.Delete.
    destruct (deleteDepthFirst_refines putState getState U HU state_step putState_step
      (rootNode ws) t (makeHex key) d) as (d1 & root & -> & Hb).
    1-5: by (apply Hd || apply Hr || apply nibbles_wf || eauto using repr_kid).
    { done. }
    { by eexists. }
    change (map idx (makeHex key)) with (nibbles key) in *.
    destruct (switchRoot_spec U d d1 ws t (t_delete t (nibbles key)) root) as (d' & ws' & -> & Ht & Hs);
      [done..|apply wf_delete, Hr | done |]. eauto.
  - rewrite (Delete_missing U d ws t key HU Hd Hr E).
    rewrite t_delete_absent by by apply sub_lookup. rewrite (rp_hash _ _ _ Hr).
    exists d, ws. split_and!; [done | by split | done].
Qed.

(** ** Looking up *)

Lemma Lookup_refines U d ws t key :
  universe U → db_ok U d → repr d ws t →
  Lookup ws key d = match t_lookup t (nibbles key) with
                    | [] => Err (CoreError ERR_NOT_FOUND "key does not exists")
                    | v => Ok v
                    end.
Proof.
  intros HU Hd Hr. unfold Lookup.
  by rewrite (lookupDepthFirst_refines getState U HU (rootNode ws) t (makeHex key) d)
    by (apply Hd || apply Hr || apply nibbles_wf || eauto using repr_kid).
Qed.

(** ** Creating and rebasing *)

Lemma NewMptWorldState_refines U d :
  universe U → db_ok U d → U (tcontent t_empty) →
  ∃ d' ws', NewMptWorldState d = (d', Some ws') ∧ repr d' ws' t_empty ∧ db_ok U d' ∧
    extends getState d d' ∧ (∀ h, is_Some (getTxRoot h d) → is_Some (getTxRoot h d')) ∧
    (∀ h, h ≠ rootHash ws' → settled d h → settled d' h) ∧
    (∀ k, ¬ trie_key k → contents d' !! k = contents d !! k).
Proof.
  intros HU Hd HUe. unfold NewMptWorldState.
  rewrite ns_put, rootKey_eq, putNode_eq.
  destruct (put_spec putState getState U HU d emptyNode (ok_state _ _ Hd) HUe) as (Hg & Hs & He).
  set (h := node_hash emptyNode) in *. set (d1 := (putState h emptyNode d).1) in *.
  assert (Hd1 : db_ok U d1).
  { split; [done|]. intros h' n. unfold d1, putState, getTxRoot. rewrite getNode_putNode.
    rewrite decide_False by (intros Heq; by apply (rootKey_stateKey h' h)). apply Hd. }
  destruct (putRoot_grows U h emptyNode d1 eq_refl Hd1) as (Hg2 & Hd2 & Hr2).
  set (d2 := (putNode (rootKey h) emptyNode d1).1) in *.
  do 2 eexists. split; [done|]. split_and!; [|done|by trans d1; [|apply Hg2]|..].
  - split; simpl; try done; [by apply wf_empty|].
    apply (holds_extends _ d1); [apply Hg2|]. apply (holds_intro _ _ _ emptyNode); [done..|].
    intros i c. by rewrite kid_empty.
  - intros h' Hh'. apply Hg2. unfold d1, putState, getTxRoot. rewrite getNode_putNode.
    by rewrite decide_False by (intros Heq; by apply (rootKey_stateKey h' h)).
  - simpl. intros h' Hne (n & Hn & Ht). apply Hg2. exists n. unfold d1. rewrite ns_get.
    by rewrite decide_False by congruence.
  - intros k Hk. rewrite (gr_frame _ _ Hg2) by done. apply putNode_contents.
    intros <-. apply Hk. exists h. by left.
Qed.

(** Rebasing to the root of a stored trie gives that trie back. *)
Lemma Rebase_refines U d ws t0 t :
  universe U → db_ok U d → repr d ws t0 →
  wf_tree t → holds getState d t → is_Some (getTxRoot (thash t) d) →
  ∃ d' ws', Rebase ws (thash t) d = (d', ws', None) ∧ turned U d t d' ws'.
Proof.
  intros HU Hd Hr Hwf Ht [tx Htx]. unfold Rebase.
  destruct (Ht [] t eq_refl) as (n & Hn & Hc). rewrite Hn, rootKey_eq.
  change (getNode (rootKey (thash t)) d) with (getTxRoot (thash t) d). rewrite Htx.
  assert (Hh : node_hash (set_Tombstone unmarked n) = thash t).
  { rewrite node_hash_content, thash_content. by f_equal. }
  rewrite ns_put, Hh.
  assert (HUn : U (content_of (set_Tombstone unmarked n))) by (by apply (ok_state _ _ Hd _ _ Hn)).
  destruct (put_spec putState getState U HU d (set_Tombstone unmarked n) (ok_state _ _ Hd) HUn)
    as (Hg1 & Hs1 & He1). rewrite Hh in *.
  destruct (step_grows U d (putState (thash t) (set_Tombstone unmarked n) d).1 He1
    (putState_step (thash t) (set_Tombstone unmarked n) d eq_refl) Hd Hs1) as [Hgr1 Hd1].
  set (d1 := (putState (thash t) (set_Tombstone unmarked n) d).1) in *.
  rewrite !rootKey_eq, putNode_eq.
  destruct (putRoot_grows U (thash t) (set_Tombstone unmarked tx) d1 (ok_tx _ _ Hd _ _ Htx) Hd1)
    as (Hgr2 & Hd2 & Hroot).
  set (d2 := (putNode (rootKey (thash t)) (set_Tombstone unmarked tx) d1).1) in *.
  rewrite putNode_eq.
  destruct (putRoot_grows U (rootHash ws) (set_Tombstone marked (txNode ws)) d2 (rp_tx _ _ _ Hr) Hd2)
    as (Hgr3 & Hd3 & _).
  do 2 eexists. split; [done|].
  split; [|done|by trans d1; [|trans d2]].
  split; simpl; try done.
  - apply (holds_extends _ d); [|done]. trans d1; [done|]. trans d2; [apply Hgr2 | apply Hgr3].
  - by apply (ok_tx _ _ Hd _ _ Htx).
  - by apply Hgr3.
Qed.

Lemma flatKey_not_trie h : ¬ trie_key (flatKey h).
Proof. intros (h' & [Heq|Heq]); by apply tableKey_ne in Heq. Qed.

(** [Rebase] writes trie keys only, whatever it is given. *)
Lemma Rebase_frame ws h d k :
  ¬ trie_key k → contents (Rebase ws h d).1.1 !! k = contents d !! k.
Proof.
  intros Hk.
  assert (Hs : ∀ h', stateKey h' ≠ k) by (intros h' <-; apply Hk; exists h'; by left).
  assert (Hr : ∀ h', rootKey h' ≠ k) by (intros h' <-; apply Hk; exists h'; by right).
  unfold Rebase. destruct (getState h d) as [n|]; [|done].
  rewrite !rootKey_eq. destruct (getNode (rootKey h) d) as [tx|]; [|done].
  rewrite ns_put. rewrite (putNode_eq (rootKey _)). rewrite rootKey_eq. rewrite (putNode_eq (rootKey _)).
  simpl. rewrite !putNode_contents by done. unfold putState. by rewrite putNode_contents.
Qed.

(** Rebasing to a hash that is not stored fails and changes nothing. *)
Lemma Rebase_unknown ws h d :
  getState h d = None ∨ getTxRoot h d = None →
  ∃ msg, Rebase ws h d = (d, ws, Some (CoreError ERR_NOT_FOUND msg)).
Proof.
  intros H. unfold Rebase. rewrite rootKey_eq.
  destruct (getState h d) as [n|] eqn:E; [|by eauto].
  destruct H as [[=]|H]. unfold getTxRoot in H. rewrite H. by eauto.
Qed.
(** ** Cleaning up *)

Lemma cleanup_null_fold fuel (del : @deleter D) (get : @getter D) l d :
  Forall (λ h, h = null) l →
  fold_left (λ acc childHash,
    let! d := acc in
    if decide (childHash = null) then Ret d
    else match get childHash d with
         | Some childNode => cleanupDepthFirst fuel del get childNode d
         | None => Ret d
         end) l (Ret d) = Ret d.
Proof. induction 1 as [|h l -> _ IH]; [done|]. simpl. exact IH. Qed.

(** One step of fuel is enough for a node without children. *)
Lemma cleanup_leaf fuel del get n (d : D) :
  Idxs n = Idxs emptyNode →
  cleanupDepthFirst (S fuel) del get n d =
    Ret (if decide (Tombstone n = unmarked) then d else (del (node_hash n) d).1).
Proof.
  intros Hn. simpl. case_decide; [done|]. rewrite Hn, cleanup_null_fold; [done|].
  by apply Forall_replicate.
Qed.

Lemma cleanup_unmarked fuel del get n (d : D) :
  Tombstone n = unmarked → cleanupDepthFirst (S fuel) del get n d = Ret d.
Proof. intros Hn. simpl. by rewrite decide_True. Qed.

Lemma rootKey_txNodeKey h h' : rootKey h ≠ txNodeKey h'.
Proof. by apply tableKey_ne. Qed.

Lemma stateKey_txNodeKey h h' : stateKey h ≠ txNodeKey h'.
Proof. by apply tableKey_ne. Qed.

Lemma deleteNode_contents k (d : D) k' :
  k ≠ k' → contents (deleteNode k d).1 !! k' = contents d !! k'.
Proof. intros. unfold deleteNode. by rewrite delete_contents, lookup_delete_ne. Qed.

Lemma deleteNode_eq k (d : D) : deleteNode k d = ((deleteNode k d).1, None).
Proof. apply delete_eq. Qed.

Lemma getNode_deleteNode k (d : D) : getNode k (deleteNode k d).1 = None.
Proof.
  unfold getNode. destruct (Get k (deleteNode k d).1) as [b|] eqn:E; [|done].
  apply get_ok_iff in E. unfold deleteNode in E. by rewrite delete_contents, lookup_delete_eq in E.
Qed.

(** Cleaning up a settled world state keeps all its nodes and drops the
    record that makes it possible to rebase to it. *)
Lemma Cleanup_settled U fuel h d :
  db_ok U d → settled d h → is_Some (getTxRoot h d) →
  ∃ d', Cleanup (S fuel) h d = Ret (d', None) ∧ db_ok U d' ∧
    getTxRoot h d' = None ∧
    (∀ h', h' ≠ h → getTxRoot h' d' = getTxRoot h' d) ∧
    (∀ h', getState h' d' = getState h' d) ∧
    (∀ k, k ≠ rootKey h → (∀ h', k ≠ txNodeKey h') → contents d' !! k = contents d !! k).
Proof.
  intros Hd (n & Hn & Ht) [tx Htx]. unfold Cleanup.
  rewrite Hn, cleanup_unmarked by done. cbn [outcome_bind].
  change (getNode (tableKey tableTransactionRootByWorldState h) d) with (getTxRoot h d). rewrite Htx.
  rewrite cleanup_leaf by (by apply (ok_tx _ _ Hd _ _ Htx)). cbn [outcome_bind].
  rewrite rootKey_eq, deleteNode_eq. eexists. split; [done|].
  set (d1 := if decide (Tombstone tx = unmarked) then d else (deleteTx (node_hash tx) d).1).
  assert (H1 : ∀ k, (∀ h', k ≠ txNodeKey h') → contents d1 !! k = contents d !! k).
  { intros k Hk. unfold d1. case_decide; [done|]. apply deleteNode_contents. intros ?. by eapply Hk. }
  assert (Hk : ∀ k, k ≠ rootKey h → (∀ h', k ≠ txNodeKey h') →
                 contents (deleteNode (rootKey h) d1).1 !! k = contents d !! k).
  { intros k Hk1 Hk2. by rewrite deleteNode_contents, H1. }
  assert (Hroot : ∀ h', h' ≠ h → getTxRoot h' (deleteNode (rootKey h) d1).1 = getTxRoot h' d).
  { intros h' Hne. apply getNode_contents, Hk; [by intros ?%(inj _) | intros; apply rootKey_txNodeKey]. }
  assert (Hst : ∀ h', getState h' (deleteNode (rootKey h) d1).1 = getState h' d).
  { intros h'. apply getNode_contents, Hk; [intros Heq; by apply (rootKey_stateKey h h')
      | intros; apply stateKey_txNodeKey]. }
  split_and!; try done.
  - split; [by intros h' m; rewrite Hst; apply Hd|]. intros h' m.
    destruct (decide (h' = h)) as [->|Hne]; [|rewrite Hroot by done; apply Hd].
    unfold getTxRoot. by rewrite getNode_deleteNode.
  - apply getNode_deleteNode.
Qed.

(** A cleanup of another world state does not disturb [ws]. *)
Lemma repr_cleanup d d' ws t h :
  repr d ws t → h ≠ rootHash ws →
  (∀ h', h' ≠ h → getTxRoot h' d' = getTxRoot h' d) → (∀ h', getState h' d' = getState h' d) →
  repr d' ws t.
Proof.
  intros [H1 H2 H3 H4 H5 H6] Hne Hroot Hst. split; try done.
  - intros p c Hc. rewrite Hst. by apply H4 with p.
  - by rewrite Hroot.
Qed.

(** ** Sequences of changes *)

(** A change of a key: a new value, or [None] for a deletion. *)
Definition wchange : Type := bytes * option bytes.
Definition tchange (c : wchange) : change := (nibbles c.1, c.2).

Lemma map_fst_tchange cs : map fst (map tchange cs) = map nibbles (map fst cs).
Proof. by rewrite !map_map. Qed.

Lemma tchanges_wf cs : Forall (λ c, wf_path c.1) (map tchange cs).
Proof. apply Forall_map, Forall_true. intros c. apply nibbles_wf. Qed.

Lemma tchanges_nodup cs : NoDup (map fst cs) → NoDup (map fst (map tchange cs)).
Proof. rewrite map_fst_tchange. apply (NoDup_fmap_2 nibbles). Qed.

Definition Apply (ws : MptWorldState) (c : wchange) (d : D) : D * MptWorldState * Byte64 :=
  match c.2 with Some v => Update ws c.1 v d | None => Trie.Delete ws c.1 d end.

Fixpoint ApplyAll (ws : MptWorldState) (cs : list wchange) (d : D) : D * MptWorldState :=
  match cs with
  | [] => (d, ws)
  | c :: cs => let '(d, ws, _) := Apply ws c d in ApplyAll ws cs d
  end.

(** [U] covers every trie that occurs while the changes are applied to [t]. *)
Fixpoint covers (U : content → Prop) (t : tree) (cs : list wchange) : Prop :=
  match cs with
  | [] => True
  | c :: cs => covered U (t_apply t (tchange c)) ∧ covers U (t_apply t (tchange c)) cs
  end.

Lemma covered_path U t p : covered U t → path_in_U U t p.
Proof. intros H q c _ Hc. by apply (H q). Qed.

Lemma Apply_refines U d ws t c :
  universe U → db_ok U d → repr d ws t → covered U (t_apply t (tchange c)) →
  ∃ d' ws', Apply ws c d = (d', ws', thash (t_apply t (tchange c))) ∧
    turned U d (t_apply t (tchange c)) d' ws' ∧
    (thash (t_apply t (tchange c)) ≠ rootHash ws → settled d' (thash (t_apply t (tchange c)))).
Proof.
  intros HU Hd Hr Hc. unfold Apply, t_apply in *. destruct c as [k [v|]]; simpl in *.
  - destruct (Update_refines U d ws t k v) as (d' & ws' & -> & Ht & Hs); eauto using covered_path.
  - apply Delete_refines; eauto using covered_path.
Qed.

Lemma ApplyAll_refines U d ws t cs :
  universe U → db_ok U d → repr d ws t → covers U t cs →
  ∃ d' ws', ApplyAll ws cs d = (d', ws') ∧ turned U d (t_apply_all t (map tchange cs)) d' ws'.
Proof.
  intros HU. revert d ws t. induction cs as [|c cs IH]; intros d ws t Hd Hr; simpl.
  - intros _. exists d, ws. split; [done | by split].
  - intros [Hc Hcs]. destruct (Apply_refines U d ws t c HU Hd Hr Hc) as (d1 & ws1 & -> & [Hr1 Hd1 Hg1] & _).
    destruct (IH d1 ws1 _ Hd1 Hr1 Hcs) as (d2 & ws2 & -> & [Hr2 Hd2 Hg2]).
    exists d2, ws2. split; [done|]. split; [done..|by trans d1].
Qed.

(** ** The finite map a world state stands for *)

(** Setting a key to the empty value is the same as deleting it: [Lookup]
    reports a value of length zero as missing. *)
Definition m_apply (m : gmap bytes bytes) (c : wchange) : gmap bytes bytes :=
  match c.2 with Some (b :: v) => <[c.1 := b :: v]> m | _ => delete c.1 m end.
Definition m_apply_all (m : gmap bytes bytes) (cs : list wchange) : gmap bytes bytes :=
  fold_left m_apply cs m.

Definition models (m : gmap bytes bytes) (t : tree) : Prop :=
  ∀ key, t_lookup t (nibbles key) = default [] (m !! key) ∧ m !! key ≠ Some [].

Lemma models_empty : models ∅ t_empty.
Proof. intros key. by rewrite t_lookup_empty, lookup_empty. Qed.

Lemma models_apply m t c :
  wf_tree t → models m t → models (m_apply m c) (t_apply t (tchange c)).
Proof.
  intros Ht Hm key. destruct (Hm key) as [Hk Hne].
  unfold m_apply, t_apply. destruct c as [k [v|]]; simpl.
  - destruct (decide (k = key)) as [->|Hkey].
    + rewrite t_lookup_update_eq by auto with go. destruct v; by simplify_map_eq.
    + rewrite t_lookup_update_ne; [|auto with go|auto with go|by intros ?%(inj _)].
      destruct v; by simplify_map_eq.
  - destruct (decide (k = key)) as [->|Hkey].
    + rewrite t_lookup_delete_eq by auto with go. by simplify_map_eq.
    + rewrite t_lookup_delete_ne; [|auto with go|auto with go|by intros ?%(inj _)].
      by simplify_map_eq.
Qed.

Lemma models_apply_all m t cs :
  wf_tree t → models m t → models (m_apply_all m cs) (t_apply_all t (map tchange cs)).
Proof.
  revert m t. induction cs as [|c cs IH]; intros m t Ht Hm; [done|].
  unfold m_apply_all, t_apply_all in *. simpl. apply IH; [auto with go | by apply models_apply].
Qed.

Lemma Lookup_models U d ws t m key :
  universe U → db_ok U d → repr d ws t → models m t →
  Lookup ws key d = match m !! key with
                    | Some v => Ok v
                    | None => Err (CoreError ERR_NOT_FOUND "key does not exists")
                    end.
Proof.
  intros HU Hd Hr Hm. rewrite (Lookup_refines U d ws t key HU Hd Hr).
  destruct (Hm key) as [-> Hne]. by destruct (m !! key) as [[|b v]|].
Qed.
End world_state.
