(* ===== verification/Concrete.v ===== *)
(** * Concrete instances of the library interfaces

    The witnesses of the development evaluate the model on concrete inputs,
    for which the interfaces of [Db] need concrete instances: a self-delimiting
    serialization built by type class resolution, an executable stand-in for
    the hash function, and decision procedures for the collision-freedom
    hypotheses. *)

From Stdlib Require Import Strings.Byte.
From S2P Require Import Prelude Bytes Db Trie TrieSpec TrieFacts WorldState.

(** ** Serialization *)

Class Wire (A : Type) := {
  enc : A → bytes;
  dec : bytes → option (A * bytes);
  dec_enc x r : dec (enc x ++ r) = Some (x, r);
}.

#[global] Program Instance wire_byte : Wire byte := {
  enc b := [b];
  dec l := match l with b :: r => Some (b, r) | [] => None end;
}.
Next Obligation. done. Qed.

Definition wire_iso {A B} `{Wire B} (f : A → B) (g : B → A) (Hgf : ∀ x, g (f x) = x) : Wire A.
Proof.
  refine {| enc x := enc (f x);
            dec l := match dec l with Some (y, r) => Some (g y, r) | None => None end |}.
  intros x r. by rewrite dec_enc, Hgf.
Defined.

#[global] Instance wire_prod {A B} `{Wire A, Wire B} : Wire (A * B).
Proof.
  refine {| enc x := enc x.1 ++ enc x.2;
            dec l := match dec l with
                     | Some (a, r) => match dec r with Some (b, r) => Some ((a, b), r) | None => None end
                     | None => None
                     end |}.
  intros [a b] r. simpl. by rewrite <- (assoc_L (++)), !dec_enc.
Defined.

(** A list is written element by element, each after a continuation byte. *)
Fixpoint enc_list `{Wire A} (l : list A) : bytes :=
  match l with [] => [x00] | a :: l => x01 :: enc a ++ enc_list l end.

Fixpoint dec_list `{Wire A} (fuel : nat) (b : bytes) : option (list A * bytes) :=
  match fuel, b with
  | S fuel, c :: r =>
      if decide (c = x00) then Some ([], r)
      else match dec r with
           | Some (a, r) => match dec_list fuel r with Some (l, r) => Some (a :: l, r) | None => None end
           | None => None
           end
  | _, _ => None
  end.

Lemma dec_enc_list `{Wire A} fuel (l : list A) r :
  (length l < fuel)%nat → dec_list fuel (enc_list l ++ r) = Some (l, r).
Proof.
  revert fuel. induction l as [|a l IH]; intros [|fuel] Hf; simpl in *; try lia; [done|].
  rewrite <- (assoc_L (++)), dec_enc, IH by lia. done.
Qed.

Lemma length_enc_list `{Wire A} (l : list A) : (length l < length (enc_list l))%nat.
Proof. induction l as [|a l IH]; simpl; [lia|]. rewrite length_app. lia. Qed.

#[global] Instance wire_list {A} `{Wire A} : Wire (list A).
Proof.
  refine {| enc l := enc_list l; dec b := dec_list (S (length b)) b |}.
  intros l r. apply dec_enc_list. rewrite length_app. pose proof (length_enc_list l). lia.
Defined.

#[global] Instance wire_bool : Wire bool :=
  wire_iso (λ b : bool, if b then x01 else x00) (λ b, if decide (b = x00) then false else true)
    (λ b, match b with true => eq_refl | false => eq_refl end).

#[global] Instance wire_option {A} `{Wire A} : Wire (option A) :=
  wire_iso (λ o, match o with Some a => [a] | None => [] end)
    (λ l, match l with a :: _ => Some a | [] => None end)
    (λ o, match o with Some _ => eq_refl | None => eq_refl end).

(** A fixed-size array of bytes is written as it is. *)
#[global] Instance wire_arr {n} : Wire (arr byte n).
Proof.
  refine {| enc a := Bytes a;
            dec l := if decide (n ≤ length l)%nat then Some (BytesToArr n (take n l), drop n l) else None |}.
  intros a r. pose proof (arr_length a) as Ha. unfold Bytes. rewrite decide_True by (rewrite length_app; lia).
  rewrite take_app_length', drop_app_length' by done.
  f_equal. f_equal. apply BytesToArr_Bytes.
Defined.

(** An array of arrays is written as the list of its elements. *)
Lemma arr_list_default {A} (z : A) n (a : arr A n) :
  match arr_of_list (arr_list a) with Some a => a | None => arr_zero z n end = a.
Proof. by rewrite arr_of_list_list. Qed.

#[global] Instance wire_arr_arr {m n} : Wire (arr (arr byte m) n) :=
  wire_iso arr_list
    (λ l, match arr_of_list l with Some a => a | None => arr_zero (arr_zero x00 m) n end)
    (arr_list_default (arr_zero x00 m) n).

Fixpoint enc_pos (p : positive) : bytes :=
  match p with xH => [x00] | xO p => x01 :: enc_pos p | xI p => x02 :: enc_pos p end.
Fixpoint dec_pos (b : bytes) : option (positive * bytes) :=
  match b with
  | c :: r =>
      if decide (c = x00) then Some (xH, r)
      else match dec_pos r with
           | Some (p, r) => Some (if decide (c = x01) then xO p else xI p, r)
           | None => None
           end
  | [] => None
  end.

#[global] Instance wire_positive : Wire positive.
Proof.
  refine {| enc := enc_pos; dec := dec_pos |}.
  intros p r. induction p as [p IH|p IH|]; simpl; rewrite ?IH; done.
Defined.

Definition Z_sign (z : Z) : bool * positive :=
  match z with Z0 => (false, xH) | Zpos p => (false, Pos.succ p) | Zneg p => (true, p) end.
Definition sign_Z (x : bool * positive) : Z :=
  if x.1 then Zneg x.2 else Z.pred (Zpos x.2).
Lemma sign_Z_sign z : sign_Z (Z_sign z) = z.
Proof. destruct z; unfold sign_Z; simpl; lia. Qed.

#[global] Instance wire_Z : Wire Z := wire_iso Z_sign sign_Z sign_Z_sign.

#[global] Instance wire_node : Wire node :=
  wire_iso (λ n, (Idxs n, Value n, Tombstone n)) (λ '(i, v, t), Node i v t)
    (λ n, match n with Node _ _ _ => eq_refl end).

(** A serialization in the sense of the interface [Codec]. *)
Definition codec_of_wire {A} `{Wire A} : Codec A := {|
  Serialize x := Ok (enc x);
  Deserialize b := match dec b with
                   | Some (x, []) => Ok x
                   | _ => Err (StdError "malformed data")
                   end;
|}.

Lemma codec_of_wire_laws {A} `{Wire A} : @CodecLaws A codec_of_wire.
Proof.
  split; simpl; [by eauto|]. intros x b [= <-].
  rewrite <- (app_nil_r (enc x)), dec_enc. done.
Qed.

(** ** Hashing *)

(** A polynomial hash of the data modulo 2^60, padded to 64 bytes. *)
Definition sample_step (acc : Z) (b : byte) : Z :=
  match Byte.to_N b with
  | N0 => acc + 65521
  | n => Z.land (acc * 65599 + Z.of_N n) 1152921504606846975
  end.

Definition sample_hash : Sha512 := λ data,
  BytesToByte64 (Bytes (Uint64ToByte8 (fold_left sample_step data 7))).

(** ** Deciding collision freedom for a finite universe *)

(** The contents of all nodes of a tree. *)
Fixpoint tree_contents `{Sha512} (t : tree) : list content :=
  tcontent t ::
  match t with
  | Tree _ kids =>
      (fix go (l : list (option tree)) : list content :=
         match l with
         | [] => []
         | Some c :: l => tree_contents c ++ go l
         | None :: l => go l
         end) kids
  end.

Lemma tree_contents_kid `{Sha512} t i c x :
  kid t i = Some c → x ∈ tree_contents c → x ∈ tree_contents t.
Proof.
  destruct t as [v kids]. unfold kid. simpl. intros Hk Hx. right. revert i Hk.
  induction kids as [|o kids IH]; intros [|i] Hk; simpl in *; try done.
  - destruct o; simplify_eq. apply elem_of_app. by left.
  - destruct o; [apply elem_of_app; right|]; by apply (IH i).
Qed.

Lemma sub_contents `{Sha512} t p c : sub t p = Some c → tcontent c ∈ tree_contents t.
Proof.
  revert t. induction p as [|i p IH]; intros t; simpl.
  - intros [= ->]. destruct c. left.
  - destruct (kid t i) as [k|] eqn:E; [|done]. intros Hc. by eapply tree_contents_kid, IH.
Qed.

(** The universe made of a list of trees. *)
Definition U_of `{Sha512} (ts : list tree) : content → Prop :=
  λ c, c ∈ concat (map tree_contents ts).

Lemma U_of_covered `{Sha512} ts t : t ∈ ts → covered (U_of ts) t.
Proof.
  intros Ht p c Hc. unfold U_of. apply sub_contents in Hc.
  apply list_elem_of_In, in_concat. exists (tree_contents t).
  split; [|by apply list_elem_of_In]. by apply in_map, list_elem_of_In.
Qed.

Definition universe_b `{Sha512} (cs : list content) : bool :=
  let l := map (λ c, (chash c, c)) cs in
  forallb (λ x, negb (bool_decide (x.1 = null)) &&
    forallb (λ y, negb (bool_decide (x.1 = y.1)) || bool_decide (x.2 = y.2)) l) l.

Lemma universe_b_sound `{Sha512} ts :
  universe_b (concat (map tree_contents ts)) = true → universe (U_of ts).
Proof.
  unfold universe_b, U_of. generalize (concat (map tree_contents ts)) as cs. intros cs.
  rewrite forallb_forall. intros H1.
  assert (H2 : ∀ c, c ∈ cs → chash c ≠ null ∧
    ∀ c', c' ∈ cs → negb (bool_decide (chash c = chash c')) || bool_decide (c = c') = true).
  { intros c Hc%list_elem_of_In.
    destruct (andb_prop _ _ (H1 (chash c, c) (in_map (λ c, (chash c, c)) _ _ Hc))) as [Hn Hall].
    split; [by apply negb_true_iff, bool_decide_eq_false in Hn|].
    intros c' Hc'%list_elem_of_In. rewrite forallb_forall in Hall.
    exact (Hall (chash c', c') (in_map (λ c, (chash c, c)) _ _ Hc')). }
  split.
  - intros c c' Hc Hc' Heq. destruct (H2 c Hc) as [_ Hall]. specialize (Hall c' Hc').
    rewrite bool_decide_true in Hall by done. by apply bool_decide_eq_true in Hall.
  - intros c Hc. by apply H2.
Qed.

(** The trees that occur while changes are applied. *)
Fixpoint trees (t : tree) (cs : list wchange) : list tree :=
  t :: match cs with [] => [] | c :: cs => trees (t_apply t (tchange c)) cs end.

Lemma trees_head t cs : t ∈ trees t cs.
Proof. destruct cs; left. Qed.

Lemma covers_trees `{Sha512} t cs ts :
  trees t cs ⊆ ts → covers (U_of ts) t cs.
Proof.
  revert t. induction cs as [|c cs IH]; intros t Hs; simpl in *; [done|].
  split; [apply U_of_covered, Hs; right; apply trees_head | apply IH].
  intros x Hx. apply Hs. by right.
Qed.
