(* ===== verification/TrieTheorems.v ===== *)
(** * Theorems about the world state

    The properties of [src/core/trie] that the consensus layer builds on, each
    with a witness that evaluates its hypotheses on a concrete world state. *)

From Stdlib Require Import Strings.Byte.
From S2P Require Import Prelude Bytes Db Trie TrieSpec TrieFacts WorldState Concrete.

Section theorems.
Context {D : Type} {dbo : Database D} {dbl : DatabaseLaws D}.
Context {sha : Sha512} {cdc : Codec node} {cdl : CodecLaws node}.

(** C10: A new world state followed by any sequence of updates and deletes behaves as a finite
    map from keys to non-empty values: a lookup returns the value last written, and an error
    when the key was deleted, never written, or written with an empty value. *)
Theorem world_state_is_map U (d : D) cs key :
  universe U → db_ok U d → U (tcontent t_empty) → covers U t_empty cs →
  ∃ d1 ws1 d2 ws2,
    NewMptWorldState d = (d1, Some ws1) ∧
    ApplyAll ws1 cs d1 = (d2, ws2) ∧
    Lookup ws2 key d2 =
      match m_apply_all ∅ cs !! key with
      | Some v => Ok v
      | None => Err (CoreError ERR_NOT_FOUND "key does not exists")
      end.
Proof.
  intros HU Hd He Hcs.
  destruct (NewMptWorldState_refines U d HU Hd He) as (d1 & ws1 & Hnew & Hr1 & Hd1 & _).
  destruct (ApplyAll_refines U d1 ws1 t_empty cs HU Hd1 Hr1 Hcs) as (d2 & ws2 & Happ & [Hr2 Hd2 _]).
  exists d1, ws1, d2, ws2. split_and!; [done..|].
  apply (Lookup_models U d2 ws2 _ _ key HU Hd2 Hr2).
  apply models_apply_all; [apply wf_empty | apply models_empty].
Qed.

(** C11: Changes of distinct keys lead to the same root hash in whatever order they are applied,
    deletes and keys that are prefixes of each other included. *)
Theorem root_hash_order_independent U (d : D) ws t cs cs' :
  universe U → db_ok U d → repr d ws t →
  covers U t cs → covers U t cs' → NoDup (map fst cs) → cs ≡ₚ cs' →
  Hash (ApplyAll ws cs d).2 = Hash (ApplyAll ws cs' d).2.
Proof.
  intros HU Hd Hr Hc Hc' Hnd Hp.
  destruct (ApplyAll_refines U d ws t cs HU Hd Hr Hc) as (d1 & ws1 & -> & [Hr1 _ _]).
  destruct (ApplyAll_refines U d ws t cs' HU Hd Hr Hc') as (d2 & ws2 & -> & [Hr2 _ _]).
  unfold Hash. simpl. rewrite (rp_hash _ _ _ Hr1), (rp_hash _ _ _ Hr2). f_equal.
  apply t_apply_all_perm;
    [apply Hr | apply tchanges_wf | by apply tchanges_nodup | by apply Permutation_map].
Qed.

(** C12: Absent hash collisions, two world states with the same root hash answer every lookup
    alike, even over different databases. *)
Theorem root_hash_binds_state U (d1 d2 : D) ws1 ws2 t1 t2 key :
  universe U → db_ok U d1 → db_ok U d2 → repr d1 ws1 t1 → repr d2 ws2 t2 →
  Hash ws1 = Hash ws2 → Lookup ws1 key d1 = Lookup ws2 key d2.
Proof.
  intros HU Hd1 Hd2 Hr1 Hr2 Heq.
  rewrite (Lookup_refines U d1 ws1 t1 key HU Hd1 Hr1), (Lookup_refines U d2 ws2 t2 key HU Hd2 Hr2).
  unfold Hash in Heq. rewrite (rp_hash _ _ _ Hr1), (rp_hash _ _ _ Hr2) in Heq.
  rewrite (thash_binds U t1 t2 (nibbles key) HU); [done | | | done].
  - eapply holds_covered; [apply Hd1 | apply Hr1].
  - eapply holds_covered; [apply Hd2 | apply Hr2].
Qed.

(** C32: After any sequence of updates and deletes on a world state that stands for a trie in
    the database, the hashed contents being free of collisions, rebasing to the root hash from
    before them succeeds and restores that hash and every look-up. *)
Theorem rebase_restores_view U (d : D) ws t cs :
  universe U → db_ok U d → repr d ws t → covers U t cs →
  let '(d1, ws1) := ApplyAll ws cs d in
  ∃ d2 ws2, Rebase ws1 (Hash ws) d1 = (d2, ws2, None) ∧
    Hash ws2 = Hash ws ∧ ∀ key, Lookup ws2 key d2 = Lookup ws key d.
Proof.
  intros HU Hd Hr Hcs.
  destruct (ApplyAll_refines U d ws t cs HU Hd Hr Hcs) as (d1 & ws1 & -> & [Hr1 Hd1 Hg1]).
  unfold Hash. pose proof (rp_root _ _ _ Hr) as Hroot. rewrite (rp_hash _ _ _ Hr) in *.
  destruct (Rebase_refines U d1 ws1 _ t HU Hd1 Hr1 (rp_wf _ _ _ Hr)) as (d2 & ws2 & Hreb & [Hr2 Hd2 _]).
  - apply (holds_extends _ d); [apply Hg1 | apply Hr].
  - by apply Hg1.
  - exists d2, ws2. split_and!; [done | apply Hr2|]. intros key.
    by rewrite (Lookup_refines U d ws t key HU Hd Hr), (Lookup_refines U d2 ws2 t key HU Hd2 Hr2).
Qed.

(** Deleting a key that has no value returns the unchanged root hash and changes no lookup. *)
Theorem delete_absent_keeps_root U (d : D) ws t key e :
  universe U → db_ok U d → repr d ws t → Lookup ws key d = Err e →
  ∃ d' ws', Trie.Delete ws key d = (d', ws', Hash ws) ∧
    ∀ key', Lookup ws' key' d' = Lookup ws key' d.
Proof.
  intros HU Hd Hr Hl.
  assert (Habs : t_lookup t (nibbles key) = []).
  { rewrite (Lookup_refines U d ws t key HU Hd Hr) in Hl. by destruct (t_lookup t (nibbles key)). }
  pose proof (t_delete_absent _ _ Habs) as Hdel.
  destruct (Delete_refines U d ws t key HU Hd Hr) as (d' & ws' & Heq & [Hr' Hd' _] & _).
  { apply covered_path. rewrite Hdel. eapply holds_covered; [apply Hd | apply Hr]. }
  rewrite Hdel in *. exists d', ws'. unfold Hash. rewrite (rp_hash _ _ _ Hr). split; [done|].
  intros key'. by rewrite (Lookup_refines U d ws t key' HU Hd Hr), (Lookup_refines U d' ws' t key' HU Hd' Hr').
Qed.

(** Cleaning up a settled world state that is not the current one keeps all its state nodes and
    every lookup of the current state, but drops the record of its transaction root, so that no
    world state can be rebased to it any more. *)
Theorem cleanup_forgets_state U fuel (d : D) ws t h :
  universe U → db_ok U d → repr d ws t →
  settled d h → is_Some (getTxRoot h d) → h ≠ Hash ws →
  ∃ d', Cleanup (S fuel) h d = Ret (d', None) ∧
    (∀ key, Lookup ws key d' = Lookup ws key d) ∧
    is_Some (getState h d') ∧
    ∃ msg, Rebase ws h d' = (d', ws, Some (CoreError ERR_NOT_FOUND msg)).
Proof.
  intros HU Hd Hr Hs Hroot Hne.
  destruct (Cleanup_settled U fuel h d Hd Hs Hroot) as (d' & Hcl & Hd' & Hgone & Hkeep & Hst & _).
  pose proof (repr_cleanup d d' ws t h Hr Hne Hkeep Hst) as Hr'.
  exists d'. split_and!; [done | | | ].
  - intros key. by rewrite (Lookup_refines U d ws t key HU Hd Hr), (Lookup_refines U d' ws t key HU Hd' Hr').
  - rewrite Hst. destruct Hs as (n & -> & _). by eexists.
  - apply Rebase_unknown. by right.
Qed.

(** A registered transaction is found with its block id after a rebase to any world state, and
    no other transaction record changes: the transaction table is shared by all world-state
    views. *)
Theorem transaction_record_survives_rebase (d : D) ws ws' h txId blockId :
  let '(d1, err) := RegisterTransaction ws txId blockId d in
  let '(d2, ws2, _) := Rebase ws' h d1 in
  err = None ∧ HasTransaction ws2 txId d2 = Ok blockId ∧
  ∀ txId', txId' ≠ txId →
    result_opt (HasTransaction ws2 txId' d2) = result_opt (HasTransaction ws txId' d).
Proof.
  unfold RegisterTransaction, registerTransactionToFlatKV.
  rewrite put_eq. set (d1 := (Put _ _ d).1).
  destruct (Rebase ws' h d1) as [[d2 ws2] e] eqn:E. split; [done|].
  assert (Hf : ∀ x, contents d2 !! flatKey x = contents d1 !! flatKey x).
  { intros x. rewrite <- (Rebase_frame ws' h d1) by apply flatKey_not_trie. by rewrite E. }
  unfold HasTransaction, hasTransactionInFlatKV. fold (flatKey txId). split.
  - assert (Get (flatKey txId) d2 = Ok (Bytes blockId)) as ->.
    { apply get_ok_iff. rewrite Hf. unfold d1. by rewrite put_contents, lookup_insert_eq. }
    unfold BytesToByte64. by rewrite BytesToArr_Bytes.
  - intros txId' Hne. fold (flatKey txId').
    assert (Hc : contents d2 !! flatKey txId' = contents d !! flatKey txId').
    { rewrite Hf. unfold d1. rewrite put_contents, lookup_insert_ne; [done|]. by intros ?%(inj _). }
    rewrite <- !get_contents in Hc.
    destruct (Get (flatKey txId') d2), (Get (flatKey txId') d); simpl in Hc; by simplify_eq.
Qed.
End theorems.

(** ** Witnesses *)

Section witnesses.
#[local] Instance w_hash : Sha512 := sample_hash.
#[local] Instance w_codec : Codec node := codec_of_wire.
#[local] Instance w_laws : CodecLaws node := codec_of_wire_laws.

(** Two keys are written and a third one, which extends the first, is deleted. *)
Definition w_cs : list wchange :=
  [([x61], Some [x31]); ([x62], Some [x32]); ([x61; x62], None)].
Definition w_trees : list tree := trees t_empty w_cs ++ trees t_empty (rev w_cs).
Definition w_U : content → Prop := U_of w_trees.

Definition w_db : gmap bytes bytes := (NewMptWorldState ∅).1.
Definition w_ws : MptWorldState :=
  default (WS null emptyNode emptyNode) (NewMptWorldState (∅ : gmap bytes bytes)).2.

Lemma w_universe : universe w_U.
Proof. apply universe_b_sound. vm_compute. reflexivity. Qed.

Lemma w_empty : w_U (tcontent t_empty).
Proof. apply (U_of_covered w_trees t_empty) with []; [left | done]. Qed.

Lemma db_ok_empty U : db_ok U (∅ : gmap bytes bytes).
Proof. by split; intros h n. Qed.

Lemma w_start : db_ok w_U w_db ∧ repr w_db w_ws t_empty.
Proof.
  destruct (NewMptWorldState_refines w_U ∅ w_universe (db_ok_empty _) w_empty)
    as (d & ws & Heq & Hr & Hd & _).
  unfold w_db, w_ws. by rewrite Heq.
Qed.

Lemma w_covers : covers w_U t_empty w_cs ∧ covers w_U t_empty (rev w_cs).
Proof. split; apply covers_trees; intros x Hx; apply elem_of_app; auto. Qed.

Lemma world_state_is_map_witness :
  ∃ d1 ws1 d2 ws2,
    NewMptWorldState (∅ : gmap bytes bytes) = (d1, Some ws1) ∧
    ApplyAll ws1 w_cs d1 = (d2, ws2) ∧ Lookup ws2 [x61] d2 = Ok [x31].
Proof.
  apply (world_state_is_map w_U ∅ w_cs [x61]);
    [apply w_universe | apply db_ok_empty | apply w_empty | apply w_covers].
Defined.

Lemma root_hash_order_independent_witness :
  Hash (ApplyAll w_ws w_cs w_db).2 = Hash (ApplyAll w_ws (rev w_cs) w_db).2.
Proof.
  apply (root_hash_order_independent w_U w_db w_ws t_empty w_cs (rev w_cs));
    [apply w_universe | apply w_start | apply w_start | apply w_covers | apply w_covers
    | by apply (bool_decide_unpack _) | apply Permutation_rev].
Defined.

(** The database and the world state after the changes, in both orders. *)
Definition w_done : gmap bytes bytes * MptWorldState := ApplyAll w_ws w_cs w_db.
Definition w_done' : gmap bytes bytes * MptWorldState := ApplyAll w_ws (rev w_cs) w_db.

Lemma w_applied cs :
  covers w_U t_empty cs →
  db_ok w_U (ApplyAll w_ws cs w_db).1 ∧
  repr (ApplyAll w_ws cs w_db).1 (ApplyAll w_ws cs w_db).2 (t_apply_all t_empty (map tchange cs)).
Proof.
  intros Hc. destruct w_start as [Hd Hr].
  destruct (ApplyAll_refines w_U w_db w_ws t_empty cs w_universe Hd Hr Hc) as (d & ws & -> & [Hr' Hd' _]).
  done.
Qed.

Lemma w_done_ok : db_ok w_U w_done.1 ∧ repr w_done.1 w_done.2 (t_apply_all t_empty (map tchange w_cs)).
Proof. apply (w_applied w_cs), w_covers. Qed.

Lemma w_done_ok' :
  db_ok w_U w_done'.1 ∧ repr w_done'.1 w_done'.2 (t_apply_all t_empty (map tchange (rev w_cs))).
Proof. apply (w_applied (rev w_cs)), w_covers. Qed.

Lemma w_hash_eq : Hash w_done.2 = Hash w_done'.2.
Proof. vm_compute. reflexivity. Qed.

Lemma root_hash_binds_state_witness :
  Lookup w_done.2 [x62] w_done.1 = Lookup w_done'.2 [x62] w_done'.1.
Proof.
  exact (root_hash_binds_state w_U w_done.1 w_done'.1 w_done.2 w_done'.2 _ _ [x62] w_universe
    (proj1 w_done_ok) (proj1 w_done_ok') (proj2 w_done_ok) (proj2 w_done_ok') w_hash_eq).
Defined.

Lemma rebase_restores_view_witness :
  let '(d1, ws1) := ApplyAll w_ws w_cs w_db in
  ∃ d2 ws2, Rebase ws1 (Hash w_ws) d1 = (d2, ws2, None) ∧
    Hash ws2 = Hash w_ws ∧ ∀ key, Lookup ws2 key d2 = Lookup w_ws key w_db.
Proof.
  apply (rebase_restores_view w_U w_db w_ws t_empty w_cs);
    [apply w_universe | apply w_start | apply w_start | apply w_covers].
Defined.

Lemma delete_absent_keeps_root_witness :
  ∃ d' ws', Trie.Delete w_ws [x7a] w_db = (d', ws', Hash w_ws) ∧
    ∀ key', Lookup ws' key' d' = Lookup w_ws key' w_db.
Proof.
  apply (delete_absent_keeps_root w_U w_db w_ws t_empty [x7a] (CoreError ERR_NOT_FOUND "key does not exists"));
    [apply w_universe | apply w_start | apply w_start | vm_compute; reflexivity].
Defined.

Lemma settled_compute (d : gmap bytes bytes) h :
  match getState h d with Some n => bool_decide (Tombstone n = unmarked) | None => false end = true →
  settled d h.
Proof.
  unfold settled. destruct (getState h d) as [n|]; [|done]. intros ?%bool_decide_eq_true. eauto.
Qed.

(** The world state after the first of the changes, cleaned up after the last. *)
Definition w_transient : Byte64 := Hash (ApplyAll w_ws (take 1 w_cs) w_db).2.

Lemma w_transient_settled : settled w_done.1 w_transient.
Proof. apply settled_compute. vm_compute. reflexivity. Qed.

Lemma w_transient_root : bool_decide (is_Some (getTxRoot w_transient w_done.1)) = true.
Proof. vm_compute. reflexivity. Qed.

Lemma w_transient_ne : bool_decide (w_transient = Hash w_done.2) = false.
Proof. vm_compute. reflexivity. Qed.

Lemma cleanup_forgets_state_witness :
  ∃ d', Cleanup 1 w_transient w_done.1 = Ret (d', None) ∧
    (∀ key, Lookup w_done.2 key d' = Lookup w_done.2 key w_done.1) ∧
    is_Some (getState w_transient d') ∧
    ∃ msg, Rebase w_done.2 w_transient d' = (d', w_done.2, Some (CoreError ERR_NOT_FOUND msg)).
Proof.
  exact (cleanup_forgets_state w_U 0 w_done.1 w_done.2 _ w_transient w_universe
    (proj1 w_done_ok) (proj2 w_done_ok) w_transient_settled
    (bool_decide_eq_true_1 _ w_transient_root) (bool_decide_eq_false_1 _ w_transient_ne)).
Defined.

Lemma transaction_record_survives_rebase_witness :
  let '(d1, err) := RegisterTransaction w_ws (BytesToByte64 [x05]) (BytesToByte64 [x06]) w_db in
  let '(d2, ws2, _) := Rebase w_ws (Hash w_ws) d1 in
  err = None ∧ HasTransaction ws2 (BytesToByte64 [x05]) d2 = Ok (BytesToByte64 [x06]) ∧
  ∀ txId', txId' ≠ BytesToByte64 [x05] →
    result_opt (HasTransaction ws2 txId' d2) = result_opt (HasTransaction w_ws txId' w_db).
Proof.
  pose proof (transaction_record_survives_rebase w_db w_ws w_ws (Hash w_ws) (BytesToByte64 [x05])
    (BytesToByte64 [x06])) as H.
  exact H.
Defined.
End witnesses.
