(* ===== verification/WorldStateI.v ===== *)
(** * The interface [trie.WorldState] ([src/core/trie/trie.go])

    What the consensus layer uses of a world state.  [WorldState] holds the
    operations of the Go interface (and the constructor the consensus layer
    calls); [WorldStateLaws] what the consensus layer relies on: a world state
    only touches database keys of its own, and rebasing to a hash that is
    known succeeds.  [MptWorldState] is the implementation; the fuel of its
    [Cleanup] is an argument of the instance. *)

From Stdlib Require Import Strings.Byte.
From S2P Require Import Prelude Bytes Db Trie TrieSpec TrieFacts WorldState.

Class WorldState (W D : Type) := {
  ws_New : D → D * option W;
  ws_Update : W → bytes → bytes → D → D * W * Byte64;
  ws_Delete : W → bytes → D → D * W * Byte64;
  ws_Lookup : W → bytes → D → result bytes;
  ws_HasTransaction : W → Byte64 → D → result Byte64;
  ws_RegisterTransaction : W → Byte64 → Byte64 → D → D * option error;
  ws_Hash : W → Byte64;
  ws_Rebase : W → Byte64 → D → D * W * option error;
  ws_Cleanup : W → Byte64 → D → outcome (D * option error);
}.

(** The databases agree outside / inside a set of keys. *)
Definition same_outside `{DatabaseLaws D} (P : bytes → Prop) (d d' : D) : Prop :=
  ∀ k, ¬ P k → contents d' !! k = contents d !! k.
Definition same_inside `{DatabaseLaws D} (P : bytes → Prop) (d d' : D) : Prop :=
  ∀ k, P k → contents d' !! k = contents d !! k.

#[global] Instance same_outside_equiv `{DatabaseLaws D} P : Equivalence (same_outside (D:=D) P).
Proof.
  split.
  - by intros d k.
  - intros d d' Hs k Hk. by rewrite Hs.
  - intros d1 d2 d3 H1 H2 k Hk. by rewrite H2, H1.
Qed.

Class WorldStateLaws (W D : Type) `{DatabaseLaws D, WorldState W D} := {
  (** the keys the world state reads and writes *)
  ws_own : bytes → Prop;
  ws_new_frame d : same_outside ws_own d (ws_New d).1;
  ws_update_frame w k v d : same_outside ws_own d (ws_Update w k v d).1.1;
  ws_delete_frame w k d : same_outside ws_own d (ws_Delete w k d).1.1;
  ws_register_frame w tx h d : same_outside ws_own d (ws_RegisterTransaction w tx h d).1;
  ws_rebase_frame w h d : same_outside ws_own d (ws_Rebase w h d).1.1;
  ws_cleanup_frame w h d d' e : ws_Cleanup w h d = Ret (d', e) → same_outside ws_own d d';
  ws_register_ok w tx h d : (ws_RegisterTransaction w tx h d).2 = None;
  (** the world states that can be rebased to *)
  ws_known : Byte64 → D → Prop;
  ws_known_inside h d d' : same_inside ws_own d d' → ws_known h d → ws_known h d';
  ws_rebase_known w h d : ws_known h d → (ws_Rebase w h d).2 = None ∧ ws_Hash (ws_Rebase w h d).1.2 = h;
  ws_new_ok d : is_Some (ws_New d).2;
  (** new world states are alike, and making one forgets nothing *)
  ws_new_hash d d' w w' : (ws_New d).2 = Some w → (ws_New d').2 = Some w' → ws_Hash w = ws_Hash w';
  ws_new_known h d : ws_known h d → ws_known h (ws_New d).1;
  ws_rebase_keeps h w h' d : ws_known h d → ws_known h (ws_Rebase w h' d).1.1;
  (** rebasing fails only for a state that is not there *)
  ws_rebase_error w h d e : (ws_Rebase w h d).2 = Some e → error_code e = Some ERR_NOT_FOUND;
  ws_rebase_ok w h d : (ws_Rebase w h d).2 = None → ws_known h d;
}.

(** ** The implementation *)

Section mpt.
Context {D : Type} {dbo : Database D} {sha : Sha512} {cdc : Codec node}.

Definition mpt_world_state (fuel : nat) : WorldState MptWorldState D := {|
  ws_New := NewMptWorldState;
  ws_Update := Update;
  ws_Delete := Trie.Delete;
  ws_Lookup := Lookup;
  ws_HasTransaction := HasTransaction;
  ws_RegisterTransaction := RegisterTransaction;
  ws_Hash := Hash;
  ws_Rebase := Rebase;
  ws_Cleanup := λ _, Cleanup fuel;
|}.

(** The tables of the world state. *)
Definition mpt_key (k : bytes) : Prop :=
  ∃ h, k = stateKey h ∨ k = rootKey h ∨ k = txNodeKey h ∨ k = flatKey h.

Lemma mpt_key_state h : mpt_key (stateKey h).
Proof. exists h. auto. Qed.
Lemma mpt_key_root h : mpt_key (rootKey h).
Proof. exists h. auto. Qed.
Lemma mpt_key_tx h : mpt_key (txNodeKey h).
Proof. exists h. auto. Qed.
Lemma mpt_key_flat h : mpt_key (flatKey h).
Proof. exists h. auto. Qed.

Context {dbl : DatabaseLaws D} {cdl : CodecLaws node}.

Lemma putNode_frame k n (d : D) : mpt_key k → same_outside mpt_key d (putNode k n d).1.
Proof. intros Hk k' Hk'. apply putNode_contents. by intros ->. Qed.

Lemma deleteNode_frame k (d : D) : mpt_key k → same_outside mpt_key d (deleteNode k d).1.
Proof. intros Hk k' Hk'. apply deleteNode_contents. by intros ->. Qed.

Hint Resolve putNode_frame deleteNode_frame mpt_key_state mpt_key_root mpt_key_tx mpt_key_flat : core.

Lemma putState_frame h n (d : D) : same_outside mpt_key d (putState h n d).1.
Proof. apply putNode_frame, mpt_key_state. Qed.

Lemma updateDepthFirst_frame n p v (d : D) :
  same_outside mpt_key d (updateDepthFirst putState getState n p v d).1.1.
Proof.
  revert n d. induction p as [|k p IH]; intros n d; cbn [updateDepthFirst].
  - rewrite ns_put. apply putState_frame.
  - set (c := if decide _ then _ else _). specialize (IH c d).
    destruct (updateDepthFirst putState getState c p v d) as [[d1 m] h]. simpl in IH.
    case_decide; [done|]. rewrite ns_put. simpl. etrans; [done|]. apply putState_frame.
Qed.

Lemma deleteDepthFirst_frame n p (d : D) :
  same_outside mpt_key d (deleteDepthFirst putState getState n p d).1.1.
Proof.
  revert n d. induction p as [|k p IH]; intros n d; cbn [deleteDepthFirst].
  - rewrite ns_put. apply putState_frame.
  - case_decide; [|done]. destruct (getState _ d) as [c|]; [|done]. specialize (IH c d).
    destruct (deleteDepthFirst putState getState c p d) as [[d1 m] h]. simpl in IH.
    case_decide; [done|]. rewrite ns_put. simpl. etrans; [done|]. apply putState_frame.
Qed.

Lemma switchRoot_frame ws n h (d : D) : same_outside mpt_key d (switchRoot ws n h d).1.1.
Proof.
  unfold switchRoot. rewrite !rootKey_eq. case_decide; [done|]. rewrite putNode_eq, putNode_eq. simpl.
  etrans; apply putNode_frame; auto.
Qed.

Lemma Update_frame ws k v (d : D) : same_outside mpt_key d (Update ws k v d).1.1.
Proof.
  unfold Update. pose proof (updateDepthFirst_frame (rootNode ws) (makeHex k) v d) as H.
  destruct (updateDepthFirst _ _ _ _ _ _) as [[d1 n] h]. etrans; [done | apply switchRoot_frame].
Qed.

Lemma Delete_frame ws k (d : D) : same_outside mpt_key d (Trie.Delete ws k d).1.1.
Proof.
  unfold Trie.Delete. pose proof (deleteDepthFirst_frame (rootNode ws) (makeHex k) d) as H.
  destruct (deleteDepthFirst _ _ _ _ _) as [[d1 n] h]. etrans; [done | apply switchRoot_frame].
Qed.

Lemma cleanupDepthFirst_frame fuel (del : @deleter D) get n d d' :
  (∀ h d, same_outside mpt_key d (del h d).1) →
  cleanupDepthFirst fuel del get n d = Ret d' → same_outside mpt_key d d'.
Proof.
  intros Hdel. revert n d d'. induction fuel as [|fuel IH]; intros n d d'; simpl; [done|].
  case_decide; [by intros [= <-]|].
  set (step := λ (acc : outcome D) childHash, _).
  assert (Hfold : ∀ l o d', fold_left step l o = Ret d' → ∃ d0, o = Ret d0 ∧ same_outside mpt_key d0 d').
  { induction l as [|h l IHl]; intros o d1; simpl; [intros ->; eauto; by exists d1|].
    intros (d0 & Hs & Ho)%IHl. unfold step in Hs. apply outcome_bind_ret in Hs as (d2 & -> & Hs).
    exists d2. split; [done|]. etrans; [|exact Ho].
    case_decide; [by injection Hs as ->|]. destruct (get h d2) as [c|]; [by apply IH in Hs|].
    by injection Hs as ->. }
  rewrite outcome_bind_ret. intros (d1 & (d0 & [= <-] & Hs)%Hfold & [= <-]).
  etrans; [exact Hs | apply Hdel].
Qed.

Lemma Cleanup_frame fuel h (d d' : D) e :
  Cleanup fuel h d = Ret (d', e) → same_outside mpt_key d d'.
Proof.
  unfold Cleanup. destruct (getState h d) as [n|]; [|by intros [= <- _]].
  rewrite outcome_bind_ret. intros (d1 & H1 & H).
  apply cleanupDepthFirst_frame in H1; [|intros; apply deleteNode_frame; auto].
  destruct (getNode _ d1) as [tx|]; [|by injection H as <- _].
  apply outcome_bind_ret in H as (d2 & H2 & H).
  apply cleanupDepthFirst_frame in H2; [|intros; apply deleteNode_frame; auto].
  rewrite rootKey_eq, deleteNode_eq in H. injection H as <- _.
  etrans; [exact H1|]. etrans; [exact H2|]. apply deleteNode_frame; auto.
Qed.

Lemma NewMptWorldState_frame (d : D) : same_outside mpt_key d (NewMptWorldState d).1.
Proof.
  unfold NewMptWorldState. rewrite ns_put, rootKey_eq, putNode_eq. simpl.
  etrans; [apply putState_frame | apply putNode_frame; auto].
Qed.

Lemma Rebase_same_outside ws h (d : D) : same_outside mpt_key d (Rebase ws h d).1.1.
Proof.
  intros k Hk. apply Rebase_frame. intros (h' & [->| ->]); apply Hk; auto.
Qed.

(** A hash that [Rebase] accepts: both of its table entries exist, and the
    state node is stored under its own hash. *)
Definition mpt_known (h : Byte64) (d : D) : Prop :=
  is_Some (getState h d) ∧ is_Some (getTxRoot h d).

Lemma Rebase_known ws h (d : D) :
  mpt_known h d → (Rebase ws h d).2 = None ∧ Hash (Rebase ws h d).1.2 = h.
Proof.
  intros [[n Hn] [tx Htx]]. unfold Rebase. rewrite Hn, rootKey_eq.
  change (getNode (rootKey h) d) with (getTxRoot h d). rewrite Htx.
  rewrite ns_put, !rootKey_eq, putNode_eq, putNode_eq. done.
Qed.

Lemma mpt_known_inside h (d d' : D) : same_inside mpt_key d d' → mpt_known h d → mpt_known h d'.
Proof.
  intros Hs [H1 H2].
  assert (Hg : ∀ k, mpt_key k → getNode k d' = getNode k d)
    by (intros k Hk; by apply getNode_contents, Hs).
  unfold mpt_known, getState, getTxRoot in *. rewrite !Hg; [done | apply mpt_key_root | apply mpt_key_state].
Qed.

Lemma RegisterTransaction_frame ws tx h (d : D) :
  same_outside mpt_key d (RegisterTransaction ws tx h d).1.
Proof.
  intros k Hk. unfold RegisterTransaction, registerTransactionToFlatKV.
  rewrite put_contents, lookup_insert_ne; [done|]. intros <-. apply Hk, mpt_key_flat.
Qed.

Lemma NewMptWorldState_ok (d : D) : is_Some (NewMptWorldState d).2.
Proof. unfold NewMptWorldState. rewrite ns_put, rootKey_eq, putNode_eq. by eexists. Qed.

Lemma NewMptWorldState_state (d : D) :
  (NewMptWorldState d).2 = Some (WS (node_hash emptyNode) emptyNode emptyNode).
Proof. unfold NewMptWorldState. rewrite ns_put, rootKey_eq, putNode_eq. reflexivity. Qed.

Lemma NewMptWorldState_hash (d d' : D) w w' :
  (NewMptWorldState d).2 = Some w → (NewMptWorldState d').2 = Some w' → Hash w = Hash w'.
Proof.
  rewrite !NewMptWorldState_state. generalize (WS (node_hash emptyNode) emptyNode emptyNode).
  intros x H1 H2. congruence.
Qed.

(** Storing a node makes no stored node unreadable. *)
Lemma putNode_readable k k' n (d : D) : is_Some (getNode k' d) → is_Some (getNode k' (putNode k n d).1).
Proof.
  rewrite getNode_putNode. case_decide; [by eexists | done].
Qed.

Lemma NewMptWorldState_known h (d : D) : mpt_known h d → mpt_known h (NewMptWorldState d).1.
Proof.
  intros [H1 H2]. unfold NewMptWorldState. rewrite ns_put, rootKey_eq, putNode_eq. simpl.
  split; apply putNode_readable; by apply putNode_readable.
Qed.

Lemma Rebase_keeps h ws h' (d : D) : mpt_known h d → mpt_known h (Rebase ws h' d).1.1.
Proof.
  intros [H1 H2]. unfold Rebase. destruct (getState h' d) as [n|]; [|done]. rewrite rootKey_eq.
  destruct (getNode (rootKey h') d) as [tx|]; [|done]. rewrite ns_put, !rootKey_eq, putNode_eq, putNode_eq. simpl.
  split; by do 3 apply putNode_readable.
Qed.

Lemma Rebase_error ws h (d : D) e : (Rebase ws h d).2 = Some e → error_code e = Some ERR_NOT_FOUND.
Proof.
  unfold Rebase. destruct (getState h d) as [n|]; [|by intros [= <-]]. rewrite rootKey_eq.
  destruct (getNode (rootKey h) d) as [tx|]; [|by intros [= <-]]. by rewrite ns_put, !rootKey_eq, putNode_eq, putNode_eq.
Qed.

Lemma Rebase_ok ws h (d : D) : (Rebase ws h d).2 = None → mpt_known h d.
Proof.
  unfold Rebase, mpt_known. destruct (getState h d) as [n|]; [|done]. rewrite rootKey_eq.
  change (getNode (rootKey h) d) with (getTxRoot h d). destruct (getTxRoot h d) as [tx|]; [|done]. intros _. split; by eexists.
Qed.

Definition mpt_world_state_laws (fuel : nat) :
    @WorldStateLaws MptWorldState D dbo dbl (mpt_world_state fuel) :=
  @Build_WorldStateLaws MptWorldState D dbo dbl (mpt_world_state fuel) mpt_key
    NewMptWorldState_frame Update_frame Delete_frame RegisterTransaction_frame Rebase_same_outside
    (λ _, Cleanup_frame fuel) (λ _ tx h, put_none (flatKey tx) (Bytes h))
    mpt_known mpt_known_inside Rebase_known NewMptWorldState_ok NewMptWorldState_hash NewMptWorldState_known Rebase_keeps
    Rebase_error Rebase_ok.
End mpt.
