(* ===== verification/Block.v ===== *)
(** * Blocks and transactions ([src/consensus/block.go],
      [src/consensus/transaction.go], [src/consensus/chainNode.go])

    Definitions only.  A block holds a private world state over the shared
    database; operations that reach it take the database and return it. *)

From Stdlib Require Import Strings.Byte.
From S2P Require Import Prelude Bytes Db WorldStateI.

(** [src/consensus/error.go] *)
Definition ERR_INITIALIZATION_FAILED : Z := 0x002.
Definition ERR_DB_CORRUPTED : Z := 0x003.
Definition ERR_INVALID_ARG : Z := 0x100.
Definition ERR_TYPE_INCORRECT : Z := 0x400.
Definition ERR_TX_NOT_FOUND : Z := 0x403.
Definition ERR_TX_NOT_APPLIED : Z := 0x404.
Definition ERR_KEY_NOT_FOUND : Z := 0x405.
Definition ERR_NOT_MAINLIST : Z := 0x406.
Definition ERR_STATE_INCORRECT : Z := 0x407.
Definition ERR_BLOCK_UNHASHED : Z := 0x500.
Definition ERR_DUPLICATE_TX : Z := 0x600.
Definition ERR_DUPLICATE_BLOCK : Z := 0x601.
Definition ERR_BLOCK_VALIDATION : Z := 0x700.
Definition ERR_BLOCK_ORPHAN : Z := 0x701.

(** ** Transactions *)

(** [type Transaction struct].  [Timestamp] is a pointer in the code, set by
    [NewTransaction] and by the decoders; it is the array it points to here. *)
Record Transaction := Tx {
  Payload : bytes;
  Signature : bytes;
  Submitter : bytes;
  Timestamp : Byte8;
}.

#[global] Instance Transaction_eq_dec : EqDecision Transaction.
Proof. solve_decision. Defined.

(** [func (tx *Transaction) Bytes() []byte] *)
Definition Transaction_Bytes (tx : Transaction) : bytes :=
  Payload tx ++ Signature tx ++ Submitter tx ++ Bytes (Timestamp tx).

(** [func (tx *Transaction) Id() *core.Byte64] *)
Definition Transaction_Id `{Sha512} (tx : Transaction) : Byte64 :=
  BytesToByte64 (Bytes (Sum512 (Transaction_Bytes tx))).

(** [func NewTransaction(payload, signature, submitter []byte) *Transaction];
    [now] is the value of [time.Now().UnixNano()]. *)
Definition NewTransaction (now : Z) (payload signature submitter : bytes) : Transaction :=
  Tx ([] ++ payload) ([] ++ signature) ([] ++ submitter) (Uint64ToByte8 (u64 now)).

(** ** Blocks *)

(** [type BlockSpec struct]: the fields that go over the wire *)
Record BlockSpec := Spec_ {
  PHASH : Byte64;
  MINER : bytes;
  STATE : Byte64;
  TXs : list Transaction;
  TS : Byte8;
  DELTA : Byte8;
  DEPTH : Byte8;
  WT : Byte8;
  UNCLEs : list Byte64;
  NONCE : Byte8;
}.

(** [type PowApprover func(hash []byte, ts, delta uint64) bool] *)
Definition PowApprover : Type := bytes → Z → Z → bool.

(** [type block struct], without the lock.  A value of [variables] is [None]
    where the code stores [nil] (the key was deleted); [transactions] is the
    key set of the code's map to [true]. *)
Record block {W : Type} := Block {
  spec : BlockSpec;
  uncleMiners : list bytes;
  pow : option PowApprover;
  worldState : option W;
  hash : option Byte64;
  isNetworkBlock : bool;
  variables : gmap bytes (option bytes);
  transactions : gset Byte64;
}.
Arguments block : clear implicits.

(** [type uncle struct] *)
Record uncle := Uncle {
  uncle_hash : option Byte64;
  uncle_miner : bytes;
  uncle_depth : Z;
  uncle_distance : Z;
}.

(** ** Field updates *)

Definition set_STATE (s : Byte64) (b : BlockSpec) : BlockSpec :=
  Spec_ (PHASH b) (MINER b) s (TXs b) (TS b) (DELTA b) (DEPTH b) (WT b) (UNCLEs b) (NONCE b).
Definition set_NONCE (n : Byte8) (b : BlockSpec) : BlockSpec :=
  Spec_ (PHASH b) (MINER b) (STATE b) (TXs b) (TS b) (DELTA b) (DEPTH b) (WT b) (UNCLEs b) n.
Definition set_TXs (txs : list Transaction) (b : BlockSpec) : BlockSpec :=
  Spec_ (PHASH b) (MINER b) (STATE b) txs (TS b) (DELTA b) (DEPTH b) (WT b) (UNCLEs b) (NONCE b).
Definition set_UNCLEs_WT (us : list Byte64) (wt : Byte8) (b : BlockSpec) : BlockSpec :=
  Spec_ (PHASH b) (MINER b) (STATE b) (TXs b) (TS b) (DELTA b) (DEPTH b) wt us (NONCE b).

Section fields.
Context {W : Type}.
Implicit Types b : block W.

Definition set_spec (s : BlockSpec) b : block W :=
  Block W s (uncleMiners b) (pow b) (worldState b) (hash b) (isNetworkBlock b) (variables b) (transactions b).
Definition set_uncleMiners (m : list bytes) b : block W :=
  Block W (spec b) m (pow b) (worldState b) (hash b) (isNetworkBlock b) (variables b) (transactions b).
Definition set_pow (p : option PowApprover) b : block W :=
  Block W (spec b) (uncleMiners b) p (worldState b) (hash b) (isNetworkBlock b) (variables b) (transactions b).
Definition set_worldState (w : option W) b : block W :=
  Block W (spec b) (uncleMiners b) (pow b) w (hash b) (isNetworkBlock b) (variables b) (transactions b).
Definition set_hash (h : option Byte64) b : block W :=
  Block W (spec b) (uncleMiners b) (pow b) (worldState b) h (isNetworkBlock b) (variables b) (transactions b).
Definition set_isNetworkBlock (n : bool) b : block W :=
  Block W (spec b) (uncleMiners b) (pow b) (worldState b) (hash b) n (variables b) (transactions b).
Definition set_variables (v : gmap bytes (option bytes)) b : block W :=
  Block W (spec b) (uncleMiners b) (pow b) (worldState b) (hash b) (isNetworkBlock b) v (transactions b).
Definition set_transactions (t : gset Byte64) b : block W :=
  Block W (spec b) (uncleMiners b) (pow b) (worldState b) (hash b) (isNetworkBlock b) (variables b) t.

(** ** Accessors *)

Definition ParentHash b : Byte64 := PHASH (spec b).
Definition Miner b : bytes := MINER (spec b).
Definition Nonce b : Byte8 := NONCE (spec b).
Definition block_Timestamp b : Byte8 := TS (spec b).
Definition Delta b : Byte8 := DELTA (spec b).
Definition Depth b : Byte8 := DEPTH (spec b).
Definition Weight b : Byte8 := WT (spec b).
Definition Uncles b : list Byte64 := UNCLEs (spec b).
Definition UncleMiners b : list bytes := uncleMiners b.
Definition Transactions b : list Transaction := TXs (spec b).
Definition block_Hash b : option Byte64 := hash b.

(** [func (b *block) Numeric() uint64] *)
Definition Numeric b : Z :=
  match hash b with
  | None => u64 (0 - 1)
  | Some h => fold_left (λ num x, u64 (num + byte_val x)) (Bytes h) 0
  end.

(** [func (b *block) Update(key, value []byte) bool] *)
Definition block_Update (key value : bytes) b : block W * bool :=
  (set_variables (<[key := Some value]> (variables b)) b, true).

(** [func (b *block) Delete(key []byte) bool] *)
Definition block_Delete (key : bytes) b : block W * bool :=
  (set_variables (<[key := None]> (variables b)) b, true).

(** [func (b *block) addUncle(uncle uncle)] *)
Definition addUncle (u : uncle) b : outcome (block W) :=
  let! h := deref (uncle_hash u) in
  Ret (set_uncleMiners (uncleMiners b ++ [uncle_miner u])
    (set_spec (set_UNCLEs_WT (UNCLEs (spec b) ++ [h])
                 (Uint64ToByte8 (u64 (Uint64 (WT (spec b)) + 1))) (spec b)) b)).
End fields.

Section operations.
Context {D W : Type} {wso : WorldState W D} {sha : Sha512}.
Implicit Types b : block W.

(** [func (b *block) Lookup(key []byte) ([]byte, error)]: a value read from
    the world state is kept in [variables]. *)
Definition block_Lookup (key : bytes) b (d : D) : outcome (block W * result bytes) :=
  match variables b !! key with
  | Some None => Ret (b, Err (CoreError ERR_KEY_NOT_FOUND "key not found"))
  | Some (Some value) => Ret (b, Ok value)
  | None =>
      let! w := deref (worldState b) in
      match ws_Lookup w key d with
      | Ok value => Ret (set_variables (<[key := Some value]> (variables b)) b, Ok value)
      | Err e => Ret (b, Err e)
      end
  end.

(** [func (b *block) AddTransaction(tx *Transaction) error] *)
Definition AddTransaction (tx : Transaction) b (d : D) : outcome (block W * option error) :=
  let! w := deref (worldState b) in
  match ws_HasTransaction w (Transaction_Id tx) d with
  | Ok _ => Ret (b, Some (CoreError ERR_DUPLICATE_TX "duplicate transaction"))
  | Err _ =>
      if decide (Transaction_Id tx ∈ transactions b) then
        Ret (b, Some (CoreError ERR_DUPLICATE_TX "duplicate transaction"))
      else
        let b := set_transactions ({[Transaction_Id tx]} ∪ transactions b) b in
        Ret (set_spec (set_TXs (TXs (spec b) ++ [tx]) (spec b)) b, None)
  end.

(** The loop of [persistState] over the variables, in the order [vars] in
    which the map is ranged over. *)
Fixpoint persistLoop (skippedParentState : bool) (vars : list (bytes * option bytes))
    (w : W) (d : D) : outcome (D * W) :=
  match vars with
  | [] => Ret (d, w)
  | (key, value) :: vars =>
      let oldHash := ws_Hash w in
      let '(d, w, newHash) :=
        match value with
        | None => ws_Delete w key d
        | Some v => ws_Update w key v d
        end in
      if decide (newHash = oldHash) then persistLoop skippedParentState vars w d
      else if skippedParentState then
        let! (d, _) := ws_Cleanup w oldHash d in
        persistLoop true vars w d
      else persistLoop true vars w d
  end.

(** [range m]: the order in which Go ranges over a map is unspecified, so
    it is a parameter. *)
Definition ranger : Type := gmap bytes (option bytes) → list (bytes * option bytes).

(** [func (b *block) persistState() error]; it always returns [nil]. *)
Definition persistState (range : ranger) b (d : D) : outcome (D * block W) :=
  let! w := deref (worldState b) in
  let! (d, w) := persistLoop false (range (variables b)) w d in
  Ret (d, set_worldState (Some w) b).

(** The bytes [computeHash] hashes before the nonce. *)
Definition hashData (s : BlockSpec) (state : Byte64) : bytes :=
  Bytes (PHASH s) ++ MINER s ++ Bytes (TS s) ++ Bytes (DELTA s) ++ Bytes state ++
  concat (map Transaction_Bytes (TXs s)) ++ Bytes (WT s) ++ concat (map Bytes (UNCLEs s)).

(** The proof-of-work loop.  [attempts] is how many hashes are tried before
    the timer of [RunTimeBoundSec] fires; the result is the last nonce tried
    with its hash, or [None] for an error (wrong hash on a network block,
    or timeout). *)
Fixpoint powLoop (attempts : nat) (data : bytes) (p : option PowApprover) (isNetwork : bool)
    (ts delta : Z) (last : Byte8) (nonce : Z) : Byte8 * option Byte64 :=
  match attempts with
  | O => (last, None)
  | S attempts =>
      let NONCE := Uint64ToByte8 nonce in
      let h := Sum512 (data ++ Bytes NONCE) in
      let isPoWDone := match p with Some f => f (Bytes h) ts delta | None => true end in
      if isPoWDone then (NONCE, Some h)
      else if isNetwork then (NONCE, None)
      else powLoop attempts data p isNetwork ts delta NONCE (u64 (nonce + 1))
  end.

(** [func (b *block) computeHash() *core.Byte64] *)
Definition computeHash (attempts : nat) (range : ranger) b (d : D)
    : outcome (D * block W * option Byte64) :=
  let! (d, b, state) :=
    match worldState b with
    | Some _ =>
        let! (d, b) := persistState range b d in
        let! w := deref (worldState b) in
        let b := if isNetworkBlock b then b else set_spec (set_STATE (ws_Hash w) (spec b)) b in
        Ret (d, b, ws_Hash w)
    | None => Ret (d, b, STATE (spec b))
    end in
  let data := hashData (spec b) state in
  let '(nonce, h) :=
    powLoop attempts data (pow b) (isNetworkBlock b) (Uint64 (TS (spec b)))
      (Uint64 (DELTA (spec b))) (NONCE (spec b)) (Uint64 (NONCE (spec b))) in
  let b := set_spec (set_NONCE nonce (spec b)) b in
  match h with
  | None => Ret (d, b, None)
  | Some h =>
      let b := set_hash (Some (BytesToByte64 (Bytes h))) b in
      Ret (d, b, hash b)
  end.

(** The loop of [registerTransactions] *)
Fixpoint registerLoop (w : W) (h : option Byte64) (txs : list Transaction) (d : D)
    : outcome (D * option error) :=
  match txs with
  | [] => Ret (d, None)
  | tx :: txs =>
      let! blockId := deref h in
      let '(d, err) := ws_RegisterTransaction w (Transaction_Id tx) blockId d in
      match err with
      | Some e => Ret (d, Some e)
      | None => registerLoop w h txs d
      end
  end.

(** [func (b *block) registerTransactions() error] *)
Definition registerTransactions b (d : D) : outcome (D * option error) :=
  match worldState b with
  | Some w => registerLoop w (hash b) (TXs (spec b)) d
  | None => Ret (d, None)
  end.

(** [func (b *block) clone(state trie.WorldState) *block] *)
Definition clone (state : W) b : block W :=
  Block W
    (Spec_ (PHASH (spec b)) ([] ++ MINER (spec b)) (ws_Hash state) [] (TS (spec b)) (DELTA (spec b))
       (DEPTH (spec b)) (WT (spec b)) [] (NONCE (spec b)))
    [] None (Some state) (hash b) false ∅ ∅.

(** [func (b *block) Spec() BlockSpec] *)
Definition Spec b : BlockSpec :=
  let s := match worldState b with Some w => ws_Hash w | None => STATE (spec b) end in
  Spec_ (PHASH (spec b)) ([] ++ MINER (spec b)) s (TXs (spec b)) (TS (spec b)) (DELTA (spec b))
    (DEPTH (spec b)) (WT (spec b)) (UNCLEs (spec b)) (NONCE (spec b)).

(** [func newBlock(previous, weight, depth, ts, pTs, miner, state) *block];
    [now] is [time.Now().UnixNano()], used when [ts] is zero. *)
Definition newBlock (now : Z) (previous : Byte64) (weight depth ts pTs : Z) (miner : bytes)
    (state : option W) : block W :=
  let ts := if decide (ts = 0) then u64 now else ts in
  let s := Spec_ previous miner (arr_zero x00 EnodeLength) [] (Uint64ToByte8 ts)
             (Uint64ToByte8 (u64 (ts - pTs))) (Uint64ToByte8 depth) (Uint64ToByte8 weight) []
             (BytesToByte8 []) in
  let s := match state with Some w => set_STATE (ws_Hash w) s | None => s end in
  Block W s [] None state None false ∅ ∅.

(** [func serializeBlock(b Block) ([]byte, error)]: [None] is a [nil]
    interface; gob writes the exported fields, which are those of the
    embedded [BlockSpec].  The check that [b] is a [*block] always holds
    for a value of type [block]. *)
Definition serializeBlock `{Codec BlockSpec} (b : option (block W)) : result bytes :=
  match b with
  | None => Err (CoreError ERR_INVALID_ARG "nil block")
  | Some b =>
      if decide (STATE (spec b) = BytesToByte64 []) then
        Err (CoreError ERR_STATE_INCORRECT "block state incorrect")
      else if (match worldState b with
               | Some w => bool_decide (ws_Hash w ≠ STATE (spec b))
               | None => false
               end) then
        Err (CoreError ERR_STATE_INCORRECT "block state incorrect")
      else match hash b with
           | None => Err (CoreError ERR_BLOCK_UNHASHED "block not hashed")
           | Some _ => Serialize (spec b)
           end
  end.

(** [func deSerializeBlock(data []byte) ( *block, error)] *)
Definition deSerializeBlock `{Codec BlockSpec} (data : bytes) : result (block W) :=
  match Deserialize data with
  | Err e => Err e
  | Ok s => Ok (Block W s [] None None None true ∅ ∅)
  end.
End operations.

(** ** Chain nodes *)

(** [type chainNode struct].  [Parent] points into the block the node was
    made from and the pointers in [Children] are hashes of blocks that have
    one, so neither is ever [nil]. *)
Record chainNode := ChainNode {
  cn_Parent : Byte64;
  cn_Depth : Z;
  cn_Weight : Z;
  cn_IsMainList : bool;
  cn_Children : list Byte64;
  cn_Hash : option Byte64;
}.

(** [func newChainNode(block *block) *chainNode] *)
Definition newChainNode {W} (b : block W) : chainNode :=
  ChainNode (ParentHash b) (Uint64 (Depth b)) (Uint64 (Weight b)) false [] (block_Hash b).

(** [func (cn *chainNode) setMainList(isMainList bool)] *)
Definition setMainList (m : bool) (cn : chainNode) : chainNode :=
  ChainNode (cn_Parent cn) (cn_Depth cn) (cn_Weight cn) m (cn_Children cn) (cn_Hash cn).

(** [func (cn *chainNode) addChild(childHash *core.Byte64) int]; the node
    after the call is returned with the number of children. *)
Definition addChild (childHash : Byte64) (cn : chainNode) : chainNode * Z :=
  let children := cn_Children cn ++ [childHash] in
  (ChainNode (cn_Parent cn) (cn_Depth cn) (cn_Weight cn) (cn_IsMainList cn) children (cn_Hash cn),
   Z.of_nat (length children)).
