(* ===== verification/BlockFacts.v ===== *)
(** * Facts about blocks

    How [persistState] turns the variables of a block into a world state, and
    what the hash of a block depends on. *)

From Stdlib Require Import Strings.Byte.
From S2P Require Import Prelude Bytes Db Trie TrieSpec TrieFacts WorldState WorldStateI Block.

(** ** Proof of work *)

Section pow.
Context {sha : Sha512}.

(** The hash tried with nonce [z], and whether the approver takes it. *)
Definition tryHash (data : bytes) (z : Z) : Byte64 := Sum512 (data ++ Bytes (Uint64ToByte8 z)).
Definition approves (p : option PowApprover) (ts delta : Z) (h : Byte64) : bool :=
  match p with Some f => f (Bytes h) ts delta | None => true end.

Lemma powLoop_hit n data p net ts delta last z :
  approves p ts delta (tryHash data z) = true →
  powLoop (S n) data p net ts delta last z = (Uint64ToByte8 z, Some (tryHash data z)).
Proof. intros H. cbn [powLoop]. fold (tryHash data z). unfold approves in H. by rewrite H. Qed.

Lemma powLoop_network n data p ts delta last z :
  powLoop (S n) data p true ts delta last z =
    (Uint64ToByte8 z, if approves p ts delta (tryHash data z) then Some (tryHash data z) else None).
Proof. cbn [powLoop]. fold (tryHash data z). unfold approves. by destruct p as [f|]; [destruct (f _ _ _)|]. Qed.

(** A successful loop stops at the first nonce that is approved. *)
Lemma powLoop_some n data p net ts delta last z nonce h :
  is_u64 z → powLoop n data p net ts delta last z = (nonce, Some h) →
  ∃ i, (i < n)%nat ∧ nonce = Uint64ToByte8 (u64 (z + Z.of_nat i)) ∧
    h = tryHash data (u64 (z + Z.of_nat i)) ∧ approves p ts delta h = true ∧
    ∀ j, (j < i)%nat → approves p ts delta (tryHash data (u64 (z + Z.of_nat j))) = false.
Proof.
  revert last z. induction n as [|n IH]; intros last z Hz; [done|].
  cbn [powLoop]. fold (tryHash data z). fold (approves p ts delta (tryHash data z)).
  destruct (approves p ts delta (tryHash data z)) eqn:Ea.
  - intros [= <- <-]. exists 0%nat. rewrite Z.add_0_r, u64_small by done. split_and!; [lia|done..|lia].
  - destruct net; [done|]. intros (i & Hi & -> & -> & Ha & Hj)%IH; [|apply u64_range].
    assert (Hs : ∀ k, u64 (u64 (z + 1) + Z.of_nat k) = u64 (z + Z.of_nat (S k))).
    { intros k. unfold u64. rewrite Zplus_mod_idemp_l. f_equal. lia. }
    rewrite Hs in *. exists (S i). split_and!; [lia|done..|].
    intros [|j] Hlt; [by rewrite Z.add_0_r, u64_small|]. rewrite <- Hs. apply Hj. lia.
Qed.

(** A candidate block fails only when none of the nonces tried is approved. *)
Lemma powLoop_none n data p ts delta last z nonce :
  is_u64 z → powLoop n data p false ts delta last z = (nonce, None) →
  ∀ i, (i < n)%nat → approves p ts delta (tryHash data (u64 (z + Z.of_nat i))) = false.
Proof.
  revert last z. induction n as [|n IH]; intros last z Hz; [lia|].
  cbn [powLoop]. fold (tryHash data z). fold (approves p ts delta (tryHash data z)).
  destruct (approves p ts delta (tryHash data z)) eqn:Ea; [done|].
  intros Hn [|i] Hi; [by rewrite Z.add_0_r, u64_small|].
  replace (u64 (z + Z.of_nat (S i))) with (u64 (u64 (z + 1) + Z.of_nat i)).
  - apply (IH _ _ (u64_range _) Hn). lia.
  - unfold u64. rewrite Zplus_mod_idemp_l. f_equal. lia.
Qed.
End pow.

(** ** Persisting the variables of a block *)

(** [t] differs from [t0] at a node that the remaining changes do not touch. *)
Definition parted (t0 t : tree) (vars : list wchange) : Prop :=
  ∃ p v, tview t p = Some v ∧ tview t0 p ≠ Some v ∧ p ∉ map nibbles (map fst vars).

Lemma parted_step t0 t c vars :
  wf_tree t → parted t0 t (c :: vars) → parted t0 (t_apply t (tchange c)) vars.
Proof.
  intros Hwf (p & v & Hv & Hv0 & Hp). simpl in Hp. apply not_elem_of_cons in Hp as [Hne Hp].
  exists p, v. split_and!; [|done..]. apply tview_apply_ne; [done | apply nibbles_wf | | done]. simpl. congruence.
Qed.

Lemma parted_start t c vars :
  wf_tree t → NoDup (map fst (c :: vars)) → t_apply t (tchange c) ≠ t →
  parted t (t_apply t (tchange c)) vars.
Proof.
  intros Hwf Hnd Hne. destruct (t_apply_effective t (tchange c)) as (v & Hv & Hv0);
    [done | apply nibbles_wf | done|].
  exists (nibbles c.1), v. split_and!; [done..|].
  inversion_clear Hnd as [|? ? Hc _]. intros (k & Heq & Hk)%list_elem_of_fmap.
  apply (inj nibbles) in Heq. apply Hc. by rewrite Heq.
Qed.

Lemma parted_hash `{Sha512} U t0 t vars :
  universe U → covered U t0 → covered U t → parted t0 t vars → thash t0 ≠ thash t.
Proof.
  intros HU H0 Ht (p & v & Hv & Hv0 & _) Heq. apply Hv0. by rewrite (thash_binds_view U t0 t p).
Qed.

Section persist.
Context {D : Type} {dbo : Database D} {dbl : DatabaseLaws D}.
Context {sha : Sha512} {cdc : Codec node} {cdl : CodecLaws node}.
Context (U : content → Prop) (HU : universe U) (fuel : nat).
#[local] Instance mpt_instance : WorldState MptWorldState D := mpt_world_state (S fuel).
Implicit Types (d : D) (ws : MptWorldState) (t : tree) (vars : list wchange).

Lemma persistLoop_cons sk key value vars ws d :
  persistLoop sk ((key, value) :: vars) ws d =
    let '(d', ws', h) := Apply ws (key, value) d in
    if decide (h = Hash ws) then persistLoop sk vars ws' d'
    else if sk then
      let! (d'', _) := Cleanup (S fuel) (Hash ws) d' in persistLoop true vars ws' d''
    else persistLoop true vars ws' d'.
Proof. cbn. unfold Apply. by destruct value. Qed.

(** What [persistState] leaves behind: the trie with all changes applied,
    every state node there was, and every other world state [t0] that the
    changes move away from. *)
Record persisted d t vars d' ws' : Prop := {
  pe_repr : repr d' ws' (t_apply_all t (map tchange vars));
  pe_ok : db_ok U d';
  pe_extends : extends getState d d';
  pe_frame : same_outside mpt_key d d';
}.

Lemma turned_frame t' d d' ws' : turned U d t' d' ws' → same_outside mpt_key d d'.
Proof.
  intros [_ _ Hg] k Hk. apply (gr_frame _ _ Hg). intros (h & [->| ->]); apply Hk; exists h; auto.
Qed.

Lemma Apply_hash ws c d d' ws' h t' :
  Apply ws c d = (d', ws', h) → repr d' ws' t' → h = thash t' → h = Hash ws'.
Proof. intros _ Hr ->. symmetry. apply Hr. Qed.

(** After the first change, the world states passed through are cleaned up. *)
Lemma persistLoop_true vars ws d t :
  db_ok U d → repr d ws t → settled d (thash t) → covers U t vars →
  ∃ d' ws', persistLoop true vars ws d = Ret (d', ws') ∧ persisted d t vars d' ws' ∧
    ∀ t0, covered U t0 → parted t0 t vars →
      is_Some (getTxRoot (thash t0) d) → is_Some (getTxRoot (thash t0) d').
Proof.
  revert ws d t. induction vars as [|[k v] vars IH]; intros ws d t Hd Hr Hset Hcov.
  { exists d, ws. split; [done|]. split; [by split|done]. }
  destruct Hcov as [Hc Hcov].
  destruct (Apply_refines U d ws t (k, v) HU Hd Hr Hc) as (d1 & ws1 & Heq & Htu & Hset1).
  rewrite persistLoop_cons, Heq. pose proof (turned_frame _ _ _ _ Htu) as Hf1.
  destruct Htu as [Hr1 Hd1 Hg1]. set (t1 := t_apply t (tchange (k, v))) in *.
  pose proof (holds_covered getState U d t (ok_state _ _ Hd) (rp_holds _ _ _ Hr)) as Hct.
  unfold Hash. rewrite (rp_hash _ _ _ Hr) in *. case_decide as Hh.
  - destruct (IH ws1 d1 t1) as (d' & ws' & -> & [P1 P2 P3 P4] & Hprot); [done..|rewrite Hh; by apply Hg1|done|].
    exists d', ws'. split; [done|]. split; [split; try done|].
    + etrans; [apply Hg1 | done].
    + by etrans.
    + intros t0 Ht0 Hp Hs. apply Hprot; [done | apply (parted_step _ _ (k, v)); [apply Hr | done] | by apply Hg1].
  - assert (Hs1 : settled d1 (thash t)) by (by apply Hg1).
    assert (Hroot : is_Some (getTxRoot (thash t) d1)).
    { apply Hg1. rewrite <- (rp_hash _ _ _ Hr). apply Hr. }
    destruct (Cleanup_settled U fuel (thash t) d1 Hd1 Hs1 Hroot) as (d2 & Hcl & Hd2 & _ & Hkeep & Hst & _).
    rewrite Hcl. cbn [outcome_bind].
    assert (Hr2 : repr d2 ws1 t1).
    { apply (repr_cleanup d1 d2 ws1 t1 (thash t)); [done | rewrite (rp_hash _ _ _ Hr1); congruence | done..]. }
    assert (He : extends getState d1 d2).
    { intros h n Hn. exists n. by rewrite Hst. }
    destruct (IH ws1 d2 t1) as (d' & ws' & -> & [P1 P2 P3 P4] & Hprot); [done..| |done|].
    { destruct (Hset1 Hh) as (n & Hn & Htn). exists n. by rewrite Hst. }
    exists d', ws'. split; [done|]. split; [split; try done|].
    + etrans; [apply Hg1|]. by etrans.
    + etrans; [done|]. etrans; [by eapply Cleanup_frame | done].
    + intros t0 Ht0 Hp Hs. apply Hprot;
        [done | apply (parted_step _ _ (k, v)); [apply Hr | done]|].
      rewrite Hkeep; [by apply Hg1 | by eapply parted_hash].
Qed.

(** The loop as [persistState] starts it: the parent's world state stays. *)
Lemma persistLoop_false vars ws d t :
  db_ok U d → repr d ws t → NoDup (map fst vars) → covers U t vars →
  ∃ d' ws', persistLoop false vars ws d = Ret (d', ws') ∧ persisted d t vars d' ws' ∧
    is_Some (getTxRoot (thash t) d').
Proof.
  revert ws d t. induction vars as [|[k v] vars IH]; intros ws d t Hd Hr Hnd Hcov.
  { exists d, ws. split; [done|]. split; [by split|]. rewrite <- (rp_hash _ _ _ Hr). apply Hr. }
  destruct Hcov as [Hc Hcov].
  destruct (Apply_refines U d ws t (k, v) HU Hd Hr Hc) as (d1 & ws1 & Heq & Htu & Hset1).
  rewrite persistLoop_cons, Heq. pose proof (turned_frame _ _ _ _ Htu) as Hf1.
  destruct Htu as [Hr1 Hd1 Hg1]. set (t1 := t_apply t (tchange (k, v))) in *.
  pose proof (holds_covered getState U d t (ok_state _ _ Hd) (rp_holds _ _ _ Hr)) as Hct.
  assert (Hroot : is_Some (getTxRoot (thash t) d1)).
  { apply Hg1. rewrite <- (rp_hash _ _ _ Hr). apply Hr. }
  unfold Hash. rewrite (rp_hash _ _ _ Hr) in *. case_decide as Hh.
  - destruct (IH ws1 d1 t1) as (d' & ws' & -> & [P1 P2 P3 P4] & Hkeep); [done..|by inversion Hnd|done|].
    exists d', ws'. split; [done|]. split; [split; try done|by rewrite <- Hh].
    + etrans; [apply Hg1 | done].
    + by etrans.
  - destruct (persistLoop_true vars ws1 d1 t1) as (d' & ws' & -> & [P1 P2 P3 P4] & Hprot); [done..|by apply Hset1|done|].
    exists d', ws'. split; [done|]. split; [split; try done|].
    + etrans; [apply Hg1 | done].
    + by etrans.
    + apply Hprot; [done | | done]. apply (parted_start t (k, v)); [apply Hr | done|].
      intros Ht. apply Hh. unfold t1. by rewrite Ht.
Qed.

(** ** Computing the hash *)

(** The trie that results from the variables of a block. *)
Definition effect t (m : gmap bytes (option bytes)) : tree :=
  t_apply_all t (map tchange (map_to_list m)).

(** [range] is some order of ranging over a map. *)
Definition is_range (range : ranger) : Prop := ∀ m, range m ≡ₚ map_to_list m.

Lemma range_nodup range m : is_range range → NoDup (map fst (range m)).
Proof. intros Hr. rewrite (Hr m). apply NoDup_fst_map_to_list. Qed.

Lemma range_effect range t m :
  is_range range → wf_tree t → t_apply_all t (map tchange (range m)) = effect t m.
Proof.
  intros Hr Ht. apply t_apply_all_perm; [done | apply tchanges_wf | |].
  - by apply tchanges_nodup, range_nodup.
  - by apply Permutation_map, Hr.
Qed.

(** The end of [computeHash]: proof of work, then setting nonce and hash. *)
Definition seal (attempts : nat) (state : Byte64) (b : block MptWorldState)
    : block MptWorldState * option Byte64 :=
  let b := if isNetworkBlock b then b else set_spec (set_STATE state (spec b)) b in
  let '(nonce, h) :=
    powLoop attempts (hashData (spec b) state) (pow b) (isNetworkBlock b) (Uint64 (TS (spec b)))
      (Uint64 (DELTA (spec b))) (NONCE (spec b)) (Uint64 (NONCE (spec b))) in
  (match h with None => id | Some h => set_hash (Some h) end (set_spec (set_NONCE nonce (spec b)) b), h).

(** A network block gets one attempt, with the nonce it came with. *)
Lemma seal_network n state b :
  isNetworkBlock b = true →
  let h := tryHash (hashData (spec b) state) (Uint64 (NONCE (spec b))) in
  seal (S n) state b =
    if approves (pow b) (Uint64 (TS (spec b))) (Uint64 (DELTA (spec b))) h
    then (set_hash (Some h) b, Some h) else (b, None).
Proof.
  intros Hn. unfold seal. rewrite Hn. cbv zeta. rewrite Hn, powLoop_network, Uint64ToByte8_Uint64.
  assert (Hb : set_spec (set_NONCE (NONCE (spec b)) (spec b)) b = b) by (by destruct b as [[]]).
  rewrite Hb. by destruct (approves _ _ _ _).
Qed.

Lemma seal_STATE attempts state b :
  isNetworkBlock b = false → STATE (spec (seal attempts state b).1) = state.
Proof.
  intros Hn. unfold seal. rewrite Hn. by destruct (powLoop _ _ _ _ _ _ _ _) as [nonce [h|]].
Qed.

Lemma computeHash_refines attempts range (b : block MptWorldState) ws d t :
  db_ok U d → worldState b = Some ws → repr d ws t →
  is_range range → covers U t (range (variables b)) →
  ∃ d' ws',
    computeHash attempts range b d =
      Ret (d', (seal attempts (thash (effect t (variables b))) (set_worldState (Some ws') b)).1,
               (seal attempts (thash (effect t (variables b))) (set_worldState (Some ws') b)).2) ∧
    persisted d t (range (variables b)) d' ws' ∧ repr d' ws' (effect t (variables b)) ∧
    is_Some (getTxRoot (thash t) d').
Proof.
  intros Hd Hb Hr Hrange Hcov.
  destruct (persistLoop_false (range (variables b)) ws d t) as (d' & ws' & Hp & Hpe & Hroot);
    [done..|by apply range_nodup | done|].
  pose proof (pe_repr _ _ _ _ _ Hpe) as Hr'. rewrite range_effect in Hr' by (done || apply Hr).
  exists d', ws'. split_and!; [|done..].
  unfold computeHash. rewrite Hb. unfold persistState. rewrite Hb. cbn [deref outcome_bind].
  rewrite Hp. cbn. unfold Hash. rewrite (rp_hash _ _ _ Hr'). unfold seal. cbn.
  destruct (isNetworkBlock b); cbn;
    destruct (powLoop _ _ _ _ _ _ _ _) as [nonce [h|]]; cbn; unfold BytesToByte64;
    by rewrite ?BytesToArr_Bytes.
Qed.
End persist.

(** ** What a client of a block sees *)

(** The calls an application makes while it fills a block. *)
Inductive bop := BUpdate (key value : bytes) | BDelete (key : bytes) | BLookup (key : bytes).

(** Running them on a block, collecting the answers of the lookups. *)
Fixpoint run_block `{WorldState W D} (ops : list bop) (b : block W) (d : D)
    : outcome (block W * list (result bytes)) :=
  match ops with
  | [] => Ret (b, [])
  | BUpdate k v :: ops => run_block ops (block_Update k v b).1 d
  | BDelete k :: ops => run_block ops (block_Delete k b).1 d
  | BLookup k :: ops =>
      let! (b, r) := block_Lookup k b d in
      let! (b, rs) := run_block ops b d in
      Ret (b, r :: rs)
  end.

(** The specification: a map [base] below the writes made so far. *)
Definition view_lookup (base : gmap bytes bytes) (writes : gmap bytes (option bytes)) (k : bytes)
    : result bytes :=
  match writes !! k with
  | Some (Some v) => Ok v
  | Some None => Err (CoreError ERR_KEY_NOT_FOUND "key not found")
  | None => match base !! k with
            | Some v => Ok v
            | None => Err (CoreError ERR_NOT_FOUND "key does not exists")
            end
  end.

Fixpoint run_view (base : gmap bytes bytes) (ops : list bop) (writes : gmap bytes (option bytes))
    : gmap bytes (option bytes) * list (result bytes) :=
  match ops with
  | [] => (writes, [])
  | BUpdate k v :: ops => run_view base ops (<[k := Some v]> writes)
  | BDelete k :: ops => run_view base ops (<[k := None]> writes)
  | BLookup k :: ops =>
      let '(w, rs) := run_view base ops writes in (w, view_lookup base writes k :: rs)
  end.

Lemma block_Lookup_fields `{WorldState W D} k (b b' : block W) (d : D) r :
  block_Lookup k b d = Ret (b', r) → ∃ m, b' = set_variables m b.
Proof.
  unfold block_Lookup. intros Hl. assert (b = set_variables (variables b) b) by by destruct b.
  destruct (variables b !! k) as [[v|]|]; [injection Hl as <- _; eauto..|].
  destruct (worldState b) as [w|]; [|done]. cbn in Hl.
  destruct (ws_Lookup w k d); injection Hl as <- _; eauto.
Qed.

(** Filling a block changes nothing but its variables. *)
Lemma run_block_fields `{WorldState W D} ops (b b' : block W) (d : D) rs :
  run_block ops b d = Ret (b', rs) → ∃ m, b' = set_variables m b.
Proof.
  revert b rs. induction ops as [|[k v|k|k] ops IH]; intros b rs; cbn [run_block].
  - intros [= -> _]. exists (variables b'). by destruct b'.
  - intros (m & ->)%IH. by exists m.
  - intros (m & ->)%IH. by exists m.
  - rewrite outcome_bind_ret. intros ([b1 r] & (m & ->)%block_Lookup_fields & Hrun).
    apply outcome_bind_ret in Hrun as ([b2 rs'] & Hrun & [= <- _]).
    apply IH in Hrun as (m' & ->). by exists m'.
Qed.

Section view.
Context {D : Type} {dbo : Database D} {dbl : DatabaseLaws D}.
Context {sha : Sha512} {cdc : Codec node} {cdl : CodecLaws node}.
Context (U : content → Prop) (HU : universe U) (fuel : nat).
#[local] Existing Instance mpt_instance.
Implicit Types (d : D) (m : gmap bytes (option bytes)).

(** The variables of a block are the writes plus values read from the base. *)
Definition overlays (base : gmap bytes bytes) (writes m : gmap bytes (option bytes)) : Prop :=
  ∀ k, m !! k = writes !! k ∨
       (writes !! k = None ∧ ∃ v, base !! k = Some v ∧ m !! k = Some (Some v)).

Lemma overlays_insert base writes m k x :
  overlays base writes m → overlays base (<[k := x]> writes) (<[k := x]> m).
Proof.
  intros H k'. destruct (decide (k = k')) as [->|Hne].
  - left. by simplify_map_eq.
  - rewrite !lookup_insert_ne by done. apply H.
Qed.

(** Reading a value and writing it back changes nothing. *)
Lemma effect_read t m k v :
  wf_tree t → m !! k = None → t_lookup t (nibbles k) = v → v ≠ [] →
  effect t (<[k := Some v]> m) = effect t m.
Proof.
  intros Ht Hk Hv Hne. unfold effect.
  rewrite (t_apply_all_perm t _ (map tchange ((k, Some v) :: map_to_list m))).
  - simpl. unfold t_apply_all. simpl. unfold t_apply at 2. simpl. by rewrite t_update_same.
  - done.
  - apply tchanges_wf.
  - apply tchanges_nodup, NoDup_fst_map_to_list.
  - apply Permutation_map. by apply map_to_list_insert.
Qed.

Lemma block_Lookup_view (b : block MptWorldState) ws d t base writes k :
  db_ok U d → worldState b = Some ws → repr d ws t → models base t →
  overlays base writes (variables b) →
  ∃ b', block_Lookup (wso:=mpt_instance fuel) k b d = Ret (b', view_lookup base writes k) ∧
    worldState b' = Some ws ∧ overlays base writes (variables b') ∧
    effect t (variables b') = effect t (variables b).
Proof.
  intros Hd Hb Hr Hm Hov. unfold block_Lookup, view_lookup.
  destruct (Hov k) as [Heq|(Hw & v & Hv & Heq)].
  - rewrite Heq. destruct (writes !! k) as [[v|]|] eqn:E; [by exists b..|].
    rewrite Hb. cbn. rewrite (Lookup_models U d ws t base k HU Hd Hr Hm).
    destruct (base !! k) as [v|] eqn:Eb; [|by exists b]. eexists. split; [done|]. cbn.
    split_and!; [done| |].
    + intros k'. destruct (decide (k = k')) as [->|Hne].
      * right. split; [done|]. exists v. by simplify_map_eq.
      * rewrite lookup_insert_ne by done. apply Hov.
    + destruct (Hm k) as [Hl Hne]. rewrite Eb in Hl, Hne.
      apply effect_read; [apply Hr | done | done | congruence].
  - rewrite Heq, Hw, Hv. by exists b.
Qed.

Lemma effect_insert t m k x :
  wf_tree t → effect t (<[k := x]> m) = t_apply (effect t (delete k m)) (tchange (k, x)).
Proof.
  intros Ht. unfold effect. rewrite <- insert_delete_eq.
  rewrite (t_apply_all_perm t _ (map tchange (map_to_list (delete k m) ++ [(k, x)]))).
  - rewrite map_app. unfold t_apply_all. by rewrite fold_left_app.
  - done.
  - apply tchanges_wf.
  - apply tchanges_nodup, NoDup_fst_map_to_list.
  - apply Permutation_map. rewrite map_to_list_insert by apply lookup_delete_eq.
    apply Permutation_cons_append.
Qed.

Lemma run_block_refines ops base (b : block MptWorldState) ws d t writes :
  db_ok U d → worldState b = Some ws → repr d ws t → models base t →
  overlays base writes (variables b) →
  ∃ b', run_block (H:=mpt_instance fuel) ops b d = Ret (b', (run_view base ops writes).2) ∧
    worldState b' = Some ws ∧ overlays base (run_view base ops writes).1 (variables b').
Proof.
  intros Hd Hb Hr Hm. revert b writes Hb.
  induction ops as [|[k v|k|k] ops IH]; intros b writes Hb Hov; cbn [run_block run_view].
  - by exists b.
  - by apply IH, overlays_insert.
  - by apply IH, overlays_insert.
  - destruct (block_Lookup_view b ws d t base writes k) as (b1 & -> & Hb1 & Hov1 & _); [done..|].
    cbn [outcome_bind]. destruct (IH b1 writes Hb1 Hov1) as (b' & -> & Hb' & Hov').
    cbn [outcome_bind]. destruct (run_view base ops writes) as [w rs]. by exists b'.
Qed.

(** The values a block has only read do not show in its state. *)
Lemma effect_overlays t base writes m :
  wf_tree t → models base t → overlays base writes m → effect t m = effect t writes.
Proof.
  intros Ht Hm. revert m. induction writes as [|k x writes Hk IH] using map_ind.
  - induction m as [|k x m Hk IHm] using map_ind; intros Hov; [done|].
    destruct (Hov k) as [Heq|(_ & v & Hv & Heq)]; simplify_map_eq.
    destruct (Hm k) as [Hl Hne]. rewrite Hv in Hl, Hne. simpl in Hl.
    rewrite effect_read; [|done|done|done|congruence]. apply IHm. intros k'.
    destruct (decide (k = k')) as [->|Hkk]; [left; by rewrite Hk|].
    specialize (Hov k'). by rewrite lookup_insert_ne in Hov.
  - intros m Hov. destruct (Hov k) as [Heq|(Hw & _)]; simplify_map_eq.
    rewrite <- (insert_id m k x) by done. rewrite !effect_insert by done.
    rewrite (delete_id writes k) by done. rewrite (IH (delete k m)); [done|].
    intros k'. destruct (decide (k = k')) as [->|Hkk]; [left; by simplify_map_eq|].
    specialize (Hov k'). by rewrite lookup_delete_ne, lookup_insert_ne in * by done.
Qed.
End view.
