(* ===== verification/BlockTheorems.v ===== *)
(** * Theorems about blocks

    The properties of [src/consensus/block.go] and
    [src/consensus/transaction.go], with their witnesses. *)

From Stdlib Require Import Strings.Byte.
From S2P Require Import Prelude Bytes Db Trie TrieSpec TrieFacts WorldState Concrete TrieTheorems WorldStateI Block BlockFacts.

Section over_mpt.
Context {D : Type} {dbo : Database D} {dbl : DatabaseLaws D}.
Context {sha : Sha512} {cdc : Codec node} {cdl : CodecLaws node}.
Context (fuel : nat).
#[local] Hint Extern 0 (WorldState MptWorldState _) => exact (mpt_instance fuel) : typeclass_instances.
Implicit Types (d : D) (b : block MptWorldState).

Lemma hashData_Spec s s' state :
  PHASH s' = PHASH s → MINER s' = MINER s → TS s' = TS s → DELTA s' = DELTA s → TXs s' = TXs s →
  WT s' = WT s → UNCLEs s' = UNCLEs s → hashData s' state = hashData s state.
Proof. unfold hashData. by intros -> -> -> -> -> -> ->. Qed.

(** The nonce that mining found is the one the peer tries, on the same data. *)
Lemma mined_verifies U d d' t ws ws' b nb attempts attempts' range range' d1 b1 h :
  universe U → db_ok U d → db_ok U d' → repr d ws t → repr d' ws' t →
  is_range range → is_range range' →
  covers U t (range (variables b)) → covers U t (range' (variables nb)) →
  worldState b = Some ws → isNetworkBlock b = false →
  computeHash attempts range b d = Ret (d1, b1, Some h) →
  worldState nb = Some ws' → isNetworkBlock nb = true → spec nb = Spec b1 → pow nb = pow b →
  effect t (variables nb) = effect t (variables b) →
  ∃ d2 nb2, computeHash (S attempts') range' nb d' = Ret (d2, nb2, Some h) ∧
    hash nb2 = Some h ∧ Hash <$> worldState nb2 = Some (STATE (spec nb2)).
Proof.
  intros HU Hd Hd' Hr Hr' Hrg Hrg' Hcov Hcov' Hb Hnet Hmine Hnb Hnbn Hspec Hpow Heff.
  destruct (computeHash_refines U HU fuel attempts range b ws d t)
    as (d3 & ws3 & Heq & Hpe & Hr3 & _); [done..|].
  rewrite Hmine in Heq. injection Heq as -> Hb1 Hh.
  destruct (computeHash_refines U HU fuel (S attempts') range' nb ws' d' t)
    as (d4 & ws4 & Heq4 & Hpe4 & Hr4 & _); [done..|].
  rewrite Heq4, Heff. clear Heq4. set (state := thash (effect t (variables b))) in *.
  unfold seal in Hb1, Hh. cbn in Hb1, Hh. rewrite Hnet in Hb1, Hh. cbn in Hb1, Hh.
  rewrite Hnet in Hb1, Hh.
  destruct (powLoop _ _ _ _ _ _ _ _) as [nonce oh] eqn:Hpl in Hb1, Hh.
  cbn in Hh. subst oh. cbn in Hb1.
  apply powLoop_some in Hpl as (i & _ & -> & -> & Happ & _); [|apply Uint64_range].
  assert (Hdata : hashData (spec nb) state = hashData (set_STATE state (spec b)) state).
  { rewrite Hspec, Hb1. by apply hashData_Spec. }
  rewrite seal_network by done. cbn [spec pow set_worldState]. rewrite Hpow, Hdata.
  set (z := u64 (Uint64 (NONCE (spec b)) + Z.of_nat i)) in *.
  assert (Hz : Uint64 (NONCE (spec nb)) = z).
  { rewrite Hspec, Hb1. cbn [Spec spec set_hash set_spec NONCE set_NONCE].
    rewrite Uint64_Uint64ToByte8. apply u64_idemp. }
  assert (Hts : TS (spec nb) = TS (spec b) ∧ DELTA (spec nb) = DELTA (spec b)).
  { rewrite Hspec, Hb1. done. }
  destruct Hts as [-> ->]. rewrite Hz, Happ. do 2 eexists. split; [done|]. split; [done|].
  cbn. unfold Hash. rewrite (rp_hash _ _ _ Hr4), Heff, Hspec, Hb1. cbn.
  unfold Hash. by rewrite (rp_hash _ _ _ Hr3).
Qed.

(** C8: A block that was mined by computeHash verifies at a peer: the network block with its
    spec, the same proof-of-work approver, the parent state of the miner and the same effect on
    it, computes in one attempt the same hash and a world state equal to the STATE field,
    whatever the order in which either side ranges over its variables. *)
Theorem mined_block_verifies U d d' t ws ws' b nb attempts attempts' range range' d1 b1 h :
  universe U → db_ok U d → db_ok U d' → repr d ws t → repr d' ws' t →
  is_range range → is_range range' →
  covers U t (range (variables b)) → covers U t (range' (variables nb)) →
  worldState b = Some ws → isNetworkBlock b = false →
  computeHash attempts range b d = Ret (d1, b1, Some h) →
  worldState nb = Some ws' → isNetworkBlock nb = true → spec nb = Spec b1 → pow nb = pow b →
  effect t (variables nb) = effect t (variables b) →
  ∃ d2 nb2, computeHash (S attempts') range' nb d' = Ret (d2, nb2, Some h) ∧
    hash nb2 = Some h ∧ Hash <$> worldState nb2 = Some (STATE (spec nb2)).
Proof. exact (mined_verifies U d d' t ws ws' b nb attempts attempts' range range' d1 b1 h). Qed.

(** The order in which persistState ranges over the variables does not influence the outcome of
    computeHash: result, hash, nonce and spec of the block are the same for any two orders. *)
Theorem compute_hash_order_independent U d t ws b attempts range range' :
  universe U → db_ok U d → repr d ws t → worldState b = Some ws →
  is_range range → is_range range' →
  covers U t (range (variables b)) → covers U t (range' (variables b)) →
  ∃ d1 b1 d2 b2 r,
    computeHash attempts range b d = Ret (d1, b1, r) ∧
    computeHash attempts range' b d = Ret (d2, b2, r) ∧
    spec b1 = spec b2 ∧ Spec b1 = Spec b2 ∧ hash b1 = hash b2.
Proof.
  intros HU Hd Hr Hb Hrg Hrg' Hcov Hcov'.
  destruct (computeHash_refines U HU fuel attempts range b ws d t)
    as (d1 & ws1 & -> & _ & Hr1 & _); [done..|].
  destruct (computeHash_refines U HU fuel attempts range' b ws d t)
    as (d2 & ws2 & -> & _ & Hr2 & _); [done..|].
  set (state := thash (effect t (variables b))) in *.
  assert (Hs : Hash ws1 = Hash ws2).
  { unfold Hash. by rewrite (rp_hash _ _ _ Hr1), (rp_hash _ _ _ Hr2). }
  unfold seal. cbn. destruct (isNetworkBlock b); cbn;
    destruct (powLoop _ _ _ _ _ _ _ _) as [nonce [h|]]; cbn;
    do 5 eexists; (split; [done|]); (split; [done|]);
    unfold Spec; cbn; rewrite ?Hs; done.
Qed.

(** C22: After computeHash has written the variables of a block and cleaned up the transient
    states, the world state of the parent can still be rebased to and reads as before, and so
    does the new state of the block after that. *)
Theorem parent_state_survives_mining U d t ws b attempts range :
  universe U → db_ok U d → repr d ws t → worldState b = Some ws →
  is_range range → covers U t (range (variables b)) →
  ∃ d1 b1 r ws1, computeHash attempts range b d = Ret (d1, b1, r) ∧ worldState b1 = Some ws1 ∧
    ∃ d2 ws2, Rebase ws1 (Hash ws) d1 = (d2, ws2, None) ∧ Hash ws2 = Hash ws ∧
      (∀ key, Lookup ws2 key d2 = Lookup ws key d) ∧
      ∃ d3 ws3, Rebase ws2 (Hash ws1) d2 = (d3, ws3, None) ∧
        ∀ key, Lookup ws3 key d3 = Lookup ws1 key d1.
Proof.
  intros HU Hd Hr Hb Hrg Hcov.
  destruct (computeHash_refines U HU fuel attempts range b ws d t)
    as (d1 & ws1 & -> & Hpe & Hr1 & Hroot); [done..|].
  do 4 eexists. split; [done|]. split.
  { unfold seal. cbn. destruct (isNetworkBlock b); cbn; by destruct (powLoop _ _ _ _ _ _ _ _) as [nonce [h|]]. }
  pose proof (pe_ok _ _ _ _ _ _ Hpe) as Hd1. unfold Hash. rewrite (rp_hash _ _ _ Hr).
  destruct (Rebase_refines U d1 ws1 _ t HU Hd1 Hr1) as (d2 & ws2 & Hreb & [Hr2 Hd2 Hg2]);
    [apply Hr | | done |].
  { apply (holds_extends _ d); [by eapply pe_extends | apply Hr]. }
  exists d2, ws2. split; [done|]. split; [apply Hr2|]. split.
  { intros key. by rewrite (Lookup_refines U d2 ws2 t key HU Hd2 Hr2), (Lookup_refines U d ws t key HU Hd Hr). }
  pose proof (repr_grows d1 d2 ws1 _ Hg2 Hr1) as Hr12.
  pose proof (rp_root _ _ _ Hr12) as Hroot2. rewrite (rp_hash _ _ _ Hr1) in *.
  destruct (Rebase_refines U d2 ws2 t (effect t (variables b)) HU Hd2 Hr2) as (d3 & ws3 & Hreb3 & [Hr3 Hd3 _]);
    [apply Hr12 | apply Hr12 | done|].
  exists d3, ws3. split; [done|]. intros key.
  by rewrite (Lookup_refines U d3 ws3 _ key HU Hd3 Hr3), (Lookup_refines U d1 ws1 _ key HU Hd1 Hr1).
Qed.

(** C23: Any sequence of updates, deletes and lookups on a fresh block answers like a map of
    writes over the parent state, and the STATE that computeHash gives the block is that of the
    parent trie with just the writes applied: values the block only read and cached leave no
    trace. *)
Theorem block_view_refines U d t ws b base ops :
  universe U → db_ok U d → repr d ws t → models base t →
  worldState b = Some ws → variables b = ∅ → isNetworkBlock b = false →
  ∃ b', run_block ops b d = Ret (b', (run_view base ops ∅).2) ∧
    ∀ attempts range, is_range range → covers U t (range (variables b')) →
    ∃ d1 b1 r, computeHash attempts range b' d = Ret (d1, b1, r) ∧
      STATE (spec b1) = thash (effect t (run_view base ops ∅).1).
Proof.
  intros HU Hd Hr Hm Hb Hv Hnet.
  destruct (run_block_refines U HU fuel ops base b ws d t ∅) as (b' & Hrun & Hb' & Hov); [done..| |].
  { intros k. left. by rewrite Hv. }
  pose proof (effect_overlays t base _ _ (rp_wf _ _ _ Hr) Hm Hov) as Heff.
  exists b'. split; [done|]. intros attempts range Hrg Hcov.
  destruct (computeHash_refines U HU fuel attempts range b' ws d t)
    as (d1 & ws1 & -> & _ & Hr1 & _); [done..|].
  do 3 eexists. split; [done|]. rewrite Heff. apply seal_STATE.
  by destruct (run_block_fields _ _ _ _ _ Hrun) as [m ->].
Qed.

(** Mining a candidate block always returns; it succeeds exactly when one of the nonces tried is
    approved, stops at the first such nonce, and the hash and NONCE it sets are those of that
    nonce; otherwise the block keeps its hash. *)
Theorem mining_stops_at_first_nonce U d t ws b attempts range :
  universe U → db_ok U d → repr d ws t → worldState b = Some ws → isNetworkBlock b = false →
  is_range range → covers U t (range (variables b)) →
  ∃ d1 b1 r, computeHash attempts range b d = Ret (d1, b1, r) ∧ 
    let accepted i :=
      approves (pow b) (Uint64 (TS (spec b))) (Uint64 (DELTA (spec b)))
        (tryHash (hashData (spec b) (STATE (spec b1))) (u64 (Uint64 (NONCE (spec b)) + Z.of_nat i))) in
    match r with
    | Some h => ∃ i, (i < attempts)%nat ∧ accepted i = true ∧ (∀ j, (j < i)%nat → accepted j = false) ∧
        Uint64 (NONCE (spec b1)) = u64 (Uint64 (NONCE (spec b)) + Z.of_nat i) ∧
        h = tryHash (hashData (spec b) (STATE (spec b1))) (Uint64 (NONCE (spec b1))) ∧ hash b1 = Some h
    | None => (∀ i, (i < attempts)%nat → accepted i = false) ∧ hash b1 = hash b
    end.
Proof.
  intros HU Hd Hr Hb Hnet Hrg Hcov.
  destruct (computeHash_refines U HU fuel attempts range b ws d t)
    as (d1 & ws1 & -> & _ & _ & _); [done..|].
  do 3 eexists. split; [done|]. cbv zeta. rewrite seal_STATE by done.
  set (state := thash (effect t (variables b))).
  unfold seal. cbn. rewrite Hnet. cbn. rewrite Hnet.
  change (hashData (set_STATE state (spec b)) state) with (hashData (spec b) state).
  destruct (powLoop _ _ _ _ _ _ _ _) as [nonce [h|]] eqn:Hpl; cbn.
  - apply powLoop_some in Hpl as (i & Hi & -> & -> & Ha & Hj); [|apply Uint64_range].
    exists i. rewrite Uint64_Uint64ToByte8, u64_idemp. done.
  - split; [|done]. intros i Hi. eapply powLoop_none; [apply Uint64_range | done | done].
Qed.
End over_mpt.

(** ** Any world state *)

Section over_any.
Context {D W : Type} {wso : WorldState W D} {sha : Sha512}.
Implicit Types (d : D) (b : block W).

(** Deserializing what serializeBlock wrote gives a network block with the same spec and no
    hash, world state or variables. *)
Theorem serialized_block_round_trips `{CodecLaws BlockSpec} b data :
  serializeBlock (Some b) = Ok data →
  ∃ nb, deSerializeBlock data = Ok nb ∧ spec nb = spec b ∧ Spec nb = Spec b ∧
    isNetworkBlock nb = true ∧ hash nb = None ∧ worldState nb = None ∧ variables nb = ∅.
Proof.
  unfold serializeBlock, deSerializeBlock. case_decide as Hz; [done|].
  destruct (worldState b) as [w|] eqn:Ew.
  - case_bool_decide as Hw; [done|]. destruct (hash b); [|done].
    intros ->%deserialize_serialize. eexists. split_and!; try done.
    unfold Spec. cbn. by rewrite Ew, Hw.
  - destruct (hash b); [|done]. intros ->%deserialize_serialize. eexists. split_and!; try done.
    unfold Spec. cbn. by rewrite Ew.
Qed.

(** serializeBlock accepts a block exactly when its STATE is not zero, agrees with its world
    state if it has one, and the block is hashed. *)
Theorem serialize_block_accepts `{CodecLaws BlockSpec} b :
  is_ok (serializeBlock (Some b)) = true ↔
    STATE (spec b) ≠ BytesToByte64 [] ∧ is_Some (hash b) ∧
    ∀ w, worldState b = Some w → ws_Hash w = STATE (spec b).
Proof.
  unfold serializeBlock. destruct (serialize_ok (spec b)) as [data ->].
  case_decide as Hz; [by split; [|intros (? & _)]|].
  destruct (worldState b) as [w|] eqn:Ew.
  - case_bool_decide as Hw.
    + split; [done|]. intros (_ & _ & Hall). by destruct Hw; apply Hall.
    + destruct (hash b); simpl.
      * split; [|done]. intros _. split_and!; [done | by eexists | by intros ? [= <-]].
      * split; [done|]. by intros (_ & [? [=]] & _).
  - destruct (hash b); simpl.
    + split; [|done]. intros _. by split_and!; [| eexists |].
    + split; [done|]. by intros (_ & [? [=]] & _).
Qed.

Definition with_depth (dep : Byte8) b : block W :=
  let s := spec b in
  set_spec (Spec_ (PHASH s) (MINER s) (STATE s) (TXs s) (TS s) (DELTA s) dep (WT s) (UNCLEs s) (NONCE s)) b.

(** The depth of a block does not enter its hash: computeHash on the block with another depth
    does the same and gives the same hash. *)
Theorem depth_not_hashed dep attempts range b d :
  computeHash attempts range (with_depth dep b) d =
    let! (d', b', r) := computeHash attempts range b d in Ret (d', with_depth dep b', r).
Proof.
  unfold computeHash, persistState, hashData. cbn.
  destruct (worldState b) as [w|]; cbn.
  - destruct (persistLoop false (range (variables b)) w d) as [[d1 w1]| |]; cbn; try done.
    destruct (isNetworkBlock b) eqn:En; cbn; rewrite ?En; cbn;
      by destruct (powLoop _ _ _ _ _ _ _ _) as [nonce [h|]].
  - by destruct (powLoop _ _ _ _ _ _ _ _) as [nonce [h|]].
Qed.

(** The id of a transaction does not determine its fields: moving bytes from the end of the
    payload to the signature, or from the signature to the submitter, keeps the id. *)
Theorem transaction_id_field_boundaries payload x signature submitter now :
  Transaction_Id (NewTransaction now (payload ++ x) signature submitter) =
  Transaction_Id (NewTransaction now payload (x ++ signature) submitter) ∧
  Transaction_Id (NewTransaction now payload (signature ++ x) submitter) =
  Transaction_Id (NewTransaction now payload signature (x ++ submitter)).
Proof.
  unfold Transaction_Id, Transaction_Bytes, NewTransaction. cbn [Payload Signature Submitter Timestamp].
  by rewrite <- !(assoc_L (++)).
Qed.

Lemma Numeric_fold l acc :
  0 ≤ acc → acc + 255 * Z.of_nat (length l) < 2 ^ 64 →
  acc ≤ fold_left (λ num x, u64 (num + byte_val x)) l acc ≤ acc + 255 * Z.of_nat (length l).
Proof.
  revert acc. induction l as [|x l IH]; intros acc H0 Hb; cbn [fold_left length] in *; [lia|].
  pose proof (byte_val_range x) as Hx.
  rewrite u64_add_small by lia. specialize (IH (acc + byte_val x)). lia.
Qed.

(** The numeric value of a hashed block is the plain sum of its hash bytes, at most 16320, and
    that of an unhashed block is the largest uint64. *)
Theorem numeric_bounds b :
  match hash b with
  | Some h => 0 ≤ Numeric b ≤ 16320 ∧ Numeric b = fold_left (λ num x, num + byte_val x) (Bytes h) 0
  | None => Numeric b = 2 ^ 64 - 1
  end.
Proof.
  unfold Numeric. destruct (hash b) as [h|]; [|done].
  assert (Hl : Z.of_nat (length (Bytes h)) = 64) by (unfold Bytes; by rewrite arr_length).
  pose proof (Numeric_fold (Bytes h) 0) as Hf. rewrite Hl in Hf.
  split; [lia|]. clear Hf.
  assert (Hgen : ∀ l acc, 0 ≤ acc → acc + 255 * Z.of_nat (length l) < 2 ^ 64 →
    fold_left (λ num x, u64 (num + byte_val x)) l acc = fold_left (λ num x, num + byte_val x) l acc).
  { induction l as [|x l IH]; intros acc H0 Hb; cbn [fold_left length] in *; [done|].
    pose proof (byte_val_range x) as Hx. rewrite u64_add_small by lia. apply IH; lia. }
  apply Hgen; rewrite ?Hl; lia.
Qed.

(** The transactions of a block are registered under their ids, once each. *)
Definition tx_inv b (d : D) : Prop :=
  NoDup (map Transaction_Id (TXs (spec b))) ∧
  transactions b = list_to_set (map Transaction_Id (TXs (spec b))) ∧
  ∀ w tx, worldState b = Some w → tx ∈ TXs (spec b) → is_ok (ws_HasTransaction w (Transaction_Id tx) d) = false.

(** Adding a list of transactions, collecting the errors. *)
Fixpoint add_all (txs : list Transaction) b d : outcome (block W * list (option error)) :=
  match txs with
  | [] => Ret (b, [])
  | tx :: txs =>
      let! (b, e) := AddTransaction tx b d in
      let! (b, es) := add_all txs b d in
      Ret (b, e :: es)
  end.

Lemma AddTransaction_inv tx b d b' e :
  tx_inv b d → AddTransaction tx b d = Ret (b', e) →
  tx_inv b' d ∧ (e = None ↔ TXs (spec b') = TXs (spec b) ++ [tx]) ∧
  (e ≠ None → b' = b).
Proof.
  intros Hinv. pose proof Hinv as (Hnd & Hset & Hreg). unfold AddTransaction. rewrite outcome_bind_ret.
  intros (w & Hw & Hadd). destruct (worldState b) as [w'|] eqn:Ew; [|done]. injection Hw as ->.
  assert (Hsame : ∀ e : error, Some e = None ↔ TXs (spec b) = TXs (spec b) ++ [tx]).
  { intros e'. split; [done|]. intros Heq%(f_equal length). rewrite length_app in Heq. simpl in Heq. lia. }
  destruct (ws_HasTransaction w (Transaction_Id tx) d) eqn:Eh.
  { injection Hadd as <- <-. split_and!; [done | apply Hsame | done]. }
  case_decide as Hin; injection Hadd as <- <-.
  { split_and!; [done | apply Hsame | done]. }
  split_and!; [|done|done]. unfold tx_inv. cbn. rewrite map_app, list_to_set_app_L, Hset. cbn.
  split_and!.
  - apply list.NoDup_app. split_and!; [done| |apply NoDup_singleton].
    intros x Hx ->%list_elem_of_singleton. apply Hin. rewrite Hset. by apply elem_of_list_to_set.
  - rewrite (right_id_L ∅ (∪)). apply (comm_L (∪)).
  - rewrite Ew. intros w0 tx0 [= <-] [Hx|Hx%list_elem_of_singleton]%elem_of_app.
    + by apply (Hreg w).
    + subst. by rewrite Eh.
Qed.

Lemma add_all_spec txs b d w :
  tx_inv b d → worldState b = Some w →
  ∃ b' es, add_all txs b d = Ret (b', es) ∧ length es = length txs ∧
    tx_inv b' d ∧ worldState b' = Some w ∧
    TXs (spec b') = TXs (spec b) ++
      omap (λ '(tx, e), match e with None => Some tx | Some _ => None end) (zip txs es).
Proof.
  revert b. induction txs as [|tx txs IH]; intros b Hi Hw; cbn [add_all].
  - exists b, []. by rewrite app_nil_r.
  - assert (∃ b1 e, AddTransaction tx b d = Ret (b1, e) ∧ worldState b1 = Some w) as (b1 & e & Hone & Hw1).
    { unfold AddTransaction. rewrite Hw. cbn [deref outcome_bind].
      destruct (ws_HasTransaction w _ d); [by eauto|]. case_decide; by eauto. }
    destruct (AddTransaction_inv tx b d b1 e Hi Hone) as (Hi1 & Htx & Hsame).
    destruct (IH b1 Hi1 Hw1) as (b2 & es & Hrest & Hl & Hi2 & Hw2 & Htxs).
    rewrite Hone. cbn [outcome_bind]. rewrite Hrest. cbn [outcome_bind].
    exists b2, (e :: es). split_and!; [done | simpl; by rewrite Hl | done | done|].
    rewrite Htxs. simpl. destruct e as [e|]; [by rewrite Hsame|].
    rewrite (proj1 Htx) by done. by rewrite <- (assoc_L (++)).
Qed.

(** Adding any list of transactions to a new block never panics, reports one result per
    transaction, keeps exactly the accepted ones in order, all with distinct ids, and none that
    the world state has on record. *)
Theorem block_transactions_unique now previous weight depth ts pTs miner w txs d :
  ∃ b es, add_all txs (newBlock now previous weight depth ts pTs miner (Some w)) d = Ret (b, es) ∧
    length es = length txs ∧ NoDup (map Transaction_Id (Transactions b)) ∧
    Transactions b = omap (λ '(tx, e), match e with None => Some tx | Some _ => None end) (zip txs es) ∧
    ∀ tx, tx ∈ Transactions b → is_ok (ws_HasTransaction w (Transaction_Id tx) d) = false.
Proof.
  set (b0 := newBlock _ _ _ _ _ _ _ _).
  destruct (add_all_spec txs b0 d w) as (b & es & Hadd & Hl & (Hnd & _ & Hreg) & Hw & Htx); [|done|].
  { split_and!; [apply NoDup_nil_2 | done | by intros ? ? _ ?%elem_of_nil]. }
  exists b, es. unfold Transactions.
  split_and!; [done | done | done | by rewrite Htx | by intros; eapply Hreg].
Qed.
End over_any.

(** ** Witnesses *)

Section witnesses.
#[local] Existing Instances w_hash w_codec w_laws.
#[local] Instance w_ops : WorldState MptWorldState (gmap bytes bytes) := mpt_instance 0.

(** Two orders of ranging over the variables. *)
Definition w_range : ranger := λ m, map_to_list m.
Definition w_range' : ranger := λ m, rev (map_to_list m).

Lemma w_range_ok : is_range w_range.
Proof. by intros m. Qed.
Lemma w_range_ok' : is_range w_range'.
Proof. intros m. symmetry. apply Permutation_rev. Qed.

(** A candidate block that writes two keys and deletes a third one. *)
Definition w_vars : gmap bytes (option bytes) := list_to_map w_cs.
Definition w_pow : PowApprover := λ h ts delta, Z.even (byte_val (nth 7 h x00)) && bool_decide (delta ≤ ts).
Definition w_new : block MptWorldState := newBlock 0 null 1 1 9 7 [x6d] (Some w_ws).
Definition w_block : block MptWorldState := set_pow (Some w_pow) (set_variables w_vars w_new).
Definition w_attempts : nat := 20.

Definition wb_trees : list tree :=
  trees t_empty (w_range w_vars) ++ trees t_empty (w_range' w_vars).
Definition wb_U : content → Prop := U_of wb_trees.

Lemma wb_universe : universe wb_U.
Proof. apply universe_b_sound. vm_compute. reflexivity. Qed.

Lemma wb_covers : covers wb_U t_empty (w_range w_vars) ∧ covers wb_U t_empty (w_range' w_vars).
Proof. split; apply covers_trees; intros x Hx; apply elem_of_app; auto. Qed.

Lemma wb_start : db_ok wb_U w_db ∧ repr w_db w_ws t_empty.
Proof.
  destruct (NewMptWorldState_refines wb_U ∅ wb_universe (db_ok_empty _)) as (d & ws & Heq & Hr & Hd & _).
  { apply (U_of_covered wb_trees t_empty) with []; [apply elem_of_app; left; apply trees_head | done]. }
  unfold w_db, w_ws. by rewrite Heq.
Qed.

(** The block as mined, and as received. *)
Definition w_mined : gmap bytes bytes * block MptWorldState * option Byte64 :=
  match computeHash w_attempts w_range w_block w_db with Ret r => r | _ => (w_db, w_block, None) end.
Definition w_received : block MptWorldState :=
  Block MptWorldState (Spec w_mined.1.2) [] (Some w_pow) (Some w_ws) None true w_vars ∅.

Lemma w_mined_some :
  match computeHash w_attempts w_range w_block w_db with
  | Ret (_, _, Some _) => True
  | _ => False
  end.
Proof. vm_compute. exact I. Qed.

Lemma w_mined_eq :
  ∃ h, computeHash w_attempts w_range w_block w_db = Ret (w_mined.1.1, w_mined.1.2, Some h).
Proof.
  pose proof w_mined_some as H. unfold w_mined. revert H.
  generalize (computeHash w_attempts w_range w_block w_db) as o. intros [[[d b] [h|]]| |]; try done. by exists h.
Qed.

Lemma mined_block_verifies_witness :
  ∃ h d2 nb2, computeHash 1 w_range' w_received w_db = Ret (d2, nb2, Some h) ∧
    hash nb2 = Some h ∧ Hash <$> worldState nb2 = Some (STATE (spec nb2)).
Proof.
  destruct w_mined_eq as [h Hmine]. exists h.
  exact (mined_block_verifies 0 wb_U w_db w_db t_empty w_ws w_ws w_block w_received w_attempts 0
    w_range w_range' w_mined.1.1 w_mined.1.2 h wb_universe (proj1 wb_start) (proj1 wb_start)
    (proj2 wb_start) (proj2 wb_start) w_range_ok w_range_ok' (proj1 wb_covers) (proj2 wb_covers)
    eq_refl eq_refl Hmine eq_refl eq_refl eq_refl eq_refl eq_refl).
Defined.

Lemma compute_hash_order_independent_witness :
  ∃ d1 b1 d2 b2 r,
    computeHash w_attempts w_range w_block w_db = Ret (d1, b1, r) ∧
    computeHash w_attempts w_range' w_block w_db = Ret (d2, b2, r) ∧
    spec b1 = spec b2 ∧ Spec b1 = Spec b2 ∧ hash b1 = hash b2.
Proof.
  exact (compute_hash_order_independent 0 wb_U w_db t_empty w_ws w_block w_attempts w_range w_range'
    wb_universe (proj1 wb_start) (proj2 wb_start) eq_refl w_range_ok w_range_ok'
    (proj1 wb_covers) (proj2 wb_covers)).
Defined.

Lemma parent_state_survives_mining_witness :
  ∃ d1 b1 r ws1, computeHash w_attempts w_range w_block w_db = Ret (d1, b1, r) ∧
    worldState b1 = Some ws1 ∧ ∃ d2 ws2, Rebase ws1 (Hash w_ws) d1 = (d2, ws2, None).
Proof.
  destruct (parent_state_survives_mining 0 wb_U w_db t_empty w_ws w_block w_attempts w_range
    wb_universe (proj1 wb_start) (proj2 wb_start) eq_refl w_range_ok (proj1 wb_covers))
    as (d1 & b1 & r & ws1 & H1 & H2 & d2 & ws2 & H3 & _).
  exists d1, b1, r, ws1. split; [exact H1|]. split; [exact H2|]. exists d2, ws2. exact H3.
Defined.

(** A client that reads, writes, deletes and reads again. *)
Definition w_ops_list : list bop :=
  [BLookup [x61]; BUpdate [x61] [x31]; BLookup [x61]; BUpdate [x62] [x32]; BDelete [x61; x62]; BLookup [x61; x62]].

Lemma block_view_refines_witness :
  ∃ b', run_block w_ops_list w_new w_db = Ret (b', (run_view ∅ w_ops_list ∅).2).
Proof.
  destruct (block_view_refines 0 wb_U w_db t_empty w_ws w_new ∅ w_ops_list wb_universe
    (proj1 wb_start) (proj2 wb_start) models_empty eq_refl eq_refl eq_refl) as (b' & H & _).
  exists b'. exact H.
Defined.

Lemma mining_stops_at_first_nonce_witness :
  ∃ d1 b1 r, computeHash w_attempts w_range w_block w_db = Ret (d1, b1, r).
Proof.
  destruct (mining_stops_at_first_nonce 0 wb_U w_db t_empty w_ws w_block w_attempts w_range
    wb_universe (proj1 wb_start) (proj2 wb_start) eq_refl eq_refl w_range_ok (proj1 wb_covers))
    as (d1 & b1 & r & H & _).
  exists d1, b1, r. exact H.
Defined.

#[global] Instance wire_transaction : Wire Transaction :=
  wire_iso (λ t, (Payload t, Signature t, Submitter t, Timestamp t)) (λ '(p, s, u, t), Tx p s u t)
    (λ t, match t with Tx _ _ _ _ => eq_refl end).
#[global] Instance wire_spec : Wire BlockSpec :=
  wire_iso
    (λ s, (PHASH s, MINER s, STATE s, TXs s, TS s, (DELTA s, DEPTH s, WT s, UNCLEs s, NONCE s)))
    (λ '(p, m, s, t, ts, (d, dp, w, u, n)), Spec_ p m s t ts d dp w u n)
    (λ s, match s with Spec_ _ _ _ _ _ _ _ _ _ _ => eq_refl end).
Definition w_spec_codec : Codec BlockSpec := codec_of_wire.
#[local] Existing Instance w_spec_codec.

(** A block with a transaction that is ready to be stored. *)
Definition w_hashed : block MptWorldState :=
  set_hash (Some (BytesToByte64 [x05])) (set_spec (set_TXs [Tx [x01] [x02] [x03] (Uint64ToByte8 4)] (spec w_new)) w_new).
Definition w_data : bytes := match serializeBlock (Some w_hashed) with Ok x => x | Err _ => [] end.

Lemma w_data_eq : serializeBlock (Some w_hashed) = Ok w_data.
Proof. vm_compute. reflexivity. Qed.

Lemma serialized_block_round_trips_witness :
  ∃ nb : block MptWorldState, deSerializeBlock w_data = Ok nb ∧ spec nb = spec w_hashed.
Proof.
  destruct (@serialized_block_round_trips _ _ w_ops _ codec_of_wire_laws w_hashed w_data w_data_eq)
    as (nb & H1 & H2 & _).
  exists nb. split; [exact H1 | exact H2].
Defined.

Lemma serialize_block_accepts_witness :
  is_ok (serializeBlock (Some w_hashed)) = true ↔
    STATE (spec w_hashed) ≠ BytesToByte64 [] ∧ is_Some (hash w_hashed) ∧
    ∀ w, worldState w_hashed = Some w → ws_Hash w = STATE (spec w_hashed).
Proof. exact (@serialize_block_accepts _ _ w_ops _ codec_of_wire_laws w_hashed). Defined.
End witnesses.
