(* ===== verification/MainList.v ===== *)
(** * Main lists in block trees

    Both block chains of the repository ([src/consensus/blockChainConsensus.go]
    and [src/core/chain/blockChain.go]) keep a tree of nodes with parent and
    child links, in which the nodes of the canonical chain carry a flag, and
    move the flags with the same three loops when the canonical chain changes:
    walk up from the new tip to the first flagged ancestor, find the flagged
    child of that ancestor on the other branch, and take the flags down from
    there.  This file states these loops over an abstract view of the stored
    nodes and proves that they leave exactly the path to the new tip flagged.
    The concrete loops are related to these in the files of the two chains. *)

From S2P Require Import Prelude Bytes.

(** ** Nodes *)

(** What a chain node has: hash, parent, children and the main-list flag. *)
Class ChainNodeOps (N : Type) := {
  n_hash : N → option Byte64;
  n_parent : N → Byte64;
  n_children : N → list Byte64;
  n_main : N → bool;
  n_setMain : bool → N → N;
  n_addChild : Byte64 → N → N;
}.

(** The part of a node that the flag is not. *)
Definition shape {N : Type} `{ChainNodeOps N} (n : N) : option Byte64 * Byte64 * list Byte64 :=
  (n_hash n, n_parent n, n_children n).

Class ChainNodeLaws (N : Type) `{ChainNodeOps N} := {
  n_main_set m (n : N) : n_main (n_setMain m n) = m;
  n_shape_set m (n : N) : shape (n_setMain m n) = shape n;
  n_main_add h (n : N) : n_main (n_addChild h n) = n_main n;
  n_shape_add h (n : N) : shape (n_addChild h n) = (n_hash n, n_parent n, n_children n ++ [h]);
}.

(** ** The loops over a view of the store *)

Section loops.
Context {N : Type} {no : ChainNodeOps N}.

(** The stored nodes, by hash. *)
Definition view : Type := Byte64 → option N.
Definition upd (V : view) (h : Byte64) (n : N) : view := λ h', if decide (h = h') then Some n else V h'.

Fixpoint find (V : view) (children : list Byte64) (skip : option N) : outcome (option N) :=
  match children with
  | [] => Ret None
  | h :: children =>
      match V h with
      | None => find V children skip
      | Some child =>
          if n_main child then
            match skip with
            | None => Ret (Some child)
            | Some s =>
                let! hs := deref (n_hash s) in
                let! hc := deref (n_hash child) in
                if decide (hs ≠ hc) then Ret (Some child) else find V children skip
            end
          else find V children skip
      end
  end.

Fixpoint up (fuel : nat) (V : view) (p : option N) (below : N) : outcome (view * N * N) :=
  let! p := deref p in
  if n_main p then Ret (V, p, below)
  else
    match fuel with
    | O => OutOfFuel
    | S fuel =>
        let p := n_setMain true p in
        let! hp := deref (n_hash p) in
        let V := upd V hp p in
        up fuel V (V (n_parent p)) p
    end.

Fixpoint down (fuel : nat) (V : view) (n : option N) : outcome view :=
  match n with
  | None => Ret V
  | Some n =>
      match fuel with
      | O => OutOfFuel
      | S fuel =>
          let n := n_setMain false n in
          let! hn := deref (n_hash n) in
          let V := upd V hn n in
          let! next := find V (n_children n) None in
          down fuel V next
      end
  end.

(** The three loops together: [child] is linked to its parent already. *)
Definition rebalance (fuel : nat) (V : view) (parent child : N) : outcome view :=
  let child := n_setMain true child in
  let! (V, anc, below) := up fuel V (Some parent) child in
  let! hc := deref (n_hash child) in
  let V := upd V hc child in
  let! old := find V (n_children anc) (Some below) in
  down fuel V old.
End loops.
Arguments view : clear implicits.

(** ** Trees *)

Section trees.
Context {N : Type} {no : ChainNodeOps N} {nl : ChainNodeLaws N}.
Implicit Types (V : view N) (g h x : Byte64) (l : list Byte64) (n : N).

Lemma upd_eq V h n : upd V h n h = Some n.
Proof. unfold upd. by rewrite decide_True. Qed.
Lemma upd_ne V h n h' : h ≠ h' → upd V h n h' = V h'.
Proof. intros. unfold upd. by rewrite decide_False. Qed.

Lemma n_hash_set m n : n_hash (n_setMain m n) = n_hash n.
Proof. pose proof (n_shape_set m n) as H. unfold shape in H. congruence. Qed.
Lemma n_parent_set m n : n_parent (n_setMain m n) = n_parent n.
Proof. pose proof (n_shape_set m n) as H. unfold shape in H. congruence. Qed.
Lemma n_children_set m n : n_children (n_setMain m n) = n_children n.
Proof. pose proof (n_shape_set m n) as H. unfold shape in H. congruence. Qed.

(** The path from the root [g] to a node. *)
Inductive path V g : Byte64 → list Byte64 → Prop :=
  | path_root : path V g g [g]
  | path_step h n l :
      V h = Some n → h ≠ g → path V g (n_parent n) l → path V g h (l ++ [h]).

(** A tree with root [g]: nodes are stored under their hashes, linked to
    their parents and children, and reachable from the root. *)
Record forest V g : Prop := {
  f_hash h n : V h = Some n → n_hash n = Some h;
  f_root : is_Some (V g);
  f_path h n : V h = Some n → ∃ l, path V g h l;
  f_child h n x : V h = Some n → x ∈ n_children n →
    ∃ m, V x = Some m ∧ n_parent m = h ∧ x ≠ g;
  f_link h n : V h = Some n → h ≠ g → ∃ p, V (n_parent n) = Some p ∧ h ∈ n_children p;
}.

(** The flags of the view are on exactly the nodes of the list. *)
Definition flags V l : Prop := ∀ h n, V h = Some n → n_main n = true ↔ h ∈ l.

Lemma path_unique V g h l l' : path V g h l → path V g h l' → l = l'.
Proof.
  intros Hp. revert l'. induction Hp as [|h n l Hn Hg Hp IH]; intros l' Hp'.
  - inversion Hp' as [|? ? ? _ Hne]; [done | congruence].
  - inversion Hp' as [|? m l2 Hm _ Hp2]; [congruence|]. subst. simplify_eq. f_equal. by apply IH.
Qed.

Lemma path_last V g h l : path V g h l → ∃ l', l = l' ++ [h].
Proof. intros []; [by exists [] | by eexists]. Qed.

(** The path to a node on a path is the part of the path up to it. *)
Lemma path_prefix V g h l1 x l2 : path V g h (l1 ++ x :: l2) → path V g x (l1 ++ [x]).
Proof.
  remember (l1 ++ x :: l2) as l eqn:El. intros Hp. revert l2 El.
  induction Hp as [|h n l Hn Hg Hp IH]; intros l2 El.
  - destruct l1 as [|a l1]; simplify_eq/=; [constructor | by destruct l1].
  - destruct l2 as [|y l2 _] using rev_ind.
    + apply app_inj_tail in El as [-> ->]. by econstructor.
    + rewrite app_comm_cons, (assoc_L (++)) in El. apply app_inj_tail in El as [-> _]. by eapply IH.
Qed.

Lemma path_elem V g h l x : path V g h l → x ∈ l → ∃ l1 l2, l = l1 ++ x :: l2 ∧ path V g x (l1 ++ [x]).
Proof.
  intros Hp (l1 & l2 & ->)%list_elem_of_split. exists l1, l2. split; [done | by eapply path_prefix].
Qed.

Lemma path_nodup V g h l : path V g h l → NoDup l.
Proof.
  intros Hp. apply NoDup_alt. intros i j x Hi Hj.
  assert (Hpre : ∀ i, l !! i = Some x → path V g x (take (S i) l)).
  { intros k Hk. rewrite (take_S_r _ _ x) by done. apply (path_prefix V g h _ _ (drop (S k) l)).
    by rewrite take_drop_middle. }
  pose proof (path_unique _ _ _ _ _ (Hpre i Hi) (Hpre j Hj)) as Heq.
  apply (f_equal length) in Heq. rewrite !length_take in Heq.
  apply lookup_lt_Some in Hi, Hj. lia.
Qed.

Lemma path_some V g h l x : is_Some (V g) → path V g h l → x ∈ l → is_Some (V x).
Proof.
  intros Hg. induction 1 as [|h n l Hn Hne Hp IH].
  - by intros ->%list_elem_of_singleton.
  - intros [Hx| ->%list_elem_of_singleton]%elem_of_app; [by apply IH | by eexists].
Qed.

(** A child of a node on a path that is itself on the path comes right after it. *)
Lemma path_next V g h l1 x l2 y n :
  path V g h (l1 ++ x :: l2) → V y = Some n → n_parent n = x → y ≠ g → y ∈ l1 ++ x :: l2 →
  ∃ r, l2 = y :: r.
Proof.
  intros Hp Hy Hpar Hg Hin. pose proof (path_prefix _ _ _ _ _ _ Hp) as Hx.
  assert (Hy' : path V g y ((l1 ++ [x]) ++ [y])) by (econstructor; [done..|by rewrite Hpar]).
  destruct (path_elem _ _ _ _ _ Hp Hin) as (m1 & m2 & Heq & Hm).
  pose proof (path_unique _ _ _ _ _ Hy' Hm) as Hu. apply app_inj_tail in Hu as [<- _].
  rewrite <- (assoc_L (++)) in Heq. simpl in Heq. apply app_inv_head in Heq. injection Heq as ->. by eexists.
Qed.

(** ** The loops *)

Lemma find_none V cs skip :
  (∀ x n, x ∈ cs → V x = Some n → n_main n = true →
     ∃ s hs, skip = Some s ∧ n_hash s = Some hs ∧ n_hash n = Some hs) →
  find V cs skip = Ret None.
Proof.
  induction cs as [|x cs IH]; intros H; [done|]. cbn [find].
  assert (IH' : find V cs skip = Ret None).
  { apply IH. intros y n Hy. apply H. by right. }
  destruct (V x) as [n|] eqn:E; [|done]. destruct (n_main n) eqn:Em; [|done].
  destruct (H x n) as (s & hs & -> & Hs & Hn); [left|done..|].
  rewrite Hs, Hn. cbn. by rewrite decide_False by auto.
Qed.

Lemma find_some V cs skip z nz :
  z ∈ cs → V z = Some nz → n_main nz = true →
  (∀ s, skip = Some s → ∃ hs hz, n_hash s = Some hs ∧ n_hash nz = Some hz ∧ hs ≠ hz) →
  (∀ x n, x ∈ cs → V x = Some n → n_main n = true →
     x = z ∨ ∃ s hs, skip = Some s ∧ n_hash s = Some hs ∧ n_hash n = Some hs) →
  find V cs skip = Ret (Some nz).
Proof.
  intros Hin Hz Hm Hskip. induction cs as [|x cs IH]; intros H; [by apply elem_of_nil in Hin|].
  cbn [find]. destruct (decide (x = z)) as [->|Hne].
  - rewrite Hz, Hm. destruct skip as [s|]; [|done].
    destruct (Hskip s eq_refl) as (hs & hz & -> & -> & Hne). cbn. by rewrite decide_True.
  - assert (IH' : find V cs skip = Ret (Some nz)).
    { apply IH; [by apply elem_of_cons in Hin as [->|]|]. intros y n Hy. apply H. by right. }
    destruct (V x) as [n|] eqn:E; [|done]. destruct (n_main n) eqn:Em; [|done].
    destruct (H x n) as [->|(s & hs & -> & Hs & Hn)]; [left|done..|].
    rewrite Hs, Hn. cbn. by rewrite decide_False by auto.
Qed.

Lemma up_spec V g x l :
  path V g x l → (∀ h n, V h = Some n → n_hash n = Some h) →
  (∀ n, V g = Some n → n_main n = true) → is_Some (V g) →
  ∀ nx fuel V' below, V x = Some nx → (∀ y, y ∈ l → V' y = V y) → (length l ≤ fuel)%nat →
  ∃ pre a suf na V'' m,
    l = pre ++ a :: suf ∧ V a = Some na ∧ n_main na = true ∧
    (∀ y n, y ∈ suf → V y = Some n → n_main n = false) ∧
    up fuel V' (Some nx) below = Ret (V'', na, m) ∧
    (∀ y, V'' y = if decide (y ∈ suf) then n_setMain true <$> V y else V' y) ∧
    n_hash m = match suf with [] => n_hash below | s :: _ => Some s end.
Proof.
  intros Hp Hhash Hg Hgs. induction Hp as [|x n l Hn Hxg Hp IH]; intros nx fuel V' below Hx Hagree Hfuel.
  - exists [], g, [], nx, V', below. rewrite (Hg nx Hx).
    split_and!; try done; [by intros y n ?%elem_of_nil | destruct fuel; cbn; by rewrite (Hg nx Hx)].
  - assert (n = nx) as -> by congruence. clear Hn. destruct (n_main nx) eqn:Em.
    { exists l, x, [], nx, V', below. split_and!; try done; [by intros y n ?%elem_of_nil|].
      destruct fuel; cbn; by rewrite Em. }
    rewrite length_app in Hfuel. simpl in Hfuel. destruct fuel as [|fuel]; [lia|].
    cbn [up deref outcome_bind]. rewrite Em, n_hash_set, (Hhash x nx Hx). cbn [deref outcome_bind].
    rewrite n_parent_set.
    assert (Hnd : NoDup (l ++ [x])) by (eapply path_nodup; by econstructor).
    apply list.NoDup_app in Hnd as (_ & Hxl & _).
    assert (Hxl' : x ∉ l) by (intros H; apply (Hxl x H); left).
    set (V1 := upd V' x (n_setMain true nx)).
    assert (Hag1 : ∀ y, y ∈ l → V1 y = V y).
    { intros y Hy. unfold V1. rewrite upd_ne by (intros ->; by apply Hxl').
      apply Hagree, elem_of_app. by left. }
    destruct (path_last _ _ _ _ Hp) as [lp Hlp].
    assert (Hpl : n_parent nx ∈ l) by (rewrite Hlp; apply elem_of_app; right; left).
    destruct (path_some V g _ l (n_parent nx) Hgs Hp Hpl) as [np Hnp].
    rewrite (Hag1 _ Hpl), Hnp.
    destruct (IH np fuel V1 (n_setMain true nx) Hnp Hag1) as
      (pre & a & suf & na & V'' & m & -> & Ha & Hma & Hsuf & Hup & HV & Hm); [lia|].
    exists pre, a, (suf ++ [x]), na, V'', m. split_and!; try done.
    + by rewrite <- (assoc_L (++)).
    + intros y n [Hy| ->%list_elem_of_singleton]%elem_of_app Hyn; [by eapply Hsuf | by simplify_eq].
    + intros y. rewrite HV. destruct (decide (y ∈ suf)) as [Hy|Hy].
      * rewrite decide_True; [done|]. apply elem_of_app. by left.
      * unfold V1, upd. destruct (decide (x = y)) as [->|Hxy].
        -- rewrite decide_True by (apply elem_of_app; right; left). by rewrite Hx.
        -- rewrite decide_False; [done|]. intros [H|H%list_elem_of_singleton]%elem_of_app; congruence.
    + rewrite Hm. destruct suf as [|s suf]; simpl; [|done]. by rewrite n_hash_set, (Hhash x nx Hx).
Qed.

(** Views that differ in flags only. *)
Definition same_shape V V' : Prop := ∀ h, shape <$> V h = shape <$> V' h.

#[global] Instance same_shape_equiv : Equivalence same_shape.
Proof.
  split; [by intros V h | by intros V V' H h; rewrite H | intros V1 V2 V3 H1 H2 h; by rewrite H1, H2].
Qed.

(** Every part of the nodes that setting a flag keeps is the same. *)
Definition same_but_flags V V' : Prop :=
  ∀ A (f : N → A), (∀ m n, f (n_setMain m n) = f n) → ∀ h, f <$> V h = f <$> V' h.

Lemma same_but_flags_shape V V' : same_but_flags V V' → same_shape V V'.
Proof. intros H h. apply (H _ shape). intros. apply n_shape_set. Qed.

Lemma fmap_set {A} (f : N → A) m (o : option N) :
  (∀ m n, f (n_setMain m n) = f n) → f <$> (n_setMain m <$> o) = f <$> o.
Proof. intros Hf. destruct o; simpl; by rewrite ?Hf. Qed.

Lemma same_shape_some V V' h n :
  same_shape V V' → V h = Some n →
  ∃ n', V' h = Some n' ∧ n_hash n' = n_hash n ∧ n_parent n' = n_parent n ∧ n_children n' = n_children n.
Proof.
  intros Hs Hn. specialize (Hs h). rewrite Hn in Hs. destruct (V' h) as [n'|]; [|done].
  injection Hs as Hs1 Hs2 Hs3. by exists n'.
Qed.

Lemma same_shape_upd V h m n : V h = Some n → same_shape V (upd V h (n_setMain m n)).
Proof.
  intros Hn x. unfold upd. case_decide; [|done]. subst. rewrite Hn. simpl. by rewrite n_shape_set.
Qed.

(** Paths depend on the parent links only. *)
Lemma path_parents V V' g h l :
  (∀ x n, V x = Some n → ∃ n', V' x = Some n' ∧ n_parent n' = n_parent n) →
  path V g h l → path V' g h l.
Proof.
  intros H. induction 1 as [|h n l Hn Hg Hp IH]; [constructor|].
  destruct (H h n Hn) as (n' & Hn' & Hpar). econstructor; [done..|by rewrite Hpar].
Qed.

Lemma path_shape V V' g h l : same_shape V V' → path V g h l → path V' g h l.
Proof.
  intros Hs. apply path_parents. intros x n Hn.
  destruct (same_shape_some V V' x n Hs Hn) as (n' & ? & _ & ? & _). by exists n'.
Qed.

Lemma forest_shape V V' g : same_shape V V' → forest V g → forest V' g.
Proof.
  intros Hs [F1 F2 F3 F4 F5]. assert (Hs' : same_shape V' V) by (by symmetry). split.
  - intros h n Hn. destruct (same_shape_some _ _ h n Hs' Hn) as (n' & Hn' & <- & _). by apply F1.
  - destruct F2 as [n Hn]. destruct (same_shape_some _ _ g n Hs Hn) as (n' & Hn' & _). by eexists.
  - intros h n Hn. destruct (same_shape_some _ _ h n Hs' Hn) as (n' & Hn' & _).
    destruct (F3 h n' Hn') as [l Hl]. exists l. by eapply path_shape.
  - intros h n x Hn Hx. destruct (same_shape_some _ _ h n Hs' Hn) as (n' & Hn' & _ & _ & Hc).
    rewrite <- Hc in Hx. destruct (F4 h n' x Hn' Hx) as (m & Hm & Hpar & Hg).
    destruct (same_shape_some _ _ x m Hs Hm) as (m' & Hm' & _ & Hpar' & _). exists m'. split_and!; congruence.
  - intros h n Hn Hg. destruct (same_shape_some _ _ h n Hs' Hn) as (n' & Hn' & _ & Hpar & _).
    destruct (F5 h n' Hn' Hg) as (p & Hp & Hin). rewrite Hpar in Hp.
    destruct (same_shape_some _ _ _ p Hs Hp) as (p' & Hp' & _ & _ & Hc). exists p'. by rewrite Hc.
Qed.

Lemma path_inv V g h l :
  path V g h l →
  (h = g ∧ l = [g]) ∨ ∃ n l', V h = Some n ∧ h ≠ g ∧ path V g (n_parent n) l' ∧ l = l' ++ [h].
Proof. intros []; [by left | right; eauto 10]. Qed.

(** The parent of a node on a path comes before it. *)
Lemma path_parent V g h l1 x y l2 n :
  path V g h (l1 ++ x :: y :: l2) → V y = Some n → y ≠ g ∧ n_parent n = x.
Proof.
  intros Hp Hn. replace (l1 ++ x :: y :: l2) with ((l1 ++ [x]) ++ y :: l2) in Hp by by rewrite <- (assoc_L (++)).
  apply path_prefix, path_inv in Hp as [[_ Hl]|(m & l & Hm & Hg & Hpm & Hl)].
  - apply (f_equal length) in Hl. rewrite !length_app in Hl. simpl in Hl. lia.
  - apply app_inj_tail in Hl as [<- _]. simplify_eq. split; [done|].
    destruct (path_last _ _ _ _ Hpm) as [l' Hl']. by apply app_inj_tail in Hl' as [_ <-].
Qed.

(** [K] contains the parents of its nodes. *)
Definition closed V g (K : list Byte64) : Prop :=
  ∀ y n, y ∈ K → V y = Some n → y ≠ g → n_parent n ∈ K.

Lemma closed_shape V V' g K : same_shape V V' → closed V g K → closed V' g K.
Proof.
  intros Hs HK y n Hy Hn Hg. destruct (same_shape_some V' V y n) as (n' & Hn' & _ & <- & _); [by symmetry|done|].
  by eapply HK.
Qed.

Lemma path_closed V g h l : path V g h l → closed V g l.
Proof.
  intros Hp y n Hy Hn Hg. destruct (path_elem _ _ _ _ _ Hp Hy) as (l1 & l2 & -> & Hpy).
  apply path_inv in Hpy as [[? _]|(m & l' & Hm & _ & Hpm & Hl)]; [done|].
  apply app_inj_tail in Hl as [<- _]. simplify_eq. destruct (path_last _ _ _ _ Hpm) as [l'' ->].
  apply elem_of_app. left. apply elem_of_app. right. left.
Qed.

(** A flagged child of a node on a branch is the next node of the branch. *)
Lemma branch_child V g tip K l1 x r nx y n :
  forest V g → closed V g K → path V g tip (l1 ++ x :: r) → V x = Some nx → x ∉ K →
  y ∈ n_children nx → V y = Some n → (y ∈ x :: r ∨ y ∈ K) → ∃ r', r = y :: r'.
Proof.
  intros HF HK Hp Hx HxK Hy Hn Hm.
  destruct (f_child _ _ HF x nx y Hx Hy) as (m & Hm' & Hpar & Hg). simplify_eq.
  destruct Hm as [Hm|Hm]; [|by destruct HxK; eapply HK].
  eapply path_next; [done..|]. apply elem_of_app. by right.
Qed.

(** One step of taking down the flags of a branch [x :: r]: once [x] has lost
    its flag, the child found is the next node of the branch.  [K] are the
    nodes whose flags stay. *)
Lemma find_down V g tip K l1 x r nx :
  forest V g → closed V g K → path V g tip (l1 ++ x :: r) → V x = Some nx → x ∉ K →
  (∀ y n, V y = Some n → n_main n = true ↔ y ∈ x :: r ∨ y ∈ K) →
  find (upd V x (n_setMain false nx)) (n_children nx) None =
    Ret (match r with [] => None | z :: _ => V z end).
Proof.
  intros HF HK Hp Hx HxK Hfl.
  assert (Hcand : ∀ y n, y ∈ n_children nx → upd V x (n_setMain false nx) y = Some n → n_main n = true →
    ∃ r', r = y :: r').
  { intros y n Hy. unfold upd. case_decide as Hxy; [intros [= <-]; by rewrite n_main_set|].
    intros Hn Hm%(Hfl y n Hn). by eapply (branch_child V g tip K l1 x r nx y n). }
  destruct r as [|z r].
  - apply find_none. intros y n Hy Hn Hm. by destruct (Hcand y n Hy Hn Hm).
  - destruct (path_some V g tip _ z (f_root _ _ HF) Hp) as [nz Hz].
    { apply elem_of_app. right. right. left. }
    destruct (path_parent V g tip l1 x z r nz Hp Hz) as [Hzg Hzp].
    assert (Hxz : x ≠ z).
    { intros <-. apply path_nodup, list.NoDup_app in Hp as (_ & _ & [Hp _]%list.NoDup_cons).
      apply Hp. left. }
    rewrite Hz. apply (find_some _ (n_children nx) None z nz); [|by rewrite upd_ne|apply (Hfl z nz Hz)|done|].
    + destruct (f_link _ _ HF z nz Hz Hzg) as (p & Hpz & Hin). rewrite Hzp in Hpz. by simplify_eq.
    + left. right. left.
    + intros y n Hy Hn Hm. destruct (Hcand y n Hy Hn Hm) as [r' [= -> _]]. by left.
Qed.

(** Taking down the flags of a branch. *)
Lemma down_spec g tip (K : list Byte64) r :
  ∀ l1 x fuel V nx,
    forest V g → closed V g K → path V g tip (l1 ++ x :: r) → V x = Some nx →
    (∀ y n, V y = Some n → n_main n = true ↔ y ∈ x :: r ∨ y ∈ K) →
    (∀ y, y ∈ K → y ∉ x :: r) → (length (x :: r) ≤ fuel)%nat →
    ∃ V', down fuel V (Some nx) = Ret V' ∧
      ∀ y, V' y = if decide (y ∈ x :: r) then n_setMain false <$> V y else V y.
Proof.
  induction r as [|z r IH]; intros l1 x fuel V nx HF HK Hp Hx Hfl Hdis Hfuel;
    (destruct fuel as [|fuel]; [simpl in Hfuel; lia|]); cbn [down];
    assert (HxK : x ∉ K) by (intros H; apply (Hdis x H); left);
    rewrite n_hash_set, (f_hash _ _ HF x nx Hx), n_children_set; cbn [deref outcome_bind];
    rewrite (find_down V g tip K l1 x _ nx) by done; cbn [outcome_bind];
    set (V1 := upd V x (n_setMain false nx)).
  - exists V1. split; [by destruct fuel|]. intros y. unfold V1, upd. destruct (decide (x = y)) as [->|Hne].
    + rewrite decide_True by left. by rewrite Hx.
    + by rewrite decide_False by (by intros ->%list_elem_of_singleton).
  - assert (Hnd : NoDup (x :: z :: r)) by (apply path_nodup in Hp; by apply list.NoDup_app in Hp as (_ & _ & Hp)).
    apply list.NoDup_cons in Hnd as [Hxz Hnd].
    assert (Hs : same_shape V V1) by by apply same_shape_upd.
    destruct (path_some V g tip _ z (f_root _ _ HF) Hp) as [nz Hz].
    { apply elem_of_app. right. right. left. }
    rewrite Hz. destruct (IH (l1 ++ [x]) z fuel V1 nz) as (V' & Hd & HV').
    + by eapply forest_shape.
    + by eapply closed_shape.
    + rewrite <- (assoc_L (++)). by eapply path_shape.
    + unfold V1. rewrite upd_ne; [done|]. intros ->. apply Hxz. left.
    + intros y n. unfold V1, upd. destruct (decide (x = y)) as [->|Hne].
      { intros [= <-]. rewrite n_main_set. split; [done|]. by intros [?|?]. }
      intros Hn. rewrite (Hfl y n Hn), elem_of_cons.
      split; [intros [[?|?]|?]; auto; congruence | intros [?|?]; auto].
    + intros y Hy Hin. apply (Hdis y Hy). by right.
    + simpl in *. lia.
    + exists V'. split; [done|]. intros y. rewrite HV'. destruct (decide (y ∈ z :: r)) as [Hy|Hy].
      { rewrite decide_True by (by right). unfold V1. rewrite upd_ne by (by intros ->). done. }
      unfold V1, upd. destruct (decide (x = y)) as [->|Hne].
      { rewrite decide_True by left. by rewrite Hx. }
      rewrite decide_False; [done|]. by intros [->|?]%elem_of_cons.
Qed.

(** ** Adding a node *)

(** The view with [cn] stored under [h] as a child of [hp]. *)
Definition linked V hp np h cn : view N := upd (upd V hp (n_addChild h np)) h cn.

(** [cn] can become the child with hash [h] of the stored node [np]. *)
Record fresh V hp np h cn : Prop := {
  fr_parent : V hp = Some np;
  fr_new : V h = None;
  fr_hash : n_hash cn = Some h;
  fr_link : n_parent cn = hp;
  fr_leaf : n_children cn = [];
}.

Lemma n_add_fields h n :
  n_hash (n_addChild h n) = n_hash n ∧ n_parent (n_addChild h n) = n_parent n ∧
  n_children (n_addChild h n) = n_children n ++ [h].
Proof. pose proof (n_shape_add h n) as H. unfold shape in H. by injection H. Qed.

Section adding.
Context V g hp np h cn (HF : forest V g) (Hfr : fresh V hp np h cn).

Lemma fresh_ne : h ≠ hp ∧ h ≠ g.
Proof.
  destruct Hfr as [H1 H2 _ _ _]. destruct (f_root _ _ HF) as [? H3]. split; intros ->; congruence.
Qed.

(** An old node keeps everything but, for the parent, its children. *)
Lemma linked_old x n :
  V x = Some n → ∃ n', linked V hp np h cn x = Some n' ∧ n_hash n' = n_hash n ∧
    n_parent n' = n_parent n ∧ n_main n' = n_main n ∧
    ∀ y, y ∈ n_children n' ↔ y ∈ n_children n ∨ (x = hp ∧ y = h).
Proof.
  intros Hn. destruct Hfr as [H1 H2 _ _ _]. unfold linked.
  rewrite upd_ne by (intros ->; congruence). unfold upd. case_decide as Hx.
  - subst x. simplify_eq. destruct (n_add_fields h n) as (Ha & Hb & Hc).
    exists (n_addChild h n). rewrite Ha, Hb, Hc, n_main_add. split_and!; try done.
    intros y. rewrite elem_of_app, list_elem_of_singleton. tauto.
  - exists n. split_and!; try done. intros y. split; [by left|]. intros [?|[-> _]]; done.
Qed.

Lemma linked_inv x n :
  linked V hp np h cn x = Some n → (x = h ∧ n = cn) ∨ (x ≠ h ∧ ∃ n0, V x = Some n0).
Proof.
  unfold linked, upd. repeat case_decide; intros Hn; simplify_eq; [by left|right..]; split; try done.
  - exists np. apply Hfr.
  - by exists n.
Qed.

Lemma linked_path x l : path V g x l → path (linked V hp np h cn) g x l.
Proof.
  apply path_parents. intros y n Hn. destruct (linked_old y n Hn) as (n' & ? & _ & ? & _). by exists n'.
Qed.

Lemma linked_new : linked V hp np h cn h = Some cn.
Proof. apply upd_eq. Qed.

Lemma linked_new_path l : path V g hp l → path (linked V hp np h cn) g h (l ++ [h]).
Proof.
  intros Hp. econstructor; [apply linked_new | apply fresh_ne|]. rewrite (fr_link _ _ _ _ _ Hfr).
  by apply linked_path.
Qed.

Lemma linked_forest : forest (linked V hp np h cn) g.
Proof.
  split.
  - intros x n Hn. destruct (linked_inv x n Hn) as [[-> ->]|(Hx & n0 & H0)]; [apply Hfr|].
    destruct (linked_old x n0 H0) as (n' & Hn' & Hh & _). assert (n' = n) as -> by congruence.
    rewrite Hh. by apply (f_hash _ _ HF).
  - destruct (f_root _ _ HF) as [n Hn]. destruct (linked_old g n Hn) as (n' & ? & _). by eexists.
  - intros x n Hn. destruct (linked_inv x n Hn) as [[-> ->]|(Hx & n0 & H0)].
    + destruct (f_path _ _ HF hp np (fr_parent _ _ _ _ _ Hfr)) as [l Hl]. eexists. by apply linked_new_path.
    + destruct (f_path _ _ HF x n0 H0) as [l Hl]. exists l. by apply linked_path.
  - intros x n y Hn Hy. destruct (linked_inv x n Hn) as [[-> ->]|(Hx & n0 & H0)].
    { rewrite (fr_leaf _ _ _ _ _ Hfr) in Hy. by apply elem_of_nil in Hy. }
    destruct (linked_old x n0 H0) as (n' & Hn' & _ & _ & _ & Hc). assert (n' = n) as -> by congruence.
    apply Hc in Hy as [Hy|[-> ->]].
    + destruct (f_child _ _ HF x n0 y H0 Hy) as (m & Hm & Hpar & Hg).
      destruct (linked_old y m Hm) as (m' & Hm' & _ & Hpar' & _). exists m'. split_and!; [done | congruence | done].
    + exists cn. split_and!; [apply linked_new | apply Hfr | apply fresh_ne].
  - intros x n Hn Hg. destruct (linked_inv x n Hn) as [[-> ->]|(Hx & n0 & H0)].
    + rewrite (fr_link _ _ _ _ _ Hfr). destruct (linked_old hp np (fr_parent _ _ _ _ _ Hfr)) as (p & Hp & _ & _ & _ & Hc).
      exists p. split; [done|]. apply Hc. by right.
    + destruct (linked_old x n0 H0) as (n' & Hn' & _ & Hpar & _). assert (n' = n) as -> by congruence.
      rewrite Hpar.
      destruct (f_link _ _ HF x n0 H0 Hg) as (p & Hp & Hin).
      destruct (linked_old _ p Hp) as (p' & Hp' & _ & _ & _ & Hc). exists p'. split; [done|]. apply Hc. by left.
Qed.

(** A node added without a flag leaves the main list as it is. *)
Lemma linked_flags l x :
  path V g x l → flags V l → n_main cn = false → flags (linked V hp np h cn) l.
Proof.
  intros Hp Hfl Hm y n Hn. destruct (linked_inv y n Hn) as [[-> ->]|(Hy & n0 & H0)].
  - rewrite Hm. split; [done|]. intros Hy.
    destruct (path_some V g x l h (f_root _ _ HF) Hp Hy) as [? Hh]. by rewrite (fr_new _ _ _ _ _ Hfr) in Hh.
  - destruct (linked_old y n0 H0) as (n' & Hn' & _ & _ & Hmn & _).
    assert (n' = n) as -> by congruence. rewrite Hmn. by apply Hfl.
Qed.

Lemma linked_bounded k :
  (∀ x l, path V g x l → (length l ≤ k)%nat) →
  ∀ x l, path (linked V hp np h cn) g x l → (length l ≤ S k)%nat.
Proof.
  intros Hk x l Hp. destruct (path_last _ _ _ _ Hp) as [l' ->].
  destruct (path_some _ _ _ _ x (f_root _ _ linked_forest) Hp) as [n Hn].
  { apply elem_of_app. right. left. }
  destruct (linked_inv x n Hn) as [[-> ->]|(Hx & n0 & H0)].
  - destruct (f_path _ _ HF hp np (fr_parent _ _ _ _ _ Hfr)) as [lp Hlp].
    rewrite (path_unique _ _ _ _ _ Hp (linked_new_path lp Hlp)), length_app. simpl.
    specialize (Hk _ _ Hlp). lia.
  - destruct (f_path _ _ HF x n0 H0) as [l0 Hl0].
    rewrite (path_unique _ _ _ _ _ Hp (linked_path x l0 Hl0)). specialize (Hk _ _ Hl0). lia.
Qed.

(** The view while the flags are moved: the child is not stored yet. *)
Lemma half_linked x n :
  upd V hp (n_addChild h np) x = Some n → x ≠ h ∧ linked V hp np h cn x = Some n.
Proof.
  intros Hn. assert (Hx : x ≠ h).
  { intros ->. rewrite upd_ne in Hn by (apply not_eq_sym, fresh_ne). by rewrite (fr_new _ _ _ _ _ Hfr) in Hn. }
  split; [done|]. unfold linked. by rewrite upd_ne.
Qed.

Lemma half_linked_flags l x n :
  flags V l → upd V hp (n_addChild h np) x = Some n → n_main n = true ↔ x ∈ l.
Proof.
  intros Hfl Hn. destruct (half_linked x n Hn) as [Hx Hl].
  destruct (linked_inv x n Hl) as [[-> _]|(_ & n0 & H0)]; [done|].
  destruct (linked_old x n0 H0) as (n' & Hn' & _ & _ & Hm & _).
  assert (n' = n) as -> by congruence. rewrite Hm. by apply Hfl.
Qed.

Lemma half_linked_path x l : path V g x l → path (upd V hp (n_addChild h np)) g x l.
Proof.
  apply path_parents. intros y n Hn. unfold upd. case_decide; [|by exists n]. subst y.
  destruct Hfr as [H1 _ _ _ _]. simplify_eq. eexists. split; [done|]. by apply n_add_fields.
Qed.
End adding.

Lemma path_head V g h l : path V g h l → g ∈ l.
Proof. induction 1; [left | apply elem_of_app; by left]. Qed.

(** The node found for taking down the old branch. *)
Lemma find_branch V g tip h pre a suf osuf na below :
  forest V g → path V g tip (pre ++ a :: osuf) → path V g h (pre ++ a :: suf) →
  V a = Some na → suf ≠ [] → n_hash below = head suf →
  (∀ y n, V y = Some n → n_main n = true ↔ y ∈ osuf ∨ y ∈ pre ++ a :: suf) →
  (∀ y, y ∈ pre ++ a :: suf → y ∉ osuf) →
  find V (n_children na) (Some below) = Ret (match osuf with [] => None | z :: _ => V z end).
Proof.
  intros HF Hold Hnew Ha Hsuf Hbelow Hfl Hdis.
  assert (Hcand : ∀ y n, y ∈ n_children na → V y = Some n → n_main n = true →
    (∃ r, osuf = y :: r) ∨ (∃ r, suf = y :: r)).
  { intros y n Hy Hn [Hm|Hm]%(Hfl y n Hn); destruct (f_child _ _ HF a na y Ha Hy) as (m & Hm' & Hpar & Hg).
    - left. eapply path_next; [done..|]. apply elem_of_app. right. by right.
    - right. by eapply path_next. }
  destruct suf as [|s suf]; [done|]. simpl in Hbelow.
  destruct osuf as [|z osuf].
  - apply find_none. intros y n Hy Hn Hm. destruct (Hcand y n Hy Hn Hm) as [[r [=]]|[r [= -> _]]].
    exists below, y. split_and!; [done | done | by apply (f_hash _ _ HF)].
  - destruct (path_some V g tip _ z (f_root _ _ HF) Hold) as [nz Hz].
    { apply elem_of_app. right. right. left. }
    rewrite Hz. destruct (path_parent V g tip pre a z osuf nz Hold Hz) as [Hzg Hzp].
    apply (find_some V (n_children na) (Some below) z nz); [|done|..].
    + destruct (f_link _ _ HF z nz Hz Hzg) as (p & Hp & Hin). rewrite Hzp in Hp. by simplify_eq.
    + apply (Hfl z nz Hz). left. left.
    + intros s' [= <-]. exists s, z. split_and!; [done | by apply (f_hash _ _ HF)|].
      intros ->. apply (Hdis z); [|left]. apply elem_of_app. right. right. left.
    + intros y n Hy Hn Hm. destruct (Hcand y n Hy Hn Hm) as [[r [= -> _]]|[r [= -> _]]]; [by left|].
      right. exists below, y. split_and!; [done | done | by apply (f_hash _ _ HF)].
Qed.

(** The view after walking up: the old path [pre ++ a :: osuf] and the path
    [pre ++ a :: suf] of the parent part at [a], the nodes of [suf] and the
    child have got their flags, and the flags of [osuf] are still there. *)
Section raised.
Context (V : view N) (g hp : Byte64) (np : N) (h : Byte64) (cn : N).
Context (tip : Byte64) (pre : list Byte64) (a : Byte64) (suf osuf : list Byte64) (V2 : view N).
Let V1 : view N := upd V hp (n_addChild h np).
Let V3 : view N := upd V2 h (n_setMain true cn).
Hypothesis HF : forest V g.
Hypothesis Hfr : fresh V hp np h cn.
Hypothesis Hold : path V g tip (pre ++ a :: osuf).
Hypothesis Hfl : flags V (pre ++ a :: osuf).
Hypothesis HV2 : ∀ y, V2 y = if decide (y ∈ suf) then n_setMain true <$> V1 y else V1 y.

Lemma raised_same : same_but_flags (linked V hp np h cn) V3.
Proof.
  intros A f Hf y. unfold V3, upd. destruct (decide (h = y)) as [<-|Hy].
  - rewrite linked_new. simpl. by rewrite Hf.
  - unfold linked. rewrite upd_ne by done. fold V1. rewrite HV2.
    case_decide; [by rewrite fmap_set | done].
Qed.

Lemma raised_flags y n : V3 y = Some n → n_main n = true ↔ y ∈ osuf ∨ y ∈ pre ++ a :: suf ++ [h].
Proof.
  unfold V3, upd. destruct (decide (h = y)) as [<-|Hy].
  - intros [= <-]. rewrite n_main_set. split; [|done]. intros _. right.
    apply elem_of_app. right. right. apply elem_of_app. right. left.
  - rewrite HV2. destruct (decide (y ∈ suf)) as [Hys|Hys].
    + destruct (V1 y) as [n1|]; intros [= <-]. rewrite n_main_set. split; [|done]. intros _. right.
      apply elem_of_app. right. right. apply elem_of_app. by left.
    + intros Hn. rewrite (half_linked_flags V g hp np h cn HF Hfr _ y n Hfl Hn),
        !elem_of_app, !elem_of_cons, elem_of_app, list_elem_of_singleton.
      split; [intros [?|[?|?]]; auto | intros [?|[?|[?|[?|?]]]]; auto; congruence].
Qed.

Lemma raised_disjoint y :
  (∀ y n, y ∈ suf → V1 y = Some n → n_main n = false) → y ∈ pre ++ a :: suf ++ [h] → y ∉ osuf.
Proof.
  intros Hsuf Hy Hyo.
  assert (HyL : y ∈ pre ++ a :: osuf) by (apply elem_of_app; right; by right).
  destruct (path_some V g tip _ y (f_root _ _ HF) Hold HyL) as [n0 H0].
  rewrite elem_of_app, elem_of_cons, elem_of_app, list_elem_of_singleton in Hy.
  apply path_nodup, list.NoDup_app in Hold as (_ & Hd & [Ha' _]%list.NoDup_cons).
  destruct Hy as [Hy|[->|[Hy| ->]]].
  - apply (Hd y Hy). by right.
  - done.
  - assert (is_Some (V1 y)) as [n1 H1] by (unfold V1, upd; case_decide; by eexists).
    pose proof (Hsuf y n1 Hy H1) as Hno. rewrite <- not_true_iff_false in Hno.
    by apply Hno, (half_linked_flags V g hp np h cn HF Hfr _ y n1 Hfl H1).
  - by rewrite (fr_new _ _ _ _ _ Hfr) in H0.
Qed.

(** Taking down the old branch from this view. *)
Lemma raised_down fuel m na :
  path V g hp (pre ++ a :: suf) → V1 a = Some na →
  (∀ y n, y ∈ suf → V1 y = Some n → n_main n = false) →
  n_hash m = head (suf ++ [h]) → (length (pre ++ a :: osuf) ≤ fuel)%nat →
  ∃ V', (let! old := find V3 (n_children na) (Some m) in down fuel V3 old) = Ret V' ∧
    same_but_flags (linked V hp np h cn) V' ∧ flags V' (pre ++ a :: suf ++ [h]).
Proof.
  intros Hp Ha Hsuf Hm Hf.
  pose proof raised_same as Hb3. pose proof (same_but_flags_shape _ _ Hb3) as Hs3.
  pose proof (forest_shape _ _ _ Hs3 (linked_forest V g hp np h cn HF Hfr)) as HF3.
  pose proof (path_shape _ _ _ _ _ Hs3 (linked_path V g hp np h cn Hfr tip _ Hold)) as Hold3.
  pose proof (path_shape _ _ _ _ _ Hs3 (linked_new_path V g hp np h cn HF Hfr _ Hp)) as Hnew3.
  rewrite <- (assoc_L (++)) in Hnew3. cbn [app] in Hnew3.
  destruct (half_linked V g hp np h cn HF Hfr a na Ha) as [_ Ha0].
  destruct (same_shape_some _ _ a na Hs3 Ha0) as (na3 & Ha3 & _ & _ & Hc3). rewrite <- Hc3.
  rewrite (find_branch V3 g tip h pre a (suf ++ [h]) osuf na3 m HF3 Hold3 Hnew3 Ha3);
    [|by destruct suf|done|apply raised_flags|intros y; by apply raised_disjoint].
  cbn [outcome_bind].
  assert (osuf = [] ∨ ∃ z r, osuf = z :: r) as [Eo|(z & r & Eo)] by (destruct osuf; eauto); rewrite Eo.
  { exists V3. split; [by destruct fuel|]. split; [done|]. intros y n Hn. rewrite (raised_flags y n Hn), Eo.
    split; [by intros [?%elem_of_nil|?] | by right]. }
  destruct (path_some V3 g tip _ z (f_root _ _ HF3) Hold3) as [nz Hz].
  { rewrite Eo. apply elem_of_app. right. right. left. }
  rewrite Hz. destruct (down_spec g tip (pre ++ a :: suf ++ [h]) r (pre ++ [a]) z fuel V3 nz) as (V' & -> & HV');
    [done|by eapply path_closed|rewrite <- (assoc_L (++)); cbn [app]; by rewrite <- Eo|done| | | |].
  { rewrite <- Eo. apply raised_flags. }
  { rewrite <- Eo. intros y. by apply raised_disjoint. }
  { rewrite length_app, Eo in Hf. simpl in *. lia. }
  exists V'. split; [done|]. split.
  - intros A f Hf' y. rewrite HV', (Hb3 A f Hf'). case_decide; [by rewrite fmap_set | done].
  - intros y n. rewrite HV', <- Eo. destruct (decide (y ∈ osuf)) as [Hy|Hy].
    + destruct (V3 y) as [n3|]; intros [= <-]. rewrite n_main_set. split; [done|].
      intros Hk. by destruct (raised_disjoint y Hsuf Hk).
    + intros Hn. rewrite (raised_flags y n Hn). split; [by intros [?|?] | by right].
Qed.
End raised.

(** The loops leave exactly the path to the new node flagged. *)
Lemma rebalance_spec V g hp np h cn tip Lold Lp fuel :
  forest V g → fresh V hp np h cn → path V g tip Lold → flags V Lold → path V g hp Lp →
  (length Lold ≤ fuel)%nat → (length Lp ≤ fuel)%nat →
  ∃ V', rebalance fuel (upd V hp (n_addChild h np)) (n_addChild h np) cn = Ret V' ∧
    same_but_flags (linked V hp np h cn) V' ∧ flags V' (Lp ++ [h]).
Proof.
  intros HF Hfr Hold Hfl Hp Hf1 Hf2. set (V1 := upd V hp (n_addChild h np)).
  assert (Hg1 : is_Some (V1 g)).
  { apply (path_some V1 g hp Lp); [|by apply (half_linked_path V g hp np h cn)|by eapply path_head].
    unfold V1, upd. case_decide; [by eexists | apply (f_root _ _ HF)]. }
  destruct (up_spec V1 g hp Lp) with (nx := n_addChild h np) (fuel := fuel) (V' := V1)
    (below := n_setMain true cn) as (pre & a & suf & na & V2 & m & -> & Ha & Hma & Hsuf & Hup & HV2 & Hm);
    [by apply (half_linked_path V g hp np h cn)| | |done|by apply upd_eq|done|done|].
  { intros x n Hn. eapply (f_hash _ _ (linked_forest V g hp np h cn HF Hfr)). by eapply half_linked. }
  { intros n Hn. apply (half_linked_flags V g hp np h cn HF Hfr _ _ _ Hfl Hn). by eapply path_head. }
  unfold rebalance. rewrite Hup. cbn [outcome_bind].
  rewrite n_hash_set, (fr_hash _ _ _ _ _ Hfr). cbn [deref outcome_bind].
  (* the old path splits at the same node *)
  assert (HaL : a ∈ Lold) by (by apply (half_linked_flags V g hp np h cn HF Hfr _ _ _ Hfl Ha)).
  destruct (path_elem _ _ _ _ _ Hold HaL) as (l1 & osuf & -> & Hpa).
  assert (l1 = pre) as ->.
  { apply (app_inj_tail _ _ a a), (path_unique V g a); [done|]. by eapply path_prefix. }
  destruct (raised_down V g hp np h cn tip pre a suf osuf V2 HF Hfr Hold Hfl HV2 fuel m na Hp Ha Hsuf)
    as (V' & Hdown & Hsame & Hfl'); [|done|].
  { rewrite Hm. destruct suf; simpl; rewrite ?n_hash_set; [apply Hfr | done]. }
  exists V'. rewrite <- (assoc_L (++)). by split_and!.
Qed.
(** Walking down the main list: the flagged child of a node of the list is
    the next node of the list, also once nodes were deleted from the store. *)
Lemma find_next V V' g tip l1 x l2 nx :
  forest V g → path V g tip (l1 ++ x :: l2) → flags V (l1 ++ x :: l2) → V x = Some nx →
  (∀ y, V' y = V y ∨ V' y = None) → (∀ y, y ∈ l2 → V' y = V y) →
  find V' (n_children nx) None = Ret (match l2 with [] => None | z :: _ => V z end).
Proof.
  intros HF Hp Hfl Hx Hsub Hl2.
  assert (Hcand : ∀ y n, y ∈ n_children nx → V' y = Some n → n_main n = true → ∃ r, l2 = y :: r).
  { intros y n Hy Hn Hm. destruct (Hsub y) as [Hs|Hs]; [|congruence]. rewrite Hs in Hn.
    destruct (f_child _ _ HF x nx y Hx Hy) as (m & Hm' & Hpar & Hg). simplify_eq.
    eapply path_next; [done..|]. by apply (Hfl y n Hn). }
  destruct l2 as [|z l2].
  - apply find_none. intros y n Hy Hn Hm. by destruct (Hcand y n Hy Hn Hm).
  - destruct (path_some V g tip _ z (f_root _ _ HF) Hp) as [nz Hz].
    { apply elem_of_app. right. right. left. }
    destruct (path_parent V g tip l1 x z l2 nz Hp Hz) as [Hzg Hzp]. rewrite Hz.
    apply (find_some V' (n_children nx) None z nz); [| |apply (Hfl z nz Hz)|done|].
    + destruct (f_link _ _ HF z nz Hz Hzg) as (p & Hpz & Hin). rewrite Hzp in Hpz. by simplify_eq.
    + rewrite Hl2; [done | left].
    + apply elem_of_app. right. right. left.
    + intros y n Hy Hn Hm. destruct (Hcand y n Hy Hn Hm) as [r [= -> _]]. by left.
Qed.

(** A node off the main list has no flagged child. *)
Lemma find_off V g tip L x nx :
  forest V g → path V g tip L → flags V L → V x = Some nx → x ∉ L →
  find V (n_children nx) None = Ret None.
Proof.
  intros HF Hp Hfl Hx HxL. apply find_none. intros y n Hy Hn Hm%(Hfl y n Hn).
  destruct (f_child _ _ HF x nx y Hx Hy) as (m & Hm' & Hpar & Hg). simplify_eq.
  destruct HxL. by eapply (path_closed V g tip L Hp y n).
Qed.

(** The tree with a root only. *)
Lemma single_forest V g n :
  V g = Some n → n_hash n = Some g → n_children n = [] → (∀ x, x ≠ g → V x = None) → forest V g.
Proof.
  intros Hg Hh Hc Hother.
  assert (Hone : ∀ x m, V x = Some m → x = g ∧ m = n).
  { intros x m Hm. destruct (decide (x = g)) as [->|Hne]; [split; congruence|]. by rewrite Hother in Hm. }
  split.
  - intros x m Hm. by destruct (Hone x m Hm) as [-> ->].
  - by eexists.
  - intros x m Hm. destruct (Hone x m Hm) as [-> ->]. exists [g]. constructor.
  - intros x m y Hm Hy. destruct (Hone x m Hm) as [-> ->]. rewrite Hc in Hy. by apply elem_of_nil in Hy.
  - intros x m Hm Hne. by destruct (Hone x m Hm) as [-> _].
Qed.

Lemma single_path V g x l : (∀ y, y ≠ g → V y = None) → path V g x l → l = [g].
Proof.
  intros Hother Hp. destruct (path_inv _ _ _ _ Hp) as [[_ ->]|(n & l' & Hn & Hne & _)]; [done|].
  by rewrite Hother in Hn.
Qed.

Lemma path_starts V g x l : path V g x l → ∃ l', l = g :: l'.
Proof. induction 1 as [|h n l Hn Hne Hp [l' ->]]; by eexists. Qed.
End trees.
