(* ===== verification/Consensus.v ===== *)
(** * The block chain ([src/consensus/blockChainConsensus.go])

    Definitions only: the operations of [BlockChainConsensus].  The database
    is passed explicitly; operations that change the chain or a block return
    it.  The loops that walk the chain take fuel. *)

From Stdlib Require Import Strings.Byte.
From S2P Require Import Prelude Bytes Db Trie WorldStateI Block.

Definition maxBlocks : Z := 100.
Definition maxUncleDistance : nat := 5.

Definition tableChainNode : bytes := str_bytes "ChainNode-".
Definition tableBlock : bytes := str_bytes "Block-".
Definition dagTip : bytes := str_bytes "ChainState-DagTip".
Definition genesisParent : Byte64 := BytesToByte64 [].

(** [core.ERR_DB_UNINITIALIZED] *)
Definition ERR_DB_UNINITIALIZED : Z := 0x05.

(** [type BlockChainConsensus struct], without the database, the lock and the
    logger.  When the chain starts from genesis, [c_tip] and [c_state] share
    one world-state object; nothing changes it before the tip moves. *)
Record BlockChainConsensus {W : Type} := Chain {
  c_state : option W;
  c_tip : block W;
  c_weight : Z;
  c_genesisNode : chainNode;
  c_minerId : bytes;
}.
Arguments BlockChainConsensus : clear implicits.

(** [p2p.Msg] of go-ethereum, with the payload read *)
Record Msg := MkMsg {
  msg_Code : Z;
  msg_Payload : bytes;
}.

(** The encoding of message payloads (RLP, of go-ethereum): [p2p.Send] encodes,
    [msg.Decode] decodes. *)
Class Rlp (A : Type) := {
  Encode : A → result bytes;
  Decode : bytes → result A;
}.

Class RlpLaws (A : Type) `{Rlp A} := {
  decode_encode (x : A) b : Encode x = Ok b → Decode b = Ok x;
}.

Section operations.
Context {D W : Type} {dbo : Database D} {wso : WorldState W D} {sha : Sha512}.
Context {cdn : Codec chainNode} {cds : Codec BlockSpec} {rls : Rlp BlockSpec}.
Implicit Types (d : D) (c : BlockChainConsensus W) (b : block W).

(** ** Storage *)

Definition getChainNode (h : Byte64) d : result chainNode :=
  match Get (tableKey tableChainNode h) d with
  | Err e => Err e
  | Ok data => Deserialize data
  end.

Definition getBlock (h : Byte64) d : result (block W) :=
  match Get (tableKey tableBlock h) d with
  | Err e => Err e
  | Ok data =>
      match deSerializeBlock data with
      | Err e => Err e
      | Ok b => Ok (set_hash (Some (BytesToByte64 (Bytes h))) b)
      end
  end.

Definition putChainNode (node : chainNode) d : outcome (D * option error) :=
  match Serialize node with
  | Ok data => let! h := deref (cn_Hash node) in Ret (Put (tableKey tableChainNode h) data d)
  | Err e => Ret (d, Some e)
  end.

Definition putBlock b d : outcome (D * option error) :=
  match serializeBlock (Some b) with
  | Ok data => let! h := deref (block_Hash b) in Ret (Put (tableKey tableBlock h) data d)
  | Err e => Ret (d, Some e)
  end.

(** ** Creation *)

Definition NewBlockChainConsensus (attempts : nat) (range : ranger) (now genesisTime : Z)
    (minerId : bytes) d : outcome (D * result (BlockChainConsensus W)) :=
  let '(d, state) := ws_New d in
  let genesisBlock := newBlock now genesisParent 0 0 genesisTime 0 (Bytes (BytesToByte64 [])) state in
  let! (d, genesisBlock, _) := computeHash attempts range genesisBlock d in
  let genesisNode := setMainList true (newChainNode genesisBlock) in
  match Get dagTip d with
  | Err _ =>
      let tip := genesisBlock in
      let! h := deref (block_Hash tip) in
      let '(d, err) := Put dagTip (Bytes h) d in
      match err with
      | Some e => Ret (d, Err (CoreError ERR_DB_UNINITIALIZED (Error_string e)))
      | None =>
          let! (d, err) := putBlock genesisBlock d in
          match err with
          | Some e => Ret (d, Err (CoreError ERR_INITIALIZATION_FAILED (Error_string e)))
          | None =>
              let! (d, err) := putChainNode genesisNode d in
              match err with
              | Some e => Ret (d, Err (CoreError ERR_INITIALIZATION_FAILED (Error_string e)))
              | None => Ret (d, Ok (Chain W (worldState genesisBlock) tip (Uint64 (Weight tip)) genesisNode minerId))
              end
          end
      end
  | Ok data =>
      match getBlock (BytesToByte64 data) d with
      | Err e => Ret (d, Err (CoreError ERR_INITIALIZATION_FAILED (Error_string e)))
      | Ok tip =>
          let! w := deref (worldState genesisBlock) in
          let '(d, w, err) := ws_Rebase w (STATE (spec tip)) d in
          match err with
          | Some e => Ret (d, Err (CoreError ERR_INITIALIZATION_FAILED (Error_string e)))
          | None => Ret (d, Ok (Chain W (Some w) tip (Uint64 (Weight tip)) genesisNode minerId))
          end
      end
  end.

Definition Genesis c : option Byte64 := cn_Hash (c_genesisNode c).
Definition Tip c : block W := c_tip c.

(** ** Uncles *)

Fixpoint findNonDirectAncestors (childNode : Byte64) (remainingDistance : nat) (maxDepth : Z) d
    : list uncle :=
  match remainingDistance with
  | O => []
  | S remaining =>
      match getChainNode childNode d with
      | Err _ => []
      | Ok node =>
          concat (map (λ grandChild,
            match getBlock grandChild d with
            | Ok grandChildBlock =>
                if decide (Uint64 (Depth grandChildBlock) ≤ maxDepth) then
                  Uncle (block_Hash grandChildBlock) (Miner grandChildBlock)
                    (Uint64 (Depth grandChildBlock))
                    (u64 (Z.of_nat maxUncleDistance - Z.of_nat remainingDistance))
                  :: findNonDirectAncestors grandChild remaining maxDepth d
                else []
            | Err _ => []
            end) (cn_Children node))
      end
  end.

Fixpoint findUncles (grandParent : Byte64) (parent : option Byte64) (remainingDistance : nat)
    (maxDepth : Z) d : outcome (list uncle) :=
  match remainingDistance with
  | O => Ret []
  | S remaining =>
      if decide (grandParent = genesisParent) then Ret []
      else
        match getChainNode grandParent d with
        | Err _ => Ret []
        | Ok node =>
            let! uncles := outcome_concat (λ childNode,
              let! p := deref parent in
              if decide (childNode ≠ p) then
                match getBlock childNode d with
                | Ok childBlock =>
                    Ret (Uncle (block_Hash childBlock) (Miner childBlock) (Uint64 (Depth childBlock))
                           (u64 (Z.of_nat maxUncleDistance - Z.of_nat remainingDistance + 1))
                         :: findNonDirectAncestors childNode remaining maxDepth d)
                | Err _ => Ret []
                end
              else Ret []) (cn_Children node) in
            let! rest := findUncles (cn_Parent node) (cn_Hash node) remaining maxDepth d in
            Ret (uncles ++ rest)
        end
  end.

(** The loop of [NewCandidateBlock] *)
Fixpoint addUncles (us : list uncle) b : outcome (block W) :=
  match us with
  | [] => Ret b
  | u :: us => let! b := addUncle u b in addUncles us b
  end.

(** [func (c *BlockChainConsensus) NewCandidateBlock() Block]; [None] is [nil]. *)
Definition NewCandidateBlock (now : Z) c d : outcome (D * option (block W)) :=
  let '(d, state) := ws_New d in
  let! state := deref state in
  let! cw := deref (c_state c) in
  let '(d, state, err) := ws_Rebase state (ws_Hash cw) d in
  match err with
  | Some _ => Ret (d, None)
  | None =>
      let ts := u64 now in
      let! h := deref (block_Hash (Tip c)) in
      let b := newBlock now h (u64 (Uint64 (Weight (Tip c)) + 1)) (u64 (Uint64 (Depth (Tip c)) + 1))
                 ts (u64 (ts - Uint64 (block_Timestamp (Tip c)))) (c_minerId c) (Some state) in
      let! us := findUncles (ParentHash (Tip c)) (block_Hash (Tip c)) maxUncleDistance
                   (Uint64 (Depth (Tip c))) d in
      let! b := addUncles us b in
      Ret (d, Some b)
  end.

(** ** Validation *)

(** The first two loops of [isUncleValid]: move up to the given depth. *)
Fixpoint climb (fuel : nat) (node : option chainNode) (depth distance : Z) d
    : outcome (option chainNode * Z) :=
  match node with
  | None => Ret (None, distance)
  | Some n =>
      if decide (cn_Depth n > depth) then
        match fuel with
        | O => OutOfFuel
        | S fuel =>
            climb fuel (result_opt (getChainNode (cn_Parent n) d)) depth (u64 (distance + 1)) d
        end
      else Ret (node, distance)
  end.

(** The last loop of [isUncleValid]: move both nodes up until they meet. *)
Fixpoint meet (fuel : nat) (parent uncle : option chainNode) (distance : Z) d
    : outcome (option chainNode * option chainNode * Z) :=
  match parent, uncle with
  | Some p, Some u =>
      let! hp := deref (cn_Hash p) in
      let! hu := deref (cn_Hash u) in
      if decide (hp ≠ hu) then
        match fuel with
        | O => OutOfFuel
        | S fuel =>
            meet fuel (result_opt (getChainNode (cn_Parent p) d))
              (result_opt (getChainNode (cn_Parent u) d)) (u64 (distance + 1)) d
        end
      else Ret (parent, uncle, distance)
  | _, _ => Ret (parent, uncle, distance)
  end.

(** [func (c *BlockChainConsensus) isUncleValid(child *block, uHash *core.Byte64) bool];
    a valid uncle's miner is added to the child. *)
Definition isUncleValid (fuel : nat) (child : block W) (uHash : Byte64) d : outcome (block W * bool) :=
  match getChainNode uHash d with
  | Err _ => Ret (child, false)
  | Ok uncle =>
      let! (parent, distance) :=
        climb fuel (result_opt (getChainNode (PHASH (spec child)) d)) (cn_Depth uncle) 0 d in
      match parent with
      | None => Ret (child, false)
      | Some p =>
          let! (uncle, distance) := climb fuel (Some uncle) (cn_Depth p) distance d in
          match uncle with
          | None => Ret (child, false)
          | Some u =>
              let! hp := deref (cn_Hash p) in
              let! hu := deref (cn_Hash u) in
              if decide (hp = hu) then Ret (child, false)
              else
                let! (parent, uncle, distance) := meet fuel (Some p) (Some u) distance d in
                match parent, uncle with
                | Some _, Some _ =>
                    if decide (distance ≤ Z.of_nat maxUncleDistance) then
                      match getBlock uHash d with
                      | Err _ => Ret (child, false)
                      | Ok uncleBlock =>
                          Ret (set_uncleMiners (uncleMiners child ++ [Miner uncleBlock]) child, true)
                      end
                    else Ret (child, false)
                | _, _ => Ret (child, false)
                end
          end
      end
  end.

(** The loop of [validateBlock] over the uncles: the weight, or [None] for
    an invalid uncle. *)
Fixpoint validateUncles (fuel : nat) (us : list Byte64) (weight : Z) b d
    : outcome (block W * option Z) :=
  match us with
  | [] => Ret (b, Some weight)
  | u :: us =>
      let! (b, valid) := isUncleValid fuel b u d in
      if valid : bool then validateUncles fuel us (u64 (weight + 1)) b d else Ret (b, None)
  end.

(** [func (c *BlockChainConsensus) validateBlock(b Block) ( *block, error)]:
    the block (its uncle miners extended) with its parent or an error.  The
    first check, that the argument is a [*block], always holds here. *)
Definition validateBlock (fuel : nat) b d : outcome (block W * result (block W)) :=
  match getBlock (ParentHash b) d with
  | Err _ => Ret (b, Err (CoreError ERR_BLOCK_ORPHAN "cannot find parent"))
  | Ok parent =>
      if decide (Uint64 (Depth b) ≠ u64 (Uint64 (Depth parent) + 1)) then
        Ret (b, Err (CoreError ERR_BLOCK_VALIDATION "incorrect depth"))
      else
        let! (b, weight) := validateUncles fuel (Uncles b) (u64 (Uint64 (Weight parent) + 1)) b d in
        match weight with
        | None => Ret (b, Err (CoreError ERR_BLOCK_VALIDATION "invalid uncle"))
        | Some weight =>
            if decide (Uint64 (Weight b) ≠ weight) then
              Ret (b, Err (CoreError ERR_BLOCK_VALIDATION "incorrect weight"))
            else Ret (b, Ok parent)
        end
  end.

(** [transactionStatus]: the block and the chain node ([None] is [nil])
    with the error *)
Definition transactionStatus (txId : Byte64) c d
    : outcome (option (block W) * option chainNode * option error) :=
  let! w := deref (c_state c) in
  match ws_HasTransaction w txId d with
  | Err _ => Ret (None, None, Some (CoreError ERR_TX_NOT_FOUND "transaction not found"))
  | Ok h =>
      match getChainNode h d with
      | Err _ => Ret (None, None, Some (CoreError ERR_DB_CORRUPTED "error reading transaction's chain node"))
      | Ok node =>
          if negb (cn_IsMainList node) then
            Ret (None, Some node, Some (CoreError ERR_TX_NOT_APPLIED "transaction not on canonical chain"))
          else match getBlock h d with
               | Err _ => Ret (None, Some node, Some (CoreError ERR_DB_CORRUPTED "error reading transaction's block"))
               | Ok blk => Ret (Some blk, Some node, None)
               end
      end
  end.

Definition TransactionStatus (txId : Byte64) c d : outcome (option (block W) * option error) :=
  let! (b, _, err) := transactionStatus txId c d in Ret (b, err).

(** ** Extending the chain *)

(** [func (c *BlockChainConsensus) findMainListChild(parent, skipChild *chainNode) *chainNode] *)
Fixpoint findMainListLoop (children : list Byte64) (skipChild : option chainNode) d
    : outcome (option chainNode) :=
  match children with
  | [] => Ret None
  | childHash :: children =>
      match getChainNode childHash d with
      | Err _ => findMainListLoop children skipChild d
      | Ok child =>
          if cn_IsMainList child then
            match skipChild with
            | None => Ret (Some child)
            | Some skip =>
                let! hs := deref (cn_Hash skip) in
                let! hc := deref (cn_Hash child) in
                if decide (hs ≠ hc) then Ret (Some child)
                else findMainListLoop children skipChild d
            end
          else findMainListLoop children skipChild d
      end
  end.

Definition findMainListChild (parent : chainNode) (skipChild : option chainNode) d
    : outcome (option chainNode) :=
  findMainListLoop (cn_Children parent) skipChild d.

(** The loop of [addValidatedBlock] that walks up to the main list: the
    first ancestor on the main list, and the node below it. *)
Fixpoint walkUp (fuel : nat) (state : option W) (parentNode : option chainNode)
    (mainListParent : chainNode) d : outcome (D * chainNode * chainNode) :=
  let! p := deref parentNode in
  if cn_IsMainList p then Ret (d, p, mainListParent)
  else
    match fuel with
    | O => OutOfFuel
    | S fuel =>
        let p := setMainList true p in
        let! (d, _) := putChainNode p d in
        let! hp := deref (cn_Hash p) in
        let! d :=
          match getBlock hp d with
          | Ok b => let! (d, _) := registerTransactions (set_worldState state b) d in Ret d
          | Err _ => Ret d
          end in
        walkUp fuel state (result_opt (getChainNode (cn_Parent p) d)) p d
    end.

(** The loop of [addValidatedBlock] that takes the old main list down. *)
Fixpoint walkDown (fuel : nat) (childNode : option chainNode) d : outcome D :=
  match childNode with
  | None => Ret d
  | Some n =>
      match fuel with
      | O => OutOfFuel
      | S fuel =>
          let n := setMainList false n in
          let! (d, _) := putChainNode n d in
          let! next := findMainListChild n None d in
          walkDown fuel next d
      end
  end.

(** The check of [addValidatedBlock] for a transaction that is on the
    canonical chain already *)
Definition duplicateTx (child : block W) (tx : Transaction) c d : outcome bool :=
  let! (b, n, _) := transactionStatus (Transaction_Id tx) c d in
  Ret match b, n with
      | Some b, Some n =>
          cn_IsMainList n ||
          (bool_decide (Uint64 (Weight b) > Uint64 (Weight child)) ||
           (bool_decide (Uint64 (Weight b) = Uint64 (Weight child)) &&
            bool_decide (Numeric b < Numeric child)))
      | _, _ => false
      end.

Fixpoint anyDuplicateTx (child : block W) (txs : list Transaction) c d : outcome bool :=
  match txs with
  | [] => Ret false
  | tx :: txs =>
      let! dup := duplicateTx child tx c d in
      if dup : bool then Ret true else anyDuplicateTx child txs c d
  end.

(** The branch of [addValidatedBlock] that makes the child the new tip. *)
Definition moveTip (fuel : nat) (child : block W) (childNode parentNode : chainNode) c d
    : outcome (D * BlockChainConsensus W * option error) :=
  let c := Chain W (c_state c) child (cn_Weight childNode) (c_genesisNode c) (c_minerId c) in
  let! h := deref (block_Hash child) in
  let '(d, err) := Put dagTip (Bytes h) d in
  match err with
  | Some _ => Ret (d, c, Some (CoreError ERR_DB_CORRUPTED "failed to update tip in DB"))
  | None =>
      let! w := deref (c_state c) in
      let '(d, w, err) := ws_Rebase w (STATE (spec child)) d in
      let c := Chain W (Some w) (c_tip c) (c_weight c) (c_genesisNode c) (c_minerId c) in
      match err with
      | Some e => Ret (d, c, Some e)
      | None =>
          let! (d, err) := registerTransactions child d in
          match err with
          | Some _ => Ret (d, c, Some (CoreError ERR_DB_CORRUPTED "failed to update tip in DB"))
          | None =>
              let childNode := setMainList true childNode in
              let! (d, parentNode, mainListParent) :=
                walkUp fuel (c_state c) (Some parentNode) childNode d in
              let! (d, _) := putChainNode childNode d in
              let! oldChild := findMainListChild parentNode (Some mainListParent) d in
              let! d := walkDown fuel oldChild d in
              Ret (d, c, None)
          end
      end
  end.

(** [func (c *BlockChainConsensus) addValidatedBlock(child, parent *block) error] *)
Definition addValidatedBlock (fuel : nat) (child parent : block W) c d
    : outcome (D * BlockChainConsensus W * option error) :=
  let! h := deref (block_Hash child) in
  match getChainNode h d with
  | Ok _ => Ret (d, c, Some (CoreError ERR_DUPLICATE_BLOCK "duplicate block"))
  | Err _ =>
      let! dup := anyDuplicateTx child (Transactions child) c d in
      if dup : bool then Ret (d, c, Some (CoreError ERR_DUPLICATE_TX "duplicate transaction"))
      else
        let childNode := newChainNode child in
        let! (d, _) := putBlock child d in
        let! hp := deref (block_Hash parent) in
        match getChainNode hp d with
        | Err _ => Ret (d, c, Some (CoreError ERR_DB_CORRUPTED "missing chain node"))
        | Ok parentNode =>
            let parentNode := (addChild h parentNode).1 in
            let! (d, _) := putChainNode parentNode d in
            if decide (c_weight c < cn_Weight childNode ∨
                       (c_weight c = cn_Weight childNode ∧ Numeric (c_tip c) > Numeric child)) then
              moveTip fuel child childNode parentNode c d
            else
              let! (d, _) := putChainNode childNode d in
              Ret (d, c, None)
        end
  end.

(** ** Mining and accepting blocks *)

(** [func (c *BlockChainConsensus) mineCandidateBlock(child *block, cb MiningResultHandler)]:
    the child as the call leaves it and what the callback is given *)
Definition mineCandidateBlock (fuel attempts : nat) (range : ranger) (child : block W) c d
    : outcome (D * BlockChainConsensus W * block W * result (block W)) :=
  let! (child, parent) := validateBlock fuel child d in
  match parent with
  | Err e => Ret (d, c, child, Err e)
  | Ok parent =>
      let! (d, child, h) := computeHash attempts range child d in
      match h with
      | None => Ret (d, c, child, Err (CoreError ERR_BLOCK_UNHASHED "hash computation failed"))
      | Some _ =>
          let! (d, c, err) := addValidatedBlock fuel child parent c d in
          match err with
          | Some e => Ret (d, c, child, Err e)
          | None => Ret (d, c, child, Ok child)
          end
      end
  end.

(** [MineCandidateBlockPoW]; the work is done in a goroutine.  The approver
    may be [nil]. *)
Definition MineCandidateBlockPoW (fuel attempts : nat) (range : ranger) (b : block W)
    (apprvr : option PowApprover) c d : outcome (D * BlockChainConsensus W * block W * result (block W)) :=
  mineCandidateBlock fuel attempts range (set_pow apprvr b) c d.

(** [CheckNetworkBlockPoW] *)
Definition CheckNetworkBlockPoW (attempts : nat) (range : ranger) (b : block W)
    (apprvr : option PowApprover) d
    : outcome (D * block W * option error) :=
  if negb (isNetworkBlock b) then
    Ret (d, b, Some (CoreError ERR_BLOCK_VALIDATION "non-network block"))
  else
    let b := set_pow apprvr b in
    let! (d, b, h) := computeHash attempts range b d in
    match h with
    | None => Ret (d, b, Some (CoreError ERR_BLOCK_UNHASHED "hash computation failed"))
    | Some _ => Ret (d, b, None)
    end.

(** [func (c *BlockChainConsensus) processNetworkBlock(b *block) (Block, error)] *)
Definition processNetworkBlock (fuel : nat) (b : block W) d : outcome (D * result (block W)) :=
  let b := set_isNetworkBlock true b in
  let! (b, parent) := validateBlock fuel b d in
  match parent with
  | Err e => Ret (d, Err e)
  | Ok parent =>
      let '(d, state) := ws_New d in
      let! state := deref state in
      let '(d, state, err) := ws_Rebase state (STATE (spec parent)) d in
      match err with
      | Some _ => Ret (d, Err (CoreError ERR_STATE_INCORRECT "cannot initialize state"))
      | None => Ret (d, Ok (set_worldState (Some state) b))
      end
  end.

(** [DeserializeNetworkBlock] *)
Definition DeserializeNetworkBlock (fuel : nat) (data : bytes) d : outcome (D * result (block W)) :=
  match deSerializeBlock data with
  | Err e => Ret (d, Err e)
  | Ok b => processNetworkBlock fuel b d
  end.

(** [DecodeNetworkBlockSpec] *)
Definition DecodeNetworkBlockSpec (fuel : nat) (s : BlockSpec) d : outcome (D * result (block W)) :=
  processNetworkBlock fuel (Block W s [] None None None false ∅ ∅) d.

(** [func (c *BlockChainConsensus) DecodeNetworkBlock(msg p2p.Msg) (Block, error)] *)
Definition DecodeNetworkBlock (fuel : nat) (m : Msg) d : outcome (D * result (block W)) :=
  match Decode (A:=BlockSpec) (msg_Payload m) with
  | Err e => Ret (d, Err e)
  | Ok s => DecodeNetworkBlockSpec fuel s d
  end.

(** [func (c *BlockChainConsensus) AcceptNetworkBlock(b Block) error] *)
Definition AcceptNetworkBlock (fuel attempts : nat) (range : ranger) (b : block W) c d
    : outcome (D * BlockChainConsensus W * block W * option error) :=
  let! (b, parent) := validateBlock fuel b d in
  match parent with
  | Err e => Ret (d, c, b, Some e)
  | Ok parent =>
      let! (d, b, _) := computeHash attempts range b d in
      let! w := deref (worldState b) in
      if decide (ws_Hash w ≠ STATE (spec b)) then
        Ret (d, c, b, Some (CoreError ERR_STATE_INCORRECT "incorrect computed state"))
      else
        let! (d, c, err) := addValidatedBlock fuel b parent c d in
        Ret (d, c, b, err)
  end.

(** ** Queries *)

(** [func (c *BlockChainConsensus) Block(hash *core.Byte64) (Block, error)] *)
Definition chain_Block (h : Byte64) d : outcome (D * result (block W)) :=
  match getBlock h d with
  | Err e => Ret (d, Err e)
  | Ok blk =>
      let '(d, state) := ws_New d in
      let! state := deref state in
      let '(d, _, err) := ws_Rebase state (STATE (spec blk)) d in
      match err with
      | Some _ => Ret (d, Err (CoreError ERR_STATE_INCORRECT "worldstate error"))
      | None => Ret (d, Ok blk)
      end
  end.

(** [func (c *BlockChainConsensus) BestBlock() Block]; [None] is [nil]. *)
Definition BestBlock c d : outcome (D * option (block W)) :=
  let '(d, state) := ws_New d in
  let! state := deref state in
  let! cw := deref (c_state c) in
  let '(d, state, err) := ws_Rebase state (ws_Hash cw) d in
  match err with
  | Some _ => Ret (d, None)
  | None => Ret (d, Some (clone state (c_tip c)))
  end.

(** The loop of [Ancestor], with [max] iterations left.  When a block is
    missing, Go returns with the error an interface that holds a nil block;
    here it is [None]. *)
Fixpoint ancestorLoop (max : nat) (node : result chainNode) (lastBlock : option (block W)) d
    : option (block W) * option error :=
  match node with
  | Err e => (lastBlock, Some e)
  | Ok n =>
      match max with
      | O => (lastBlock, None)
      | S max =>
          if decide (cn_Depth n > 0) then
            match getBlock (cn_Parent n) d with
            | Ok b => ancestorLoop max (getChainNode (cn_Parent n) d) (Some b) d
            | Err e => (None, Some e)
            end
          else (lastBlock, None)
      end
  end.

(** [func (c *BlockChainConsensus) Ancestor(child *core.Byte64, max int) (Block, error)] *)
Definition Ancestor (child : Byte64) (max : Z) c d : outcome (option (block W) * option error) :=
  let! g := deref (cn_Hash (c_genesisNode c)) in
  if decide (child = g) then Ret (None, Some (CoreError ERR_INVALID_ARG "no ancestor for genesis"))
  else Ret (ancestorLoop (Z.to_nat max) (getChainNode child d) None d).

(** The uncles of a block, fetched by [Descendents]: the blocks up to the
    first one that is missing. *)
Fixpoint fetchUncles (us : list Byte64) d : result (list (block W)) :=
  match us with
  | [] => Ok []
  | u :: us =>
      match getBlock u d with
      | Err e => Err e
      | Ok b => match fetchUncles us d with Err e => Err e | Ok bs => Ok (b :: bs) end
      end
  end.

(** The loop of [Descendents] *)
Fixpoint descendentsLoop (fuel : nat) (parent : Byte64) (max : Z) (node : option chainNode)
    (count : Z) (descendents : list (block W)) d : outcome (list (block W) * option error) :=
  match node with
  | None => Ret (descendents, None)
  | Some n =>
      if decide (count < max) then
        match fuel with
        | O => OutOfFuel
        | S fuel =>
            let! hn := deref (cn_Hash n) in
            match getBlock hn d with
            | Err e => Ret (descendents, Some e)
            | Ok blk =>
                if decide (max ≤ count + Z.of_nat (length (Uncles blk))) then Ret (descendents, None)
                else
                  match fetchUncles (Uncles blk) d with
                  | Err e => Ret (descendents, Some e)
                  | Ok uncles =>
                      let count := count + Z.of_nat (length uncles) in
                      let descendents := descendents ++ uncles in
                      let! hb := deref (block_Hash blk) in
                      let '(descendents, count) :=
                        if decide (hb ≠ parent) then (descendents ++ [blk], count + 1)
                        else (descendents, count) in
                      let! next := findMainListChild n None d in
                      descendentsLoop fuel parent max next count descendents d
                  end
            end
        end
      else Ret (descendents, None)
  end.

(** [func (c *BlockChainConsensus) Descendents(parent *core.Byte64, max int) ([]Block, error)];
    making a slice with a negative capacity panics. *)
Definition Descendents (fuel : nat) (parent : Byte64) (max : Z) d
    : outcome (list (block W) * option error) :=
  let max := if decide (max > maxBlocks) then maxBlocks else max in
  if decide (max < 0) then Panic
  else
    match getChainNode parent d with
    | Err e => Ret ([], Some e)
    | Ok parentNode =>
        if negb (cn_IsMainList parentNode) then
          Ret ([], Some (CoreError ERR_NOT_MAINLIST "parent not on mainlist"))
        else descendentsLoop fuel parent max (Some parentNode) 0 [] d
    end.
End operations.
