(* ===== verification/ConsensusFacts.v ===== *)
(** * Facts about the block chain

    The stored chain nodes form a tree, and the loops of [addValidatedBlock]
    are the loops of [MainList] over it; world-state operations in between do
    not disturb it. *)

From Stdlib Require Import Strings.Byte.
From S2P Require Import Prelude Bytes Db Trie TrieFacts WorldState WorldStateI Block MainList Consensus.

#[global] Instance chainNode_ops : ChainNodeOps chainNode := {
  n_hash := cn_Hash;
  n_parent := cn_Parent;
  n_children := cn_Children;
  n_main := cn_IsMainList;
  n_setMain := setMainList;
  n_addChild h n := (addChild h n).1;
}.

#[global] Instance chainNode_laws : ChainNodeLaws chainNode.
Proof. by split. Qed.

(** The keys of the chain. *)
Definition chain_key (k : bytes) : Prop :=
  (∃ h, k = tableKey tableChainNode h ∨ k = tableKey tableBlock h) ∨ k = dagTip.

(** The world state leaves the keys of the chain alone. *)
Class ChainSeparate (W D : Type) `{WorldStateLaws W D} :=
  chain_foreign k : chain_key k → ¬ ws_own k.

Section chain.
Context {D W : Type} {dbo : Database D} {dbl : DatabaseLaws D}.
Context {wso : WorldState W D} {wsl : WorldStateLaws W D} {sep : ChainSeparate W D}.
Context {sha : Sha512} {cdn : Codec chainNode} {cdnl : CodecLaws chainNode}.
Context {cds : Codec BlockSpec} {cdsl : CodecLaws BlockSpec}.
Implicit Types (d : D) (c : BlockChainConsensus W) (b child parent : block W) (n : chainNode).

(** The stored chain nodes. *)
Definition nodes d : view chainNode := λ h, result_opt (getChainNode h d).

(** The databases hold the same chain. *)
Abbreviation same_chain := (same_inside chain_key).

#[global] Instance same_inside_equiv P : Equivalence (same_inside (D:=D) P).
Proof.
  split.
  - by intros d k.
  - intros d d' Hs k Hk. by rewrite Hs.
  - intros d1 d2 d3 H1 H2 k Hk. by rewrite H2, H1.
Qed.

Lemma own_same_chain d d' : same_outside ws_own d d' → same_chain d d'.
Proof. intros Hs k Hk. by apply Hs, chain_foreign. Qed.

Lemma nodes_frame d d' h :
  contents d' !! tableKey tableChainNode h = contents d !! tableKey tableChainNode h →
  nodes d' h = nodes d h.
Proof.
  intros Hg%get_same. unfold nodes, getChainNode. by destruct (Get _ d'), (Get _ d); simplify_eq/=.
Qed.

Lemma nodes_same d d' h : same_chain d d' → nodes d' h = nodes d h.
Proof. intros Hs. apply nodes_frame, Hs. left. exists h. by left. Qed.

Lemma getBlock_same d d' h :
  same_chain d d' → result_opt (getBlock (W:=W) h d') = result_opt (getBlock h d).
Proof.
  intros Hs. assert (Hg : result_opt (Get (tableKey tableBlock h) d') = result_opt (Get (tableKey tableBlock h) d)).
  { apply get_same, Hs. left. exists h. by right. }
  unfold getBlock. by destruct (Get _ d'), (Get _ d); simplify_eq/=.
Qed.

Lemma getChainNode_nodes h d :
  (∃ n, getChainNode h d = Ok n ∧ nodes d h = Some n) ∨
  (∃ e, getChainNode h d = Err e ∧ nodes d h = None).
Proof. unfold nodes. destruct (getChainNode h d); simpl; eauto. Qed.

Lemma getBlock_hash h d b : getBlock h d = Ok b → hash b = Some h.
Proof.
  unfold getBlock. destruct (Get _ d); [|done]. destruct (deSerializeBlock _); [|done].
  intros [= <-]. simpl. unfold BytesToByte64. by rewrite BytesToArr_Bytes.
Qed.

(** ** Writes *)

Lemma putChainNode_spec n d h :
  cn_Hash n = Some h →
  ∃ d', putChainNode n d = Ret (d', None) ∧ (∀ x, nodes d' x = upd (nodes d) h n x) ∧
    (∀ k, k ≠ tableKey tableChainNode h → contents d' !! k = contents d !! k).
Proof.
  intros Hh. unfold putChainNode. destruct (serialize_ok n) as [data Hdata]. rewrite Hdata, Hh. cbn [deref outcome_bind].
  rewrite put_eq. eexists. split; [done|].
  assert (Hk : ∀ k, k ≠ tableKey tableChainNode h →
    contents (Put (tableKey tableChainNode h) data d).1 !! k = contents d !! k).
  { intros k Hk. by rewrite put_contents, lookup_insert_ne. }
  split; [|done]. intros x. unfold upd, nodes, getChainNode. case_decide as Hx.
  - subst x. assert (Get (tableKey tableChainNode h) (Put (tableKey tableChainNode h) data d).1 = Ok data) as ->.
    { apply get_ok_iff. by rewrite put_contents, lookup_insert_eq. }
    by rewrite (deserialize_serialize n data Hdata).
  - apply nodes_frame, Hk. intros ?%(inj _). congruence.
Qed.

(** [V] is what is stored in [d]. *)
Definition stored d (V : view chainNode) : Prop := ∀ x, nodes d x = V x.

Lemma stored_put n d V h :
  cn_Hash n = Some h → stored d V →
  ∃ d', putChainNode n d = Ret (d', None) ∧ stored d' (upd V h n) ∧
    (∀ k, k ≠ tableKey tableChainNode h → contents d' !! k = contents d !! k).
Proof.
  intros Hh HV. destruct (putChainNode_spec n d h Hh) as (d' & Hput & Hn & Hk).
  exists d'. split_and!; [done| |done]. intros x. rewrite Hn. unfold upd. by case_decide.
Qed.

Lemma stored_same d d' V : same_chain d d' → stored d V → stored d' V.
Proof. intros Hs HV x. rewrite (nodes_same d d') by done. apply HV. Qed.

Lemma nodekey_tip h : tableKey tableChainNode h ≠ dagTip.
Proof. intros Heq. apply (f_equal length) in Heq. unfold tableKey in Heq. rewrite length_app in Heq.
  unfold Bytes in Heq. rewrite arr_length in Heq. done. Qed.

Lemma nodekey_block h h' : tableKey tableChainNode h ≠ tableKey tableBlock h'.
Proof. by apply tableKey_ne. Qed.

(** ** The loops *)

Lemma findMainListLoop_find cs skip d V :
  stored d V → findMainListLoop cs skip d = find V cs skip.
Proof.
  intros HV. induction cs as [|h cs IH]; [done|]. cbn [findMainListLoop find].
  rewrite <- (HV h). unfold nodes. destruct (getChainNode h d) as [n|e]; cbn; by rewrite IH.
Qed.

Lemma registerLoop_spec w h txs d :
  ∃ d', registerLoop w (Some h) txs d = Ret (d', None) ∧ same_chain d d'.
Proof.
  revert d. induction txs as [|tx txs IH]; intros d; cbn [registerLoop deref outcome_bind]; [by exists d|].
  pose proof (ws_register_ok w (Transaction_Id tx) h d) as Hok.
  pose proof (own_same_chain _ _ (ws_register_frame w (Transaction_Id tx) h d)) as Hs.
  destruct (ws_RegisterTransaction w (Transaction_Id tx) h d) as [d1 e]. simpl in Hok, Hs. subst e.
  destruct (IH d1) as (d' & -> & Hs'). exists d'. split; [done | by trans d1].
Qed.

Lemma registerTransactions_spec b h d :
  hash b = Some h → ∃ d', registerTransactions b d = Ret (d', None) ∧ same_chain d d'.
Proof.
  intros Hh. unfold registerTransactions. destruct (worldState b) as [w|]; [|by exists d].
  rewrite Hh. apply registerLoop_spec.
Qed.

(** Everything of the chain but the chain nodes. *)
Definition same_rest d d' : Prop :=
  ∀ k, chain_key k → (∀ h, k ≠ tableKey tableChainNode h) → contents d' !! k = contents d !! k.

#[global] Instance same_rest_equiv : Equivalence same_rest.
Proof.
  split.
  - by intros d k.
  - intros d d' Hs k Hk Hn. by rewrite Hs.
  - intros d1 d2 d3 H1 H2 k Hk Hn. by rewrite H2, H1.
Qed.

Lemma same_chain_rest d d' : same_chain d d' → same_rest d d'.
Proof. intros Hs k Hk _. by apply Hs. Qed.

Lemma put_rest d d' h :
  (∀ k, k ≠ tableKey tableChainNode h → contents d' !! k = contents d !! k) → same_rest d d'.
Proof. intros Hs k _ Hk. by apply Hs. Qed.

Lemma walkUp_up fuel st p below d V V' a m :
  stored d V → up fuel V p below = Ret (V', a, m) →
  ∃ d', walkUp fuel st p below d = Ret (d', a, m) ∧ stored d' V' ∧ same_rest d d'.
Proof.
  revert p below d V. induction fuel as [|fuel IH]; intros p below d V HV; cbn [up walkUp];
    (destruct p as [p|]; [|done]); cbn [deref outcome_bind n_main chainNode_ops].
  - destruct (cn_IsMainList p); [|done]. intros [= <- <- <-]. by exists d.
  - destruct (cn_IsMainList p); [intros [= <- <- <-]; by exists d|].
    cbn [n_hash n_parent n_setMain chainNode_ops].
    destruct (cn_Hash (setMainList true p)) as [hp|] eqn:Hhp; [|done]. cbn [deref outcome_bind].
    destruct (stored_put _ d V hp Hhp HV) as (d1 & -> & HV1 & Hk). cbn [outcome_bind].
    intros Hup.
    assert (∃ d2, match getBlock hp d1 with
                  | Ok b => let! (d, _) := registerTransactions (set_worldState st b) d1 in Ret d
                  | Err _ => Ret d1
                  end = Ret d2 ∧ same_chain d1 d2) as (d2 & -> & Hs2).
    { destruct (getBlock hp d1) as [b|] eqn:Eb; [|by exists d1].
      destruct (registerTransactions_spec (set_worldState st b) hp d1) as (d2 & -> & Hs); [by apply (getBlock_hash hp d1 b)|].
      by exists d2. }
    cbn [outcome_bind].
    pose proof (stored_same d1 d2 _ Hs2 HV1) as HV2.
    change (result_opt (getChainNode (cn_Parent (setMainList true p)) d2))
      with (nodes d2 (cn_Parent (setMainList true p))).
    rewrite HV2. destruct (IH _ _ d2 _ HV2 Hup) as (d' & Hw & HV' & Hs').
    exists d'. split_and!; [done..|]. trans d1; [by eapply put_rest|]. trans d2; [by apply same_chain_rest | done].
Qed.

Lemma walkDown_down fuel o d V V' :
  stored d V → down fuel V o = Ret V' →
  ∃ d', walkDown fuel o d = Ret d' ∧ stored d' V' ∧ same_rest d d'.
Proof.
  revert o d V. induction fuel as [|fuel IH]; intros o d V HV; cbn [down walkDown].
  - destruct o as [n|]; [done|]. intros [= <-]. by exists d.
  - destruct o as [n|]; [|intros [= <-]; by exists d].
    cbn [n_hash n_children n_setMain chainNode_ops].
    destruct (cn_Hash (setMainList false n)) as [h|] eqn:Hh; [|done]. cbn [deref outcome_bind].
    destruct (stored_put _ d V h Hh HV) as (d1 & -> & HV1 & Hk). cbn [outcome_bind].
    unfold findMainListChild. rewrite (findMainListLoop_find _ _ d1 _ HV1).
    destruct (find _ _ None) as [next| |]; [|done..]. cbn [outcome_bind]. intros Hd.
    destruct (IH next d1 _ HV1 Hd) as (d' & Hw & HV' & Hs'). exists d'. split_and!; [done..|].
    trans d1; [by eapply put_rest | done].
Qed.

(** ** The invariant of the chain *)

(** [Numeric] of a block with the given hash. *)
Definition hash_numeric (h : Byte64) : Z :=
  fold_left (λ num x, u64 (num + byte_val x)) (Bytes h) 0.

Lemma Numeric_hash b h : hash b = Some h → Numeric b = hash_numeric h.
Proof. intros Hh. unfold Numeric. by rewrite Hh. Qed.

(** The block with hash [x] and weight [wt] does not beat the tip. *)
Definition not_better (c_wt : Z) (tip x : Byte64) (wt : Z) : Prop :=
  wt < c_wt ∨ (wt = c_wt ∧ hash_numeric tip ≤ hash_numeric x).

(** The chain nodes form a tree rooted at genesis; the tip is the best node
    of it, and the nodes on the path from genesis to the tip are exactly
    those on the main list. *)
Record chain_inv (g : Byte64) d c : Prop := {
  ci_genesis : Genesis c = Some g;
  ci_forest : forest (nodes d) g;
  ci_tip : ∃ h L n, hash (c_tip c) = Some h ∧ path (nodes d) g h L ∧ flags (nodes d) L ∧
    nodes d h = Some n ∧ cn_Weight n = c_weight c ∧ contents d !! dagTip = Some (Bytes h) ∧
    ∀ x m, nodes d x = Some m → not_better (c_weight c) h x (cn_Weight m);
  ci_bounded : ∃ k, ∀ x l, path (nodes d) g x l → (length l ≤ k)%nat;
  ci_state : is_Some (c_state c);
}.

Lemma chain_inv_same g d d' c : same_chain d d' → chain_inv g d c → chain_inv g d' c.
Proof.
  intros Hs [H1 H2 H3 H4 H5].
  assert (Hn : ∀ x, nodes d' x = nodes d x) by (intros; by apply nodes_same).
  assert (Hsh : same_shape (nodes d) (nodes d')) by (intros x; by rewrite Hn).
  assert (Hsh' : same_shape (nodes d') (nodes d)) by (by symmetry).
  split; [done | by eapply forest_shape | | |done].
  - destruct H3 as (h & L & n & Ht & Hp & Hfl & Hh & Hw & Htip & Hbest).
    exists h, L, n. split_and!; [done | by eapply path_shape | | by rewrite Hn | done | |].
    + intros x m. rewrite Hn. apply Hfl.
    + rewrite Hs; [done | by right].
    + intros x m. rewrite Hn. apply Hbest.
  - destruct H4 as [k Hk]. exists k. intros x l Hp. eapply Hk. by eapply path_shape.
Qed.

(** Writes to chain keys do not disturb the world states. *)
Lemma chain_writes_known h d d' :
  same_outside chain_key d d' → ws_known (W:=W) h d → ws_known (W:=W) h d'.
Proof.
  intros Hs. apply ws_known_inside. intros k Hk. apply Hs. intros Hc. by apply (chain_foreign k Hc).
Qed.

Lemma put_chain_outside d d' k :
  chain_key k → (∀ k', k' ≠ k → contents d' !! k' = contents d !! k') → same_outside chain_key d d'.
Proof. intros Hk Hs k' Hk'. apply Hs. by intros ->. Qed.

Lemma anyDuplicateTx_ret child txs c d :
  is_Some (c_state c) → ∃ dup, anyDuplicateTx child txs c d = Ret dup.
Proof.
  intros [w Hw]. induction txs as [|tx txs [dup IH]]; cbn [anyDuplicateTx]; [by eexists|].
  unfold duplicateTx, transactionStatus. rewrite Hw. cbn [deref outcome_bind].
  assert (∃ r, match ws_HasTransaction w (Transaction_Id tx) d with
     | Ok h => match getChainNode h d with
               | Ok node => if negb (cn_IsMainList node)
                   then Ret (None, Some node, Some (CoreError ERR_TX_NOT_APPLIED "transaction not on canonical chain"))
                   else match getBlock h d with
                        | Ok blk => Ret (Some blk, Some node, None)
                        | Err _ => Ret (None, Some node, Some (CoreError ERR_DB_CORRUPTED "error reading transaction's block"))
                        end
               | Err _ => Ret (None, None, Some (CoreError ERR_DB_CORRUPTED "error reading transaction's chain node"))
               end
     | Err _ => Ret (None, None, Some (CoreError ERR_TX_NOT_FOUND "transaction not found"))
     end = Ret r) as [[[b n] e] ->].
  { destruct (ws_HasTransaction w (Transaction_Id tx) d); [|by eexists].
    destruct (getChainNode _ d); [|by eexists]. destruct (negb _); [by eexists|].
    destruct (getBlock (W:=W) _ d); by eexists. }
  cbn [outcome_bind]. destruct (match b with Some b => _ | None => _ end); [by eexists | by rewrite IH; eexists].
Qed.

Lemma putBlock_spec b d h :
  hash b = Some h → ∃ d' e, putBlock b d = Ret (d', e) ∧
    (∀ k, k ≠ tableKey tableBlock h → contents d' !! k = contents d !! k).
Proof.
  intros Hh. unfold putBlock, block_Hash. rewrite Hh. destruct (serializeBlock (Some b)) as [data|e].
  - cbn [deref outcome_bind]. rewrite put_eq. do 2 eexists. split; [done|].
    intros k Hk. by rewrite put_contents, lookup_insert_ne.
  - by exists d, (Some e).
Qed.

Lemma blockkey_tip h : tableKey tableBlock h ≠ dagTip.
Proof. intros Heq. apply (f_equal length) in Heq. unfold tableKey in Heq. rewrite length_app in Heq.
  unfold Bytes in Heq. rewrite arr_length in Heq. done. Qed.

(** ** Adding a block *)

Lemma moveTip_spec fuel child cn pn c d V V' h :
  stored d V → rebalance fuel V pn cn = Ret V' → cn_Hash cn = Some h →
  hash child = Some h → is_Some (c_state c) → ws_known (W:=W) (STATE (spec child)) d →
  ∃ d' w', moveTip fuel child cn pn c d =
      Ret (d', Chain W (Some w') child (cn_Weight cn) (c_genesisNode c) (c_minerId c), None) ∧
    stored d' V' ∧ contents d' !! dagTip = Some (Bytes h).
Proof.
  intros HV Hreb Hcn Hh [w Hw] Hknown. unfold moveTip, block_Hash. rewrite Hh. cbn [deref outcome_bind].
  rewrite put_eq. set (d1 := (Put dagTip (Bytes h) d).1). cbn [c_state]. rewrite Hw. cbn [deref outcome_bind].
  assert (Hput : ∀ k, k ≠ dagTip → contents d1 !! k = contents d !! k).
  { intros k Hk. unfold d1. by rewrite put_contents, lookup_insert_ne. }
  assert (HV1 : stored d1 V).
  { intros x. rewrite <- HV. apply nodes_frame, Hput, nodekey_tip. }
  assert (Htip1 : contents d1 !! dagTip = Some (Bytes h)) by (unfold d1; by rewrite put_contents, lookup_insert_eq).
  assert (Hk1 : ws_known (W:=W) (STATE (spec child)) d1).
  { eapply chain_writes_known; [|done]. eapply (put_chain_outside _ _ dagTip); [by right | done]. }
  destruct (ws_rebase_known w (STATE (spec child)) d1 Hk1) as [Hok _].
  pose proof (own_same_chain _ _ (ws_rebase_frame w (STATE (spec child)) d1)) as Hs2.
  destruct (ws_Rebase w (STATE (spec child)) d1) as [[d2 w2] e]. simpl in Hok, Hs2. subst e.
  destruct (registerTransactions_spec child h d2 Hh) as (d3 & -> & Hs3). cbn [outcome_bind c_state].
  assert (HV3 : stored d3 V) by (eapply stored_same; [done|]; by eapply stored_same).
  unfold rebalance in Hreb. apply outcome_bind_ret in Hreb as ([[Vu a] m] & Hup & Hreb).
  destruct (walkUp_up fuel (Some w2) (Some pn) (setMainList true cn) d3 V Vu a m HV3 Hup) as (d4 & -> & HV4 & Hr4).
  cbn [outcome_bind n_hash n_setMain chainNode_ops] in Hreb |- *.
  assert (Hcn' : cn_Hash (setMainList true cn) = Some h) by done. rewrite Hcn' in Hreb. cbn [deref outcome_bind] in Hreb.
  destruct (stored_put _ d4 Vu h Hcn' HV4) as (d5 & -> & HV5 & Hk5). cbn [outcome_bind].
  unfold findMainListChild. rewrite (findMainListLoop_find _ _ d5 _ HV5).
  cbn [n_children chainNode_ops] in Hreb. apply outcome_bind_ret in Hreb as (old & Hfind & Hdown).
  rewrite Hfind. cbn [outcome_bind].
  destruct (walkDown_down fuel old d5 _ V' HV5 Hdown) as (d6 & -> & HV6 & Hr6). cbn [outcome_bind].
  exists d6, w2. split_and!; [done..|].
  assert (Hrest : same_rest d1 d6).
  { trans d2; [by apply same_chain_rest|]. trans d3; [by apply same_chain_rest|].
    trans d4; [done|]. trans d5; [by eapply put_rest | done]. }
  rewrite Hrest; [done | by right | intros x Hx; by apply (nodekey_tip x)].
Qed.

(** Does [addValidatedBlock] make the child the new tip? *)
Definition better c (child : block W) : Prop :=
  c_weight c < Uint64 (Weight child) ∨
  (c_weight c = Uint64 (Weight child) ∧ Numeric (c_tip c) > Numeric child).

#[global] Instance better_dec c (child : block W) : Decision (better c child).
Proof. unfold better. apply _. Defined.

(** What never changes in a chain node. *)
Definition same_header n n' : Prop :=
  cn_Hash n' = cn_Hash n ∧ cn_Parent n' = cn_Parent n ∧ cn_Depth n' = cn_Depth n ∧ cn_Weight n' = cn_Weight n.

#[global] Instance same_header_preorder : PreOrder same_header.
Proof.
  split; [by intros n|]. intros n1 n2 n3 (H1 & H2 & H3 & H4) (H5 & H6 & H7 & H8).
  unfold same_header. by rewrite H5, H6, H7, H8.
Qed.

(** What a call of [addValidatedBlock] that is not rejected achieves. *)
Record added (g h : Byte64) (child : block W) d c d' c' : Prop := {
  ad_inv : chain_inv g d' c';
  ad_tip : c_tip c' = if decide (better c child) then child else c_tip c;
  ad_node : ∃ n, nodes d' h = Some n ∧ cn_Parent n = ParentHash child ∧
    cn_Weight n = Uint64 (Weight child) ∧ cn_Depth n = Uint64 (Depth child);
  ad_new : nodes d h = None ∧ is_Some (nodes d (ParentHash child));
  ad_only x : x ≠ h → is_Some (nodes d' x) → is_Some (nodes d x);
  ad_old x n : nodes d x = Some n → ∃ n', nodes d' x = Some n' ∧ same_header n n';
}.

(** The child of a validated block can be linked to the stored parent. *)
Lemma fresh_child d (child : block W) pn h :
  nodes d h = None → nodes d (ParentHash child) = Some pn → hash child = Some h →
  fresh (nodes d) (ParentHash child) pn h (newChainNode child).
Proof. intros Hnew Hp Hh. by split. Qed.

(** The weight of a node is not changed by linking a child or moving flags. *)
Lemma linked_weight d V' (child : block W) pn h :
  same_but_flags (linked (nodes d) (ParentHash child) pn h (newChainNode child)) V' →
  nodes d (ParentHash child) = Some pn →
  ∀ x m, V' x = Some m → (x = h ∧ cn_Weight m = Uint64 (Weight child)) ∨
    ∃ m0, nodes d x = Some m0 ∧ cn_Weight m = cn_Weight m0.
Proof.
  intros Hs Hpn x m Hm. specialize (Hs _ cn_Weight (λ _ _, eq_refl) x). rewrite Hm in Hs.
  unfold linked, upd in Hs. repeat case_decide; subst; simpl in Hs.
  - left. split; [done|]. by injection Hs.
  - right. exists pn. split; [done|]. by injection Hs.
  - right. destruct (nodes d x) as [m0|]; [|done]. exists m0. split; [done|]. by injection Hs.
Qed.

(** The state of the chain after the child was linked: [V'] is stored and [tip]
    with its path [L] is the new tip. *)
Lemma linked_inv_intro g d c child pn h d' V' tip L :
  chain_inv g d c → nodes d h = None → nodes d (ParentHash child) = Some pn → hash child = Some h →
  stored d' V' → same_but_flags (linked (nodes d) (ParentHash child) pn h (newChainNode child)) V' →
  hash (c_tip tip) = Some L.1 → path V' g L.1 L.2 → flags V' L.2 →
  (∃ n, V' L.1 = Some n ∧ cn_Weight n = c_weight tip) →
  contents d' !! dagTip = Some (Bytes L.1) →
  (∀ x m, V' x = Some m → not_better (c_weight tip) L.1 x (cn_Weight m)) →
  Genesis tip = Some g → is_Some (c_state tip) →
  chain_inv g d' tip.
Proof.
  intros [_ HF _ [k Hk] _] Hnew Hpn Hh HV' Hsame Htip Hpath Hfl (n & Hn & Hw) Hdag Hbest Hgen Hst.
  pose proof (fresh_child d child pn h Hnew Hpn Hh) as Hfr.
  pose proof (same_but_flags_shape _ _ Hsame) as Hshape.
  assert (Hs : same_shape V' (nodes d')) by (intros x; by rewrite HV').
  assert (Hs2 : same_shape (nodes d') (linked (nodes d) (ParentHash child) pn h (newChainNode child))).
  { symmetry. by etrans. }
  split; [done | | | |done].
  - eapply forest_shape; [exact Hs|]. eapply forest_shape; [exact Hshape|]. by apply linked_forest.
  - exists L.1, L.2, n. split_and!; [done | by eapply path_shape | | by rewrite HV' | done | done |].
    + intros x m. rewrite HV'. apply Hfl.
    + intros x m. rewrite HV'. apply Hbest.
  - exists (S k). intros x l Hp. eapply (linked_bounded _ _ _ _ _ _ HF Hfr); [exact Hk|]. by eapply path_shape.
Qed.

(** The first writes of [addValidatedBlock]: the block and its parent's node. *)
Lemma link_parent_spec d child parent h pn :
  nodes d h = None → nodes d (ParentHash child) = Some pn → hash child = Some h →
  cn_Hash pn = Some (ParentHash child) →
  ∃ d1 e d2, putBlock child d = Ret (d1, e) ∧ getChainNode (ParentHash child) d1 = Ok pn ∧
    putChainNode (addChild h pn).1 d1 = Ret (d2, None) ∧
    stored d2 (upd (nodes d) (ParentHash child) (addChild h pn).1) ∧
    same_outside chain_key d d2 ∧ contents d2 !! dagTip = contents d !! dagTip.
Proof.
  intros Hnew Hpn Hh Hhp. destruct (putBlock_spec child d h Hh) as (d1 & e & Hput & Hk1).
  assert (HV1 : stored d1 (nodes d)).
  { intros x. apply nodes_frame, Hk1, nodekey_block. }
  destruct (stored_put (addChild h pn).1 d1 _ (ParentHash child) Hhp HV1) as (d2 & Hput2 & HV2 & Hk2).
  exists d1, e, d2. split_and!; [done| |done|done| |].
  - rewrite <- (HV1 (ParentHash child)) in Hpn. unfold nodes in Hpn.
    destruct (getChainNode (ParentHash child) d1); simpl in Hpn; congruence.
  - trans d1; [eapply put_chain_outside; [|exact Hk1]; left; exists h; by right|].
    eapply put_chain_outside; [|exact Hk2]. left. exists (ParentHash child). by left.
  - rewrite Hk2 by (apply not_eq_sym, nodekey_tip). apply Hk1, not_eq_sym, blockkey_tip.
Qed.

Lemma addValidatedBlock_reject d c child parent h fuel :
  is_Some (c_state c) → hash child = Some h → hash parent = Some (ParentHash child) →
  is_Some (nodes d h) ∨ nodes d (ParentHash child) = None →
  ∃ d' e, addValidatedBlock fuel child parent c d = Ret (d', c, Some e) ∧ (∀ x, nodes d' x = nodes d x) ∧
    contents d' !! dagTip = contents d !! dagTip.
Proof.
  intros Hst Hh Hhp Hcase. unfold addValidatedBlock, block_Hash. rewrite Hh. cbn [deref outcome_bind].
  destruct (getChainNode_nodes h d) as [(n & -> & Hn)|(e & -> & Hn)]; [by eauto|].
  destruct Hcase as [[n' Hn']|Hp]; [congruence|].
  destruct (anyDuplicateTx_ret child (Transactions child) c d Hst) as [[] ->]; cbn [outcome_bind]; [by eauto|].
  destruct (putBlock_spec child d h Hh) as (d1 & e1 & -> & Hk1). cbn [outcome_bind].
  rewrite Hhp. cbn [deref outcome_bind].
  assert (HV1 : stored d1 (nodes d)).
  { intros x. apply nodes_frame, Hk1, nodekey_block. }
  destruct (getChainNode_nodes (ParentHash child) d1) as [(n & -> & Hn1)|(e' & -> & _)].
  - rewrite HV1 in Hn1. congruence.
  - do 2 eexists. split_and!; [done | done | apply Hk1, not_eq_sym, blockkey_tip].
Qed.

(** The stored nodes once the child is linked, whatever flags have moved. *)
Lemma linked_nodes g d child pn h d' V' :
  forest (nodes d) g → nodes d h = None → nodes d (ParentHash child) = Some pn → hash child = Some h →
  stored d' V' → same_but_flags (linked (nodes d) (ParentHash child) pn h (newChainNode child)) V' →
  (∃ n, nodes d' h = Some n ∧ cn_Parent n = ParentHash child ∧
     cn_Weight n = Uint64 (Weight child) ∧ cn_Depth n = Uint64 (Depth child)) ∧
  (nodes d h = None ∧ is_Some (nodes d (ParentHash child))) ∧
  (∀ x, x ≠ h → is_Some (nodes d' x) → is_Some (nodes d x)) ∧
  (∀ x n, nodes d x = Some n → ∃ n', nodes d' x = Some n' ∧ same_header n n').
Proof.
  intros HF Hnew Hpn Hh HV' Hsame. pose proof (fresh_child d child pn h Hnew Hpn Hh) as Hfr.
  pose proof (same_but_flags_shape _ _ Hsame) as Hshape. split_and!; [|done|by eexists| |].
  - destruct (same_shape_some _ _ h (newChainNode child) Hshape (linked_new _ _ _ _ _)) as (nh & Hnh & _ & Hnp & _).
    pose proof (Hsame _ cn_Weight (λ _ _, eq_refl) h) as Hw.
    pose proof (Hsame _ cn_Depth (λ _ _, eq_refl) h) as Hd.
    rewrite linked_new, Hnh in Hw, Hd. injection Hw as Hw. injection Hd as Hd.
    exists nh. rewrite HV'. by split_and!.
  - intros x Hx [m Hm]. rewrite HV' in Hm.
    destruct (linked_weight d V' child pn h Hsame Hpn x m Hm) as [[? _]|(m0 & Hm0 & _)]; [done | by eexists].
  - intros x n Hn. assert (∃ n1, linked (nodes d) (ParentHash child) pn h (newChainNode child) x = Some n1 ∧
      same_header n n1) as (n1 & Hn1 & Hh1).
    { unfold linked, upd. rewrite decide_False by congruence. case_decide as Hx; [|by exists n].
      subst x. assert (n = pn) as -> by congruence. by exists (addChild h pn).1. }
    destruct (same_shape_some _ _ x n1 Hshape Hn1) as (n2 & Hn2 & _).
    exists n2. rewrite HV'. split; [done|]. trans n1; [done|].
    pose proof (λ A f Hf, Hsame A f Hf x) as Hf. rewrite Hn1, Hn2 in Hf.
    pose proof (Hf _ cn_Hash (λ _ _, eq_refl)). pose proof (Hf _ cn_Parent (λ _ _, eq_refl)).
    pose proof (Hf _ cn_Depth (λ _ _, eq_refl)). pose proof (Hf _ cn_Weight (λ _ _, eq_refl)).
    simplify_eq/=. split_and!; congruence.
Qed.

(** The child became the new tip. *)
Lemma adopt_added g d c child pn h d' V' Lp w' :
  chain_inv g d c → nodes d h = None → nodes d (ParentHash child) = Some pn → hash child = Some h →
  better c child → stored d' V' →
  same_but_flags (linked (nodes d) (ParentHash child) pn h (newChainNode child)) V' →
  path (nodes d) g (ParentHash child) Lp → flags V' (Lp ++ [h]) → contents d' !! dagTip = Some (Bytes h) →
  added g h child d c d' (Chain W (Some w') child (Uint64 (Weight child)) (c_genesisNode c) (c_minerId c)).
Proof.
  intros Hinv Hnew Hpn Hh Hbet HV' Hsame Hp Hfl Hdag.
  pose proof Hinv as [Hgen HF (ht & Lold & nt & Htip & _ & _ & _ & _ & _ & Hbest) _ _].
  destruct (linked_nodes g d child pn h d' V' HF Hnew Hpn Hh HV' Hsame) as (Hnode & Hfresh & Honly & Hold).
  pose proof (fresh_child d child pn h Hnew Hpn Hh) as Hfr.
  split; [|by rewrite decide_True|done..].
  eapply (linked_inv_intro g d c child pn h d' V' _ (h, Lp ++ [h])); try done.
  - simpl. eapply path_shape; [by apply same_but_flags_shape|]. by apply linked_new_path.
  - destruct Hnode as (nh & Hnh & _ & Hw & _). exists nh. rewrite <- HV'. by split.
  - intros x m Hm. simpl.
    destruct (linked_weight d V' child pn h Hsame Hpn x m Hm) as [[-> ->]|(m0 & Hm0 & ->)]; [right; lia|].
    specialize (Hbest x m0 Hm0). unfold not_better, better in *.
    rewrite (Numeric_hash _ _ Htip), (Numeric_hash _ _ Hh) in Hbet. simpl. lia.
Qed.

(** The child was linked, and the tip stays. *)
Lemma keep_added g d c child pn h d' :
  chain_inv g d c → nodes d h = None → nodes d (ParentHash child) = Some pn → hash child = Some h →
  ¬ better c child → stored d' (linked (nodes d) (ParentHash child) pn h (newChainNode child)) →
  contents d' !! dagTip = contents d !! dagTip → added g h child d c d' c.
Proof.
  intros Hinv Hnew Hpn Hh Hbet HV' Hdag'.
  pose proof Hinv as [Hgen HF (ht & Lold & nt & Htip & Hpath & Hfl & Hnt & Hwt & Hdag & Hbest) _ Hst].
  assert (Hsame : same_but_flags (linked (nodes d) (ParentHash child) pn h (newChainNode child))
    (linked (nodes d) (ParentHash child) pn h (newChainNode child))) by (by intros A f Hf y).
  destruct (linked_nodes g d child pn h d' _ HF Hnew Hpn Hh HV' Hsame) as (Hnode & Hfresh & Honly & Hold).
  pose proof (fresh_child d child pn h Hnew Hpn Hh) as Hfr.
  assert (Hht : h ≠ ht) by congruence.
  split; [|by rewrite decide_False|done..].
  eapply (linked_inv_intro g d c child pn h d' _ c (ht, Lold)); try done.
  - by eapply linked_path.
  - by eapply linked_flags.
  - simpl. pose proof (linked_old (nodes d) _ _ _ _ Hfr ht nt Hnt) as (n1 & Hn1 & _).
    destruct (linked_weight d _ child pn h Hsame Hpn ht n1 Hn1) as [[? _]|(m0 & Hm0 & Hw0)]; [done|].
    exists n1. split; [done|]. congruence.
  - by rewrite Hdag'.
  - intros x m Hm. simpl. destruct (linked_weight d _ child pn h Hsame Hpn x m Hm) as [[-> ->]|(m0 & Hm0 & ->)].
    + unfold not_better, better in *. rewrite (Numeric_hash _ _ Htip), (Numeric_hash _ _ Hh) in Hbet. lia.
    + by apply Hbest.
Qed.

Lemma addValidatedBlock_spec g d c :
  chain_inv g d c →
  ∃ k, ∀ child parent h fuel,
    hash child = Some h → hash parent = Some (ParentHash child) →
    (better c child → ws_known (W:=W) (STATE (spec child)) d) → (k ≤ fuel)%nat →
    ∃ d' c' err, addValidatedBlock fuel child parent c d = Ret (d', c', err) ∧
      match err with
      | None => added g h child d c d' c'
      | Some _ => c' = c ∧ (∀ x, nodes d' x = nodes d x) ∧ contents d' !! dagTip = contents d !! dagTip
      end.
Proof.
  intros Hinv. pose proof Hinv as [_ HF (ht & Lold & nt & _ & Hpath & Hfl & _) [k Hk] Hst].
  exists k. intros child parent h fuel Hh Hhp Hknown Hfuel.
  destruct (nodes d h) as [nh|] eqn:Hnew.
  { destruct (addValidatedBlock_reject d c child parent h fuel) as (d' & e & Hr & Hs); try done; [left; by eexists|].
    by exists d', c, (Some e). }
  destruct (nodes d (ParentHash child)) as [pn|] eqn:Hpn.
  2: { destruct (addValidatedBlock_reject d c child parent h fuel) as (d' & e & Hr & Hs); try done; [by right|].
    by exists d', c, (Some e). }
  destruct (f_path _ _ HF _ _ Hpn) as [Lp Hp].
  unfold addValidatedBlock, block_Hash. rewrite Hh. cbn [deref outcome_bind].
  destruct (getChainNode_nodes h d) as [(n & _ & Hn)|(e & -> & _)]; [congruence|].
  destruct (anyDuplicateTx_ret child (Transactions child) c d Hst) as [[] ->]; cbn [outcome_bind].
  { by exists d, c, (Some (CoreError ERR_DUPLICATE_TX "duplicate transaction")). }
  destruct (link_parent_spec d child parent h pn Hnew Hpn Hh (f_hash _ _ HF _ _ Hpn))
    as (d1 & e1 & d2 & -> & Hget & Hput2 & HV2 & Hout2 & Hdag2). cbn [outcome_bind].
  rewrite Hhp. cbn [deref outcome_bind]. rewrite Hget, Hput2. cbn [outcome_bind].
  change (c_weight c < cn_Weight (newChainNode child) ∨
    c_weight c = cn_Weight (newChainNode child) ∧ Numeric (c_tip c) > Numeric child) with (better c child).
  destruct (decide (better c child)) as [Hbet|Hbet].
  - destruct (rebalance_spec (nodes d) g (ParentHash child) pn h (newChainNode child) ht Lold Lp fuel)
      as (V' & Hreb & Hsame & Hfl'); try done;
      [specialize (Hk _ _ Hpath); lia|specialize (Hk _ _ Hp); lia|].
    destruct (moveTip_spec fuel child (newChainNode child) (addChild h pn).1 c d2 _ V' h HV2 Hreb)
      as (d' & w' & -> & HV' & Hdag'); try done; [eapply chain_writes_known; [done | by apply Hknown]|].
    do 3 eexists. split; [done|]. by eapply adopt_added.
  - destruct (stored_put (newChainNode child) d2 _ h Hh HV2) as (d3 & -> & HV3 & Hk3). cbn [outcome_bind].
    do 3 eexists. split; [done|]. eapply keep_added; try done.
    by rewrite Hk3, Hdag2 by (apply not_eq_sym, nodekey_tip).
Qed.

(** ** Validation returns *)

Section validation.
Context (g : Byte64) (d : D).
Hypothesis HF : forest (nodes d) g.
(** The genesis block has no stored parent. *)
Hypothesis Hroot : ∀ gn, nodes d g = Some gn → nodes d (cn_Parent gn) = None.

(** A node, if any, with a path of at most [k] nodes *)
Definition within (k : nat) (o : option chainNode) : Prop :=
  match o with
  | None => True
  | Some n => ∃ h l, nodes d h = Some n ∧ path (nodes d) g h l ∧ (length l ≤ k)%nat
  end.

Lemma within_hash k n : within k (Some n) → is_Some (cn_Hash n).
Proof. intros (h & l & Hn & _). exists h. by apply (f_hash _ _ HF h n). Qed.

(** Going to the parent shortens the path. *)
Lemma within_parent k n : within (S k) (Some n) → within k (result_opt (getChainNode (cn_Parent n) d)).
Proof.
  intros (h & l & Hn & Hp & Hk). change (result_opt (getChainNode (cn_Parent n) d)) with (nodes d (cn_Parent n)).
  destruct (path_inv _ _ _ _ Hp) as [[-> ->]|(n' & l' & Hn' & _ & Hp' & ->)]; [by rewrite (Hroot n Hn)|].
  assert (n' = n) as -> by congruence. cbn [n_parent chainNode_ops] in Hp'.
  destruct (nodes d (cn_Parent n)) as [p|] eqn:Ep; [|done].
  exists (cn_Parent n), l'. rewrite length_app in Hk. simpl in Hk. split_and!; [done..|lia].
Qed.

Lemma within_empty n : ¬ within 0 (Some n).
Proof. intros (h & l & _ & Hp & Hk). destruct (path_last _ _ _ _ Hp) as [l' ->]. rewrite length_app in Hk. simpl in Hk. lia. Qed.

Lemma within_weaken k k' o : (k ≤ k')%nat → within k o → within k' o.
Proof. destruct o as [n|]; [|done]. intros Hk (h & l & ? & ? & ?). exists h, l. split_and!; [done..|lia]. Qed.

Lemma climb_ret fuel : ∀ o depth distance, within fuel o →
  ∃ o' distance', climb fuel o depth distance d = Ret (o', distance') ∧ within fuel o'.
Proof.
  induction fuel as [|fuel IH]; intros [n|] depth distance Ho; cbn [climb]; try (by do 2 eexists).
  - by destruct (within_empty n).
  - case_decide; [|by do 2 eexists].
    destruct (IH _ depth (u64 (distance + 1)) (within_parent _ _ Ho)) as (o' & distance' & -> & Ho').
    do 2 eexists. split; [done|]. eapply within_weaken; [|done]. lia.
Qed.

Lemma meet_ret k fuel : ∀ p u distance, within fuel p → within (k + fuel) u →
  ∃ p' u' distance', meet fuel p u distance d = Ret (p', u', distance').
Proof.
  induction fuel as [|fuel IH]; intros [p|] [u|] distance Hp Hu; cbn [meet]; try (by do 3 eexists).
  - by destruct (within_empty p).
  - destruct (within_hash _ _ Hp) as [hp ->]. destruct (within_hash _ _ Hu) as [hu ->]. cbn [deref outcome_bind].
    case_decide; [|by do 3 eexists]. apply IH; [by apply within_parent|].
    apply within_parent. by rewrite <- Nat.add_succ_r.
Qed.

Lemma isUncleValid_ret k fuel child u :
  (∀ x l, path (nodes d) g x l → (length l ≤ k)%nat) → (k ≤ fuel)%nat →
  ∃ r, isUncleValid (W:=W) fuel child u d = Ret r.
Proof.
  intros Hk Hfuel. assert (Hw : ∀ h, within fuel (nodes d h)).
  { intros h. destruct (nodes d h) as [n|] eqn:En; [|done]. destruct (f_path _ _ HF h n En) as [l Hl].
    exists h, l. specialize (Hk _ _ Hl). split_and!; [done..|lia]. }
  unfold isUncleValid. destruct (getChainNode_nodes u d) as [(un & -> & Hun)|(e & -> & _)]; [|by eexists].
  change (result_opt (getChainNode (PHASH (spec child)) d)) with (nodes d (PHASH (spec child))).
  destruct (climb_ret fuel _ (cn_Depth un) 0 (Hw (PHASH (spec child)))) as (p & dist & -> & Hp). cbn [outcome_bind].
  destruct p as [p|]; [|by eexists].
  assert (Hu : within fuel (Some un)) by (rewrite <- Hun; apply Hw).
  destruct (climb_ret fuel _ (cn_Depth p) dist Hu) as (uo & dist' & -> & Hu'). cbn [outcome_bind].
  destruct uo as [uo|]; [|by eexists].
  destruct (within_hash _ _ Hp) as [hp ->]. destruct (within_hash _ _ Hu') as [hu ->]. cbn [deref outcome_bind].
  case_decide; [by eexists|].
  destruct (meet_ret 0 fuel (Some p) (Some uo) dist' Hp Hu') as (p' & u' & dist'' & ->). cbn [outcome_bind].
  destruct p', u'; try (by eexists). case_decide; [|by eexists]. destruct (getBlock (W:=W) u d); by eexists.
Qed.

Lemma validateUncles_ret k fuel us : ∀ weight b,
  (∀ x l, path (nodes d) g x l → (length l ≤ k)%nat) → (k ≤ fuel)%nat →
  ∃ r, validateUncles (W:=W) fuel us weight b d = Ret r.
Proof.
  induction us as [|u us IH]; intros weight b Hk Hfuel; cbn [validateUncles]; [by eexists|].
  destruct (isUncleValid_ret k fuel b u Hk Hfuel) as [[b' []] ->]; cbn [outcome_bind]; [by apply IH | by eexists].
Qed.

Lemma validateBlock_ret k fuel b :
  (∀ x l, path (nodes d) g x l → (length l ≤ k)%nat) → (k ≤ fuel)%nat →
  ∃ b' r, validateBlock fuel b d = Ret (b', r).
Proof.
  intros Hk Hfuel. unfold validateBlock. destruct (getBlock (ParentHash b) d) as [parent|e]; [|by do 2 eexists].
  case_decide; [by do 2 eexists|].
  destruct (validateUncles_ret k fuel (Uncles b) (u64 (Uint64 (Weight parent) + 1)) b Hk Hfuel)
    as [[b' [weight|]] ->]; cbn [outcome_bind]; [|by do 2 eexists].
  case_decide; by do 2 eexists.
Qed.
End validation.

(** ** More fuel changes nothing *)

Lemma walkUp_mono fuel fuel' st p below d :
  (fuel ≤ fuel')%nat → outcome_le (walkUp fuel st p below d) (walkUp fuel' st p below d).
Proof.
  revert fuel' p below d. induction fuel as [|fuel IH]; intros fuel' p below d Hle.
  - destruct p as [p|]; [|by destruct fuel'; right]. destruct fuel' as [|fuel']; cbn;
      destruct (cn_IsMainList p); auto with go; by left.
  - destruct fuel' as [|fuel']; [lia|]. cbn [walkUp].
    apply outcome_le_bind; [auto with go|]. intros q. destruct (cn_IsMainList q); [auto with go|].
    apply outcome_le_bind; [auto with go|]. intros [d1 e]. apply outcome_le_bind; [auto with go|].
    intros hp. apply outcome_le_bind; [auto with go|]. intros d2. apply IH. lia.
Qed.

Lemma walkDown_mono fuel fuel' o d :
  (fuel ≤ fuel')%nat → outcome_le (walkDown fuel o d) (walkDown fuel' o d).
Proof.
  revert fuel' o d. induction fuel as [|fuel IH]; intros fuel' o d Hle.
  - destruct o as [n|]; [by left|]. destruct fuel'; by right.
  - destruct fuel' as [|fuel']; [lia|]. destruct o as [n|]; cbn [walkDown]; [|auto with go].
    apply outcome_le_bind; [auto with go|]. intros [d1 e]. apply outcome_le_bind; [auto with go|].
    intros next. apply IH. lia.
Qed.

Lemma addValidatedBlock_mono fuel fuel' child parent c d :
  (fuel ≤ fuel')%nat →
  outcome_le (addValidatedBlock fuel child parent c d) (addValidatedBlock fuel' child parent c d).
Proof.
  intros Hle. unfold addValidatedBlock. apply outcome_le_bind; [auto with go|]. intros h.
  destruct (getChainNode h d); [auto with go|]. apply outcome_le_bind; [auto with go|].
  intros []; [auto with go|]. apply outcome_le_bind; [auto with go|]. intros [d1 e1].
  apply outcome_le_bind; [auto with go|]. intros hp. destruct (getChainNode hp d1); [|auto with go].
  apply outcome_le_bind; [auto with go|]. intros [d2 e2]. case_decide; [|auto with go].
  unfold moveTip. apply outcome_le_bind; [auto with go|]. intros h'.
  destruct (Put dagTip (Bytes h') d2) as [d3 [e3|]]; [auto with go|].
  apply outcome_le_bind; [auto with go|]. intros w.
  destruct (ws_Rebase w (STATE (spec child)) d3) as [[d4 w4] [e4|]]; [auto with go|].
  apply outcome_le_bind; [auto with go|]. intros [d5 [e5|]]; [auto with go|].
  apply outcome_le_bind; [by apply walkUp_mono|]. intros [[d6 pn] m].
  apply outcome_le_bind; [auto with go|]. intros [d7 e7]. apply outcome_le_bind; [auto with go|].
  intros old. apply outcome_le_bind; [by apply walkDown_mono | auto with go].
Qed.

Lemma climb_mono fuel : ∀ fuel' o depth x d,
  (fuel ≤ fuel')%nat → outcome_le (climb fuel o depth x d) (climb fuel' o depth x d).
Proof.
  induction fuel as [|fuel IH]; intros fuel' o depth x d Hle.
  - destruct fuel', o as [n|]; cbn [climb]; try case_decide; auto with go; by left.
  - destruct fuel' as [|fuel']; [lia|]. destruct o as [n|]; cbn [climb]; [|auto with go].
    case_decide; [|auto with go]. apply IH. lia.
Qed.

Lemma meet_mono fuel : ∀ fuel' p u x d,
  (fuel ≤ fuel')%nat → outcome_le (meet fuel p u x d) (meet fuel' p u x d).
Proof.
  induction fuel as [|fuel IH]; intros fuel' p u x d Hle.
  - destruct fuel', p as [p|], u as [u|]; cbn [meet]; auto with go;
      (apply outcome_le_bind; [auto with go|]; intros hp; apply outcome_le_bind; [auto with go|]; intros hu);
      case_decide; auto with go; by left.
  - destruct fuel' as [|fuel']; [lia|]. destruct p as [p|], u as [u|]; cbn [meet]; [|auto with go..].
    apply outcome_le_bind; [auto with go|]. intros hp. apply outcome_le_bind; [auto with go|]. intros hu.
    case_decide; [|auto with go]. apply IH. lia.
Qed.

Lemma isUncleValid_mono fuel fuel' (b : block W) u d :
  (fuel ≤ fuel')%nat → outcome_le (isUncleValid fuel b u d) (isUncleValid fuel' b u d).
Proof.
  intros Hle. unfold isUncleValid. destruct (getChainNode u d); [|auto with go].
  apply outcome_le_bind; [by apply climb_mono|]. intros [[p|] x]; [|auto with go].
  apply outcome_le_bind; [by apply climb_mono|]. intros [[un|] x']; [|auto with go].
  apply outcome_le_bind; [auto with go|]. intros hp. apply outcome_le_bind; [auto with go|]. intros hu.
  case_decide; [auto with go|]. apply outcome_le_bind; [by apply meet_mono | auto with go].
Qed.

Lemma validateUncles_mono fuel fuel' us : ∀ x (b : block W) d,
  (fuel ≤ fuel')%nat → outcome_le (validateUncles fuel us x b d) (validateUncles fuel' us x b d).
Proof.
  induction us as [|u us IH]; intros x b d Hle; cbn [validateUncles]; [auto with go|].
  apply outcome_le_bind; [by apply isUncleValid_mono|]. intros [b' []]; [by apply IH | auto with go].
Qed.

Lemma validateBlock_mono fuel fuel' (b : block W) d :
  (fuel ≤ fuel')%nat → outcome_le (validateBlock fuel b d) (validateBlock fuel' b d).
Proof.
  intros Hle. unfold validateBlock. destruct (getBlock _ d); [|auto with go]. case_decide; [auto with go|].
  apply outcome_le_bind; [by apply validateUncles_mono | auto with go].
Qed.

Lemma mineCandidateBlock_mono fuel fuel' attempts range (b : block W) c d :
  (fuel ≤ fuel')%nat →
  outcome_le (mineCandidateBlock fuel attempts range b c d) (mineCandidateBlock fuel' attempts range b c d).
Proof.
  intros Hle. unfold mineCandidateBlock. apply outcome_le_bind; [by apply validateBlock_mono|].
  intros [b' [p|e]]; [|auto with go]. apply outcome_le_bind; [auto with go|]. intros [[d1 b1] [h|]]; [|auto with go].
  apply outcome_le_bind; [by apply addValidatedBlock_mono | auto with go].
Qed.

Lemma AcceptNetworkBlock_mono fuel fuel' attempts range (b : block W) c d :
  (fuel ≤ fuel')%nat →
  outcome_le (AcceptNetworkBlock fuel attempts range b c d) (AcceptNetworkBlock fuel' attempts range b c d).
Proof.
  intros Hle. unfold AcceptNetworkBlock. apply outcome_le_bind; [by apply validateBlock_mono|].
  intros [b' [p|e]]; [|auto with go]. apply outcome_le_bind; [auto with go|]. intros [[d1 b1] h].
  apply outcome_le_bind; [auto with go|]. intros w. case_decide; [auto with go|].
  apply outcome_le_bind; [by apply addValidatedBlock_mono | auto with go].
Qed.

(** ** What other calls leave alone *)

Lemma persistLoop_frame sk vars w d d' w' :
  persistLoop sk vars w d = Ret (d', w') → same_chain d d'.
Proof.
  revert sk w d. induction vars as [|[k v] vars IH]; intros sk w d; cbn [persistLoop]; [by intros [= <- _]|].
  assert (Hs : same_chain d (match v with None => ws_Delete w k d | Some v => ws_Update w k v d end).1.1).
  { apply own_same_chain. destruct v; [apply ws_update_frame | apply ws_delete_frame]. }
  destruct (match v with None => _ | Some v => _ end) as [[d1 w1] h]. simpl in Hs.
  case_decide as Hdec; [intros Hrec%IH; by trans d1|].
  destruct sk; [|intros Hrec%IH; by trans d1].
  rewrite outcome_bind_ret. intros ([d2 e] & Hc & Hrec%IH). trans d1; [done|]. trans d2; [|done].
  by eapply own_same_chain, ws_cleanup_frame.
Qed.

(** The fields of a block that hashing does not change. *)
Definition same_fields b b' : Prop :=
  ParentHash b' = ParentHash b ∧ Depth b' = Depth b ∧ Weight b' = Weight b ∧ Uncles b' = Uncles b.

(** [computeHash] does not touch the chain, nor the identity of the block. *)
Lemma computeHash_frame attempts range b d d' b' r :
  computeHash attempts range b d = Ret (d', b', r) →
  same_chain d d' ∧ same_fields b b' ∧ (∀ h, r = Some h → hash b' = Some h) ∧
  (is_Some (worldState b) → is_Some (worldState b')) ∧
  (∀ w', isNetworkBlock b = false → worldState b' = Some w' → STATE (spec b') = ws_Hash w').
Proof.
  unfold computeHash. rewrite outcome_bind_ret. intros ([[d1 b1] st] & Hst & Hrest).
  assert (same_chain d d1 ∧ same_fields b b1 ∧
    (is_Some (worldState b) → is_Some (worldState b1)) ∧
    (∀ w', isNetworkBlock b = false → worldState b1 = Some w' → STATE (spec b1) = ws_Hash w'))
    as (Hs & Hp & Hi & Hw).
  { destruct (worldState b) as [w|] eqn:Ew; [|injection Hst as <- <- _; by rewrite Ew].
    unfold persistState in Hst. rewrite Ew in Hst. cbn [deref outcome_bind] in Hst.
    destruct (persistLoop false (range (variables b)) w d) as [[d2 w2]| |] eqn:Ep; [|done..].
    cbn in Hst. injection Hst as <- <- _. split; [by eapply persistLoop_frame|].
    destruct (isNetworkBlock b); [by eauto|]. split_and!; [done | by eexists | by intros w' _ [= <-]]. }
  destruct (powLoop _ _ _ _ _ _ _ _) as [nonce [h|]]; injection Hrest as <- <- <-;
    (split_and!; [done | done | by intros h' [= <-] | done | done]).
Qed.

Lemma isUncleValid_fields fuel b u d b' v :
  isUncleValid fuel b u d = Ret (b', v) → ∃ m, b' = set_uncleMiners m b.
Proof.
  assert (Hb : b = set_uncleMiners (uncleMiners b) b) by by destruct b.
  unfold isUncleValid. destruct (getChainNode u d) as [un|]; [|intros [= <- _]; eauto].
  rewrite outcome_bind_ret. intros ([[p|] dist] & _ & Hv); [|injection Hv as <- _; eauto].
  apply outcome_bind_ret in Hv as ([[u'|] dist'] & _ & Hv); [|injection Hv as <- _; eauto].
  apply outcome_bind_ret in Hv as (hp & _ & Hv). apply outcome_bind_ret in Hv as (hu & _ & Hv).
  case_decide; [injection Hv as <- _; eauto|].
  apply outcome_bind_ret in Hv as ([[[p'|] [u''|]] dist''] & _ & Hv); try (injection Hv as <- _; by eauto).
  case_decide; [|injection Hv as <- _; by eauto].
  destruct (getBlock u d); injection Hv as <- _; by eauto.
Qed.

Lemma validateUncles_fields fuel us wt b d b' r :
  validateUncles fuel us wt b d = Ret (b', r) → ∃ m, b' = set_uncleMiners m b.
Proof.
  revert b wt. induction us as [|u us IH]; intros b wt; cbn [validateUncles].
  - intros [= <- _]. exists (uncleMiners b). by destruct b.
  - rewrite outcome_bind_ret. intros ([b1 v] & (m & ->)%isUncleValid_fields & Hv). destruct v.
    + apply IH in Hv as (m' & ->). by exists m'.
    + injection Hv as <- _. by exists m.
Qed.

(** [validateBlock] only records the uncles' miners in the block; a parent
    it returns is the stored block with the parent hash. *)
Lemma validateBlock_fields fuel b d b' r :
  validateBlock fuel b d = Ret (b', r) →
  (∃ m, b' = set_uncleMiners m b) ∧
  ∀ parent, r = Ok parent → getBlock (ParentHash b) d = Ok parent ∧ hash parent = Some (ParentHash b).
Proof.
  assert (Hb : b = set_uncleMiners (uncleMiners b) b) by by destruct b.
  unfold validateBlock. destruct (getBlock (ParentHash b) d) as [p|] eqn:Ep; [|intros [= <- <-]; split; [by eauto | done]].
  case_decide; [intros [= <- <-]; split; [by eauto | done]|]. rewrite outcome_bind_ret.
  intros ([b1 wt] & Hb1%validateUncles_fields & Hr).
  destruct wt as [wt|]; [|by injection Hr as <- <-]. case_decide; injection Hr as <- <-; [done|].
  split; [done|]. intros parent [= <-]. split; [done|]. by eapply getBlock_hash.
Qed.

(** The checks on an uncle do not depend on anything but the parent hash. *)
Definition valid_uncle (fuel : nat) (phash u : Byte64) d : Prop :=
  ∀ b, ParentHash b = phash →
    ∃ m, isUncleValid fuel b u d = Ret (set_uncleMiners (uncleMiners b ++ [m]) b, true).

Lemma isUncleValid_true fuel b u d b' :
  isUncleValid fuel b u d = Ret (b', true) → valid_uncle fuel (ParentHash b) u d.
Proof.
  intros Hv b0 Hph. unfold isUncleValid, ParentHash in *. rewrite Hph.
  destruct (getChainNode u d) as [un|]; [|done].
  destruct (climb fuel _ (cn_Depth un) 0 d) as [[[p|] dist]| |]; cbn [outcome_bind] in *; try done.
  destruct (climb fuel (Some un) (cn_Depth p) dist d) as [[[u'|] dist']| |]; cbn [outcome_bind] in *; try done.
  destruct (cn_Hash p) as [hp|]; cbn [deref outcome_bind] in *; [|done].
  destruct (cn_Hash u') as [hu|]; cbn [deref outcome_bind] in *; [|done].
  case_decide; [done|].
  destruct (meet fuel (Some p) (Some u') dist' d) as [[[[p'|] [u''|]] dist'']| |]; cbn [outcome_bind] in *; try done.
  case_decide; [|done]. destruct (getBlock u d) as [ub|]; [|done]. by eexists.
Qed.

Lemma validateUncles_spec fuel us wt b d b' wt' :
  is_u64 wt → validateUncles fuel us wt b d = Ret (b', Some wt') →
  wt' = u64 (wt + Z.of_nat (length us)) ∧ Forall (λ u, valid_uncle fuel (ParentHash b) u d) us ∧
  length (uncleMiners b') = (length (uncleMiners b) + length us)%nat.
Proof.
  revert wt b. induction us as [|u us IH]; intros wt b Hwt; cbn [validateUncles].
  - intros [= <- <-]. rewrite Z.add_0_r, u64_small by done. split_and!; [done | constructor | simpl; lia].
  - rewrite outcome_bind_ret. intros ([b1 v] & Hv & Hr). destruct v; [|done].
    pose proof (isUncleValid_true _ _ _ _ _ Hv) as Hvalid. destruct (Hvalid b eq_refl) as [m Hm].
    rewrite Hm in Hv. injection Hv as <-. apply IH in Hr as (-> & Hall & Hlen); [|apply u64_range].
    split_and!.
    + unfold u64. rewrite Zplus_mod_idemp_l. f_equal. simpl. lia.
    + by constructor.
    + rewrite Hlen. cbn. rewrite length_app. simpl. lia.
Qed.

Lemma validateUncles_all fuel us wt b d :
  is_u64 wt → Forall (λ u, valid_uncle fuel (ParentHash b) u d) us →
  ∃ b', validateUncles fuel us wt b d = Ret (b', Some (u64 (wt + Z.of_nat (length us)))).
Proof.
  intros Hwt Hall. revert wt b Hwt Hall. induction us as [|u us IH]; intros wt b Hwt Hall; cbn [validateUncles].
  - exists b. by rewrite Z.add_0_r, u64_small.
  - inversion_clear Hall as [|? ? Hu Hus]. destruct (Hu b eq_refl) as [m ->]. cbn [outcome_bind].
    destruct (IH (u64 (wt + 1)) (set_uncleMiners (uncleMiners b ++ [m]) b)) as [b' ->]; [apply u64_range | done|].
    exists b'. do 2 f_equal. f_equal. unfold u64. rewrite Zplus_mod_idemp_l. f_equal. simpl. lia.
Qed.

Lemma is_u64_succ x : is_u64 (u64 (Uint64 x + 1)).
Proof. apply u64_range. Qed.

(** What a block that is accepted satisfies. *)
Lemma validateBlock_ok fuel b d b' parent :
  validateBlock fuel b d = Ret (b', Ok parent) →
  hash parent = Some (ParentHash b) ∧
  Uint64 (Depth b) = u64 (Uint64 (Depth parent) + 1) ∧
  Uint64 (Weight b) = u64 (Uint64 (Weight parent) + 1 + Z.of_nat (length (Uncles b))) ∧
  Forall (λ u, valid_uncle fuel (ParentHash b) u d) (Uncles b) ∧
  length (uncleMiners b') = (length (uncleMiners b) + length (Uncles b))%nat ∧
  spec b' = spec b ∧ variables b' = variables b ∧ worldState b' = worldState b.
Proof.
  intros Hval. destruct (validateBlock_fields _ _ _ _ _ Hval) as [[m ->] Hp].
  destruct (Hp parent eq_refl) as [Hget Hhash]. split; [done|].
  unfold validateBlock in Hval. rewrite Hget in Hval. case_decide as Hd; [done|].
  rewrite outcome_bind_ret in Hval. destruct Hval as ([b1 wt] & Hus & Hr).
  destruct wt as [wt|]; [|done]. case_decide as Hw; [done|]. injection Hr as ->.
  apply validateUncles_spec in Hus as (-> & Hall & Hlen); [|apply is_u64_succ].
  split_and!; try done. change (Uint64 (Weight b) = u64 (u64 (Uint64 (Weight parent) + 1) + Z.of_nat (length (Uncles b)))) in Hw.
  rewrite Hw. unfold u64. by rewrite Zplus_mod_idemp_l.
Qed.

(** ** The operations as steps *)

(** Whatever its fuel, a run that returns is the run of [addValidatedBlock_spec]. *)
Lemma addValidatedBlock_returned g fuel child parent c d d' c' err :
  chain_inv g d c → hash parent = Some (ParentHash child) →
  (better c child → ws_known (W:=W) (STATE (spec child)) d) →
  addValidatedBlock fuel child parent c d = Ret (d', c', err) →
  ∃ h, hash child = Some h ∧
    match err with
    | None => added g h child d c d' c'
    | Some _ => c' = c ∧ (∀ x, nodes d' x = nodes d x) ∧ contents d' !! dagTip = contents d !! dagTip
    end.
Proof.
  intros Hinv Hp Hknown Hadd. destruct (hash child) as [h|] eqn:Hh.
  2: { unfold addValidatedBlock, block_Hash in Hadd. by rewrite Hh in Hadd. }
  destruct (addValidatedBlock_spec g d c Hinv) as [k Hspec].
  destruct (Hspec child parent h (Nat.max k fuel) Hh Hp Hknown) as (d1 & c1 & e1 & Hadd1 & Hpost); [lia|].
  apply (outcome_le_ret _ _ _ (addValidatedBlock_mono fuel (Nat.max k fuel) _ _ _ _ ltac:(lia))) in Hadd.
  rewrite Hadd1 in Hadd. injection Hadd as <- <- <-. by exists h.
Qed.

Lemma addValidatedBlock_run g fuel child parent c d d' c' err :
  chain_inv g d c → hash parent = Some (ParentHash child) →
  ws_known (W:=W) (STATE (spec child)) d →
  addValidatedBlock fuel child parent c d = Ret (d', c', err) →
  ∃ h, hash child = Some h ∧
    match err with
    | None => added g h child d c d' c'
    | Some _ => c' = c ∧ (∀ x, nodes d' x = nodes d x) ∧ contents d' !! dagTip = contents d !! dagTip
    end.
Proof. intros Hinv Hp Hknown. by apply addValidatedBlock_returned. Qed.

(** Blocks and world states do not matter to the invariant. *)
Lemma chain_inv_nodes g d d' c :
  (∀ x, nodes d' x = nodes d x) → contents d' !! dagTip = contents d !! dagTip →
  chain_inv g d c → chain_inv g d' c.
Proof.
  intros Hn Hdag [H1 H2 (ht & L & n & Ht & Hpa & Hfl & Hnt & Hw & Htip & Hbest) [kk Hk] H5].
  assert (Hs : same_shape (nodes d) (nodes d')) by (intros x; by rewrite Hn).
  split; [done | by eapply forest_shape | | |done].
  - exists ht, L, n. rewrite Hn, Hdag. split_and!; [done | by eapply path_shape | | done | done | done|].
    + intros x m. rewrite Hn. apply Hfl.
    + intros x m. rewrite Hn. apply Hbest.
  - exists kk. intros x l Hpx. eapply Hk. eapply path_shape; [|done]. by symmetry.
Qed.

Lemma addValidatedBlock_preserves g fuel child parent c d d' c' err :
  chain_inv g d c → hash parent = Some (ParentHash child) →
  ws_known (W:=W) (STATE (spec child)) d →
  addValidatedBlock fuel child parent c d = Ret (d', c', err) → chain_inv g d' c'.
Proof.
  intros Hinv Hp Hknown Hadd.
  destruct (addValidatedBlock_run g _ _ _ _ _ _ _ _ Hinv Hp Hknown Hadd) as (h & _ & Hpost).
  destruct err as [e|]; [|apply Hpost]. destruct Hpost as (-> & Hn & Hdag). by eapply chain_inv_nodes.
Qed.

Lemma computeHash_uncleMiners m attempts range b d :
  computeHash attempts range (set_uncleMiners m b) d =
    let! (d', b', r) := computeHash attempts range b d in Ret (d', set_uncleMiners m b', r).
Proof.
  unfold computeHash, persistState, hashData. cbn. destruct (worldState b) as [w|]; cbn.
  - destruct (persistLoop false (range (variables b)) w d) as [[d1 w1]| |]; cbn; try done.
    destruct (isNetworkBlock b) eqn:En; cbn; rewrite ?En; cbn;
      by destruct (powLoop _ _ _ _ _ _ _ _) as [nonce [h|]].
  - by destruct (powLoop _ _ _ _ _ _ _ _) as [nonce [h|]].
Qed.

(** After [computeHash], the world state of the block can be rebased to, and
    its hash is not the zero bytes, which [serializeBlock] refuses.  No line
    of the code checks it.  For the world state of [Trie] it is proved
    ([trie_persists]); [failed_rebase_leaves_dangling_tip] shows what becomes
    of the chain without it. *)
Definition persists (attempts : nat) (range : ranger) b d : Prop :=
  ∀ d1 b1 r w1, computeHash attempts range b d = Ret (d1, b1, r) →
    worldState b1 = Some w1 → ws_known (W:=W) (ws_Hash w1) d1 ∧ ws_Hash w1 ≠ BytesToByte64 [].

Lemma persists_uncleMiners m attempts range b d :
  persists attempts range b d → persists attempts range (set_uncleMiners m b) d.
Proof.
  intros Hp d1 b1 r w1. rewrite computeHash_uncleMiners, outcome_bind_ret.
  intros ([[d2 b2] r2] & Hc & [= <- <- _]). by apply (Hp d2 b2 r2).
Qed.

(** The calls of the consensus interface, as steps of the database and the
    chain.  A block is mined or accepted only when its world state [persists]:
    runs in which the database does not keep the world state of a hashed block
    are no runs of this relation. *)
Inductive chain_step : D * BlockChainConsensus W → D * BlockChainConsensus W → Prop :=
  | step_candidate now c d d' o :
      NewCandidateBlock now c d = Ret (d', o) → chain_step (d, c) (d', c)
  | step_mine fuel attempts range child w c d d' c' child' r :
      isNetworkBlock child = false → worldState child = Some w → persists attempts range child d →
      mineCandidateBlock fuel attempts range child c d = Ret (d', c', child', r) →
      chain_step (d, c) (d', c')
  | step_decode fuel s c d d' r :
      DecodeNetworkBlockSpec fuel s d = Ret (d', r) → chain_step (d, c) (d', c)
  | step_deserialize fuel data c d d' r :
      DeserializeNetworkBlock fuel data d = Ret (d', r) → chain_step (d, c) (d', c)
  | step_check attempts range b apprvr c d d' b' e :
      CheckNetworkBlockPoW attempts range b apprvr d = Ret (d', b', e) → chain_step (d, c) (d', c)
  | step_accept fuel attempts range b c d d' c' b' e :
      persists attempts range b d →
      AcceptNetworkBlock fuel attempts range b c d = Ret (d', c', b', e) →
      chain_step (d, c) (d', c')
  | step_block h c d d' r : chain_Block h d = Ret (d', r) → chain_step (d, c) (d', c)
  | step_best c d d' o : BestBlock c d = Ret (d', o) → chain_step (d, c) (d', c).

(** Making a world state and rebasing it does not touch the chain. *)
Lemma new_rebase_frame h d d1 w d2 w2 e :
  ws_New d = (d1, Some w) → ws_Rebase w h d1 = (d2, w2, e) → same_chain d d2.
Proof.
  intros Hn Hr. trans d1; apply own_same_chain.
  - rewrite <- (f_equal fst Hn : (ws_New d).1 = d1). apply ws_new_frame.
  - rewrite <- (f_equal (λ x, x.1.1) Hr : (ws_Rebase w h d1).1.1 = d2). apply ws_rebase_frame.
Qed.

Lemma processNetworkBlock_frame fuel b d d' r :
  processNetworkBlock fuel b d = Ret (d', r) → same_chain d d'.
Proof.
  unfold processNetworkBlock. rewrite outcome_bind_ret. intros ([b1 p] & _ & Hr).
  destruct p as [p|]; [|by injection Hr as <- _].
  destruct (ws_New d) as [d1 [w|]] eqn:En; [|done]. cbn [deref outcome_bind] in Hr.
  destruct (ws_Rebase w (STATE (spec p)) d1) as [[d2 w2] e] eqn:Er.
  destruct e; injection Hr as <- _; by eapply new_rebase_frame.
Qed.

Lemma query_steps_frame c d d' :
  (∃ now o, NewCandidateBlock now c d = Ret (d', o)) ∨ (∃ h r, chain_Block h d = Ret (d', r)) ∨
  (∃ o, BestBlock c d = Ret (d', o)) → same_chain d d'.
Proof.
  unfold NewCandidateBlock, chain_Block, BestBlock.
  intros [(now & b & Hr)|[(h & r & Hr)|(b & Hr)]].
  - destruct (ws_New d) as [d1 [w|]] eqn:En; [|done]. cbn [deref outcome_bind] in Hr.
    apply outcome_bind_ret in Hr as (cw & _ & Hr).
    destruct (ws_Rebase w (ws_Hash cw) d1) as [[d2 w2] e] eqn:Er.
    destruct e; [injection Hr as <- _; by eapply new_rebase_frame|].
    apply outcome_bind_ret in Hr as (h & _ & Hr). apply outcome_bind_ret in Hr as (us & _ & Hr).
    apply outcome_bind_ret in Hr as (b' & _ & [= <- _]). by eapply new_rebase_frame.
  - destruct (getBlock h d) as [blk|]; [|by injection Hr as <- _].
    destruct (ws_New d) as [d1 [w|]] eqn:En; [|done]. cbn [deref outcome_bind] in Hr.
    destruct (ws_Rebase w (STATE (spec blk)) d1) as [[d2 w2] e] eqn:Er.
    destruct e; injection Hr as <- _; by eapply new_rebase_frame.
  - destruct (ws_New d) as [d1 [w|]] eqn:En; [|done]. cbn [deref outcome_bind] in Hr.
    apply outcome_bind_ret in Hr as (cw & _ & Hr).
    destruct (ws_Rebase w (ws_Hash cw) d1) as [[d2 w2] e] eqn:Er.
    destruct e; injection Hr as <- _; by eapply new_rebase_frame.
Qed.

(** What is checked of a block before it is added over its parent. *)
Record checked child parent d : Prop := {
  ck_parent : getBlock (ParentHash child) d = Ok parent;
  ck_depth : Uint64 (Depth child) = u64 (Uint64 (Depth parent) + 1);
  ck_weight : Uint64 (Weight child) = u64 (Uint64 (Weight parent) + 1 + Z.of_nat (length (Uncles child)));
  ck_uncles u : u ∈ Uncles child → is_Some (nodes d u);
}.

Lemma validateBlock_checked fuel b d b' parent :
  validateBlock fuel b d = Ret (b', Ok parent) → checked b' parent d.
Proof.
  intros Hval. destruct (validateBlock_fields _ _ _ _ _ Hval) as [[m Hm] Hp].
  destruct (validateBlock_ok _ _ _ _ _ Hval) as (_ & Hd & Hw & Hus & _).
  rewrite Hm. split; [by apply Hp | done..|]. intros u Hu. rewrite Forall_forall in Hus.
  destruct (Hus u (proj1 (list_elem_of_In _ _) Hu) b eq_refl) as [mu Hmu]. unfold isUncleValid in Hmu. unfold nodes.
  by destruct (getChainNode u d); [eexists|].
Qed.

Lemma checked_frame b b1 parent d d1 :
  same_chain d d1 → same_fields b b1 → checked b parent d → checked b1 parent d1.
Proof.
  intros Hs (Hp & Hd & Hw & Hu) [H1 H2 H3 H4]. split; [|congruence..|].
  - rewrite Hp. pose proof (getBlock_same d d1 (ParentHash b) Hs) as Hg. rewrite H1 in Hg.
    simpl in Hg. destruct (getBlock _ d1); simpl in Hg; congruence.
  - intros u. rewrite Hu, (nodes_same d d1 u Hs). apply H4.
Qed.

(** What a call of the consensus interface does to the chain: nothing, or it
    adds a block that was checked and hashed and whose world state is its [STATE]. *)
Inductive chain_effect d c d' c' : Prop :=
  | effect_none : same_chain d d' → c' = c → chain_effect d c d' c'
  | effect_add fuel child parent w d1 err :
      same_chain d d1 → checked child parent d1 → worldState child = Some w →
      ws_Hash w = STATE (spec child) → STATE (spec child) ≠ BytesToByte64 [] →
      ws_known (W:=W) (STATE (spec child)) d1 →
      addValidatedBlock fuel child parent c d1 = Ret (d', c', err) → chain_effect d c d' c'.

Lemma checked_hash child parent d : checked child parent d → hash parent = Some (ParentHash child).
Proof. intros [Hp _ _ _]. by eapply getBlock_hash. Qed.

Lemma chain_effect_preserves g d c d' c' :
  chain_effect d c d' c' → chain_inv g d c → chain_inv g d' c'.
Proof.
  intros [Hs ->|fuel child parent w d1 err Hs Hck _ _ _ Hk Hadd] Hinv; [by eapply chain_inv_same|].
  eapply addValidatedBlock_preserves; [by eapply chain_inv_same | by eapply checked_hash | done | done].
Qed.

(** The part shared by mining and accepting: hash the block, then add it. *)
Lemma hash_then_add fuel attempts range b b1 d d1 r parent c d' c' e w1 :
  computeHash attempts range b d = Ret (d1, b1, r) → checked b parent d →
  worldState b1 = Some w1 → ws_Hash w1 = STATE (spec b1) → persists attempts range b d →
  addValidatedBlock fuel b1 parent c d1 = Ret (d', c', e) → chain_effect d c d' c'.
Proof.
  intros Hc Hck Hw Hst Hper Hadd.
  destruct (computeHash_frame _ _ _ _ _ _ _ Hc) as (Hs & Hf & _ & _).
  destruct (Hper _ _ _ _ Hc Hw) as [Hk Hne]. rewrite Hst in Hk, Hne.
  eapply effect_add; [done | by eapply checked_frame | done..].
Qed.

Lemma mine_effect fuel attempts range child w c d d' c' child' r :
  isNetworkBlock child = false → worldState child = Some w → persists attempts range child d →
  mineCandidateBlock fuel attempts range child c d = Ret (d', c', child', r) → chain_effect d c d' c'.
Proof.
  intros Hnet Hw Hper. unfold mineCandidateBlock. rewrite outcome_bind_ret.
  intros ([b0 p] & Hval & Hr). destruct p as [p|]; [|injection Hr as <- <- _ _; by apply effect_none].
  pose proof (validateBlock_checked _ _ _ _ _ Hval) as Hck.
  destruct (validateBlock_fields _ _ _ _ _ Hval) as [[m ->] _].
  apply outcome_bind_ret in Hr as ([[d1 b1] h] & Hc & Hr).
  destruct (computeHash_frame _ _ _ _ _ _ _ Hc) as (Hs & _ & _ & Hsome & HST).
  destruct h as [h|]; [|injection Hr as <- <- _ _; by apply effect_none].
  apply outcome_bind_ret in Hr as ([[d2 c2] e] & Hadd & Hr).
  assert (∃ w1, worldState b1 = Some w1) as [w1 Hw1].
  { apply Hsome. cbn. rewrite Hw. by eexists. }
  assert (chain_effect d c d2 c2).
  { eapply (hash_then_add fuel attempts range (set_uncleMiners m child) b1); try done.
    - symmetry. by apply HST.
    - by apply persists_uncleMiners. }
  by destruct e; injection Hr as <- <- _ _.
Qed.

Lemma mine_preserves g fuel attempts range child w c d d' c' child' r :
  chain_inv g d c → isNetworkBlock child = false → worldState child = Some w →
  persists attempts range child d →
  mineCandidateBlock fuel attempts range child c d = Ret (d', c', child', r) → chain_inv g d' c'.
Proof. intros Hinv Hnet Hw Hper Hr. eapply chain_effect_preserves; [by eapply mine_effect | done]. Qed.

Lemma accept_effect fuel attempts range b c d d' c' b' e :
  persists attempts range b d →
  AcceptNetworkBlock fuel attempts range b c d = Ret (d', c', b', e) → chain_effect d c d' c'.
Proof.
  intros Hper. unfold AcceptNetworkBlock. rewrite outcome_bind_ret.
  intros ([b0 p] & Hval & Hr). destruct p as [p|]; [|injection Hr as <- <- _ _; by apply effect_none].
  pose proof (validateBlock_checked _ _ _ _ _ Hval) as Hck.
  destruct (validateBlock_fields _ _ _ _ _ Hval) as [[m ->] _].
  apply outcome_bind_ret in Hr as ([[d1 b1] h] & Hc & Hr).
  destruct (computeHash_frame _ _ _ _ _ _ _ Hc) as (Hs & _ & _ & _).
  apply outcome_bind_ret in Hr as (w1 & Hw1 & Hr).
  case_decide as Hst; [injection Hr as <- <- _ _; by apply effect_none|].
  apply outcome_bind_ret in Hr as ([[d2 c2] e2] & Hadd & [= <- <- _ _]).
  eapply (hash_then_add fuel attempts range (set_uncleMiners m b) b1 d d1 h p c d2 c2 e2 w1); try done.
  - destruct (worldState b1); [|done]. by injection Hw1 as ->.
  - by apply persists_uncleMiners.
Qed.

Lemma chain_step_effect s s' : chain_step s s' → chain_effect s.1 s.2 s'.1 s'.2.
Proof.
  destruct 1 as [now c d d' o Hr| |fuel sp c d d' r Hr|fuel data c d d' r Hr|attempts range b f c d d' b' e Hr
    | |h c d d' r Hr|c d d' o Hr]; simpl.
  - apply effect_none; [|done]. apply (query_steps_frame c). eauto.
  - by eapply mine_effect.
  - apply effect_none; [|done]. by eapply processNetworkBlock_frame.
  - apply effect_none; [|done]. unfold DeserializeNetworkBlock in Hr.
    destruct (deSerializeBlock data); [by eapply processNetworkBlock_frame | by injection Hr as <- _].
  - apply effect_none; [|done]. unfold CheckNetworkBlockPoW in Hr.
    destruct (negb _); [by injection Hr as <- _ _|].
    apply outcome_bind_ret in Hr as ([[d1 b1] h] & Hc & Hr).
    destruct (computeHash_frame _ _ _ _ _ _ _ Hc) as (Hs & _). by destruct h; injection Hr as <- _ _.
  - by eapply accept_effect.
  - apply effect_none; [|done]. apply (query_steps_frame c). eauto.
  - apply effect_none; [|done]. apply (query_steps_frame c). eauto.
Qed.

Lemma chain_step_preserves g s s' : chain_step s s' → chain_inv g s.1 s.2 → chain_inv g s'.1 s'.2.
Proof. intros Hstep%chain_step_effect. by apply chain_effect_preserves. Qed.

Lemma chain_steps_preserve g s s' : rtc chain_step s s' → chain_inv g s.1 s.2 → chain_inv g s'.1 s'.2.
Proof. induction 1 as [|s1 s2 s3 H12 _ IH]; [done|]. intros Hinv. by apply IH, (chain_step_preserves g s1). Qed.

(** ** Starting a chain *)

(** A database in which no chain was stored. *)
Definition no_chain d : Prop := ∀ k, chain_key k → contents d !! k = None.

Lemma range_empty range : (∀ m, range m ≡ₚ map_to_list m) → range (∅ : gmap bytes (option bytes)) = [].
Proof. intros Hr. apply Permutation_nil_r. by rewrite (Hr ∅), map_to_list_empty. Qed.

(** The hash of the genesis block with timestamp [ts] over the state [state] *)
Definition genesis_of (miner : bytes) (ts : Z) (state : Byte64) : Byte64 :=
  let s := Spec_ genesisParent miner state [] (Uint64ToByte8 ts) (Uint64ToByte8 (u64 (ts - 0)))
             (Uint64ToByte8 0) (Uint64ToByte8 0) [] (BytesToByte8 []) in
  BytesToByte64 (Bytes (Sum512 (hashData s state ++ Bytes (Uint64ToByte8 (Uint64 (NONCE s)))))).

(** The genesis block is hashed with the first nonce tried. *)
Lemma genesis_hash attempts range now ts miner w d :
  (∀ m, range m ≡ₚ map_to_list m) →
  let b := newBlock now genesisParent 0 0 ts 0 miner (Some w) in
  ∃ h b', computeHash (S attempts) range b d = Ret (d, b', Some h) ∧
    hash b' = Some h ∧ worldState b' = Some w ∧ STATE (spec b') = ws_Hash w ∧ same_fields b b' ∧ (ts ≠ 0 → h = genesis_of miner ts (ws_Hash w)).
Proof.
  intros Hr b. unfold computeHash, persistState. cbn [worldState b newBlock deref outcome_bind variables].
  rewrite range_empty by done. cbn. do 2 eexists. split; [done|]. split_and!; try done.
  intros Hts. rewrite decide_False by done. reflexivity.
Qed.

Lemma nodes_none d h : contents d !! tableKey tableChainNode h = None → nodes d h = None.
Proof.
  intros Hn. apply get_err_iff in Hn as [e He]. unfold nodes, getChainNode. by rewrite He.
Qed.

(** A chain of the genesis block alone. *)
Record genesis_chain (g : Byte64) (ts : Z) (miner : bytes) (w : W) d c : Prop := {
  gc_inv : chain_inv g d c;
  gc_tip : hash (c_tip c) = Some g;
  gc_state : c_state c = Some w ∧ STATE (spec (c_tip c)) = ws_Hash w;
  gc_weight : c_weight c = Uint64 (Weight (c_tip c));
  gc_nodes x : nodes d x = if decide (x = g) then Some (setMainList true (newChainNode (c_tip c))) else None;
  gc_block : ∃ b, getBlock g d = Ok b ∧ spec b = spec (c_tip c);
  gc_fields : Depth (c_tip c) = Uint64ToByte8 0 ∧ Weight (c_tip c) = Uint64ToByte8 0 ∧ Uncles (c_tip c) = [];
  gc_miner : c_minerId c = miner;
  gc_hash : ts ≠ 0 → g = genesis_of (Bytes (BytesToByte64 [])) ts (ws_Hash w);
}.

(** A new chain consists of the genesis block alone. *)
Lemma NewBlockChainConsensus_fresh attempts range now ts miner d d1 w :
  no_chain d → (∀ m, range m ≡ₚ map_to_list m) →
  ws_New d = (d1, Some w) → ws_Hash w ≠ BytesToByte64 [] →
  ∃ d' c g, NewBlockChainConsensus (S attempts) range now ts miner d = Ret (d', Ok c) ∧
    genesis_chain g ts miner w d' c.
Proof.
  intros Hno Hr Hnew Hnz. unfold NewBlockChainConsensus. rewrite Hnew.
  destruct (genesis_hash attempts range now ts (Bytes (BytesToByte64 [])) w d1 Hr)
    as (g & b & -> & Hh & Hw & Hst & (_ & Hdep & Hwt & Hunc) & Hgen). cbn [outcome_bind].
  assert (Hs1 : same_chain d d1).
  { apply own_same_chain. rewrite <- (f_equal fst Hnew : (ws_New d).1 = d1). apply ws_new_frame. }
  assert (Hno1 : no_chain d1) by (intros k Hk; rewrite Hs1; auto).
  destruct (proj2 (get_err_iff dagTip d1) (Hno1 dagTip (or_intror eq_refl))) as [e ->].
  unfold block_Hash. rewrite Hh. cbn [deref outcome_bind]. rewrite put_eq.
  set (d2 := (Put dagTip (Bytes g) d1).1).
  assert (Hk2 : ∀ k, k ≠ dagTip → contents d2 !! k = contents d1 !! k).
  { intros k Hk. unfold d2. by rewrite put_contents, lookup_insert_ne. }
  (* the genesis block can be stored *)
  unfold putBlock, serializeBlock. rewrite Hst, decide_False, Hw by done.
  rewrite bool_decide_eq_false_2 by (by intros []). rewrite Hh.
  destruct (serialize_ok (spec b)) as [data Hdata]. rewrite Hdata. unfold block_Hash. rewrite Hh. cbn [deref outcome_bind].
  rewrite put_eq. set (d3 := (Put (tableKey tableBlock g) data d2).1).
  assert (Hk3 : ∀ k, k ≠ tableKey tableBlock g → contents d3 !! k = contents d2 !! k).
  { intros k Hk. unfold d3. by rewrite put_contents, lookup_insert_ne. }
  set (gn := setMainList true (newChainNode b)).
  destruct (putChainNode_spec gn d3 g Hh) as (d4 & Hput & Hn4 & Hk4). rewrite Hput. cbn [outcome_bind].
  assert (Hn3 : ∀ x, nodes d3 x = None).
  { intros x. apply nodes_none. rewrite Hk3, Hk2 by (apply nodekey_block || apply nodekey_tip).
    apply Hno1. left. exists x. by left. }
  assert (Hg : nodes d4 g = Some gn) by (rewrite Hn4; apply upd_eq).
  assert (Hother : ∀ x, x ≠ g → nodes d4 x = None) by (intros x Hx; by rewrite Hn4, upd_ne).
  do 3 eexists. split; [done|].
  assert (Hone : ∀ x m, nodes d4 x = Some m → x = g ∧ m = gn).
  { intros x m Hm. destruct (decide (x = g)) as [->|Hne]; [split; congruence|]. by rewrite Hother in Hm. }
  split; cbn [c_tip c_state c_weight]; [|done..| | | |done|done].
  - split.
    + exact Hh.
    + by eapply single_forest.
    + exists g, [g], gn. split_and!; [done | constructor | | done | done | |].
      * intros x m Hm. destruct (Hone x m Hm) as [-> ->]. split; [left | done].
      * rewrite Hk4, Hk3 by (apply not_eq_sym; apply nodekey_tip || apply blockkey_tip).
        unfold d2. by rewrite put_contents, lookup_insert_eq.
      * intros x m Hm. destruct (Hone x m Hm) as [-> ->]. right. simpl. split; [done | lia].
    + exists 1%nat. intros x l Hpath. destruct (path_inv _ _ _ _ Hpath) as [[_ ->]|(m & l' & Hm & Hne & _)]; [done|].
      by destruct (Hone x m Hm) as [-> _].
    + by eexists.
  - intros x. case_decide; [by subst x | by apply Hother].
  - unfold getBlock. assert (Get (tableKey tableBlock g) d4 = Ok data) as ->.
    { apply get_ok_iff. rewrite Hk4 by (apply not_eq_sym, nodekey_block). unfold d3. by rewrite put_contents, lookup_insert_eq. }
    unfold deSerializeBlock. rewrite (deserialize_serialize _ _ Hdata). by eexists.
  - by rewrite Hdep, Hwt, Hunc.
Qed.
End chain.
