(* ===== verification/ConsensusTheorems.v ===== *)
(** * Theorems about the block chain

    The properties of [src/consensus/blockChainConsensus.go], proved against
    the interface of the world state, and their witnesses, which run the model
    on a chain over [MptWorldState]. *)

From Stdlib Require Import Strings.Byte.
From S2P Require Import Prelude Bytes Db Trie TrieSpec TrieFacts WorldState Concrete TrieTheorems.
From S2P Require Import WorldStateI Block BlockFacts BlockTheorems MainList Consensus ConsensusFacts.

Section theorems.
Context {D W : Type} {dbo : Database D} {dbl : DatabaseLaws D}.
Context {wso : WorldState W D} {wsl : WorldStateLaws W D} {sep : ChainSeparate W D}.
Context {sha : Sha512} {cdn : Codec chainNode} {cdnl : CodecLaws chainNode}.
Context {cds : Codec BlockSpec} {cdsl : CodecLaws BlockSpec}.
Implicit Types (d : D) (c : BlockChainConsensus W) (b child parent : block W).

(** C3: Starting from a new chain on a database without one, after any sequence of calls of the
    consensus interface that return, in which the world state of every block that is mined or
    accepted is found in the database once the block is hashed and its hash is not all zero, the
    tip is stored and recorded in the database, the chain nodes flagged as main list are exactly
    those on the path from genesis to the tip, every stored node is reachable from genesis, and
    no stored node beats the tip (more weight, or equal weight and a smaller numeric value). *)
Theorem canonical_chain_invariant attempts range now ts miner d d1 w :
  no_chain d → is_range range → ws_New d = (d1, Some w) → ws_Hash w ≠ BytesToByte64 [] →
  ∃ d0 c0 g, NewBlockChainConsensus (S attempts) range now ts miner d = Ret (d0, Ok c0) ∧
    ∀ d' c, rtc chain_step (d0, c0) (d', c) →
      ∃ h L n, hash (c_tip c) = Some h ∧ path (nodes d') g h L ∧ nodes d' h = Some n ∧
        (∀ x m, nodes d' x = Some m →
           (cn_IsMainList m = true ↔ x ∈ L) ∧ (∃ l, path (nodes d') g x l) ∧
           not_better (cn_Weight n) h x (cn_Weight m)) ∧
        contents d' !! dagTip = Some (Bytes h).
Proof.
  intros Hno Hr Hnew Hnz.
  destruct (NewBlockChainConsensus_fresh attempts range now ts miner d d1 w Hno Hr Hnew Hnz)
    as (d0 & c0 & g & Heq & [Hinv _ _ _ _ _ _ _ _]). exists d0, c0, g. split; [done|].
  intros d' c Hrtc. destruct (chain_steps_preserve g _ _ Hrtc Hinv) as [_ HF (h & L & n & Ht & Hp & Hfl & Hn & Hw & Hdag & Hbest) _ _].
  exists h, L, n. split_and!; try done. intros x m Hm. rewrite Hw.
  split_and!; [by apply Hfl | by apply (f_path _ _ HF x m) | by apply Hbest].
Qed.

(** C4: With enough fuel, adding a hashed block whose world state is known always returns:
    either it is rejected and nothing but block storage changes, or the block is a new child of
    its parent, earlier nodes keep their parents, the tip moves exactly when the block is
    heavier or ties with a smaller numeric value, and the chain invariant holds again. *)
Theorem add_block_moves_main_list g d c child parent h :
  chain_inv g d c → hash child = Some h → hash parent = Some (ParentHash child) →
  ws_known (W:=W) (STATE (spec child)) d →
  ∃ k, ∀ fuel, (k ≤ fuel)%nat →
    ∃ d' c' err, addValidatedBlock fuel child parent c d = Ret (d', c', err) ∧
      match err with
      | None => added g h child d c d' c'
      | Some _ => c' = c ∧ ∀ x, nodes d' x = nodes d x
      end.
Proof.
  intros Hinv Hh Hp Hk. destruct (addValidatedBlock_spec g d c Hinv) as [k Hspec].
  exists k. intros fuel Hf. destruct (Hspec child parent h fuel Hh Hp (λ _, Hk) Hf) as (d' & c' & err & Heq & Hpost).
  exists d', c', err. split; [done|]. destruct err; [|done]. by destruct Hpost as (-> & Hn & _).
Qed.

(** C38: When the status of a transaction comes with a block, there is no error and the block
    lies on the path from genesis to the current tip. *)
Theorem transaction_status_on_canonical_chain g d c txId b err :
  chain_inv g d c → TransactionStatus txId c d = Ret (Some b, err) →
  err = None ∧ ∃ h tip L, hash b = Some h ∧ hash (c_tip c) = Some tip ∧
    path (nodes d) g tip L ∧ h ∈ L.
Proof.
  intros [_ _ (tip & L & n & Ht & Hp & Hfl & _) _ _]. unfold TransactionStatus.
  rewrite outcome_bind_ret. intros ([[b' n'] e] & Hs & [= -> <-]). revert Hs.
  unfold transactionStatus. rewrite outcome_bind_ret. intros (w & _ & Hs).
  destruct (ws_HasTransaction w txId d) as [h|]; [|done].
  destruct (getChainNode h d) as [m|] eqn:Em; [|done].
  destruct (cn_IsMainList m) eqn:Emain; [|done]. simpl in Hs.
  destruct (getBlock h d) as [blk|] eqn:Eb; [|done]. injection Hs as <- <- <-.
  split; [done|]. exists h, tip, L. split_and!; [by eapply getBlock_hash | done | done|].
  apply (Hfl h m); [unfold nodes; by rewrite Em | done].
Qed.

(** A block that validateBlock accepts has the stored block with its parent hash as parent, the
    depth of the parent plus one, the weight of the parent plus one plus the number of its
    uncles (modulo 2^64), only valid uncles, and one recorded miner per uncle; nothing else of
    the block changes. *)
Theorem validated_block_weight fuel b d b' parent :
  validateBlock fuel b d = Ret (b', Ok parent) →
  hash parent = Some (ParentHash b) ∧
  Uint64 (Depth b) = u64 (Uint64 (Depth parent) + 1) ∧
  Uint64 (Weight b) = u64 (Uint64 (Weight parent) + 1 + Z.of_nat (length (Uncles b))) ∧
  Forall (λ u, valid_uncle (W:=W) fuel (ParentHash b) u d) (Uncles b) ∧
  length (uncleMiners b') = (length (uncleMiners b) + length (Uncles b))%nat ∧
  spec b' = spec b ∧ variables b' = variables b ∧ worldState b' = worldState b.
Proof. apply validateBlock_ok. Qed.

(** validateBlock accepts one valid uncle listed any number of times, with a weight that counts
    every occurrence. *)
Theorem uncle_counted_repeatedly fuel b b1 u n d parent :
  getBlock (ParentHash b) d = Ok parent →
  Uint64 (Depth b) = u64 (Uint64 (Depth parent) + 1) →
  isUncleValid fuel b u d = Ret (b1, true) →
  Uncles b = replicate n u →
  Uint64 (Weight b) = u64 (Uint64 (Weight parent) + 1 + Z.of_nat n) →
  ∃ b', validateBlock fuel b d = Ret (b', Ok parent).
Proof.
  intros Hget Hd Hu Hus Hw. unfold validateBlock. rewrite Hget, decide_False by auto.
  apply isUncleValid_true in Hu.
  destruct (validateUncles_all fuel (Uncles b) (u64 (Uint64 (Weight parent) + 1)) b d) as [b' Hb'].
  { apply is_u64_succ. } { rewrite Hus. by apply Forall_replicate. }
  rewrite Hb'. cbn [outcome_bind]. destruct (validateUncles_fields _ _ _ _ _ _ _ Hb') as [m ->].
  rewrite decide_False; [by eexists|]. intros Hne. apply Hne. cbn. rewrite Hus, length_replicate.
  unfold u64. rewrite Zplus_mod_idemp_l. done.
Qed.

Lemma addUncles_spec us b b' :
  addUncles us b = Ret b' →
  UNCLEs (spec b') = UNCLEs (spec b) ++ omap uncle_hash us ∧
  length (omap uncle_hash us) = length us ∧
  Uint64 (WT (spec b')) = u64 (Uint64 (WT (spec b)) + Z.of_nat (length us)) ∧
  PHASH (spec b') = PHASH (spec b) ∧ DEPTH (spec b') = DEPTH (spec b) ∧
  DELTA (spec b') = DELTA (spec b) ∧ TS (spec b') = TS (spec b) ∧ worldState b' = worldState b.
Proof.
  revert b. induction us as [|u us IH]; intros b; cbn [addUncles].
  - intros [= <-]. simpl. rewrite app_nil_r, Z.add_0_r, u64_small by apply Uint64_range. done.
  - rewrite outcome_bind_ret. intros (b1 & Hu & Hr). apply IH in Hr as (-> & Hl & -> & -> & -> & -> & -> & ->).
    unfold addUncle in Hu. destruct (uncle_hash u) as [h|] eqn:Eh; [|done]. injection Hu as <-.
    cbn [spec set_uncleMiners set_spec set_UNCLEs_WT UNCLEs WT PHASH DEPTH DELTA TS worldState omap list_omap].
    rewrite Eh. split_and!; try done.
    + by rewrite <- (assoc_L (++)).
    + simpl. by rewrite Hl.
    + rewrite Uint64_Uint64ToByte8, u64_idemp. unfold u64. rewrite Zplus_mod_idemp_l. f_equal. simpl. lia.
Qed.

(** A candidate block is a child of the tip, one deeper, heavier by one plus its number of
    uncles, carries a world state, and its DELTA field is the timestamp of the tip (not the time
    since it). *)
Theorem candidate_block_header now c d d' b :
  NewCandidateBlock now c d = Ret (d', Some b) →
  Some (ParentHash b) = hash (c_tip c) ∧
  Uint64 (Depth b) = u64 (Uint64 (Depth (c_tip c)) + 1) ∧
  Uint64 (Weight b) = u64 (Uint64 (Weight (c_tip c)) + 1 + Z.of_nat (length (Uncles b))) ∧
  is_Some (worldState b) ∧
  (u64 now ≠ 0 → Uint64 (block_Timestamp b) = u64 now ∧
                 Uint64 (Delta b) = Uint64 (block_Timestamp (c_tip c))).
Proof.
  unfold NewCandidateBlock. destruct (ws_New d) as [d1 [w|]]; [|done]. cbn [deref outcome_bind].
  rewrite outcome_bind_ret. intros (cw & _ & Hr).
  destruct (ws_Rebase w (ws_Hash cw) d1) as [[d2 w2] [e|]]; [done|].
  apply outcome_bind_ret in Hr as (h & Hh & Hr). apply outcome_bind_ret in Hr as (us & _ & Hr).
  apply outcome_bind_ret in Hr as (b' & Hadd & [= <- <-]).
  destruct (addUncles_spec _ _ _ Hadd) as (Hus & Hl & Hw & Hp & Hdep & Hdel & Hts & Hws).
  unfold ParentHash, Depth, Weight, Uncles, Delta, block_Timestamp, block_Hash, Tip in *.
  rewrite Hp, Hdep, Hdel, Hts, Hw, Hus, Hws.
  unfold newBlock. cbn [spec PHASH DEPTH DELTA TS WT UNCLEs worldState set_STATE app].
  rewrite !Uint64_Uint64ToByte8, !u64_idemp, Hl. split_and!.
  - destruct (hash (c_tip c)); [by injection Hh as -> | done].
  - done.
  - unfold u64. by rewrite Zplus_mod_idemp_l.
  - by eexists.
  - intros Hne. rewrite decide_False by done. split; [apply u64_idemp|].
    apply u64_sub_sub, Uint64_range.
Qed.

(** AcceptNetworkBlock ignores the result of computeHash: a valid network block without a hash
    whose proof of work is refused makes it dereference a nil hash. *)
Theorem accept_panics_on_failed_pow fuel attempts range b b1 parent c d d1 b2 w :
  validateBlock fuel b d = Ret (b1, Ok parent) → hash b = None →
  computeHash attempts range b1 d = Ret (d1, b2, None) →
  worldState b2 = Some w → ws_Hash w = STATE (spec b2) →
  AcceptNetworkBlock fuel attempts range b c d = Panic.
Proof.
  intros Hval Hh Hc Hw Hst. unfold AcceptNetworkBlock. rewrite Hval. cbn [outcome_bind].
  rewrite Hc. cbn [outcome_bind]. rewrite Hw. cbn [deref outcome_bind].
  rewrite decide_False by auto. unfold addValidatedBlock, block_Hash.
  assert (hash b2 = None) as ->; [|done].
  destruct (validateBlock_fields _ _ _ _ _ Hval) as [[m ->] _].
  revert Hc. unfold computeHash. rewrite outcome_bind_ret. intros ([[d2 b3] st] & H3 & Hr).
  assert (Hh3 : hash b3 = None).
  { cbn in H3. destruct (worldState b) as [w0|]; [|by injection H3 as _ <- _].
    unfold persistState in H3. cbn in H3. destruct (worldState b) as [w1|]; [|done]. cbn in H3.
    destruct (persistLoop false _ w1 d) as [[d3 w3]| |]; [|done..]. cbn in H3.
    destruct (isNetworkBlock b); by injection H3 as _ <- _. }
  destruct (powLoop _ _ _ _ _ _ _ _) as [nonce [h|]]; [done|]. by injection Hr as _ <-.
Qed.

(** A block returned by the Block query has no world state, so looking up any key in it panics. *)
Theorem stored_block_cannot_be_read h d d' b key (d'' : D) :
  chain_Block h d = Ret (d', Ok b) → block_Lookup key b d'' = Panic.
Proof.
  unfold chain_Block. destruct (getBlock h d) as [blk|] eqn:E; [|done].
  destruct (ws_New d) as [d1 [w|]]; [|done]. cbn [deref outcome_bind].
  destruct (ws_Rebase w (STATE (spec blk)) d1) as [[d2 w2] [e|]]; [done|]. intros [= _ <-].
  unfold getBlock in E. destruct (Get _ d); [|done]. unfold deSerializeBlock in E.
  destruct (Deserialize _); [|done]. by injection E as <-.
Qed.

(** The duplicate-transaction check of addValidatedBlock does not depend on the new block: its
    comparison of weights and numeric values is never decisive. *)
Theorem duplicate_tx_check_ignores_weight child child' tx c d :
  duplicateTx child tx c d = duplicateTx child' tx c d.
Proof.
  unfold duplicateTx, transactionStatus. destruct (c_state c) as [w|]; [|done]. cbn [deref outcome_bind].
  destruct (ws_HasTransaction w (Transaction_Id tx) d) as [h|]; [|done].
  destruct (getChainNode h d) as [n|]; [|done].
  destruct (cn_IsMainList n) eqn:E; [|done]. cbn [negb]. destruct (getBlock (W:=W) h d) as [b|]; [|done].
  cbn [outcome_bind]. by rewrite E.
Qed.

(** On a chain in order whose genesis block has no stored parent, validateBlock returns for
    every block, whatever uncles it lists: with fuel for the longest path the two walks of
    isUncleValid neither run out of fuel nor dereference a nil node. *)
Theorem validation_terminates g d c :
  chain_inv g d c → (∀ gn, nodes d g = Some gn → nodes d (cn_Parent gn) = None) →
  ∃ k, ∀ fuel b, (k ≤ fuel)%nat → ∃ b' r, validateBlock fuel b d = Ret (b', r).
Proof.
  intros [_ HF _ [k Hk] _] Hroot. exists k. intros fuel b Hfuel.
  by apply (validateBlock_ret g d HF Hroot k fuel b Hk).
Qed.

(** When the world state of a heavier block cannot be rebased to, addValidatedBlock returns an
    error after the chain tip, in memory and in the database, was moved to the block, whose
    chain node is never stored. *)
Theorem failed_rebase_leaves_dangling_tip g d c child parent h pn w fuel :
  chain_inv g d c → hash child = Some h → hash parent = Some (ParentHash child) →
  nodes d h = None → nodes d (ParentHash child) = Some pn → TXs (spec child) = [] →
  better c child → c_state c = Some w →
  (∀ d1, same_inside ws_own d d1 → is_Some (ws_Rebase w (STATE (spec child)) d1).2) →
  ∃ d' c' e, addValidatedBlock fuel child parent c d = Ret (d', c', Some e) ∧
    c_tip c' = child ∧ contents d' !! dagTip = Some (Bytes h) ∧ nodes d' h = None.
Proof.
  intros Hinv Hh Hhp Hnew Hpn Htx Hbet Hw Hfail. pose proof Hinv as [_ HF _ _ _].
  unfold addValidatedBlock, block_Hash. rewrite Hh. cbn [deref outcome_bind].
  destruct (getChainNode_nodes h d) as [(n & _ & Hn)|(e & -> & _)]; [congruence|].
  unfold Transactions. rewrite Htx. cbn [anyDuplicateTx outcome_bind].
  destruct (link_parent_spec d child parent h pn Hnew Hpn Hh (f_hash _ _ HF _ _ Hpn))
    as (d1 & e1 & d2 & -> & Hget & Hput2 & HV2 & Hout2 & Hdag2). cbn [outcome_bind].
  rewrite Hhp. cbn [deref outcome_bind]. rewrite Hget, Hput2. cbn [outcome_bind].
  rewrite decide_True by exact Hbet. unfold moveTip, block_Hash. rewrite Hh. cbn [deref outcome_bind].
  rewrite put_eq. set (d3 := (Put dagTip (Bytes h) d2).1). cbn [c_state]. rewrite Hw. cbn [deref outcome_bind].
  assert (Hk3 : ∀ k, k ≠ dagTip → contents d3 !! k = contents d2 !! k).
  { intros k Hk. unfold d3. by rewrite put_contents, lookup_insert_ne. }
  destruct (Hfail d3) as [e' He].
  { intros k Hk. assert (Hnc : ¬ chain_key k) by (intros Hc; by apply (chain_foreign k Hc)).
    rewrite Hk3; [by apply Hout2|]. intros ->. apply Hnc. by right. }
  pose proof (own_same_chain _ _ (ws_rebase_frame w (STATE (spec child)) d3)) as Hs4.
  destruct (ws_Rebase w (STATE (spec child)) d3) as [[d4 w4] e4]. simpl in He, Hs4. subst e4.
  do 3 eexists. split; [done|]. split_and!; [done| |].
  - rewrite Hs4 by (by right). unfold d3. by rewrite put_contents, lookup_insert_eq.
  - rewrite (nodes_same d3 d4) by done. rewrite (nodes_frame d2 d3) by (apply Hk3, nodekey_tip).
    rewrite HV2, upd_ne; [done|]. intros <-. congruence.
Qed.
End theorems.

(** ** The chain over [MptWorldState] *)

Section mpt_chain.
Context {D : Type} {dbo : Database D} {dbl : DatabaseLaws D}.
Context {sha : Sha512} {cdc : Codec node} {cdl : CodecLaws node}.

Lemma mpt_chain_separate fuel :
  @ChainSeparate MptWorldState D dbo dbl (mpt_world_state fuel) (mpt_world_state_laws fuel).
Proof.
  intros k [(h & [->| ->])| ->] (h' & Hk); revert Hk;
    intros [Hk|[Hk|[Hk|Hk]]]; try (by apply tableKey_ne in Hk);
    apply (f_equal length) in Hk; unfold stateKey, rootKey, txNodeKey, flatKey, tableKey in Hk;
    rewrite length_app in Hk; unfold Bytes in Hk; by rewrite arr_length in Hk.
Qed.
End mpt_chain.

(** ** Witnesses *)

Section witnesses.
#[local] Existing Instances w_hash w_codec w_laws w_ops w_spec_codec.
#[global] Instance wire_chainNode : Wire chainNode :=
  wire_iso (λ n, (cn_Parent n, cn_Depth n, cn_Weight n, cn_IsMainList n, cn_Children n, cn_Hash n))
    (λ '(p, d, w, m, c, h), ChainNode p d w m c h)
    (λ n, match n with ChainNode _ _ _ _ _ _ => eq_refl end).
Definition w_cn_codec : Codec chainNode := codec_of_wire.
#[local] Existing Instance w_cn_codec.
#[local] Instance w_cn_laws : CodecLaws chainNode := codec_of_wire_laws.
#[local] Instance w_spec_laws : CodecLaws BlockSpec := codec_of_wire_laws.
#[local] Instance w_ws_laws : WorldStateLaws MptWorldState (gmap bytes bytes) := mpt_world_state_laws 1.
#[local] Instance w_separate : ChainSeparate MptWorldState (gmap bytes bytes) := mpt_chain_separate 1.
Abbreviation wdb := (gmap bytes bytes).
Abbreviation wchain := (BlockChainConsensus MptWorldState).

Definition w_dead : block MptWorldState := newBlock 0 null 0 0 1 0 [] None.
Definition w_dead_chain : wchain := Chain MptWorldState None w_dead 0 (newChainNode w_dead) [].

(** A chain that was just started. *)
Definition wc_start : wdb * wchain :=
  match NewBlockChainConsensus 1 w_range 0 5 [x6d] (∅ : wdb) with
  | Ret (d, Ok c) => (d, c)
  | _ => (∅, w_dead_chain)
  end.

Lemma w_no_chain : no_chain (∅ : wdb).
Proof. intros k _. exact (lookup_empty (M:=gmap bytes) (A:=bytes) k). Qed.

Lemma w_new_eq : ws_New (∅ : wdb) = (w_db, Some w_ws).
Proof.
  destruct (NewMptWorldState_refines wb_U ∅ wb_universe (db_ok_empty _)) as (d & ws & Heq & _).
  { apply (U_of_covered wb_trees t_empty) with []; [apply elem_of_app; left; apply trees_head | done]. }
  unfold w_db, w_ws. simpl. by rewrite Heq.
Qed.

Lemma w_state_nonzero : bool_decide (Hash w_ws = BytesToByte64 []) = false.
Proof. vm_compute. reflexivity. Qed.

Lemma wc_start_inv : ∃ g, chain_inv g wc_start.1 wc_start.2.
Proof.
  destruct (NewBlockChainConsensus_fresh (W:=MptWorldState) 0 w_range 0 5 [x6d] ∅ w_db w_ws
    w_no_chain w_range_ok w_new_eq (bool_decide_eq_false_1 _ w_state_nonzero)) as (d & c & g & Heq & [Hinv _ _ _ _ _ _ _ _]).
  exists g. unfold wc_start. by rewrite Heq.
Qed.

Lemma canonical_chain_invariant_witness :
  ∃ d0 (c0 : wchain) g, NewBlockChainConsensus 1 w_range 0 5 [x6d] (∅ : wdb) = Ret (d0, Ok c0) ∧
    ∀ d' c, rtc chain_step (d0, c0) (d', c) → ∃ h L, hash (c_tip c) = Some h ∧ path (nodes d') g h L.
Proof.
  destruct (canonical_chain_invariant (W:=MptWorldState) 0 w_range 0 5 [x6d] ∅ w_db w_ws
    w_no_chain w_range_ok w_new_eq (bool_decide_eq_false_1 _ w_state_nonzero)) as (d0 & c0 & g & Heq & Hall).
  exists d0, c0, g. split; [exact Heq|]. intros d' c Hrtc.
  destruct (Hall d' c Hrtc) as (h & L & n & Hh & Hp & _). exists h, L. split; [exact Hh | exact Hp].
Defined.

(** Deciding that a hash can be rebased to. *)
Definition known_b (h : Byte64) (d : wdb) : bool :=
  match getState h d, getTxRoot h d with Some _, Some _ => true | _, _ => false end.

Lemma known_b_sound h d : known_b h d = true → ws_known (W:=MptWorldState) h d.
Proof.
  unfold known_b, ws_known. simpl. unfold mpt_known.
  destruct (getState h d), (getTxRoot h d); try done.
Qed.

Definition persists_b (attempts : nat) (range : ranger) (b : block MptWorldState) (d : wdb) : bool :=
  match computeHash attempts range b d with
  | Ret (d1, b1, _) => match worldState b1 with
      | Some w1 => known_b (Hash w1) d1 && bool_decide (Hash w1 ≠ BytesToByte64 [])
      | None => true
      end
  | _ => true
  end.

Lemma persists_b_sound attempts range b d :
  persists_b attempts range b d = true → persists attempts range b d.
Proof.
  unfold persists_b. intros Hb d1 b1 r w1 Hc Hw. rewrite Hc, Hw in Hb.
  apply andb_prop in Hb as [Hk Hne%bool_decide_eq_true_1]. split; [by apply known_b_sound | done].
Qed.

(** Candidate blocks of a chain. *)
Definition w_candidate (o : outcome (wdb * option (block MptWorldState))) : wdb * block MptWorldState :=
  match o with Ret (d, Some b) => (d, b) | _ => (∅, w_dead) end.

Lemma w_candidate_eq o :
  match o with Ret (_, Some _) => true | _ => false end = true →
  o = Ret ((w_candidate o).1, Some (w_candidate o).2).
Proof. by destruct o as [[d [b|]]| |]. Qed.

Definition w_tx : Transaction := NewTransaction 4 [x01] [x02] [x03].

(** Two candidates of the new chain, the first with a transaction. *)
Definition wc_c1 : wdb * block MptWorldState :=
  w_candidate (NewCandidateBlock 10 wc_start.2 wc_start.1).
Definition wc_b1 : block MptWorldState :=
  match AddTransaction w_tx (block_Update [x61] [x31] wc_c1.2).1 wc_c1.1 with Ret (b, None) => b | _ => w_dead end.
Definition wc_c2 : wdb * block MptWorldState :=
  w_candidate (NewCandidateBlock 12 wc_start.2 wc_c1.1).
Definition wc_b2 : block MptWorldState := (block_Update [x62] [x32] wc_c2.2).1.

Lemma wc_candidate_some :
  match NewCandidateBlock 10 wc_start.2 wc_start.1 with Ret (_, Some _) => true | _ => false end = true.
Proof. vm_compute. reflexivity. Qed.

Lemma wc_candidate_eq : NewCandidateBlock 10 wc_start.2 wc_start.1 = Ret (wc_c1.1, Some wc_c1.2).
Proof. unfold wc_c1. apply w_candidate_eq. exact wc_candidate_some. Qed.

Lemma wc_candidate_some' :
  match NewCandidateBlock 12 wc_start.2 wc_c1.1 with Ret (_, Some _) => true | _ => false end = true.
Proof. vm_compute. reflexivity. Qed.

Lemma wc_candidate_eq' : NewCandidateBlock 12 wc_start.2 wc_c1.1 = Ret (wc_c2.1, Some wc_c2.2).
Proof. unfold wc_c2. apply w_candidate_eq. exact wc_candidate_some'. Qed.

Lemma candidate_block_header_witness :
  Some (ParentHash wc_c1.2) = hash (c_tip wc_start.2) ∧
  Uint64 (Delta wc_c1.2) = Uint64 (block_Timestamp (c_tip wc_start.2)).
Proof.
  destruct (candidate_block_header 10 wc_start.2 wc_start.1 wc_c1.1 wc_c1.2 wc_candidate_eq)
    as (H1 & _ & _ & _ & H2).
  split; [exact H1 | apply H2; done].
Defined.

(** Mining both candidates: the second one becomes an uncle or takes over. *)
Definition w_mined_state (o : outcome (wdb * wchain * block MptWorldState * result (block MptWorldState)))
    : wdb * wchain * block MptWorldState :=
  match o with Ret (d, c, b, Ok _) => (d, c, b) | _ => (∅, w_dead_chain, w_dead) end.

Definition wc_m1 : wdb * wchain * block MptWorldState :=
  w_mined_state (mineCandidateBlock 10 5 w_range wc_b1 wc_start.2 wc_c2.1).
Definition wc_m2 : wdb * wchain * block MptWorldState :=
  w_mined_state (mineCandidateBlock 10 5 w_range wc_b2 wc_m1.1.2 wc_m1.1.1).

Lemma w_mined_state_eq o :
  match o with Ret (_, _, _, Ok _) => true | _ => false end = true →
  ∃ r, o = Ret ((w_mined_state o).1.1, (w_mined_state o).1.2, (w_mined_state o).2, r).
Proof. destruct o as [[[[d c] b] [r|]]| |]; [by eexists|done..]. Qed.

Lemma wc_m1_ok :
  match mineCandidateBlock 10 5 w_range wc_b1 wc_start.2 wc_c2.1 with
  | Ret (_, _, _, Ok _) => true
  | _ => false
  end = true.
Proof. vm_compute. reflexivity. Qed.

Lemma wc_m1_persists : persists_b 5 w_range wc_b1 wc_c2.1 = true.
Proof. vm_compute. reflexivity. Qed.

(** The invariant along the calls, for any start. *)
Lemma candidates_inv (now nxt : Z) (d d1 d2 : wdb) (c : wchain) (o o2 : option (block MptWorldState)) :
  (∃ g, chain_inv g d c) → NewCandidateBlock now c d = Ret (d1, o) →
  NewCandidateBlock nxt c d1 = Ret (d2, o2) → ∃ g, chain_inv g d2 c.
Proof.
  intros [g Hinv] H1 H2. exists g.
  apply (chain_step_preserves g (d1, c) (d2, c)); [by eapply step_candidate|].
  apply (chain_step_preserves g (d, c) (d1, c)); [by eapply step_candidate | done].
Qed.

Lemma wc_candidates_inv : ∃ g, chain_inv g wc_c2.1 wc_start.2.
Proof. exact (candidates_inv _ _ _ _ _ _ _ _ wc_start_inv wc_candidate_eq wc_candidate_eq'). Qed.

Lemma wc_b1_fields :
  match worldState wc_b1 with Some _ => negb (isNetworkBlock wc_b1) | None => false end = true.
Proof. vm_compute. reflexivity. Qed.

Lemma mined_inv (b b' : block MptWorldState) (d d' : wdb) (c c' : wchain) (r : result (block MptWorldState)) :
  (∃ g, chain_inv g d c) →
  match worldState b with Some _ => negb (isNetworkBlock b) | None => false end = true →
  persists_b 5 w_range b d = true →
  mineCandidateBlock 10 5 w_range b c d = Ret (d', c', b', r) → ∃ g, chain_inv g d' c'.
Proof.
  intros [g Hinv] Hf Hper Hr. exists g. apply persists_b_sound in Hper.
  destruct (worldState b) as [w|] eqn:Ew; [|done]. apply negb_true_iff in Hf.
  by eapply mine_preserves.
Qed.

Lemma wc_m1_eq :
  ∃ r, mineCandidateBlock 10 5 w_range wc_b1 wc_start.2 wc_c2.1 = Ret (wc_m1.1.1, wc_m1.1.2, wc_m1.2, r).
Proof. unfold wc_m1. apply w_mined_state_eq. exact wc_m1_ok. Qed.

Lemma wc_m1_inv : ∃ g, chain_inv g wc_m1.1.1 wc_m1.1.2.
Proof.
  destruct wc_m1_eq as [r Hr].
  apply (mined_inv wc_b1 wc_m1.2 wc_c2.1 wc_m1.1.1 wc_start.2 wc_m1.1.2 r).
  - exact wc_candidates_inv.
  - exact wc_b1_fields.
  - exact wc_m1_persists.
  - exact Hr.
Qed.

Lemma default_some {A} (x : A) (o : option A) :
  match o with Some _ => true | None => false end = true → o = Some (default x o).
Proof. by destruct o. Qed.

Definition w_h1 : Byte64 := default null (hash wc_m1.2).
Lemma w_h1_eq : hash wc_m1.2 = Some w_h1.
Proof. unfold w_h1. apply default_some. vm_compute. reflexivity. Qed.

Definition w_n1 : chainNode := default (newChainNode w_dead) (nodes wc_m1.1.1 w_h1).
Lemma w_n1_eq : nodes wc_m1.1.1 w_h1 = Some w_n1.
Proof. unfold w_n1. apply default_some. vm_compute. reflexivity. Qed.

Definition w_gen : Byte64 := default null (Genesis wc_start.2).

Lemma w_gen_root :
  match nodes wc_start.1 w_gen with
  | Some gn => bool_decide (is_Some (nodes wc_start.1 (cn_Parent gn)))
  | None => false
  end = false.
Proof. vm_compute. reflexivity. Qed.

Lemma root_of (d : wdb) g :
  match nodes d g with Some gn => bool_decide (is_Some (nodes d (cn_Parent gn))) | None => false end = false →
  ∀ gn, nodes d g = Some gn → nodes d (cn_Parent gn) = None.
Proof.
  intros Hb gn Hn. rewrite Hn in Hb. apply bool_decide_eq_false_1 in Hb. by apply eq_None_not_Some.
Qed.

Lemma w_gen_inv : chain_inv w_gen wc_start.1 wc_start.2.
Proof.
  destruct wc_start_inv as [g Hinv]. unfold w_gen. by rewrite (ci_genesis _ _ _ Hinv).
Qed.

Lemma validation_terminates_witness :
  ∃ k, ∀ fuel b, (k ≤ fuel)%nat → ∃ b' r, validateBlock (W:=MptWorldState) fuel b wc_start.1 = Ret (b', r).
Proof.
  apply (validation_terminates w_gen wc_start.1 wc_start.2); [apply w_gen_inv | apply root_of; apply w_gen_root].
Defined.

(** A child of the tip. *)
Definition w_child_of (state : Byte64) : block MptWorldState :=
  set_hash (Some (BytesToByte64 [x09]))
    (set_spec (set_STATE state (spec (newBlock (D:=wdb) 0 w_h1 2 2 20 0 [x6d] None)))
       (newBlock (D:=wdb) 0 w_h1 2 2 20 0 [x6d] None)).
Definition w_child : block MptWorldState := w_child_of (STATE (spec wc_m1.2)).

Lemma w_child_hash state : hash (w_child_of state) = Some (BytesToByte64 [x09]).
Proof. reflexivity. Qed.
Lemma w_child_parent state : hash wc_m1.2 = Some (ParentHash (w_child_of state)).
Proof. rewrite w_h1_eq. reflexivity. Qed.

Lemma w_child_known : known_b (STATE (spec wc_m1.2)) wc_m1.1.1 = true.
Proof. vm_compute. reflexivity. Qed.

Lemma add_block_moves_main_list_witness :
  ∃ g k, ∀ fuel, (k ≤ fuel)%nat →
    ∃ d' c' err, addValidatedBlock fuel w_child wc_m1.2 wc_m1.1.2 wc_m1.1.1 = Ret (d', c', err) ∧
      match err with
      | None => added g (BytesToByte64 [x09]) w_child wc_m1.1.1 wc_m1.1.2 d' c'
      | Some _ => c' = wc_m1.1.2 ∧ ∀ x, nodes d' x = nodes wc_m1.1.1 x
      end.
Proof.
  destruct wc_m1_inv as [g Hinv]. exists g.
  apply (add_block_moves_main_list g wc_m1.1.1 wc_m1.1.2 w_child wc_m1.2 (BytesToByte64 [x09]) Hinv);
    [apply w_child_hash | apply w_child_parent | exact (known_b_sound _ _ w_child_known)].
Defined.

(** A child whose world state is not stored. *)
Definition w_lost : block MptWorldState := w_child_of (BytesToByte64 [x07]).

Lemma w_lost_unknown :
  match getState (BytesToByte64 [x07]) wc_m1.1.1 with Some _ => false | None => true end = true.
Proof. vm_compute. reflexivity. Qed.

Lemma w_lost_state : STATE (spec w_lost) = BytesToByte64 [x07].
Proof. reflexivity. Qed.

Lemma w_lost_new :
  match nodes wc_m1.1.1 (BytesToByte64 [x09]) with Some _ => false | None => true end = true.
Proof. vm_compute. reflexivity. Qed.

Lemma w_lost_better : bool_decide (better wc_m1.1.2 w_lost) = true.
Proof. vm_compute. reflexivity. Qed.

Lemma w_m1_state : match c_state wc_m1.1.2 with Some _ => true | None => false end = true.
Proof. vm_compute. reflexivity. Qed.

Lemma unknown_rebase_fails (w : MptWorldState) (h : Byte64) (d d1 : wdb) :
  match getState h d with Some _ => false | None => true end = true →
  same_inside (ws_own (W:=MptWorldState)) d d1 → is_Some (ws_Rebase w h d1).2.
Proof.
  intros Hn Hs. assert (Hd1 : getState h d1 = None).
  { unfold getState. rewrite (getNode_contents _ d1 d); [unfold getState in Hn; by destruct (getNode _ d)|].
    apply Hs, mpt_key_state. }
  destruct (Rebase_unknown w h d1) as [msg Hr]; [by left|]. simpl. rewrite Hr. by eexists.
Qed.

Lemma none_of {A} (o : option A) : match o with Some _ => false | None => true end = true → o = None.
Proof. by destruct o. Qed.

Lemma failed_rebase_leaves_dangling_tip_witness :
  ∃ d' c' e, addValidatedBlock 5 w_lost wc_m1.2 wc_m1.1.2 wc_m1.1.1 = Ret (d', c', Some e) ∧
    c_tip c' = w_lost ∧ contents d' !! dagTip = Some (Bytes (BytesToByte64 [x09])) ∧
    nodes d' (BytesToByte64 [x09]) = None.
Proof.
  destruct wc_m1_inv as [g Hinv].
  apply (failed_rebase_leaves_dangling_tip g wc_m1.1.1 wc_m1.1.2 w_lost wc_m1.2 (BytesToByte64 [x09]) w_n1
    (default w_ws (c_state wc_m1.1.2)) 5 Hinv);
    [apply w_child_hash | apply w_child_parent | apply none_of; exact w_lost_new | exact w_n1_eq | reflexivity
    | apply (bool_decide_eq_true_1 (better wc_m1.1.2 w_lost)); exact w_lost_better | apply default_some; exact w_m1_state
    | intros d1; rewrite w_lost_state; apply (unknown_rebase_fails _ (BytesToByte64 [x07]) wc_m1.1.1 d1); exact w_lost_unknown].
Defined.

(** The transaction of the first block is found on the canonical chain. *)
Definition w_status : option (block MptWorldState) * option error :=
  match TransactionStatus (Transaction_Id w_tx) wc_m1.1.2 wc_m1.1.1 with Ret r => r | _ => (None, None) end.

Lemma w_status_some :
  match TransactionStatus (Transaction_Id w_tx) wc_m1.1.2 wc_m1.1.1 with Ret (Some _, _) => true | _ => false end = true.
Proof. vm_compute. reflexivity. Qed.

Lemma w_status_eq :
  ∃ b err, TransactionStatus (Transaction_Id w_tx) wc_m1.1.2 wc_m1.1.1 = Ret (Some b, err).
Proof.
  pose proof w_status_some as H. revert H.
  generalize (TransactionStatus (Transaction_Id w_tx) wc_m1.1.2 wc_m1.1.1) as o.
  intros [[[b|] err]| |]; try done. intros _. by exists b, err.
Qed.

Lemma transaction_status_on_canonical_chain_witness :
  ∃ g b h tip L, hash b = Some h ∧ hash (c_tip wc_m1.1.2) = Some tip ∧
    path (nodes wc_m1.1.1) g tip L ∧ h ∈ L ∧ TransactionStatus (Transaction_Id w_tx) wc_m1.1.2 wc_m1.1.1 = Ret (Some b, None).
Proof.
  destruct wc_m1_inv as [g Hinv]. destruct w_status_eq as (b & err & Heq).
  destruct (transaction_status_on_canonical_chain g _ _ _ b err Hinv Heq) as (Herr & h & tip & L & H1 & H2 & H3 & H4).
  exists g, b, h, tip, L. split; [exact H1|]. split; [exact H2|]. split; [exact H3|]. split; [exact H4|].
  rewrite <- Herr. exact Heq.
Defined.

(** A block that names the second mined block as its uncle, twice. *)
Definition w_u : Byte64 := default null (hash wc_m2.2).
Definition wc_b3 : block MptWorldState :=
  set_spec (set_UNCLEs_WT [w_u; w_u] (Uint64ToByte8 4) (spec (newBlock (D:=wdb) 0 w_h1 2 2 20 0 [x6d] None)))
    (newBlock (D:=wdb) 0 w_h1 2 2 20 0 [x6d] None).

Definition wc_parent : block MptWorldState :=
  match getBlock (ParentHash wc_b3) wc_m2.1.1 with Ok b => b | Err _ => w_dead end.

Lemma wc_parent_ok :
  match getBlock (W:=MptWorldState) (ParentHash wc_b3) wc_m2.1.1 with Ok _ => true | Err _ => false end = true.
Proof. vm_compute. reflexivity. Qed.

Lemma result_eq {A} (x : A) (r : result A) :
  match r with Ok _ => true | Err _ => false end = true → r = Ok (match r with Ok a => a | Err _ => x end).
Proof. by destruct r. Qed.

Lemma wc_parent_eq : getBlock (ParentHash wc_b3) wc_m2.1.1 = Ok wc_parent.
Proof. unfold wc_parent. apply result_eq. exact wc_parent_ok. Qed.

Definition wc_uncle_block : block MptWorldState :=
  match isUncleValid 5 wc_b3 w_u wc_m2.1.1 with Ret (b, _) => b | _ => w_dead end.

Lemma wc_uncle_ok :
  match isUncleValid 5 wc_b3 w_u wc_m2.1.1 with Ret (_, v) => v | _ => false end = true.
Proof. vm_compute. reflexivity. Qed.

Lemma wc_uncle_eq : isUncleValid 5 wc_b3 w_u wc_m2.1.1 = Ret (wc_uncle_block, true).
Proof.
  pose proof wc_uncle_ok as H. unfold wc_uncle_block. revert H.
  generalize (isUncleValid 5 wc_b3 w_u wc_m2.1.1) as o. by intros [[b []]| |].
Qed.

Lemma wc_b3_numbers :
  bool_decide (Uint64 (Depth wc_b3) = u64 (Uint64 (Depth wc_parent) + 1)) &&
  bool_decide (Uint64 (Weight wc_b3) = u64 (Uint64 (Weight wc_parent) + 1 + Z.of_nat 2)) = true.
Proof. vm_compute. reflexivity. Qed.

Lemma wc_b3_uncles : Uncles wc_b3 = replicate 2 w_u.
Proof. reflexivity. Qed.

Lemma uncle_counted_repeatedly_witness :
  ∃ b', validateBlock 5 wc_b3 wc_m2.1.1 = Ret (b', Ok wc_parent).
Proof.
  pose proof wc_b3_numbers as Hn. apply andb_prop in Hn. destruct Hn as [Hd Hw].
  apply bool_decide_eq_true_1 in Hd. apply bool_decide_eq_true_1 in Hw.
  exact (uncle_counted_repeatedly 5 wc_b3 wc_uncle_block w_u 2 wc_m2.1.1 wc_parent
    wc_parent_eq Hd wc_uncle_eq wc_b3_uncles Hw).
Defined.

Lemma wc_b3_validates :
  match validateBlock 5 wc_b3 wc_m2.1.1 with Ret (_, Ok _) => true | _ => false end = true.
Proof. vm_compute. reflexivity. Qed.

Lemma validated_eq (o : outcome (block MptWorldState * result (block MptWorldState))) :
  match o with Ret (_, Ok _) => true | _ => false end = true → ∃ b p, o = Ret (b, Ok p).
Proof. destruct o as [[b [p|]]| |]; [|done..]. by exists b, p. Qed.

Lemma validated_block_weight_witness :
  ∃ parent : block MptWorldState,
    Uint64 (Weight wc_b3) = u64 (Uint64 (Weight parent) + 1 + Z.of_nat (length (Uncles wc_b3))).
Proof.
  assert (∃ b p, validateBlock 5 wc_b3 wc_m2.1.1 = Ret (b, Ok p)) as (b & p & Hval)
    by (apply validated_eq; exact wc_b3_validates).
  destruct (validated_block_weight 5 wc_b3 wc_m2.1.1 b p Hval) as (_ & _ & H & _).
  exists p. exact H.
Defined.

(** A network block whose proof of work is refused. *)
Definition w_bad : block MptWorldState :=
  set_pow (Some (λ _ _ _, false)) (set_isNetworkBlock true wc_c2.2).

Lemma w_bad_validates :
  match validateBlock 5 w_bad wc_c2.1 with Ret (_, Ok _) => true | _ => false end = true.
Proof. vm_compute. reflexivity. Qed.

Lemma w_bad_unhashed :
  match hash w_bad with Some _ => false | None => true end = true.
Proof. vm_compute. reflexivity. Qed.

Lemma w_bad_refused :
  match validateBlock 5 w_bad wc_c2.1 with
  | Ret (b, _) =>
      match computeHash 3 w_range b wc_c2.1 with
      | Ret (_, b2, None) =>
          match worldState b2 with Some w => bool_decide (Hash w = STATE (spec b2)) | None => false end
      | _ => false
      end
  | _ => false
  end = true.
Proof. vm_compute. reflexivity. Qed.

Lemma refused_eq (b b1 : block MptWorldState) (d : wdb) p :
  validateBlock 5 b d = Ret (b1, p) →
  match validateBlock 5 b d with
  | Ret (b, _) =>
      match computeHash 3 w_range b d with
      | Ret (_, b2, None) =>
          match worldState b2 with Some w => bool_decide (Hash w = STATE (spec b2)) | None => false end
      | _ => false
      end
  | _ => false
  end = true →
  ∃ d1 b2 w, computeHash 3 w_range b1 d = Ret (d1, b2, None) ∧ worldState b2 = Some w ∧
    ws_Hash (D:=wdb) w = STATE (spec b2).
Proof.
  intros ->. destruct (computeHash 3 w_range b1 d) as [[[d1 b2] [h|]]| |]; try done.
  destruct (worldState b2) as [w|] eqn:E; [|done]. intros H%bool_decide_eq_true. by exists d1, b2, w.
Qed.

Lemma accept_panics_on_failed_pow_witness :
  AcceptNetworkBlock 5 3 w_range w_bad wc_start.2 wc_c2.1 = Panic.
Proof.
  assert (∃ b p, validateBlock 5 w_bad wc_c2.1 = Ret (b, Ok p)) as (b1 & p & Hval)
    by (apply validated_eq; exact w_bad_validates).
  assert (∃ d1 b2 w, computeHash 3 w_range b1 wc_c2.1 = Ret (d1, b2, None) ∧ worldState b2 = Some w ∧
    ws_Hash (D:=wdb) w = STATE (spec b2)) as (d1 & b2 & w & Hc & Hw & Hst)
    by (apply (refused_eq w_bad b1 wc_c2.1 (Ok p) Hval); exact w_bad_refused).
  assert (Hh : hash w_bad = None) by (apply none_of; exact w_bad_unhashed).
  exact (accept_panics_on_failed_pow 5 3 w_range w_bad b1 p wc_start.2 wc_c2.1 d1 b2 w Hval Hh Hc Hw Hst).
Defined.

Lemma wc_stored_ok :
  match chain_Block (W:=MptWorldState) w_h1 wc_m1.1.1 with Ret (_, Ok _) => true | _ => false end = true.
Proof. vm_compute. reflexivity. Qed.

Lemma stored_eq (o : outcome (wdb * result (block MptWorldState))) :
  match o with Ret (_, Ok _) => true | _ => false end = true → ∃ d b, o = Ret (d, Ok b).
Proof. destruct o as [[d [b|]]| |]; [|done..]. by exists d, b. Qed.

Lemma stored_block_cannot_be_read_witness :
  ∃ b : block MptWorldState, block_Lookup [x61] b wc_m1.1.1 = Panic.
Proof.
  assert (∃ d b, chain_Block (W:=MptWorldState) w_h1 wc_m1.1.1 = Ret (d, Ok b)) as (d' & b & Hb)
    by (apply stored_eq; exact wc_stored_ok).
  exists b.
  exact (stored_block_cannot_be_read w_h1 wc_m1.1.1 d' b [x61] wc_m1.1.1 Hb).
Defined.
End witnesses.
