(* ===== verification/HistoryFacts.v ===== *)
(** * What the database keeps of a block chain

    Adding blocks only adds to what is stored: a block and the header of its
    chain node never change.  The tip in memory is the one in the database, so
    that [NewBlockChainConsensus] over the database finds it again. *)

From Stdlib Require Import Strings.Byte.
From S2P Require Import Prelude Bytes Db Trie TrieFacts WorldState WorldStateI Block MainList Consensus ConsensusFacts.

Section history.
Context {D W : Type} {dbo : Database D} {dbl : DatabaseLaws D}.
Context {wso : WorldState W D} {wsl : WorldStateLaws W D} {sep : ChainSeparate W D}.
Context {sha : Sha512} {cdn : Codec chainNode} {cdnl : CodecLaws chainNode}.
Context {cds : Codec BlockSpec} {cdsl : CodecLaws BlockSpec}.
Implicit Types (d : D) (c : BlockChainConsensus W) (b child parent : block W) (n : chainNode).

(** ** What is written where *)

(** The databases hold the same blocks. *)
Definition same_blocks d d' : Prop :=
  ∀ x, contents d' !! tableKey tableBlock x = contents d !! tableKey tableBlock x.

#[global] Instance same_blocks_preorder : PreOrder same_blocks.
Proof. split; [by intros d x|]. intros d1 d2 d3 H1 H2 x. by rewrite H2. Qed.

Lemma same_rest_blocks d d' : same_rest d d' → same_blocks d d'.
Proof.
  intros Hs x. apply Hs; [left; exists x; by right|]. intros h Heq. by apply (nodekey_block h x).
Qed.

Lemma same_chain_blocks d d' : same_inside chain_key d d' → same_blocks d d'.
Proof. intros Hs. by apply same_rest_blocks, same_chain_rest. Qed.

Lemma getBlock_contents d d' x b :
  contents d' !! tableKey tableBlock x = contents d !! tableKey tableBlock x →
  getBlock (W:=W) x d = Ok b → getBlock x d' = Ok b.
Proof. intros Hs%get_same. unfold getBlock. by destruct (Get _ d'), (Get _ d); simplify_eq/=. Qed.

Lemma putChainNode_rest n d d' e : putChainNode n d = Ret (d', e) → same_rest d d'.
Proof.
  unfold putChainNode. destruct (Serialize n) as [data|]; [|by intros [= <- _]].
  rewrite outcome_bind_ret. intros (h & _ & Hp). rewrite put_eq in Hp. injection Hp as <- _.
  intros k _ Hk. rewrite put_contents, lookup_insert_ne; [done|]. by apply not_eq_sym.
Qed.

Lemma putChainNode_outside n d d' e : putChainNode n d = Ret (d', e) → same_outside chain_key d d'.
Proof.
  unfold putChainNode. destruct (Serialize n) as [data|]; [|by intros [= <- _]].
  rewrite outcome_bind_ret. intros (h & _ & Hp). rewrite put_eq in Hp. injection Hp as <- _.
  intros k Hk. rewrite put_contents, lookup_insert_ne; [done|]. intros <-. apply Hk. left. exists h. by left.
Qed.

Lemma registerTransactions_rest b d d' e : registerTransactions b d = Ret (d', e) → same_rest d d'.
Proof.
  intros Hr. apply same_chain_rest. revert Hr. unfold registerTransactions.
  destruct (worldState b) as [w|]; [|by intros [= <- _]].
  generalize (TXs (spec b)) as txs. intros txs. revert d. induction txs as [|tx txs IH]; intros d;
    cbn [registerLoop]; [by intros [= <- _]|].
  rewrite outcome_bind_ret. intros (h & _ & Hr).
  pose proof (own_same_chain _ _ (ws_register_frame w (Transaction_Id tx) h d)) as Hs.
  destruct (ws_RegisterTransaction w (Transaction_Id tx) h d) as [d1 [e1|]]; [by injection Hr as <- _|].
  trans d1; [done | by apply IH].
Qed.

Lemma walkUp_rest fuel st p below d d' a m :
  walkUp fuel st p below d = Ret (d', a, m) → same_rest d d'.
Proof.
  revert p below d. induction fuel as [|fuel IH]; intros p below d; cbn [walkUp];
    rewrite outcome_bind_ret; intros (q & _ & Hr);
    destruct (cn_IsMainList q); try done; try (by injection Hr as <- _ _).
  apply outcome_bind_ret in Hr as ([d1 e1] & H1%putChainNode_rest & Hr).
  apply outcome_bind_ret in Hr as (h & _ & Hr). apply outcome_bind_ret in Hr as (d2 & H2 & Hr%IH).
  trans d1; [done|]. trans d2; [|done]. destruct (getBlock h d1) as [b|]; [|by injection H2 as <-].
  apply outcome_bind_ret in H2 as ([d3 e3] & H3%registerTransactions_rest & [= <-]). done.
Qed.

Lemma walkDown_rest fuel o d d' : walkDown fuel o d = Ret d' → same_rest d d'.
Proof.
  revert o d. induction fuel as [|fuel IH]; intros [n|] d; cbn [walkDown]; try done; try (by intros [= <-]).
  rewrite outcome_bind_ret. intros ([d1 e1] & H1%putChainNode_rest & Hr).
  apply outcome_bind_ret in Hr as (next & _ & Hr%IH). by trans d1.
Qed.

Lemma put_dagTip_blocks d v : same_blocks d (Put dagTip v d).1.
Proof. intros x. rewrite put_contents, lookup_insert_ne; [done|]. apply not_eq_sym, blockkey_tip. Qed.

(** What [moveTip] leaves in the chain object, and that it stores no block. *)
Lemma moveTip_fields fuel child cn pn c d d' c' e :
  moveTip fuel child cn pn c d = Ret (d', c', e) → ws_known (W:=W) (STATE (spec child)) d →
  same_blocks d d' ∧ ∃ w, c' = Chain W (Some w) child (cn_Weight cn) (c_genesisNode c) (c_minerId c) ∧
    ws_Hash w = STATE (spec child).
Proof.
  unfold moveTip. rewrite outcome_bind_ret. intros (h & _ & Hr) Hknown. rewrite put_eq in Hr.
  pose proof (put_dagTip_blocks d (Bytes h)) as Hs1.
  assert (Hk1 : ws_known (W:=W) (STATE (spec child)) (Put dagTip (Bytes h) d).1).
  { eapply chain_writes_known; [|done]. apply (put_chain_outside _ _ dagTip); [by right|].
    intros k Hk. by rewrite put_contents, lookup_insert_ne. }
  set (d1 := (Put dagTip (Bytes h) d).1) in *. clearbody d1. cbn [c_state c_tip c_weight c_genesisNode c_minerId] in Hr.
  apply outcome_bind_ret in Hr as (w & _ & Hr).
  pose proof (same_chain_blocks _ _ (own_same_chain _ _ (ws_rebase_frame w (STATE (spec child)) d1))) as Hs2.
  destruct (ws_rebase_known w (STATE (spec child)) d1 Hk1) as [Hok Hw].
  destruct (ws_Rebase w (STATE (spec child)) d1) as [[d2 w2] e2]. simpl in Hok, Hw, Hs2. subst e2.
  apply outcome_bind_ret in Hr as ([d3 e3] & H3%registerTransactions_rest%same_rest_blocks & Hr).
  assert (Hs3 : same_blocks d d3) by (trans d1; [done|]; by trans d2).
  destruct e3; [injection Hr as <- <- _; split; [done|]; by exists w2|].
  apply outcome_bind_ret in Hr as ([[d4 p4] m4] & H4%walkUp_rest%same_rest_blocks & Hr).
  apply outcome_bind_ret in Hr as ([d5 e5] & H5%putChainNode_rest%same_rest_blocks & Hr).
  apply outcome_bind_ret in Hr as (old & _ & Hr).
  apply outcome_bind_ret in Hr as (d6 & H6%walkDown_rest%same_rest_blocks & [= <- <- _]).
  split; [|by exists w2]. trans d3; [done|]. trans d4; [done|]. by trans d5.
Qed.

(** What [addValidatedBlock] stores and what it makes of the chain object. *)
Lemma addValidatedBlock_fields fuel child parent c d d' c' err h :
  addValidatedBlock fuel child parent c d = Ret (d', c', err) → hash child = Some h →
  ws_known (W:=W) (STATE (spec child)) d →
  (∀ x, is_Some (nodes d x) → contents d' !! tableKey tableBlock x = contents d !! tableKey tableBlock x) ∧
  (err = None →
   (c' = c ∨ ∃ w, c' = Chain W (Some w) child (Uint64 (Weight child)) (c_genesisNode c) (c_minerId c) ∧
      ws_Hash w = STATE (spec child)) ∧
   ∃ d1 e1, putBlock child d = Ret (d1, e1) ∧ same_blocks d1 d').
Proof.
  unfold addValidatedBlock, block_Hash. intros Hr Hh Hknown. rewrite Hh in Hr. cbn [deref outcome_bind] in Hr.
  destruct (getChainNode_nodes h d) as [(n & Hg & Hn)|(e & Hg & Hn)]; rewrite Hg in Hr.
  { injection Hr as <- _ <-. by split. }
  apply outcome_bind_ret in Hr as (dup & _ & Hr).
  destruct dup; [injection Hr as <- _ <-; by split|].
  destruct (putBlock_spec child d h Hh) as (d1 & e1 & Hput & Hk1). rewrite Hput in Hr. cbn [outcome_bind] in Hr.
  assert (Hold : ∀ d2, same_blocks d1 d2 → ∀ x, is_Some (nodes d x) →
    contents d2 !! tableKey tableBlock x = contents d !! tableKey tableBlock x).
  { intros d2 Hs x [m Hm]. rewrite Hs. apply Hk1. intros ->%(inj _). congruence. }
  apply outcome_bind_ret in Hr as (hp & _ & Hr).
  destruct (getChainNode hp d1) as [pn|]; [|injection Hr as <- _ <-; split; [by apply Hold | done]].
  apply outcome_bind_ret in Hr as ([d2 e2] & H2 & Hr).
  pose proof (same_rest_blocks _ _ (putChainNode_rest _ _ _ _ H2)) as Hs2.
  case_decide.
  - destruct (moveTip_fields _ _ _ _ _ _ _ _ _ Hr) as (Hs & Hc).
    { eapply chain_writes_known; [|done]. trans d1; [|by eapply putChainNode_outside].
      apply (put_chain_outside _ _ (tableKey tableBlock h)); [|done]. left. exists h. by right. }
    assert (same_blocks d1 d') by by trans d2. split; [by apply Hold|]. intros _. split; [by right|]. eauto.
  - apply outcome_bind_ret in Hr as ([d3 e3] & H3%putChainNode_rest%same_rest_blocks & [= <- <- _]).
    assert (same_blocks d1 d3) by by trans d2. split; [by apply Hold|]. intros _. split; [by left|]. eauto.
Qed.

(** ** The tip in memory is the tip in the database *)

Record tip_saved d c : Prop := {
  sv_weight : c_weight c = Uint64 (Weight (c_tip c));
  sv_state : ∃ w, c_state c = Some w ∧ ws_Hash w = STATE (spec (c_tip c));
  sv_block h : hash (c_tip c) = Some h → ∃ b, getBlock h d = Ok b ∧ spec b = spec (c_tip c) ∧ hash b = Some h;
}.

Lemma putBlock_get child d d1 e w h :
  hash child = Some h → worldState child = Some w → ws_Hash w = STATE (spec child) →
  STATE (spec child) ≠ BytesToByte64 [] → putBlock child d = Ret (d1, e) →
  ∃ b, getBlock h d1 = Ok b ∧ spec b = spec child ∧ hash b = Some h.
Proof.
  intros Hh Hw Hst Hne. unfold putBlock, serializeBlock, block_Hash.
  rewrite decide_False by done. rewrite Hw, bool_decide_eq_false_2 by (by intros []). rewrite Hh.
  destruct (serialize_ok (spec child)) as [data Hdata]. rewrite Hdata. cbn [deref outcome_bind].
  rewrite put_eq. intros [= <- _]. unfold getBlock.
  assert (Get (tableKey tableBlock h) (Put (tableKey tableBlock h) data d).1 = Ok data) as ->.
  { apply get_ok_iff. by rewrite put_contents, lookup_insert_eq. }
  unfold deSerializeBlock. rewrite (deserialize_serialize _ _ Hdata). eexists. split; [done|].
  split; [done|]. simpl. unfold BytesToByte64. by rewrite BytesToArr_Bytes.
Qed.

(** The chain object agrees in everything but the tip's block that is kept. *)
Lemma tip_saved_frame g d d' c :
  chain_inv g d c →
  (∀ x, is_Some (nodes d x) → contents d' !! tableKey tableBlock x = contents d !! tableKey tableBlock x) →
  tip_saved d c → tip_saved d' c.
Proof.
  intros [_ _ (h & L & n & Ht & _ & _ & Hn & _) _ _] Hs [Hw Hst Hb]. split; [done..|].
  intros h' Hh'. destruct (Hb h' Hh') as (b & Hget & Hspec & Hhash). exists b.
  split_and!; [|done..]. eapply getBlock_contents; [|done]. apply Hs. assert (h' = h) as -> by congruence.
  by eexists.
Qed.

Lemma chain_effect_saves g d c d' c' :
  chain_effect d c d' c' → chain_inv g d c → tip_saved d c → tip_saved d' c'.
Proof.
  intros [Hs ->|fuel child parent w d1 err Hs Hck Hw Hst Hne Hk Hadd] Hinv Hsv.
  { eapply tip_saved_frame; [done| |done]. intros x _. by apply same_chain_blocks. }
  pose proof (chain_inv_same g d d1 c Hs Hinv) as Hinv1.
  assert (Hsv1 : tip_saved d1 c).
  { eapply (tip_saved_frame g d); [done| |done]. intros x _. by apply same_chain_blocks. }
  destruct (addValidatedBlock_run g _ _ _ _ _ _ _ _ Hinv1 (checked_hash _ _ _ Hck) Hk Hadd) as (h & Hh & Hpost).
  destruct (addValidatedBlock_fields _ _ _ _ _ _ _ _ _ Hadd Hh Hk) as [Hold Hnew].
  destruct err as [e|]; [destruct Hpost as (-> & _); by eapply tip_saved_frame|].
  destruct (Hnew eq_refl) as [[->|(w' & -> & Hw')] (d2 & e2 & Hput & Hs2)]; [by eapply tip_saved_frame|].
  split; cbn; [done | by exists w' |]. intros h' Hh'. assert (h' = h) as -> by congruence.
  destruct (putBlock_get child d1 d2 e2 w h Hh Hw Hst Hne Hput) as (b & Hget & Hb). exists b.
  split; [|done]. eapply getBlock_contents; [apply Hs2 | done].
Qed.

Lemma chain_effect_miner g d c d' c' :
  chain_effect d c d' c' → chain_inv g d c → c_minerId c' = c_minerId c.
Proof.
  intros [Hs ->|fuel child parent w d1 err Hs Hck Hw Hst Hne Hk Hadd] Hinv; [done|].
  pose proof (chain_inv_same g d d1 c Hs Hinv) as Hinv1.
  destruct (addValidatedBlock_run g _ _ _ _ _ _ _ _ Hinv1 (checked_hash _ _ _ Hck) Hk Hadd) as (h & Hh & Hpost).
  destruct (addValidatedBlock_fields _ _ _ _ _ _ _ _ _ Hadd Hh Hk) as [_ Hnew].
  destruct err as [e|]; [by destruct Hpost as (-> & _)|]. by destruct (Hnew eq_refl) as [[->|(w' & -> & _)] _].
Qed.

(** ** History is append-only *)

(** Whatever [d] stores of the chain, [d'] stores as well. *)
Record extends d d' : Prop := {
  ex_node x n : nodes d x = Some n → ∃ n', nodes d' x = Some n' ∧ same_header n n';
  ex_block x b : is_Some (nodes d x) → getBlock (W:=W) x d = Ok b → getBlock x d' = Ok b;
}.

#[global] Instance extends_preorder : PreOrder extends.
Proof.
  split.
  - intros d. split; [|done]. intros x n Hn. by exists n.
  - intros d1 d2 d3 [N1 B1] [N2 B2]. split.
    + intros x n (n' & Hn' & Hs)%N1. destruct (N2 x n' Hn') as (n'' & Hn'' & Hs'). exists n''.
      split; [done | by trans n'].
    + intros x b [n Hn] Hb. destruct (N1 x n Hn) as (n' & Hn' & _).
      apply B2; [by eexists | apply B1; [by eexists | done]].
Qed.

Lemma same_chain_extends d d' : same_inside chain_key d d' → extends d d'.
Proof.
  intros Hs. split.
  - intros x n Hn. exists n. by rewrite (nodes_same d d').
  - intros x b _. eapply getBlock_contents. by apply same_chain_blocks.
Qed.

Lemma chain_effect_extends g d c d' c' :
  chain_effect d c d' c' → chain_inv g d c → extends d d'.
Proof.
  intros [Hs ->|fuel child parent w d1 err Hs Hck Hw Hst Hne Hk Hadd] Hinv; [by apply same_chain_extends|].
  trans d1; [by apply same_chain_extends|].
  pose proof (chain_inv_same g d d1 c Hs Hinv) as Hinv1.
  destruct (addValidatedBlock_run g _ _ _ _ _ _ _ _ Hinv1 (checked_hash _ _ _ Hck) Hk Hadd) as (h & Hh & Hpost).
  destruct (addValidatedBlock_fields _ _ _ _ _ _ _ _ _ Hadd Hh Hk) as [Hold _]. split.
  - intros x n Hn. destruct err; [|by apply (ad_old _ _ _ _ _ _ _ Hpost)].
    destruct Hpost as (_ & Hsame & _). exists n. by rewrite Hsame.
  - intros x b Hx. eapply getBlock_contents. by apply Hold.
Qed.

(** ** The ledger: every chain node has its block *)

Definition header_of b n : Prop :=
  cn_Parent n = ParentHash b ∧ cn_Depth n = Uint64 (Depth b) ∧ cn_Weight n = Uint64 (Weight b).

(** The node [n] stored under [x] has the stored block [b]: their headers agree,
    the uncles of the block are nodes too, and depth and weight are those of the
    parent's node, one more and one more for each uncle besides. *)
Record recorded (g : Byte64) d (x : Byte64) n b : Prop := {
  rc_get : getBlock x d = Ok b;
  rc_hash : hash b = Some x;
  rc_header : header_of b n;
  rc_uncles u : u ∈ Uncles b → is_Some (nodes d u);
  rc_step :
    if decide (x = g) then cn_Depth n = 0 ∧ cn_Weight n = 0 ∧ Uncles b = []
    else ∃ p, nodes d (cn_Parent n) = Some p ∧ cn_Depth n = u64 (cn_Depth p + 1) ∧
      cn_Weight n = u64 (cn_Weight p + 1 + Z.of_nat (length (Uncles b)));
}.

Definition ledger (g : Byte64) d : Prop := ∀ x n, nodes d x = Some n → ∃ b, recorded g d x n b.

Lemma recorded_extends g d d' x n n' b :
  extends d d' → nodes d x = Some n → nodes d' x = Some n' → recorded g d x n b → recorded g d' x n' b.
Proof.
  intros He Hn Hn' [Hb Hh (H1 & H2 & H3) Hu Hst].
  assert (same_header n n') as (_ & Hp & Hd & Hw).
  { destruct (ex_node _ _ He x n Hn) as (n0 & Hn0 & Hs). by assert (n0 = n') as -> by congruence. }
  split; [by apply (ex_block _ _ He); [by eexists|] | done | split_and!; congruence | |].
  - intros u Hu'. destruct (Hu u Hu') as [m Hm]. destruct (ex_node _ _ He u m Hm) as (m' & Hm' & _). by eexists.
  - rewrite Hp, Hd, Hw. case_decide; [done|]. destruct Hst as (p & Hpn & Hdp & Hwp).
    destruct (ex_node _ _ He _ p Hpn) as (p' & Hp' & _ & _ & Hdp' & Hwp'). exists p'. by rewrite Hdp', Hwp'.
Qed.

Lemma ledger_extends g d d' :
  extends d d' → (∀ x n', nodes d' x = Some n' → nodes d x = None → ∃ b, recorded g d' x n' b) →
  ledger g d → ledger g d'.
Proof.
  intros He Hnew Hl x n' Hn'. destruct (nodes d x) as [n|] eqn:Hn; [|by apply Hnew].
  destruct (Hl x n Hn) as [b Hb]. exists b. by eapply recorded_extends.
Qed.

(** The node and block of a child that was added *)
Lemma added_recorded g d c d' c' child parent h w d1 e1 n :
  ledger g d → is_Some (nodes d g) → extends d d' → checked child parent d → hash child = Some h →
  worldState child = Some w → ws_Hash w = STATE (spec child) → STATE (spec child) ≠ BytesToByte64 [] →
  added g h child d c d' c' → putBlock child d = Ret (d1, e1) → same_blocks d1 d' →
  nodes d' h = Some n → ∃ b, recorded g d' h n b.
Proof.
  intros Hl [gn Hgn] He [Hpar Hdep Hwei Hunc] Hh Hw Hst Hne Hadd Hput Hs Hn.
  destruct (putBlock_get child d d1 e1 w h Hh Hw Hst Hne Hput) as (b & Hget & Hspec & Hhash).
  destruct Hadd as [_ _ (n0 & Hn0 & Hnp & Hnw & Hnd) [Hnone [pn Hpn]] _ _].
  assert (n0 = n) as -> by congruence. exists b. unfold ParentHash, Depth, Weight, Uncles in *.
  split; [eapply getBlock_contents; [apply Hs | done] | done | unfold header_of, ParentHash, Depth, Weight; by rewrite Hspec | |].
  - unfold Uncles. rewrite Hspec. intros u [m Hm]%Hunc. destruct (ex_node _ _ He u m Hm) as (m' & Hm' & _). by eexists.
  - rewrite decide_False by congruence. destruct (Hl _ pn Hpn) as [pb [Hpb _ (_ & Hpd & Hpw) _ _]].
    assert (pb = parent) as -> by congruence. destruct (ex_node _ _ He _ pn Hpn) as (p' & Hp' & _ & _ & Hd' & Hw').
    exists p'. unfold Uncles. rewrite Hnp, Hspec. split_and!; [done|..]; unfold Depth, Weight in *; congruence.
Qed.

Lemma chain_effect_ledger g d c d' c' :
  chain_effect d c d' c' → chain_inv g d c → ledger g d → ledger g d'.
Proof.
  intros Heff Hinv Hl. pose proof (chain_effect_extends g d c d' c' Heff Hinv) as He. revert Heff.
  intros [Hs ->|fuel child parent w d1 err Hs Hck Hw Hst Hne Hk Hadd].
  { apply (ledger_extends g d d' He); [|done]. intros x n. rewrite (nodes_same d d' x Hs). congruence. }
  pose proof (chain_inv_same g d d1 c Hs Hinv) as Hinv1.
  assert (Hl1 : ledger g d1).
  { apply (ledger_extends g d d1 (same_chain_extends d d1 Hs)); [|done]. intros x n. rewrite (nodes_same d d1 x Hs). congruence. }
  assert (He1 : extends d1 d').
  { apply (chain_effect_extends g d1 c d' c'); [|done]. eapply effect_add; [reflexivity | done..]. }
  destruct (addValidatedBlock_run g _ _ _ _ _ _ _ _ Hinv1 (checked_hash _ _ _ Hck) Hk Hadd) as (h & Hh & Hpost).
  destruct (addValidatedBlock_fields _ _ _ _ _ _ _ _ _ Hadd Hh Hk) as [_ Hnew].
  apply (ledger_extends g d1 d' He1); [|done]. intros x n Hn Hx. destruct err as [e|].
  { destruct Hpost as (_ & Hsame & _). rewrite Hsame in Hn. congruence. }
  destruct (Hnew eq_refl) as (_ & d2 & e2 & Hput & Hs2).
  assert (x = h) as ->.
  { apply dec_stable. intros Hxh. destruct (ad_only _ _ _ _ _ _ _ Hpost x Hxh) as [m Hm]; [by eexists | congruence]. }
  eapply added_recorded; [done | apply (f_root _ _ (ci_forest _ _ _ Hinv1)) | done..].
Qed.

(** A new chain *)
Lemma genesis_tip_saved g ts miner w d c : genesis_chain g ts miner w d c → tip_saved d c.
Proof.
  intros [_ Ht [Hst Hw] Hwt _ (b & Hb & Hspec) _ _ _]. split; [done | by exists w|].
  intros h Hh. assert (h = g) as -> by congruence. exists b. split_and!; [done..|]. by eapply getBlock_hash.
Qed.

Lemma Uint64_0 : Uint64 (Uint64ToByte8 0) = 0.
Proof. by rewrite Uint64_Uint64ToByte8. Qed.

Lemma genesis_ledger g ts miner w d c : genesis_chain g ts miner w d c → ledger g d.
Proof.
  intros [_ Ht _ _ Hn (b & Hb & Hspec) (Hd & Hw & Hu) _ _] x n. rewrite Hn. case_decide; [|done].
  intros [= <-]. subst x. exists b. unfold Depth, Weight, Uncles in *. split.
  - done.
  - by eapply getBlock_hash.
  - unfold header_of, ParentHash, Depth, Weight. by rewrite Hspec.
  - unfold Uncles. rewrite Hspec, Hu. intros u Hu'. by apply elem_of_nil in Hu'.
  - rewrite decide_True by done. unfold Uncles. rewrite Hspec. cbn. unfold Depth, Weight.
    by rewrite Hd, Hw, Uint64_0.
Qed.

(** All of it along any sequence of calls. *)
Lemma chain_steps_history g s s' :
  rtc chain_step s s' → chain_inv g s.1 s.2 →
  extends s.1 s'.1 ∧ (tip_saved s.1 s.2 → tip_saved s'.1 s'.2) ∧ (ledger g s.1 → ledger g s'.1) ∧
  c_minerId s'.2 = c_minerId s.2 ∧ chain_inv g s'.1 s'.2.
Proof.
  induction 1 as [s|s1 s2 s3 H12%chain_step_effect _ IH]; intros Hinv; [done|].
  destruct IH as (He & Hsv & Hl & Hm & Hinv'); [by eapply chain_effect_preserves|].
  split_and!; [|by eauto using chain_effect_saves|by eauto using chain_effect_ledger| |done].
  2: { rewrite Hm. by eapply chain_effect_miner. }
  trans s2.1; [by eapply chain_effect_extends | done].
Qed.

Lemma extends_path d d' g x l : extends d d' → path (nodes d) g x l → path (nodes d') g x l.
Proof.
  intros [He _]. apply path_parents. intros y n (n' & Hn' & _ & Hp & _)%He. by exists n'.
Qed.

(** ** Restart *)

(** Two chain objects over the same chain, as far as their callers can tell:
    the tip that was read back has no world state and no approver. *)
Record resumed c c' : Prop := {
  rs_genesis : Genesis c' = Genesis c;
  rs_hash : hash (c_tip c') = hash (c_tip c);
  rs_spec : spec (c_tip c') = spec (c_tip c);
  rs_weight : c_weight c' = c_weight c;
  rs_state : ∃ w w', c_state c = Some w ∧ c_state c' = Some w' ∧ ws_Hash w' = ws_Hash w;
}.

Lemma chain_inv_resumed g d c c' : resumed c c' → chain_inv g d c → chain_inv g d c'.
Proof.
  intros [Hg Hh _ Hw (w & w' & _ & Hw' & _)] [H1 H2 H3 H4 H5]. split; [congruence | done | | done | by eexists].
  by rewrite Hh, Hw.
Qed.

(** The next candidate block is the same. *)
Lemma candidate_resumed now c c' d :
  resumed c c' → c_minerId c' = c_minerId c → NewCandidateBlock now c' d = NewCandidateBlock now c d.
Proof.
  intros [_ Hh Hs _ (w & w' & Hw & Hw' & Heq)] Hm. unfold NewCandidateBlock, Tip, block_Hash, Weight, Depth,
    block_Timestamp, ParentHash. destruct (ws_New d) as [d1 [st|]]; [|done]. rewrite Hw, Hw'.
  cbn [deref outcome_bind]. by rewrite Hh, Hs, Hm, Heq.
Qed.

Lemma restart_spec g d c attempts range now ts miner d1 w :
  chain_inv g d c → tip_saved d c → (∀ m, range m ≡ₚ map_to_list m) → ts ≠ 0 →
  ws_known (W:=W) (STATE (spec (c_tip c))) d →
  ws_New d = (d1, Some w) → g = genesis_of (Bytes (BytesToByte64 [])) ts (ws_Hash w) →
  ∃ d' c', NewBlockChainConsensus (S attempts) range now ts miner d = Ret (d', Ok c') ∧
    same_inside chain_key d d' ∧ resumed c c' ∧ c_minerId c' = miner.
Proof.
  intros [Hgen _ (h & L & n & Ht & _ & _ & _ & _ & Hdag & _) _ _] [Hwt (w0 & Hw0 & Hst) Hb] Hr Hts Hknown Hnew Hg.
  unfold NewBlockChainConsensus. rewrite Hnew.
  destruct (genesis_hash attempts range now ts (Bytes (BytesToByte64 [])) w d1 Hr)
    as (g' & b & -> & Hh & Hw & _ & _ & Hg'). cbn [outcome_bind].
  pose proof (ws_new_frame d) as Hf. pose proof (ws_new_known (STATE (spec (c_tip c))) d Hknown) as Hk1.
  rewrite Hnew in Hf, Hk1. simpl in Hf, Hk1. apply own_same_chain in Hf as Hs1.
  assert (Get dagTip d1 = Ok (Bytes h)) as ->.
  { apply get_ok_iff. rewrite Hs1; [done | by right]. }
  destruct (Hb h Ht) as (tip & Hget & Hspec & Hhash).
  assert (getBlock (BytesToByte64 (Bytes h)) d1 = Ok tip) as ->.
  { unfold BytesToByte64. rewrite BytesToArr_Bytes. eapply getBlock_contents; [by apply same_chain_blocks | done]. }
  rewrite Hw. cbn [deref outcome_bind]. rewrite Hspec.
  pose proof (ws_rebase_frame w (STATE (spec (c_tip c))) d1) as Hf2%own_same_chain.
  destruct (ws_rebase_known w (STATE (spec (c_tip c))) d1 Hk1) as [Hok Hhw].
  destruct (ws_Rebase w (STATE (spec (c_tip c))) d1) as [[d2 w2] e2]. simpl in Hok, Hhw, Hf2. subst e2.
  do 2 eexists. split; [done|]. split; [by trans d1|]. split; [|done]. split; cbn.
  - rewrite Hgen. unfold Genesis. cbn. unfold block_Hash. rewrite Hh. f_equal. rewrite Hg. by apply Hg'.
  - congruence.
  - done.
  - rewrite Hwt. unfold Weight. by rewrite Hspec.
  - exists w0, w2. split_and!; [done..|congruence].
Qed.

(** ** Walking the chain *)

(** The depth of a node is its distance from genesis. *)
Lemma ledger_depth g d x n l :
  ledger g d → path (nodes d) g x l → nodes d x = Some n → Z.of_nat (length l) ≤ 2 ^ 64 →
  cn_Depth n = Z.of_nat (length l) - 1.
Proof.
  intros Hl Hp. revert n. induction Hp as [|x m l Hm Hne Hp IH]; intros n Hn Hlen;
    destruct (Hl _ n Hn) as [b [_ _ _ _ Hst]].
  - rewrite decide_True in Hst by done. simpl. lia.
  - rewrite decide_False in Hst by done. destruct Hst as (p & Hpn & Hd & _). assert (m = n) as -> by congruence.
    rewrite length_app in *. simpl in *. rewrite Hd, (IH p Hpn) by lia.
    destruct (path_last _ _ _ _ Hp) as [l' ->]. rewrite length_app in *. simpl in *.
    rewrite u64_small by (unfold is_u64; lia). lia.
Qed.

Lemma nodes_getChainNode x d n : nodes d x = Some n → getChainNode x d = Ok n.
Proof. unfold nodes. destruct (getChainNode x d); simpl; congruence. Qed.

(** The walk of [Ancestor] from the end of a path: [m] steps, as many as asked
    for and as there are. *)
Lemma ancestorLoop_path g d max : ∀ x l last,
  ledger g d → path (nodes d) g x l → is_Some (nodes d x) → Z.of_nat (length l) ≤ 2 ^ 64 →
  let m := Nat.min max (length l - 1) in
  ∃ y, l !! (length l - 1 - m)%nat = Some y ∧ (m = 0%nat ∧ ancestorLoop max (getChainNode x d) last d = (last, None) ∨
    (0 < m)%nat ∧ ∃ b, getBlock y d = Ok b ∧ ancestorLoop max (getChainNode x d) last d = (Some b, None)).
Proof.
  induction max as [|max IH]; intros x l last Hl Hp [n Hn] Hlen m; rewrite (nodes_getChainNode _ _ _ Hn).
  - destruct (path_last _ _ _ _ Hp) as [l' ->]. exists x. split; [|by left].
    rewrite length_app. cbn [length]. apply list_lookup_middle. unfold m. rewrite length_app. cbn [length]. lia.
  - cbn [ancestorLoop]. pose proof (ledger_depth g d x n l Hl Hp Hn Hlen) as Hd.
    destruct (path_inv _ _ _ _ Hp) as [[-> ->]|(n' & l' & Hn' & Hne & Hp' & ->)].
    { simpl in Hd. rewrite decide_False by lia. exists g. split; [done | by left]. }
    assert (n' = n) as -> by congruence. cbn [n_parent chainNode_ops] in Hp'.
    destruct (Hl x n Hn) as [b [_ _ _ _ Hst]]. rewrite decide_False in Hst by done.
    destruct Hst as (p & Hpn & _). destruct (Hl _ p Hpn) as [pb [Hpb _ _ _ _]].
    destruct (path_last _ _ _ _ Hp') as [l0 Hl0]. rewrite length_app in Hd, Hlen. simpl in Hd, Hlen.
    assert (Hlen' : length l' = S (length l0)) by (rewrite Hl0, length_app; simpl; lia).
    rewrite decide_True by lia. rewrite Hpb.
    destruct (IH (cn_Parent n) l' (Some pb) Hl Hp' ltac:(by eexists) ltac:(lia)) as (y & Hy & Hr).
    exists y. unfold m. rewrite length_app. cbn [length]. split.
    { rewrite lookup_app_l by lia. replace (length l' + 1 - 1 - Nat.min (S max) (length l' + 1 - 1))%nat
        with (length l' - 1 - Nat.min max (length l' - 1))%nat by lia. done. }
    right. split; [lia|]. destruct Hr as [[Hm ->]|(_ & b' & Hb' & ->)]; [|by exists b'].
    exists pb. split; [|done]. rewrite Hm, Nat.sub_0_r, Hl0, length_app in Hy. simpl in Hy.
    rewrite list_lookup_middle in Hy by lia. congruence.
Qed.

(** The stored blocks with the given hashes *)
Definition readAll (hs : list Byte64) d : list (block W) := omap (λ h, result_opt (getBlock h d)) hs.

Lemma fetchUncles_readAll us d :
  Forall (λ u, is_ok (getBlock (W:=W) u d)) us →
  fetchUncles us d = Ok (readAll us d) ∧ length (readAll us d) = length us.
Proof.
  induction 1 as [|u us Hu _ [IH IHl]]; [done|]. cbn [fetchUncles readAll omap list_omap].
  destruct (getBlock u d) as [b|]; [|done]. cbn [result_opt]. rewrite IH. split; [done|]. simpl. by rewrite <- IHl.
Qed.

(** A block with its uncles before it *)
Definition withUncles d (x : Byte64) : list (block W) :=
  match getBlock x d with Ok b => readAll (Uncles b) d ++ [b] | Err _ => [] end.

(** As many of the chunks as fit, from the first on *)
Fixpoint greedy {A} (max : Z) (acc : list A) (chunks : list (list A)) : list A :=
  match chunks with
  | [] => acc
  | c :: chunks =>
      if decide (Z.of_nat (length acc) + Z.of_nat (length c) ≤ max) then greedy max (acc ++ c) chunks else acc
  end.

Section descend.
Context (g : Byte64) (d : D) (tip : Byte64) (L : list Byte64).
Hypothesis HF : forest (nodes d) g.
Hypothesis Hl : ledger g d.
Hypothesis HL : path (nodes d) g tip L.
Hypothesis Hfl : flags (nodes d) L.

Lemma ledger_read x n :
  nodes d x = Some n → ∃ b, getBlock x d = Ok b ∧ hash b = Some x ∧
    fetchUncles (Uncles b) d = Ok (readAll (Uncles b) d) ∧ length (readAll (Uncles b) d) = length (Uncles b).
Proof.
  intros Hn. destruct (Hl x n Hn) as [b [Hb Hh _ Hu _]]. exists b. split; [done|]. split; [done|].
  apply fetchUncles_readAll, Forall_forall. intros u Hin%list_elem_of_In. destruct (Hu u Hin) as [m Hm].
  destruct (Hl u m Hm) as [ub [-> _ _ _ _]]. done.
Qed.

Lemma main_next l1 x l2 n :
  L = l1 ++ x :: l2 → nodes d x = Some n →
  findMainListChild n None d = Ret (match l2 with [] => None | z :: _ => nodes d z end).
Proof.
  intros Heq Hn. unfold findMainListChild. rewrite (findMainListLoop_find _ _ _ (nodes d)) by done.
  pose proof (find_next (nodes d) (nodes d) g tip l1 x l2 n HF) as Hnext. rewrite <- Heq in Hnext.
  apply Hnext; [done..|by left|done].
Qed.

(** One round of the loop of [Descendents] below the first node *)
Lemma descendentsLoop_step (start : Byte64) max fuel l1 x l2 n desc :
  L = l1 ++ x :: l2 → start ∈ l1 → nodes d x = Some n →
  descendentsLoop (S fuel) start max (Some n) (Z.of_nat (length desc)) desc d =
    if decide (Z.of_nat (length desc) + Z.of_nat (length (withUncles d x)) ≤ max) then
      descendentsLoop fuel start max (match l2 with [] => None | z :: _ => nodes d z end)
        (Z.of_nat (length (desc ++ withUncles d x))) (desc ++ withUncles d x) d
    else Ret (desc, None).
Proof.
  intros Heq Hstart Hn. destruct (ledger_read x n Hn) as (b & Hb & Hh & Hfu & Hlu).
  assert (Hc : withUncles d x = readAll (Uncles b) d ++ [b]) by (unfold withUncles; by rewrite Hb).
  assert (Hlen : length (withUncles d x) = S (length (Uncles b))) by (rewrite Hc, length_app, Hlu; simpl; lia).
  assert (Hne : x ≠ start).
  { intros ->. pose proof (path_nodup _ _ _ _ HL) as Hnd. rewrite Heq in Hnd.
    apply (proj1 (list.NoDup_app _ _)) in Hnd as (_ & Hdis & _). apply (Hdis start Hstart). left. }
  cbn [descendentsLoop]. pose proof (f_hash _ _ HF x n Hn) as Hhn. cbn [n_hash chainNode_ops] in Hhn.
  rewrite Hlen, Hhn. cbn [deref outcome_bind]. rewrite Hb. unfold block_Hash. rewrite Hh. cbn [deref outcome_bind].
  destruct (decide (Z.of_nat (length desc) + Z.of_nat (S (length (Uncles b))) ≤ max)) as [Hfit|Hfit].
  2: { case_decide; [|done]. by rewrite decide_True by lia. }
  rewrite decide_True, decide_False, Hfu by lia.
  rewrite (main_next l1 x l2 n Heq Hn), decide_True by done. cbn [outcome_bind].
  rewrite Hlu, Hc, (assoc_L (++)), !length_app, Hlu. cbn [length]. f_equal. lia.
Qed.

Lemma descendentsLoop_greedy (start : Byte64) max : ∀ l2 fuel l1 x n desc,
  L = l1 ++ x :: l2 → start ∈ l1 → nodes d x = Some n → (length l2 < fuel)%nat →
  descendentsLoop fuel start max (Some n) (Z.of_nat (length desc)) desc d =
    Ret (greedy max desc (map (withUncles d) (x :: l2)), None).
Proof.
  induction l2 as [|z l2 IH]; intros [|fuel] l1 x n desc Heq Hstart Hn Hfuel; try (simpl in Hfuel; lia);
    rewrite (descendentsLoop_step start max fuel l1 x _ n desc Heq Hstart Hn); cbn [map greedy];
    case_decide; try done.
  - by destruct fuel.
  - assert (Hz : is_Some (nodes d z)).
    { eapply path_some; [apply (f_root _ _ HF) | exact HL|]. rewrite Heq. apply elem_of_app. right. right. left. }
    destruct Hz as [nz Hz]. rewrite Hz. apply (IH fuel (l1 ++ [x]) z nz); [|by apply elem_of_app; left|done|simpl in Hfuel; lia].
    by rewrite <- (assoc_L (++)).
Qed.

(** What [Descendents] returns for a block of the main list. *)
Definition descendants_ref (l2 : list Byte64) (max : Z) (b : block W) : list (block W) :=
  if decide (Z.of_nat (length (Uncles b)) < max)
  then greedy max (readAll (Uncles b) d) (map (withUncles d) l2) else [].

Lemma Descendents_greedy fuel max l1 x l2 :
  L = l1 ++ x :: l2 → 0 ≤ max → (length l2 + 2 ≤ fuel)%nat →
  ∃ b, getBlock x d = Ok b ∧ Descendents fuel x max d = Ret (descendants_ref l2 (Z.min max maxBlocks) b, None).
Proof.
  intros Heq Hmax Hfuel. assert (Hx : is_Some (nodes d x)).
  { eapply path_some; [apply (f_root _ _ HF) | exact HL|]. rewrite Heq. apply elem_of_app. right. left. }
  destruct Hx as [n Hn]. destruct (ledger_read x n Hn) as (b & Hb & Hh & Hfu & Hlu). exists b. split; [done|].
  assert (Hm : (if decide (max > maxBlocks) then maxBlocks else max) = Z.min max maxBlocks)
    by (case_decide; lia).
  unfold Descendents. rewrite Hm. set (mx := Z.min max maxBlocks). rewrite decide_False by (unfold mx, maxBlocks; lia).
  rewrite (nodes_getChainNode x d n Hn). assert (Hmain : cn_IsMainList n = true).
  { apply (Hfl x n Hn). rewrite Heq. apply elem_of_app. right. left. }
  rewrite Hmain. cbn [negb]. destruct fuel as [|[|fuel]]; [lia..|]. cbn [descendentsLoop].
  pose proof (f_hash _ _ HF x n Hn) as Hhn. cbn [n_hash chainNode_ops] in Hhn.
  rewrite Hhn. cbn [deref outcome_bind]. rewrite Hb. unfold block_Hash, descendants_ref. rewrite Hh, Hfu. cbn [deref outcome_bind].
  destruct (decide (Z.of_nat (length (Uncles b)) < mx)) as [Hfit|Hfit].
  2: { destruct (decide (0 < mx)); [|done]. by rewrite (decide_True (P:=mx ≤ _)) by lia. }
  rewrite (decide_True (P:=0 < mx)), (decide_False (P:=mx ≤ _)), (decide_False (P:=x ≠ x)) by (lia || by intros []).
  rewrite (main_next l1 x l2 n Heq Hn). cbn [outcome_bind]. rewrite Z.add_0_l. cbn [app].
  destruct l2 as [|z l2]; [done|]. assert (Hz : is_Some (nodes d z)).
  { eapply path_some; [apply (f_root _ _ HF) | exact HL|]. rewrite Heq. apply elem_of_app. right. right. left. }
  destruct Hz as [nz Hz]. rewrite Hz. change (S fuel) with (S fuel).
  apply (descendentsLoop_greedy x mx l2 (S fuel) (l1 ++ [x]) z nz); [|apply elem_of_app; right; left|done|simpl in Hfuel; lia].
  by rewrite <- (assoc_L (++)).
Qed.
End descend.
End history.
