(* ===== verification/HistoryTheorems.v ===== *)
(** * Theorems about the history of a block chain

    What was stored stays, what is stored is well formed, a restart continues
    where the chain was, and what [Ancestor] and [Descendents] read; with
    witnesses on the chain of [ConsensusTheorems]. *)

From Stdlib Require Import Strings.Byte.
From S2P Require Import Prelude Bytes Db Trie TrieSpec TrieFacts WorldState Concrete TrieTheorems.
From S2P Require Import WorldStateI Block BlockFacts BlockTheorems MainList Consensus ConsensusFacts ConsensusTheorems HistoryFacts.

Section theorems.
Context {D W : Type} {dbo : Database D} {dbl : DatabaseLaws D}.
Context {wso : WorldState W D} {wsl : WorldStateLaws W D} {sep : ChainSeparate W D}.
Context {sha : Sha512} {cdn : Codec chainNode} {cdnl : CodecLaws chainNode}.
Context {cds : Codec BlockSpec} {cdsl : CodecLaws BlockSpec}.
Implicit Types (d : D) (c : BlockChainConsensus W) (b child parent : block W).

(** C5: As long as the world state of every block that a node mines or accepts from the network
    is found in the database once the block is hashed and its hash is not all zero, the history
    of the node is append-only: paths to genesis stay, every stored node keeps its parent, depth
    and weight, and every block of the chain reads back unchanged. *)
Theorem history_is_append_only g d c d' c' :
  chain_inv g d c → rtc chain_step (d, c) (d', c') →
  (∀ x l, path (nodes d) g x l → path (nodes d') g x l) ∧
  (∀ x n, nodes d x = Some n → ∃ n', nodes d' x = Some n' ∧ cn_Parent n' = cn_Parent n ∧
     cn_Depth n' = cn_Depth n ∧ cn_Weight n' = cn_Weight n) ∧
  (∀ x b, is_Some (nodes d x) → getBlock (W:=W) x d = Ok b → getBlock x d' = Ok b).
Proof.
  intros Hinv Hrtc. destruct (chain_steps_history g _ _ Hrtc Hinv) as (He & _). simpl in He. split_and!.
  - intros x l. by apply (extends_path (W:=W)).
  - intros x n (n' & Hn' & _ & H)%(ex_node _ _ He). by exists n'.
  - apply (ex_block _ _ He).
Qed.

(** C13: In every state that a node reaches from a database without a chain by calls of the
    consensus interface that return, as long as the world state of every block that it mines or
    accepts is found in the database once the block is hashed and its hash is not all zero, each
    stored node has a block with its hash, parent, depth and weight; the depth is the length of
    the path to genesis (while that is at most 2^64), every uncle is stored, and the weight is
    the weight of the parent block plus one plus the number of uncles, modulo 2^64. *)
Theorem stored_chain_adds_up attempts range now ts miner d d1 w d0 c0 d' c' :
  no_chain d → is_range range → ws_New d = (d1, Some w) → ws_Hash w ≠ BytesToByte64 [] →
  NewBlockChainConsensus (S attempts) range now ts miner d = Ret (d0, Ok c0) →
  rtc chain_step (d0, c0) (d', c') →
  ∃ g, Genesis c' = Some g ∧ ∀ x n, nodes d' x = Some n →
    ∃ b l, getBlock (W:=W) x d' = Ok b ∧ hash b = Some x ∧ path (nodes d') g x l ∧
      cn_Parent n = ParentHash b ∧ cn_Depth n = Uint64 (Depth b) ∧ cn_Weight n = Uint64 (Weight b) ∧
      (∀ u, u ∈ Uncles b → is_Some (nodes d' u)) ∧
      (Z.of_nat (length l) ≤ 2 ^ 64 → Uint64 (Depth b) = Z.of_nat (length l) - 1) ∧
      (x ≠ g → ∃ p pb, nodes d' (ParentHash b) = Some p ∧ getBlock (W:=W) (ParentHash b) d' = Ok pb ∧
         Uint64 (Weight b) = u64 (Uint64 (Weight pb) + 1 + Z.of_nat (length (Uncles b)))).
Proof.
  intros Hno Hr Hnew Hnz Heq Hrtc.
  destruct (NewBlockChainConsensus_fresh attempts range now ts miner d d1 w Hno Hr Hnew Hnz) as (d0' & c0' & g & Heq' & Hg).
  rewrite Heq in Heq'. injection Heq' as <- <-.
  destruct (chain_steps_history g _ _ Hrtc (gc_inv _ _ _ _ _ _ Hg)) as (_ & _ & Hl & _ & [Hgen HF _ _ _]).
  simpl in Hl. specialize (Hl (genesis_ledger _ _ _ _ _ _ Hg)). exists g. split; [done|]. intros x n Hn.
  destruct (Hl x n Hn) as [b [Hb Hh (Hp & Hd & Hw) Hu Hst]]. destruct (f_path _ _ HF x n Hn) as [l Hpath].
  exists b, l. split_and!; try done.
  - intros Hlen. rewrite <- Hd. by eapply ledger_depth.
  - intros Hx. rewrite decide_False in Hst by done. destruct Hst as (p & Hpn & _ & Hwn). rewrite Hp in Hpn.
    destruct (Hl _ p Hpn) as [pb [Hpb _ (_ & _ & Hpw) _ _]]. exists p, pb. split_and!; [done..|]. congruence.
Qed.

(** C6: A node that is started again, with the same miner and the same genesis time, which is
    not zero, on the database of an earlier run resumes its chain, provided the run started
    without a chain, the world state of every block that it mined or accepted was found in the
    database once the block was hashed and had a hash that is not all zero, and the state of the
    tip is still known there: the constructor returns a consensus engine with the same genesis,
    tip, weight and state hash, it leaves the stored chain as it is, and every candidate block
    it makes is the one that the earlier run would have made. *)
Theorem restart_resumes attempts range now ts miner d d1 w d0 c0 d' c attempts' range' now' :
  no_chain d → is_range range → ws_New d = (d1, Some w) → ws_Hash w ≠ BytesToByte64 [] → ts ≠ 0 →
  NewBlockChainConsensus (S attempts) range now ts miner d = Ret (d0, Ok c0) →
  rtc chain_step (d0, c0) (d', c) → ws_known (W:=W) (STATE (spec (c_tip c))) d' → is_range range' →
  ∃ d'' c' g, NewBlockChainConsensus (S attempts') range' now' ts miner d' = Ret (d'', Ok c') ∧
    same_inside chain_key d' d'' ∧ chain_inv g d'' c' ∧
    Genesis c' = Genesis c ∧ hash (c_tip c') = hash (c_tip c) ∧ spec (c_tip c') = spec (c_tip c) ∧
    c_weight c' = c_weight c ∧ ws_Hash <$> c_state c' = ws_Hash <$> c_state c ∧
    ∀ t, NewCandidateBlock t c' d'' = NewCandidateBlock t c d''.
Proof.
  intros Hno Hr Hnew Hnz Hts Heq Hrtc Hk Hr'.
  destruct (NewBlockChainConsensus_fresh attempts range now ts miner d d1 w Hno Hr Hnew Hnz) as (d0' & c0' & g & Heq' & Hg).
  rewrite Heq in Heq'. injection Heq' as <- <-.
  destruct (chain_steps_history g _ _ Hrtc (gc_inv _ _ _ _ _ _ Hg)) as (_ & Hsv & _ & Hm & Hinv). simpl in *.
  specialize (Hsv (genesis_tip_saved _ _ _ _ _ _ Hg)). rewrite (gc_miner _ _ _ _ _ _ Hg) in Hm.
  destruct (ws_new_ok d') as [w' Hw']. destruct (ws_New d') as [d2 o] eqn:Hnew'. simpl in Hw'. subst o.
  destruct (restart_spec g d' c attempts' range' now' ts miner d2 w' Hinv Hsv Hr' Hts Hk Hnew')
    as (d'' & c' & Hrun & Hs & Hres & Hm').
  { rewrite (gc_hash _ _ _ _ _ _ Hg Hts). f_equal.
    apply (ws_new_hash d d'); [by rewrite Hnew | by rewrite Hnew']. }
  exists d'', c', g. split; [done|]. split; [done|].
  split; [eapply chain_inv_resumed; [done | by eapply chain_inv_same]|].
  split_and!; try apply Hres.
  - destruct (rs_state _ _ Hres) as (w1 & w2 & -> & -> & Hw12). cbn. by rewrite Hw12.
  - intros t. apply candidate_resumed; [done | congruence].
Qed.

(** The hash of the ancestor that [Ancestor] looks for, on the path [l] to the
    block: [max] steps back, at most to genesis. *)
Definition ancestor_of (l : list Byte64) (max : Z) : option Byte64 :=
  let m := Nat.min (Z.to_nat max) (length l - 1) in
  if decide (m = 0%nat) then None else l !! (length l - 1 - m)%nat.

(** Ancestor returns an error for genesis and for blocks that are not stored; for any other
    block it returns the block max steps back on the path to genesis, or the first block of the
    path when that is shorter, and none when max is not positive. *)
Theorem ancestor_follows_path g d c (child : Byte64) max :
  chain_inv g d c → ledger (W:=W) g d →
  (child = g → ∃ e, Ancestor child max c d = Ret (None, Some e)) ∧
  (child ≠ g → nodes d child = None → ∃ e, Ancestor child max c d = Ret (None, Some e)) ∧
  (∀ l, child ≠ g → path (nodes d) g child l → is_Some (nodes d child) → Z.of_nat (length l) ≤ 2 ^ 64 →
    ∃ r, Ancestor child max c d = Ret (r, None) ∧
      match ancestor_of l max with
      | None => r = None
      | Some y => ∃ b, getBlock (W:=W) y d = Ok b ∧ r = Some b
      end).
Proof.
  intros [Hgen _ _ _ _] Hl. unfold Ancestor. unfold Genesis in Hgen. rewrite Hgen. cbn [deref outcome_bind].
  split_and!.
  - intros ->. rewrite decide_True by done. by eexists.
  - intros Hne Hn. rewrite decide_False by done.
    destruct (getChainNode_nodes child d) as [(n & _ & Hn')|(e & -> & _)]; [congruence|].
    exists e. by destruct (Z.to_nat max).
  - intros l Hne Hp Hn Hlen. rewrite decide_False by done.
    destruct (ancestorLoop_path g d (Z.to_nat max) child l None Hl Hp Hn Hlen) as (y & Hy & Hr).
    unfold ancestor_of. destruct Hr as [[Hm ->]|(Hm & b & Hb & ->)].
    + rewrite decide_True by done. by exists None.
    + rewrite decide_False, Hy by lia. exists (Some b). split; [done|]. by exists b.
Qed.

(** C18: Descendents of a block on the main list is the reference that reads the main list after
    that block as far as whole blocks with their uncles fit the limit; it terminates within the
    length of the list, and a block that is not on the main list gives an error. *)
Theorem descendents_read_main_list g d c :
  chain_inv g d c → ledger (W:=W) g d →
  ∃ tip L, hash (c_tip c) = Some tip ∧ path (nodes d) g tip L ∧ flags (nodes d) L ∧
    (∀ x max fuel l1 l2, L = l1 ++ x :: l2 → 0 ≤ max → (length l2 + 2 ≤ fuel)%nat →
      ∃ b, getBlock (W:=W) x d = Ok b ∧
        Descendents fuel x max d = Ret (descendants_ref d l2 (Z.min max maxBlocks) b, None)) ∧
    (∀ x max fuel, x ∉ L → 0 ≤ max → ∃ e, Descendents (W:=W) fuel x max d = Ret ([], Some e)).
Proof.
  intros [_ HF (tip & L & n & Ht & Hp & Hfl & _) _ _] Hl. exists tip, L. split_and!; [done..| |].
  - intros x max fuel l1 l2 Heq Hmax Hfuel. by eapply (Descendents_greedy g d tip L).
  - intros x max fuel Hx Hmax. unfold Descendents.
    destruct (getChainNode_nodes x d) as [(m & -> & Hm)|(e & -> & _)]; rewrite decide_False by (case_decide; unfold maxBlocks; lia).
    + destruct (cn_IsMainList m) eqn:E; [|by eexists]. by apply (Hfl x m Hm) in E.
    + by eexists.
Qed.

(** C14: On a well-formed chain in which the parent of genesis is not stored, and for a block
    whose hashing returns and leaves its world state known in the database, mining the block
    when it is our own, and accepting it when a proof of work was found for it, return: from
    some fuel on, which is enough for all the walks over the chain, the result is one and the
    same, so that more fuel changes nothing. *)
Theorem mine_and_accept_return g d c attempts range b d1 b1 r w1 :
  chain_inv g d c → (∀ gn, nodes d g = Some gn → nodes d (cn_Parent gn) = None) →
  computeHash attempts range b d = Ret (d1, b1, r) → worldState b1 = Some w1 → ws_known (W:=W) (ws_Hash w1) d1 →
  ∃ k,
    (isNetworkBlock b = false → ∃ o, ∀ fuel, (k ≤ fuel)%nat → mineCandidateBlock fuel attempts range b c d = Ret o) ∧
    (is_Some r → ∃ o, ∀ fuel, (k ≤ fuel)%nat → AcceptNetworkBlock fuel attempts range b c d = Ret o).
Proof.
  intros Hinv Hroot Hc Hw Hk. destruct (computeHash_frame _ _ _ _ _ _ _ Hc) as (Hs & (Hpar & _) & Hhash & _ & Hst).
  destruct (addValidatedBlock_spec g d1 c) as [k1 Hadd]; [by eapply chain_inv_same|].
  pose proof Hinv as [_ HF _ [k Hb] _]. set (fuel := Nat.max k k1). exists fuel.
  destruct (validateBlock_ret g d HF Hroot k fuel b Hb ltac:(lia)) as (b0 & res & Hval).
  destruct (validateBlock_fields _ _ _ _ _ Hval) as [[m ->] Hp].
  pose proof (computeHash_uncleMiners m attempts range b d) as Hc'. rewrite Hc in Hc'. cbn [outcome_bind] in Hc'.
  assert (Hret : ∀ p h, res = Ok p → r = Some h → ws_Hash w1 = STATE (spec b1) →
    ∃ o, addValidatedBlock fuel (set_uncleMiners m b1) p c d1 = Ret o).
  { intros p h Hres Hr Hst1. destruct (Hp p Hres) as [_ Hph].
    destruct (Hadd (set_uncleMiners m b1) p h fuel) as (d' & c' & err & -> & _); try done; [by apply Hhash| | |lia|by eexists].
    - cbn. unfold ParentHash in *. cbn. congruence.
    - cbn. by rewrite <- Hst1. }
  split.
  - intros Hnet. apply outcome_le_settles; [intros; by apply mineCandidateBlock_mono|]. unfold mineCandidateBlock. rewrite Hval. cbn [outcome_bind].
    destruct res as [p|e]; [|by eexists]. rewrite Hc'. cbn [outcome_bind]. destruct r as [h|]; [|by eexists].
    destruct (Hret p h eq_refl eq_refl) as [[[d2 c2] [e|]] ->]; [symmetry; by apply Hst | by eexists..].
  - intros [h Hr]. apply outcome_le_settles; [intros; by apply AcceptNetworkBlock_mono|]. unfold AcceptNetworkBlock. rewrite Hval. cbn [outcome_bind].
    destruct res as [p|e]; [|by eexists]. rewrite Hc'. cbn [outcome_bind worldState set_uncleMiners]. rewrite Hw.
    cbn [deref outcome_bind]. case_decide as Hne; [by eexists|].
    destruct (Hret p h eq_refl Hr) as [[[d2 c2] e] ->]; [exact Hne | by eexists].
Qed.
End theorems.

(** ** Witnesses *)

Section witnesses.
#[local] Existing Instances w_hash w_codec w_laws w_ops w_spec_codec w_cn_codec w_cn_laws w_spec_laws w_ws_laws w_separate.
Abbreviation wdb := (gmap bytes bytes).
Abbreviation wchain := (BlockChainConsensus MptWorldState).

Lemma wc_new_ok :
  match NewBlockChainConsensus 1 w_range 0 5 [x6d] (∅ : wdb) with
  | Ret (_, Ok c) => match c with Chain _ _ _ _ _ _ => true end
  | _ => false
  end = true.
Proof. vm_compute. reflexivity. Qed.

Lemma new_eq (o : outcome (wdb * result wchain)) :
  match o with Ret (_, Ok c) => match c with Chain _ _ _ _ _ _ => true end | _ => false end = true →
  o = Ret ((match o with Ret (d, Ok c) => (d, c) | _ => (∅, w_dead_chain) end).1,
           Ok (match o with Ret (d, Ok c) => (d, c) | _ => (∅, w_dead_chain) end).2).
Proof. by destruct o as [[d [c|]]| |]. Qed.

Lemma wc_new_eq : NewBlockChainConsensus 1 w_range 0 5 [x6d] (∅ : wdb) = Ret (wc_start.1, Ok wc_start.2).
Proof. unfold wc_start. apply new_eq. exact wc_new_ok. Qed.

(** Two candidates and a mined block *)
Lemma steps_of (now nxt : Z) (d d1 d2 d' : wdb) (c c' : wchain) (o o2 : option (block MptWorldState))
    (b b' : block MptWorldState) r :
  NewCandidateBlock now c d = Ret (d1, o) → NewCandidateBlock nxt c d1 = Ret (d2, o2) →
  match worldState b with Some _ => negb (isNetworkBlock b) | None => false end = true →
  persists_b 5 w_range b d2 = true →
  mineCandidateBlock 10 5 w_range b c d2 = Ret (d', c', b', r) → rtc chain_step (d, c) (d', c').
Proof.
  intros H1 H2 Hf Hper%persists_b_sound Hm. destruct (worldState b) as [w|] eqn:Ew; [|done].
  apply negb_true_iff in Hf.
  eapply rtc_l; [by eapply step_candidate|]. eapply rtc_l; [by eapply step_candidate|].
  apply rtc_once. by eapply step_mine.
Qed.

Lemma wc_steps : rtc chain_step (wc_start.1, wc_start.2) (wc_m1.1.1, wc_m1.1.2).
Proof.
  destruct wc_m1_eq as [r Hr].
  exact (steps_of 10 12 wc_start.1 wc_c1.1 wc_c2.1 wc_m1.1.1 wc_start.2 wc_m1.1.2 (Some wc_c1.2) (Some wc_c2.2)
    wc_b1 wc_m1.2 r wc_candidate_eq wc_candidate_eq' wc_b1_fields wc_m1_persists Hr).
Qed.

Lemma history_is_append_only_witness :
  ∃ g, (∀ x l, path (nodes wc_start.1) g x l → path (nodes wc_m1.1.1) g x l) ∧
    ∀ x (b : block MptWorldState), is_Some (nodes wc_start.1 x) → getBlock x wc_start.1 = Ok b → getBlock x wc_m1.1.1 = Ok b.
Proof.
  destruct wc_start_inv as [g Hinv]. exists g.
  destruct (history_is_append_only g wc_start.1 wc_start.2 wc_m1.1.1 wc_m1.1.2 Hinv wc_steps) as (H1 & _ & H2).
  split; [exact H1 | exact H2].
Defined.

Lemma stored_chain_adds_up_witness :
  ∃ g, Genesis wc_m1.1.2 = Some g ∧ ∀ x n, nodes wc_m1.1.1 x = Some n →
    ∃ (b : block MptWorldState) l, getBlock x wc_m1.1.1 = Ok b ∧ path (nodes wc_m1.1.1) g x l.
Proof.
  destruct (stored_chain_adds_up (W:=MptWorldState) 0 w_range 0 5 [x6d] ∅ w_db w_ws wc_start.1 wc_start.2 wc_m1.1.1 wc_m1.1.2
    w_no_chain w_range_ok w_new_eq (bool_decide_eq_false_1 _ w_state_nonzero) wc_new_eq wc_steps) as (g & Hg & Hall).
  exists g. split; [exact Hg|]. intros x n Hn. destruct (Hall x n Hn) as (b & l & Hb & _ & Hl & _).
  exists b, l. split; [exact Hb | exact Hl].
Defined.

Lemma wc_tip_known : known_b (STATE (spec (c_tip wc_m1.1.2))) wc_m1.1.1 = true.
Proof. vm_compute. reflexivity. Qed.

Lemma restart_resumes_witness :
  ∃ d'' (c' : wchain), NewBlockChainConsensus 1 w_range 99 5 [x6d] wc_m1.1.1 = Ret (d'', Ok c') ∧
    hash (c_tip c') = hash (c_tip wc_m1.1.2) ∧ c_weight c' = c_weight wc_m1.1.2.
Proof.
  destruct (restart_resumes (W:=MptWorldState) 0 w_range 0 5 [x6d] ∅ w_db w_ws wc_start.1 wc_start.2 wc_m1.1.1 wc_m1.1.2 0 w_range 99
    w_no_chain w_range_ok w_new_eq (bool_decide_eq_false_1 _ w_state_nonzero) ltac:(discriminate) wc_new_eq wc_steps
    (known_b_sound _ _ wc_tip_known) w_range_ok) as (d'' & c' & g & Hrun & _ & _ & _ & Hh & _ & Hw & _).
  exists d'', c'. split; [exact Hrun|]. split; [exact Hh | exact Hw].
Defined.

Lemma wc_start_ledger : ∃ g, chain_inv g wc_start.1 wc_start.2 ∧ ledger (W:=MptWorldState) g wc_start.1.
Proof.
  destruct (NewBlockChainConsensus_fresh (W:=MptWorldState) 0 w_range 0 5 [x6d] ∅ w_db w_ws
    w_no_chain w_range_ok w_new_eq (bool_decide_eq_false_1 _ w_state_nonzero)) as (d & c & g & Heq & Hg).
  exists g. pose proof (eq_trans (eq_sym wc_new_eq) Heq) as H. revert Hg H.
  generalize wc_start. intros [d0 c0] Hg H. injection H as -> ->. split; [apply Hg | by eapply genesis_ledger].
Qed.

Lemma steps_ledger (d d' : wdb) (c c' : wchain) :
  (∃ g, chain_inv g d c ∧ ledger (W:=MptWorldState) g d) → rtc chain_step (d, c) (d', c') →
  ∃ g, chain_inv g d' c' ∧ ledger (W:=MptWorldState) g d'.
Proof.
  intros (g & Hinv & Hl) Hrtc. exists g.
  destruct (chain_steps_history g _ _ Hrtc Hinv) as (_ & _ & Hl' & _ & Hinv'). auto.
Qed.

Lemma wc_m1_ledger : ∃ g, chain_inv g wc_m1.1.1 wc_m1.1.2 ∧ ledger (W:=MptWorldState) g wc_m1.1.1.
Proof. exact (steps_ledger wc_start.1 wc_m1.1.1 wc_start.2 wc_m1.1.2 wc_start_ledger wc_steps). Qed.

Lemma wc_h1_child :
  bool_decide (Genesis wc_m1.1.2 = Some w_h1) || negb (bool_decide (Genesis wc_m1.1.2 = Some (cn_Parent w_n1))) = false.
Proof. vm_compute. reflexivity. Qed.

Lemma child_path (d : wdb) (c : wchain) g h n :
  Genesis c = Some g → nodes d h = Some n →
  bool_decide (Genesis c = Some h) || negb (bool_decide (Genesis c = Some (cn_Parent n))) = false →
  h ≠ g ∧ path (nodes d) g h [g; h].
Proof.
  intros Hg Hn [H1%bool_decide_eq_false_1 H2]%orb_false_elim. apply negb_false_iff, bool_decide_eq_true_1 in H2.
  rewrite Hg in H1, H2. injection H2 as Hp. split; [congruence|].
  apply (path_step _ _ h n [g]); [done | congruence |]. cbn. rewrite <- Hp. constructor.
Qed.

Lemma ancestor_follows_path_witness :
  ∃ g (b : block MptWorldState), getBlock g wc_m1.1.1 = Ok b ∧ Ancestor w_h1 3 wc_m1.1.2 wc_m1.1.1 = Ret (Some b, None).
Proof.
  destruct wc_m1_ledger as (g & Hinv & Hl).
  destruct (ancestor_follows_path g wc_m1.1.1 wc_m1.1.2 w_h1 3 Hinv Hl) as (_ & _ & Hall).
  destruct (child_path wc_m1.1.1 wc_m1.1.2 g w_h1 w_n1 (ci_genesis _ _ _ Hinv) w_n1_eq wc_h1_child) as [Hne Hp].
  destruct (Hall [g; w_h1] Hne Hp (ex_intro _ w_n1 w_n1_eq) ltac:(simpl; lia)) as (r & Hr & b & Hb & Hrb).
  exists g, b. split; [exact Hb|]. rewrite <- Hrb. exact Hr.
Defined.

Lemma descendents_read_main_list_witness :
  ∃ tip (L : list Byte64), hash (c_tip wc_m1.1.2) = Some tip ∧
    ∀ x, x ∉ L → ∃ e, Descendents (W:=MptWorldState) 5 x 3 wc_m1.1.1 = Ret ([], Some e).
Proof.
  destruct wc_m1_ledger as (g & Hinv & Hl).
  destruct (descendents_read_main_list g wc_m1.1.1 wc_m1.1.2 Hinv Hl) as (tip & L & Ht & _ & _ & _ & Hoff).
  exists tip, L. split; [exact Ht|]. intros x Hx. exact (Hoff x 3 5%nat Hx ltac:(lia)).
Defined.

Lemma wc_c2_root :
  match nodes wc_c2.1 w_gen with
  | Some gn => bool_decide (is_Some (nodes wc_c2.1 (cn_Parent gn)))
  | None => false
  end = false.
Proof. vm_compute. reflexivity. Qed.

Lemma wc_c2_inv : chain_inv w_gen wc_c2.1 wc_start.2.
Proof.
  destruct wc_candidates_inv as [g Hinv]. unfold w_gen. by rewrite (ci_genesis _ _ _ Hinv).
Qed.

Definition hashed_known_b (o : outcome (wdb * block MptWorldState * option Byte64)) : bool :=
  match o with
  | Ret (d, b, _) => match worldState b with Some w => known_b (Hash w) d | None => false end
  | _ => false
  end.

Lemma hashes_eq (o : outcome (wdb * block MptWorldState * option Byte64)) :
  hashed_known_b o = true →
  ∃ d b r w, o = Ret (d, b, r) ∧ worldState b = Some w ∧ ws_known (W:=MptWorldState) (ws_Hash (D:=wdb) w) d.
Proof.
  destruct o as [[[d b] r]| |]; [|done..]. simpl. destruct (worldState b) as [w|] eqn:E; [|done].
  intros Hk%known_b_sound. by exists d, b, r, w.
Qed.

Lemma wc_b1_hashes : hashed_known_b (computeHash 5 w_range wc_b1 wc_c2.1) = true.
Proof. vm_compute. reflexivity. Qed.

Lemma network_flag (b : block MptWorldState) :
  match worldState b with Some _ => negb (isNetworkBlock b) | None => false end = true → isNetworkBlock b = false.
Proof. destruct (worldState b); [|done]. apply negb_true_iff. Qed.

Lemma mine_and_accept_return_witness :
  ∃ k o, ∀ fuel, (k ≤ fuel)%nat → mineCandidateBlock fuel 5 w_range wc_b1 wc_start.2 wc_c2.1 = Ret o.
Proof.
  destruct (hashes_eq (computeHash 5 w_range wc_b1 wc_c2.1) wc_b1_hashes) as (d1 & b1 & r & w1 & Hc & Hw & Hk).
  destruct (mine_and_accept_return w_gen wc_c2.1 wc_start.2 5 w_range wc_b1 d1 b1 r w1 wc_c2_inv
    (root_of wc_c2.1 w_gen wc_c2_root) Hc Hw Hk) as (k & Hmine & _).
  exists k. apply Hmine. exact (network_flag wc_b1 wc_b1_fields).
Defined.
End witnesses.
