(* ===== verification/ChainState.v ===== *)
(** * The state that is read at the tip

    The chain over the world state of [Trie]: what a client writes on a
    candidate block is what is read from the best block once the candidate was
    mined and became the tip.  The world state, the block and the chain each
    have their own theorems; here they are composed. *)

From Stdlib Require Import Strings.Byte.
From S2P Require Import Prelude Bytes Db Trie TrieSpec TrieFacts WorldState WorldStateI Block BlockFacts MainList Consensus ConsensusFacts.
From S2P Require Import Concrete TrieTheorems BlockTheorems ConsensusTheorems HistoryFacts HistoryTheorems.

(** ** Maps *)

(** The map after the writes of a block *)
Definition written (base : gmap bytes bytes) (writes : gmap bytes (option bytes)) : gmap bytes bytes :=
  m_apply_all base (map_to_list writes).

Lemma m_apply_ne (m : gmap bytes bytes) (x : wchange) k : x.1 ≠ k → m_apply m x !! k = m !! k.
Proof. intros Hk. unfold m_apply. destruct x as [k' [[|x v]|]]; simpl in *; by simplify_map_eq. Qed.

(** The value of a key in the map *)
Definition value_of (x : option bytes) : option bytes := match x with Some (y :: v) => Some (y :: v) | _ => None end.

Lemma m_apply_all_lookup k (cs : list wchange) : NoDup (map fst cs) → ∀ m,
  (∀ x, (k, x) ∈ cs → m_apply_all m cs !! k = value_of x) ∧ (k ∉ map fst cs → m_apply_all m cs !! k = m !! k).
Proof.
  induction cs as [|[k' x'] cs IH]; intros Hnd m; [split; [set_solver | done]|]. cbn [map fst] in Hnd. apply list.NoDup_cons in Hnd as [Hno Hnd].
  destruct (IH Hnd (m_apply m (k', x'))) as [H1 H2]. change (m_apply_all m ((k', x') :: cs)) with (m_apply_all (m_apply m (k', x')) cs). split.
  - intros x Hx. apply elem_of_cons in Hx as [[= <- <-]|Hx]; [|by apply H1]. rewrite H2 by done.
    unfold m_apply. simpl. destruct x as [[|y v]|]; by simplify_map_eq.
  - cbn [map fst]. intros Hk. rewrite not_elem_of_cons in Hk. destruct Hk as [Hne Hk]. rewrite H2 by done. by apply m_apply_ne.
Qed.

Lemma written_lookup base writes k :
  written base writes !! k = match writes !! k with Some x => value_of x | None => base !! k end.
Proof.
  destruct (m_apply_all_lookup k (map_to_list writes) (NoDup_fst_map_to_list writes) base) as [H1 H2]. unfold written.
  destruct (writes !! k) as [x|] eqn:E; [apply H1; by apply elem_of_map_to_list|]. apply H2. intros Hin.
  apply list_elem_of_fmap in Hin as ([k' x] & -> & Hx). apply elem_of_map_to_list in Hx. simpl in *. congruence.
Qed.

Lemma models_written base writes t : wf_tree t → models base t → models (written base writes) (effect t writes).
Proof. intros. by apply models_apply_all. Qed.

Section state.
Context {D : Type} {dbo : Database D} {dbl : DatabaseLaws D}.
Context {sha : Sha512} {cdc : Codec node} {cdl : CodecLaws node}.
Context {cdn : Codec chainNode} {cdnl : CodecLaws chainNode} {cds : Codec BlockSpec} {cdsl : CodecLaws BlockSpec}.
Context (U : content → Prop) (HU : universe U) (mfuel : nat).
#[local] Hint Extern 0 (WorldState MptWorldState _) => exact (mpt_instance mfuel) : typeclass_instances.
Abbreviation chain := (BlockChainConsensus MptWorldState).
Implicit Types (d : D) (c : chain) (b child : block MptWorldState) (ws : MptWorldState).

(** ** Hashing keeps the world state *)

Lemma seal_worldState attempts state b : worldState (seal attempts state b).1 = worldState b.
Proof.
  unfold seal. destruct (isNetworkBlock b); by destruct (powLoop _ _ _ _ _ _ _ _) as [nonce [h|]].
Qed.

Lemma repr_known d ws t : repr d ws t → mpt_known (Hash ws) d.
Proof.
  intros [H1 _ _ H4 _ H6]. unfold Hash. split; [|done]. rewrite H1.
  destruct (H4 [] t eq_refl) as (n & Hn & _). exists n. exact Hn.
Qed.

(** Hashing a block over a trie that is in the database leaves the world state
    of the block in the database: what the steps of the chain ask of blocks
    that are mined or accepted holds, unless the root hash is the zero bytes. *)
Theorem trie_persists attempts range b d ws t :
  db_ok U d → worldState b = Some ws → repr d ws t → is_range range → covers U t (range (variables b)) →
  thash (effect t (variables b)) ≠ BytesToByte64 [] →
  persists (wsl:=mpt_world_state_laws (S mfuel)) attempts range b d.
Proof.
  intros Hok Hws Hr Hrange Hcov Hnz d1 b1 r w1 Hrun Hw1.
  destruct (computeHash_refines U HU mfuel attempts range b ws d t Hok Hws Hr Hrange Hcov) as (d' & ws' & Hc & _ & Hr' & _).
  pose proof (eq_trans (eq_sym Hc) Hrun) as [= <- <- _]. rewrite seal_worldState in Hw1. injection Hw1 as <-.
  split; [by eapply repr_known|]. change (ws_Hash ws') with (Hash ws'). unfold Hash. by rewrite (rp_hash _ _ _ Hr').
Qed.

(** ** Writes that no world state sees *)

Abbreviation same_tries := (same_inside trie_key).

Lemma same_getState d d' h : same_tries d d' → getState h d' = getState h d.
Proof. intros Hs. apply getNode_contents, Hs. exists h. by left. Qed.

Lemma same_getTxRoot d d' h : same_tries d d' → getTxRoot h d' = getTxRoot h d.
Proof. intros Hs. apply getNode_contents, Hs. exists h. by right. Qed.

Lemma same_db_ok d d' : same_tries d d' → db_ok U d → db_ok U d'.
Proof.
  intros Hs [Hst Htx]. split; intros h n; [rewrite (same_getState d d') by done; apply Hst|].
  rewrite (same_getTxRoot d d') by done. apply Htx.
Qed.

Lemma same_repr d d' ws t : same_tries d d' → repr d ws t → repr d' ws t.
Proof.
  intros Hs [H1 H2 H3 H4 H5 H6]. split; try done; [|by rewrite (same_getTxRoot d d')].
  intros p x Hx. rewrite (same_getState d d') by done. exact (H4 p x Hx).
Qed.

Lemma chain_key_trie k : chain_key k → ¬ trie_key k.
Proof.
  intros Hc [h Hk]. refine (mpt_chain_separate 0 k Hc _). destruct Hk; exists h; auto.
Qed.

Lemma put_tries k v d d' e : ¬ trie_key k → Put k v d = (d', e) → same_tries d d'.
Proof. intros Hk. rewrite put_eq. intros [= <- _] k' Hk'. rewrite put_contents, lookup_insert_ne; [done|]. by intros ->. Qed.

Lemma putChainNode_tries n d d' e : putChainNode n d = Ret (d', e) → same_tries d d'.
Proof.
  unfold putChainNode. destruct (Serialize n); [|by intros [= <- _]]. rewrite outcome_bind_ret. intros (h & _ & [=Hp]).
  eapply put_tries; [|exact Hp]. apply chain_key_trie. left. exists h. by left.
Qed.

Lemma putBlock_tries b d d' e : putBlock b d = Ret (d', e) → same_tries d d'.
Proof.
  unfold putBlock. destruct (serializeBlock (Some b)); [|by intros [= <- _]]. rewrite outcome_bind_ret. intros (h & _ & [=Hp]).
  eapply put_tries; [|exact Hp]. apply chain_key_trie. left. exists h. by right.
Qed.

Lemma registerLoop_tries ws h txs : ∀ d d' e, registerLoop ws h txs d = Ret (d', e) → same_tries d d'.
Proof.
  induction txs as [|tx txs IH]; intros d d' e; cbn [registerLoop]; [by intros [= <- _]|].
  rewrite outcome_bind_ret. intros (id & _ & Hr). simpl in Hr. unfold RegisterTransaction, registerTransactionToFlatKV in Hr.
  destruct (Put _ (Bytes id) d) as [d1 [e1|]] eqn:Hp; apply put_tries in Hp; try apply flatKey_not_trie; [by injection Hr as <- _|].
  etrans; [exact Hp | by eapply IH].
Qed.

Lemma registerTransactions_tries b d d' e : registerTransactions b d = Ret (d', e) → same_tries d d'.
Proof. unfold registerTransactions. destruct (worldState b); [apply registerLoop_tries | by intros [= <- _]]. Qed.

Lemma walkUp_tries fuel (st : option MptWorldState) : ∀ pn m d d' x y, walkUp fuel st pn m d = Ret (d', x, y) → same_tries d d'.
Proof.
  induction fuel as [|fuel IH]; intros pn m d d' x y; cbn [walkUp]; rewrite outcome_bind_ret; intros (p & _ & Hr);
    (destruct (cn_IsMainList p); [by injection Hr as <- _ _|]); [done|].
  apply outcome_bind_ret in Hr as ([d1 e1] & H1%putChainNode_tries & Hr). apply outcome_bind_ret in Hr as (hp & _ & Hr).
  apply outcome_bind_ret in Hr as (d2 & H2 & Hr%IH). trans d1; [done|]. trans d2; [|done].
  destruct (getBlock hp d1) as [b|]; [|by injection H2 as <-].
  apply outcome_bind_ret in H2 as ([d3 e3] & H3%registerTransactions_tries & [= <-]). done.
Qed.

Lemma walkDown_tries fuel : ∀ n d d', walkDown fuel n d = Ret d' → same_tries d d'.
Proof.
  induction fuel as [|fuel IH]; intros [n|] d d'; cbn [walkDown]; try done; [by intros [= <-]| |by intros [= <-]].
  rewrite outcome_bind_ret. intros ([d1 e1] & H1%putChainNode_tries & Hr). apply outcome_bind_ret in Hr as (nx & _ & Hr%IH). by trans d1.
Qed.

(** ** The state of the tip *)

(** The chain's world state stands for the trie [t]. *)
Record tip_state d c t : Prop := {
  ts_ok : db_ok U d;
  ts_repr : ∃ ws, c_state c = Some ws ∧ repr d ws t;
}.

(** The trie [t] is stored and can be rebased to. *)
Record kept d t : Prop := {
  k_wf : wf_tree t;
  k_holds : holds getState d t;
  k_root : is_Some (getTxRoot (thash t) d);
}.

Lemma repr_kept d ws t : repr d ws t → kept d t.
Proof. intros [H1 _ H3 H4 _ H6]. split; [done..|by rewrite <- H1]. Qed.

Lemma same_kept d d' t : same_tries d d' → kept d t → kept d' t.
Proof.
  intros Hs [H1 H2 H3]. split; [done| |by rewrite (same_getTxRoot d d')].
  intros p x Hx. rewrite (same_getState d d') by done. exact (H2 p x Hx).
Qed.

Lemma same_tip d d' c t : same_tries d d' → tip_state d c t → tip_state d' c t.
Proof. intros Hs [H1 (ws & H2 & H3)]. split; [by eapply same_db_ok|]. exists ws. split; [done | by eapply same_repr]. Qed.

Lemma moveTip_state fuel child cn pn c d d' c' t t' :
  tip_state d c t → kept d t' → STATE (spec child) = thash t' →
  moveTip fuel child cn pn c d = Ret (d', c', None) → tip_state d' c' t' ∧ c_tip c' = child.
Proof.
  intros Ht Hk Hst. unfold moveTip. rewrite outcome_bind_ret. intros (h & _ & Hm). destruct (Put dagTip (Bytes h) d) as [d1 [e1|]] eqn:Hp; [done|].
  apply put_tries in Hp; [|apply chain_key_trie; by right]. cbn [c_state] in Hm.
  destruct (same_tip d d1 c t Hp Ht) as [Hok1 (ws & Hws & Hr1)]. destruct (same_kept d d1 t' Hp Hk) as [Hwf Hho Hro].
  rewrite Hws in Hm. cbn [deref outcome_bind] in Hm.
  destruct (Rebase_refines U d1 ws t t' HU Hok1 Hr1 Hwf Hho Hro) as (d2 & ws2 & Hreb & [Hr2 Hok2 _]).
  change (ws_Rebase ws (STATE (spec child)) d1) with (Rebase ws (STATE (spec child)) d1) in Hm. rewrite Hst, Hreb in Hm. cbn [c_state] in Hm.
  apply outcome_bind_ret in Hm as ([d3 [e3|]] & H3%registerTransactions_tries & Hm); [done|].
  apply outcome_bind_ret in Hm as ([[d4 x4] y4] & H4%walkUp_tries & Hm). apply outcome_bind_ret in Hm as ([d5 e5] & H5%putChainNode_tries & Hm).
  apply outcome_bind_ret in Hm as (old & _ & Hm). apply outcome_bind_ret in Hm as (d6 & H6%walkDown_tries & [= <- <-]).
  assert (same_tries d2 d6) as Hs by (trans d3; [done|]; trans d4; [done|]; by trans d5).
  split; [|done]. split; [by eapply same_db_ok|]. exists ws2. split; [done | by eapply same_repr].
Qed.

Lemma addValidatedBlock_state fuel child parent c d d' c' t t' :
  tip_state d c t → kept d t' → STATE (spec child) = thash t' →
  addValidatedBlock fuel child parent c d = Ret (d', c', None) →
  (better c child ∧ c_tip c' = child ∧ tip_state d' c' t') ∨ (¬ better c child ∧ c' = c ∧ tip_state d' c t).
Proof.
  intros Ht Hk Hst. unfold addValidatedBlock. rewrite outcome_bind_ret. intros (h & _ & Ha).
  destruct (getChainNode h d); [done|]. apply outcome_bind_ret in Ha as ([] & _ & Ha); [done|].
  apply outcome_bind_ret in Ha as ([d1 e1] & H1%putBlock_tries & Ha). apply outcome_bind_ret in Ha as (hp & _ & Ha).
  destruct (getChainNode hp d1) as [pn|]; [|done]. apply outcome_bind_ret in Ha as ([d2 e2] & H2%putChainNode_tries & Ha).
  assert (same_tries d d2) as Hs by (by trans d1). case_decide as Hb.
  - left. apply (moveTip_state _ _ _ _ _ _ _ _ t t') in Ha as [Hs' Ht']; [done | by eapply same_tip | by eapply same_kept | done].
  - right. apply outcome_bind_ret in Ha as ([d3 e3] & H3%putChainNode_tries & [= <- <-]). split; [done|]. split; [done|].
    eapply same_tip; [|exact Ht]. by trans d2.
Qed.

(** ** Blocks on the tip *)

(** A candidate block that was opened on the tip and only written to *)
Record on_tip d b t : Prop := {
  ot_state : ∃ ws, worldState b = Some ws ∧ repr d ws t;
  ot_own : isNetworkBlock b = false;
}.

Lemma fresh_rebase d ws t : U (tcontent t_empty) → db_ok U d → repr d ws t →
  ∃ d1 w0 d' ws', NewMptWorldState d = (d1, Some w0) ∧ Rebase w0 (Hash ws) d1 = (d', ws', None) ∧
    db_ok U d' ∧ repr d' ws t ∧ repr d' ws' t.
Proof.
  intros HUe Hok Hr. destruct (NewMptWorldState_refines U d HU Hok HUe) as (d1 & w0 & Hnew & Hr0 & Hok1 & Hext & Hroot & _).
  assert (repr d1 ws t) as Hr1.
  { destruct Hr as [H1 H2 H3 H4 H5 H6]. split; try done; [by eapply holds_extends | by apply Hroot]. }
  destruct (repr_kept d1 ws t Hr1) as [Hwf Hho Hro].
  destruct (Rebase_refines U d1 w0 t_empty t HU Hok1 Hr0 Hwf Hho Hro) as (d' & ws' & Hreb & [Hr' Hok' Hg]).
  exists d1, w0, d', ws'. unfold Hash. rewrite (rp_hash _ _ _ Hr). split; [done|]. split; [done|]. split; [done|].
  split; [by eapply repr_grows | done].
Qed.

Lemma addUncles_open us : ∀ b b', addUncles us b = Ret b' →
  worldState b' = worldState b ∧ isNetworkBlock b' = isNetworkBlock b ∧ variables b' = variables b.
Proof.
  induction us as [|u us IH]; intros b b'; cbn [addUncles]; [by intros [= <-]|]. rewrite outcome_bind_ret.
  intros (b1 & Hu & (-> & -> & ->)%IH). unfold addUncle in Hu. by apply outcome_bind_ret in Hu as (h & _ & [= <-]).
Qed.

Lemma NewCandidateBlock_state now c d d' b t : U (tcontent t_empty) → tip_state d c t →
  NewCandidateBlock now c d = Ret (d', Some b) → tip_state d' c t ∧ on_tip d' b t ∧ variables b = ∅.
Proof.
  intros HUe [Hok (ws & Hws & Hr)]. destruct (fresh_rebase d ws t HUe Hok Hr) as (d1 & w0 & d2 & ws' & Hnew & Hreb & Hok2 & Hr2 & Hr').
  unfold NewCandidateBlock. change (ws_New d) with (NewMptWorldState d). rewrite Hnew, Hws. cbn [deref outcome_bind].
  change (ws_Rebase w0 (ws_Hash ws) d1) with (Rebase w0 (Hash ws) d1). rewrite Hreb. rewrite outcome_bind_ret. intros (h & _ & Hc).
  apply outcome_bind_ret in Hc as (us & _ & Hc). apply outcome_bind_ret in Hc as (b1 & (H1 & H2 & H3)%addUncles_open & [= <- <-]).
  split; [by split; [|exists ws]|]. split; [|by rewrite H3]. split; [exists ws'; by rewrite H1 | by rewrite H2].
Qed.

Lemma BestBlock_state c d t : U (tcontent t_empty) → tip_state d c t →
  ∃ d' b, BestBlock c d = Ret (d', Some b) ∧ tip_state d' c t ∧ on_tip d' b t ∧ variables b = ∅ ∧ hash b = hash (c_tip c).
Proof.
  intros HUe [Hok (ws & Hws & Hr)]. destruct (fresh_rebase d ws t HUe Hok Hr) as (d1 & w0 & d2 & ws' & Hnew & Hreb & Hok2 & Hr2 & Hr').
  unfold BestBlock. change (ws_New d) with (NewMptWorldState d). rewrite Hnew, Hws. cbn [deref outcome_bind].
  change (ws_Rebase w0 (ws_Hash ws) d1) with (Rebase w0 (Hash ws) d1). rewrite Hreb.
  exists d2, (clone ws' (c_tip c)). split; [done|]. split; [by split; [|exists ws]|]. split; [|done]. split; [by exists ws' | done].
Qed.
(** ** Mining *)

Lemma seal_fields attempts state b : isNetworkBlock b = false →
  let b' := (seal attempts state b).1 in STATE (spec b') = state ∧ worldState b' = worldState b.
Proof.
  intros Hn b'. split; [by apply seal_STATE|]. subst b'. unfold seal. rewrite Hn. by destruct (powLoop _ _ _ _ _ _ _ _) as [nonce [h|]].
Qed.

Lemma mine_state fuel attempts range b c d d' c' b' r t :
  tip_state d c t → on_tip d b t → is_range range → covers U t (range (variables b)) →
  mineCandidateBlock fuel attempts range b c d = Ret (d', c', b', Ok r) →
  r = b' ∧ ((better c b' ∧ c_tip c' = b' ∧ tip_state d' c' (effect t (variables b))) ∨ (¬ better c b' ∧ c' = c ∧ tip_state d' c t)).
Proof.
  intros [Hok (w & Hw & Hr)] [(ws & Hws & Hrb) Hnet] Hrange Hcov. unfold mineCandidateBlock. rewrite outcome_bind_ret.
  intros ([b1 p] & Hval & Hm). destruct p as [p|]; [|done]. destruct (validateBlock_fields _ _ _ _ _ Hval) as [[um ->] _].
  destruct (computeHash_refines U HU mfuel attempts range (set_uncleMiners um b) ws d t Hok Hws Hrb Hrange Hcov)
    as (d1 & ws1 & Hch & [_ Hok1 Hext _] & Hr1 & Hroot). cbn [variables set_uncleMiners] in *.
  set (t' := effect t (variables b)) in *. rewrite Hch in Hm. cbn [outcome_bind] in Hm.
  destruct (seal_fields attempts (thash t') (set_worldState (Some ws1) (set_uncleMiners um b)) Hnet) as [Hst _].
  destruct (seal attempts (thash t') _) as [b2 [h|]]; [|done]. cbn [fst snd] in *.
  apply outcome_bind_ret in Hm as ([[d2 c2] [e|]] & Hadd & Hm); [done|]. injection Hm as <- <- <- <-. split; [done|].
  assert (tip_state d1 c t) as Ht1.
  { split; [done|]. exists w. split; [done|]. destruct Hr as [H1 H2 H3 H4 H5 H6]. split; try done; [by eapply holds_extends | by rewrite H1]. }
  exact (addValidatedBlock_state _ _ _ _ _ _ _ t t' Ht1 (repr_kept _ _ _ Hr1) Hst Hadd).
Qed.

(** ** Reading *)

(** What is read from a block that nothing was written to *)
Lemma Lookup_tip d b t base k : db_ok U d → on_tip d b t → variables b = ∅ → models base t →
  ∃ b', block_Lookup k b d = Ret (b', view_lookup base ∅ k).
Proof.
  intros Hok [(ws & Hws & Hr) _] Hv Hm.
  destruct (block_Lookup_view U HU mfuel b ws d t base ∅ k Hok Hws Hr Hm) as (b' & Hl & _); [|by exists b'].
  rewrite Hv. intros k'. by left.
Qed.

(** ** A new chain *)

Lemma NewBlockChainConsensus_state attempts range now ts miner d d' c :
  U (tcontent t_empty) → db_ok U d → no_chain d → (∀ m, range m ≡ₚ map_to_list m) →
  NewBlockChainConsensus (S attempts) range now ts miner d = Ret (d', Ok c) → tip_state d' c t_empty.
Proof.
  intros HUe Hok Hno Hr. destruct (NewMptWorldState_refines U d HU Hok HUe) as (d1 & w0 & Hnew & Hr0 & Hok1 & _ & _ & _ & Hfr).
  unfold NewBlockChainConsensus. change (ws_New d) with (NewMptWorldState d). rewrite Hnew.
  destruct (genesis_hash attempts range now ts (Bytes (BytesToByte64 [])) w0 d1 Hr) as (g & b & -> & Hh & Hw & _). cbn [outcome_bind].
  assert (contents d1 !! dagTip = None) as Htip by (rewrite Hfr; [apply Hno; by right | apply chain_key_trie; by right]).
  destruct (proj2 (get_err_iff dagTip d1) Htip) as [e ->]. rewrite outcome_bind_ret. intros (h & _ & Hc).
  destruct (Put dagTip (Bytes h) d1) as [d2 [e2|]] eqn:H2; [done|]. apply put_tries in H2; [|apply chain_key_trie; by right].
  apply outcome_bind_ret in Hc as ([d3 [e3|]] & H3%putBlock_tries & Hc); [done|].
  apply outcome_bind_ret in Hc as ([d4 [e4|]] & H4%putChainNode_tries & Hc); [done|]. injection Hc as <- <-.
  eapply (same_tip d1); [trans d2; [done|]; by trans d3|]. split; [done|]. by exists w0.
Qed.

(** C9: From a candidate block to the tip: when any sequence of updates, deletes and look-ups on
    a candidate block over a tip whose world state is a given map is followed by mining the
    block, and the mined block wins over the tip, then the look-ups answered as on the map with
    the writes before them, and the best block afterwards is the mined one and answers a look-up
    of every key as the map with all the writes. *)
Theorem mined_writes_are_read now fuel attempts range pw ops c d d1 b b1 rs d2 c2 b2 r t base :
  U (tcontent t_empty) → tip_state d c t → models base t → is_range range →
  NewCandidateBlock now c d = Ret (d1, Some b) → run_block ops b d1 = Ret (b1, rs) → covers U t (range (variables b1)) →
  MineCandidateBlockPoW fuel attempts range b1 pw c d1 = Ret (d2, c2, b2, Ok r) → better c b2 →
  let writes := (run_view base ops ∅).1 in
  rs = (run_view base ops ∅).2 ∧
  ∃ d3 best, BestBlock c2 d2 = Ret (d3, Some best) ∧ hash best = hash b2 ∧
    ∀ k, ∃ best', block_Lookup k best d3 =
      Ret (best', match match writes !! k with Some x => value_of x | None => base !! k end with
                  | Some v => Ok v
                  | None => Err (CoreError ERR_NOT_FOUND "key does not exists")
                  end).
Proof.
  intros HUe Ht Hm Hrange Hnew Hrun Hcov Hmine Hbet writes.
  destruct (NewCandidateBlock_state _ _ _ _ _ t HUe Ht Hnew) as (Ht1 & [(ws & Hws & Hr) Hnet] & Hv).
  destruct (run_block_refines U HU mfuel ops base b ws d1 t ∅ (ts_ok _ _ _ Ht1) Hws Hr Hm) as (b' & Hrun' & Hws' & Hov).
  { rewrite Hv. intros k. by left. }
  rewrite Hrun in Hrun'. injection Hrun' as <- ->. split; [done|].
  destruct (run_block_fields _ _ _ _ _ Hrun) as [vs Hb1].
  assert (on_tip d1 (set_pow pw b1) t) as Hon by (split; [by exists ws | by rewrite Hb1]).
  destruct (mine_state _ _ _ _ _ _ _ _ _ _ t Ht1 Hon Hrange Hcov Hmine) as [-> [(_ & Htip & Ht2)|[Hno _]]]; [|done].
  cbn [variables set_pow] in Ht2. pose proof (rp_wf _ _ _ Hr) as Hwf. rewrite (effect_overlays t base writes _ Hwf Hm Hov) in Ht2.
  destruct (BestBlock_state _ _ _ HUe Ht2) as (d3 & best & Hbest & Ht3 & Hon3 & Hv3 & Hh3). exists d3, best. split; [done|].
  split; [by rewrite Hh3, Htip|]. intros k.
  destruct (Lookup_tip d3 best _ (written base writes) k (ts_ok _ _ _ Ht3) Hon3 Hv3 (models_written _ _ _ Hwf Hm)) as [best' Hl].
  exists best'. rewrite Hl. unfold view_lookup. by rewrite lookup_empty, written_lookup.
Qed.
End state.

(** ** Witness *)

Section witnesses.
#[local] Existing Instances w_hash w_codec w_laws w_ops w_spec_codec w_cn_codec w_cn_laws w_spec_laws w_ws_laws w_separate.
Abbreviation wdb := (gmap bytes bytes).
Abbreviation wchain := (BlockChainConsensus MptWorldState).

(** A candidate of a new chain, written to, and mined *)
Definition wz_ops : list bop := [BUpdate [x61] [x31]; BLookup [x61]; BDelete [x62]].
Definition run_of (o : outcome (block MptWorldState * list (result bytes))) : block MptWorldState * list (result bytes) :=
  match o with Ret r => r | _ => (w_dead, []) end.
Definition run_ok (o : outcome (block MptWorldState * list (result bytes))) : bool := match o with Ret _ => true | _ => false end.
Lemma run_of_eq o : run_ok o = true → o = Ret ((run_of o).1, (run_of o).2).
Proof. by destruct o as [[b rs]| |]. Qed.
Definition wz_block : block MptWorldState := (run_of (run_block wz_ops wc_c1.2 wc_c1.1)).1.
Definition wz_reads : list (result bytes) := (run_of (run_block wz_ops wc_c1.2 wc_c1.1)).2.
Definition wz_mined : wdb * wchain * block MptWorldState :=
  w_mined_state (MineCandidateBlockPoW 10 5 w_range wz_block None wc_start.2 wc_c1.1).

Lemma wz_run_ok : run_ok (run_block wz_ops wc_c1.2 wc_c1.1) = true.
Proof. vm_compute. reflexivity. Qed.
Lemma wz_run_eq : run_block wz_ops wc_c1.2 wc_c1.1 = Ret (wz_block, wz_reads).
Proof. exact (run_of_eq (run_block wz_ops wc_c1.2 wc_c1.1) wz_run_ok). Qed.

Abbreviation mining := (outcome (wdb * wchain * block MptWorldState * result (block MptWorldState))).
Definition mine_ok (o : mining) : bool := match o with Ret (_, _, _, Ok _) => true | _ => false end.
Lemma mine_ok_eq (o : mining) : mine_ok o = true → ∃ r, o = Ret ((w_mined_state o).1.1, (w_mined_state o).1.2, (w_mined_state o).2, Ok r).
Proof. destruct o as [[[[d c] b] [r|]]| |]; [by eexists|done..]. Qed.
Lemma wz_mined_ok : mine_ok (MineCandidateBlockPoW 10 5 w_range wz_block None wc_start.2 wc_c1.1) = true.
Proof. vm_compute. reflexivity. Qed.
Lemma wz_mined_eq : ∃ r, MineCandidateBlockPoW 10 5 w_range wz_block None wc_start.2 wc_c1.1 =
  Ret (wz_mined.1.1, wz_mined.1.2, wz_mined.2, Ok r).
Proof. exact (mine_ok_eq (MineCandidateBlockPoW 10 5 w_range wz_block None wc_start.2 wc_c1.1) wz_mined_ok). Qed.
Lemma wz_better : bool_decide (c_weight wc_start.2 < Uint64 (Weight wz_mined.2)) = true.
Proof. vm_compute. reflexivity. Qed.

Definition wz_trees : list tree := trees t_empty (w_range (variables wz_block)).
Definition wz_U : content → Prop := U_of wz_trees.
Lemma wz_universe : universe wz_U.
Proof. apply universe_b_sound. vm_compute. reflexivity. Qed.
Lemma wz_empty : wz_U (tcontent t_empty).
Proof. apply (U_of_covered wz_trees t_empty) with []; [apply trees_head | done]. Qed.
Lemma wz_covers : covers wz_U t_empty (w_range (variables wz_block)).
Proof. apply covers_trees. by intros x Hx. Qed.

Lemma wz_start : tip_state wz_U wc_start.1 wc_start.2 t_empty.
Proof.
  exact (NewBlockChainConsensus_state wz_U wz_universe 0 0 w_range 0 5 [x6d] ∅ wc_start.1 wc_start.2 wz_empty (db_ok_empty wz_U)
    w_no_chain w_range_ok wc_new_eq).
Qed.

Lemma mined_writes_are_read_witness :
  ∃ d3 best best', BestBlock wz_mined.1.2 wz_mined.1.1 = Ret (d3, Some best) ∧ block_Lookup [x61] best d3 = Ret (best', Ok [x31]).
Proof.
  destruct wz_mined_eq as [r Hr].
  destruct (mined_writes_are_read wz_U wz_universe 0 10 10 5 w_range None wz_ops wc_start.2 wc_start.1 wc_c1.1 wc_c1.2 wz_block wz_reads
    wz_mined.1.1 wz_mined.1.2 wz_mined.2 r t_empty ∅ wz_empty wz_start models_empty w_range_ok wc_candidate_eq wz_run_eq wz_covers Hr
    (or_introl (bool_decide_eq_true_1 _ wz_better))) as (_ & d3 & best & Hb & _ & Hall).
  destruct (Hall [x61]) as [best' Hl]. exists d3, best, best'. split; [exact Hb | exact Hl].
Defined.
End witnesses.
