(* ===== verification/SimpleBlock.v ===== *)
(** * Core blocks ([src/core/block.go])

    The block type of [src/core/chain], its wire format [BlockSpec] and the
    hash over its fields.  A pointer of the code is the array it points to,
    except for [hash], which is [None] until it is computed. *)

From Stdlib Require Import Strings.Byte.
From S2P Require Import Prelude Bytes Db.

(** [type BlockSpec struct] *)
Record BlockSpec := MkBlockSpec {
  ParentHash : Byte64;
  Miner : Byte64;
  Transactions : list Byte8;
  Timestamp : Byte8;
  Depth : Byte8;
  Weight : Byte8;
  State : Byte64;
  Uncles : list Byte64;
  Nonce : Byte8;
}.

(** [type SimpleBlock struct] *)
Record SimpleBlock := MkSimpleBlock {
  parentHash : Byte64;
  miner : Byte64;
  hash : option Byte64;
  opCodes : list Byte8;
  timestamp : Byte8;
  depth : Byte8;
  weight : Byte8;
  state : Byte64;
  uncles : list Byte64;
  nonce : Z;
}.

(** [func (b *SimpleBlock) Nonce() *Byte8]; the other accessors are the fields. *)
Definition block_Nonce (b : SimpleBlock) : Byte8 := Uint64ToByte8 (nonce b).

Definition set_hash (h : option Byte64) (b : SimpleBlock) : SimpleBlock :=
  MkSimpleBlock (parentHash b) (miner b) h (opCodes b) (timestamp b) (depth b) (weight b) (state b)
    (uncles b) (nonce b).

(** [func (b *SimpleBlock) AddTransaction(opCode *Byte8)] *)
Definition AddTransaction (opCode : Byte8) (b : SimpleBlock) : SimpleBlock :=
  MkSimpleBlock (parentHash b) (miner b) (hash b) (opCodes b ++ [opCode]) (timestamp b) (depth b)
    (weight b) (state b) (uncles b) (nonce b).

(** [func (b *SimpleBlock) AddUncle(uncle *Byte64, weight uint64)] *)
Definition AddUncle (uncle : Byte64) (w : Z) (b : SimpleBlock) : SimpleBlock :=
  MkSimpleBlock (parentHash b) (miner b) (hash b) (opCodes b) (timestamp b) (depth b)
    (Uint64ToByte8 (u64 (w + Uint64 (weight b)))) (state b) (uncles b ++ [uncle]) (nonce b).

(** The bytes that [ComputeHash] hashes *)
Definition hashData (b : SimpleBlock) : bytes :=
  Bytes (parentHash b) ++ Bytes (miner b) ++ Bytes (timestamp b) ++ Bytes (state b) ++
  concat (map Bytes (opCodes b)) ++ Bytes (weight b) ++ concat (map Bytes (uncles b)) ++
  Bytes (Uint64ToByte8 (nonce b)).

(** [func (b *SimpleBlock) ComputeHash()] *)
Definition ComputeHash `{Sha512} (b : SimpleBlock) : SimpleBlock :=
  set_hash (Some (BytesToByte64 (Bytes (Sum512 (hashData b))))) b.

(** [func NewSimpleBlock(previous, weight, depth, ts, miner)]; [now] is the
    value of [time.Now().UnixNano()] and [id] the miner's [Id()]. *)
Definition NewSimpleBlock (now : Z) (previous : Byte64) (w d ts : Z) (id : bytes) : SimpleBlock :=
  let ts := if decide (ts = 0) then u64 now else ts in
  MkSimpleBlock previous (BytesToByte64 id) None [] (Uint64ToByte8 ts) (Uint64ToByte8 d)
    (Uint64ToByte8 w) (BytesToByte64 []) [] 0.

(** [func NewSimpleBlockFromSpec(spec *BlockSpec) *SimpleBlock] *)
Definition NewSimpleBlockFromSpec `{Sha512} (spec : BlockSpec) : SimpleBlock :=
  ComputeHash (MkSimpleBlock (BytesToByte64 (Bytes (ParentHash spec))) (BytesToByte64 (Bytes (Miner spec)))
    None (map (λ opCode, BytesToByte8 (Bytes opCode)) (Transactions spec))
    (BytesToByte8 (Bytes (Timestamp spec))) (BytesToByte8 (Bytes (Depth spec)))
    (BytesToByte8 (Bytes (Weight spec))) (BytesToByte64 (Bytes (State spec)))
    (map (λ uncle, BytesToByte64 (Bytes uncle)) (Uncles spec)) (Uint64 (Nonce spec))).

(** [func NewBlockSpecFromBlock(block Block) *BlockSpec] *)
Definition NewBlockSpecFromBlock (block : SimpleBlock) : BlockSpec :=
  MkBlockSpec (BytesToByte64 (Bytes (parentHash block))) (BytesToByte64 (Bytes (miner block)))
    (map (λ tx, BytesToByte8 (Bytes tx)) (opCodes block)) (BytesToByte8 (Bytes (timestamp block)))
    (BytesToByte8 (Bytes (depth block))) (BytesToByte8 (Bytes (weight block))) (state block)
    (map (λ uncle, BytesToByte64 (Bytes uncle)) (uncles block)) (BytesToByte8 (Bytes (block_Nonce block))).

(** ** Facts *)

Lemma copy8 (a : Byte8) : BytesToByte8 (Bytes a) = a.
Proof. apply BytesToArr_Bytes. Qed.

Lemma copy64 (a : Byte64) : BytesToByte64 (Bytes a) = a.
Proof. apply BytesToArr_Bytes. Qed.

Lemma copies8 (l : list Byte8) : map (λ a, BytesToByte8 (Bytes a)) l = l.
Proof. induction l as [|a l IH]; [done|]. cbn [map]. by rewrite copy8, IH. Qed.

Lemma copies64 (l : list Byte64) : map (λ a, BytesToByte64 (Bytes a)) l = l.
Proof. induction l as [|a l IH]; [done|]. cbn [map]. by rewrite copy64, IH. Qed.

Lemma spec_fields b :
  NewBlockSpecFromBlock b =
  MkBlockSpec (parentHash b) (miner b) (opCodes b) (timestamp b) (depth b) (weight b) (state b)
    (uncles b) (block_Nonce b).
Proof. unfold NewBlockSpecFromBlock. by rewrite !copy8, !copy64, !copies8, !copies64. Qed.

Lemma ComputeHash_hash `{Sha512} b : is_Some (hash (ComputeHash b)).
Proof. by eexists. Qed.

(** A block read back from its spec is the block with its hash computed. *)
Lemma spec_round_trip `{Sha512} b :
  is_u64 (nonce b) → NewSimpleBlockFromSpec (NewBlockSpecFromBlock b) = ComputeHash b.
Proof.
  intros Hn. destruct b as [p m h ops ts dp w st us nn]. simpl in Hn.
  unfold NewSimpleBlockFromSpec, NewBlockSpecFromBlock, block_Nonce.
  cbn [parentHash miner hash opCodes timestamp depth weight state uncles nonce ParentHash Miner Transactions Timestamp Depth Weight State Uncles Nonce set_hash].
  by rewrite ?copy8, ?copy64, ?copies8, ?copies64, Uint64_Uint64ToByte8, u64_small.
Qed.

Lemma spec_from_spec `{Sha512} s : NewBlockSpecFromBlock (NewSimpleBlockFromSpec s) = s.
Proof.
  destruct s as [p m ops ts dp w st us nn].
  unfold NewSimpleBlockFromSpec, NewBlockSpecFromBlock, ComputeHash, block_Nonce.
  cbn [parentHash miner hash opCodes timestamp depth weight state uncles nonce ParentHash Miner Transactions Timestamp Depth Weight State Uncles Nonce set_hash].
  by rewrite ?copy8, ?copy64, ?copies8, ?copies64, Uint64ToByte8_Uint64.
Qed.

Lemma ComputeHash_idemp `{Sha512} b : ComputeHash (ComputeHash b) = ComputeHash b.
Proof. done. Qed.
