(* ===== verification/Chain.v ===== *)
(** * The in-memory block chain ([src/core/chain/blockChain.go],
      [src/core/chain/blockNode.go])

    Definitions only: the operations of [BlockChainInMem].  The database is
    passed explicitly; the loops that walk the chain take fuel. *)

From Stdlib Require Import Strings.Byte.
From S2P Require Import Prelude Bytes Db SimpleBlock.

(** [src/core/errors.go] *)
Definition ERR_DUPLICATE_BLOCK : Z := 0x01.
Definition ERR_ORPHAN_BLOCK : Z := 0x02.
Definition ERR_INVALID_HASH : Z := 0x03.
Definition ERR_INVALID_BLOCK : Z := 0x04.
Definition ERR_DB_UNINITIALIZED : Z := 0x05.
Definition ERR_DB_CORRUPTED : Z := 0x06.
Definition ERR_INVALID_UNCLE : Z := 0x07.

Definition maxBlocks : Z := 100.
Definition maxUncleDistance : nat := 5.

Definition tableBlockNode : bytes := str_bytes "BlockNode-".
Definition tableBlockSpec : bytes := str_bytes "BlockSpec-".
Definition dagTip : bytes := str_bytes "ChainState-DagTip".

(** ** Nodes ([blockNode.go]) *)

(** [type BlockNode struct] *)
Record BlockNode := MkBlockNode {
  HASH : option Byte64;
  PARENT : Byte64;
  DEPTH : Z;
  WEIGHT : Z;
  ISMAINLIST : bool;
  CHILDREN : list Byte64;
  BLOCK : option Byte64;
}.

(** [func NewBlockNode(block core.Block) *BlockNode] *)
Definition NewBlockNode (block : SimpleBlock) : BlockNode :=
  MkBlockNode (hash block) (parentHash block) (Uint64 (depth block)) (Uint64 (weight block)) false []
    (hash block).

Definition IsMainList (bn : BlockNode) : bool := ISMAINLIST bn.

Definition SetMainList (isMainList : bool) (bn : BlockNode) : BlockNode :=
  MkBlockNode (HASH bn) (PARENT bn) (DEPTH bn) (WEIGHT bn) isMainList (CHILDREN bn) (BLOCK bn).

(** [func (bn *BlockNode) AddChild(childHash *core.Byte64) int] *)
Definition AddChild (childHash : Byte64) (bn : BlockNode) : BlockNode * nat :=
  (MkBlockNode (HASH bn) (PARENT bn) (DEPTH bn) (WEIGHT bn) (ISMAINLIST bn) (CHILDREN bn ++ [childHash])
     (BLOCK bn), S (length (CHILDREN bn))).

(** ** The chain *)

(** [type BlockChainInMem struct], without the database, the lock and the logger *)
Record BlockChainInMem := MkChain {
  genesis : BlockNode;
  tip : Byte64;
  td : Byte8;
  chain_depth : Z;
  chain_weight : Z;
}.

(** [type uncle struct] *)
Record uncle := MkUncle {
  uncle_hash : option Byte64;
  uncle_miner : Byte64;
  uncle_depth : Z;
  uncle_distance : Z;
}.

Section operations.
Context {D : Type} {dbo : Database D} {sha : Sha512}.
Context {cbn : Codec BlockNode} {cbs : Codec BlockSpec}.
Implicit Types (d : D) (c : BlockChainInMem).

(** ** Storage *)

(** [func (chain *BlockChainInMem) BlockNode(hash)] *)
Definition getBlockNode (h : Byte64) d : option BlockNode :=
  match Get (tableKey tableBlockNode h) d with
  | Err _ => None
  | Ok data => result_opt (Deserialize data)
  end.

(** [func (chain *BlockChainInMem) BlockSpec(hash)] *)
Definition getBlockSpec (h : Byte64) d : option BlockSpec :=
  match Get (tableKey tableBlockSpec h) d with
  | Err _ => None
  | Ok data => result_opt (Deserialize data)
  end.

(** [func (chain *BlockChainInMem) Block(hash)] *)
Definition getBlock (h : Byte64) d : option SimpleBlock :=
  match Get (tableKey tableBlockSpec h) d with
  | Err _ => None
  | Ok data =>
      match Deserialize data with
      | Err _ => None
      | Ok spec => Some (NewSimpleBlockFromSpec spec)
      end
  end.

(** [func (chain *BlockChainInMem) Tip() *BlockNode] *)
Definition Tip c d : option BlockNode :=
  match Get (tableKey tableBlockNode (tip c)) d with
  | Err _ => None
  | Ok data => result_opt (Deserialize data)
  end.

Definition SaveBlockNode (node : BlockNode) d : outcome (D * option error) :=
  match Serialize node with
  | Ok data => let! h := deref (HASH node) in Ret (Put (tableKey tableBlockNode h) data d)
  | Err e => Ret (d, Some e)
  end.

Definition SaveBlock (block : SimpleBlock) d : outcome (D * option error) :=
  match Serialize (NewBlockSpecFromBlock block) with
  | Ok data => let! h := deref (hash block) in Ret (Put (tableKey tableBlockSpec h) data d)
  | Err e => Ret (d, Some e)
  end.

Definition uninitialized_error (e : error) : error := CoreError ERR_DB_UNINITIALIZED (Error_string e).

(** [func NewBlockChainInMem(genesis core.Block, db db.Database)] *)
Definition NewBlockChainInMem (genesisBlock : SimpleBlock) d : outcome (D * result BlockChainInMem) :=
  let genesisNode := SetMainList true (NewBlockNode genesisBlock) in
  let td := BytesToByte8 (Bytes (timestamp genesisBlock)) in
  match Get dagTip d with
  | Err _ =>
      let! tip := deref (HASH genesisNode) in
      let '(d, err) := Put dagTip (Bytes tip) d in
      match err with
      | Some e => Ret (d, Err (uninitialized_error e))
      | None =>
          let! (d, err) := SaveBlock genesisBlock d in
          match err with
          | Some e => Ret (d, Err (uninitialized_error e))
          | None =>
              let! (d, err) := SaveBlockNode genesisNode d in
              match err with
              | Some e => Ret (d, Err (uninitialized_error e))
              | None => Ret (d, Ok (MkChain genesisNode tip td 0 0))
              end
          end
      end
  | Ok data =>
      let tip := BytesToByte64 data in
      match getBlockNode tip d with
      | None => Ret (d, Err (CoreError ERR_DB_CORRUPTED "cannot find block node for the tip"))
      | Some node =>
          match getBlock tip d with
          | None => Ret (d, Err (CoreError ERR_DB_CORRUPTED "cannot find block for the tip"))
          | Some block =>
              Ret (d, Ok (MkChain genesisNode tip (BytesToByte8 (Bytes (timestamp block))) (DEPTH node) 0))
          end
      end
  end.

Definition Shutdown d : D * option error := Close d.

(** ** The main list *)

(** [func (chain *BlockChainInMem) findMainListChild(parent, skipChild *BlockNode) *BlockNode] *)
Fixpoint findMainListLoop (children : list Byte64) (skipChild : option BlockNode) d
    : outcome (option BlockNode) :=
  match children with
  | [] => Ret None
  | childHash :: children =>
      match getBlockNode childHash d with
      | None => findMainListLoop children skipChild d
      | Some child =>
          if IsMainList child then
            match skipChild with
            | None => Ret (Some child)
            | Some skip =>
                let! hs := deref (HASH skip) in
                let! hc := deref (HASH child) in
                if decide (hs ≠ hc) then Ret (Some child)
                else findMainListLoop children skipChild d
            end
          else findMainListLoop children skipChild d
      end
  end.

Definition findMainListChild (parent : BlockNode) (skipChild : option BlockNode) d
    : outcome (option BlockNode) :=
  findMainListLoop (CHILDREN parent) skipChild d.

(** The loop of [Flush]: the nodes and blocks of the main list are deleted;
    a failing delete is only logged. *)
Fixpoint flushLoop (fuel : nat) (child : option BlockNode) d : outcome D :=
  match child with
  | None => Ret d
  | Some n =>
      match fuel with
      | O => OutOfFuel
      | S fuel =>
          let! h := deref (HASH n) in
          let '(d, _) := Delete (tableKey tableBlockNode h) d in
          let '(d, _) := Delete (tableKey tableBlockSpec h) d in
          let! next := findMainListChild n None d in
          flushLoop fuel next d
      end
  end.

(** [func (chain *BlockChainInMem) Flush() error] *)
Definition Flush (fuel : nat) c d : outcome (D * BlockChainInMem * option error) :=
  let! tip := deref (HASH (genesis c)) in
  let '(d, err) := Put dagTip (Bytes tip) d in
  match err with
  | Some e => Ret (d, MkChain (genesis c) tip (td c) (chain_depth c) (chain_weight c), Some (uninitialized_error e))
  | None =>
      let genesisNode := getBlockNode tip d in
      let! genesisBlock := deref (getBlock tip d) in
      let c := MkChain (genesis c) tip (timestamp genesisBlock) 0 (chain_weight c) in
      let! genesisNode := deref genesisNode in
      let! child := findMainListChild genesisNode None d in
      let! d := flushLoop fuel child d in
      Ret (d, c, None)
  end.

(** ** Uncles *)

Fixpoint findNonDirectAncestors (childNode : Byte64) (remainingDistance : nat) (maxDepth : Z) d
    : list uncle :=
  match remainingDistance with
  | O => []
  | S remaining =>
      match getBlockNode childNode d with
      | None => []
      | Some node =>
          concat (map (λ grandChild,
            match getBlock grandChild d with
            | Some grandChildBlock =>
                if decide (Uint64 (depth grandChildBlock) ≤ maxDepth) then
                  MkUncle (hash grandChildBlock) (miner grandChildBlock) (Uint64 (depth grandChildBlock))
                    (u64 (Z.of_nat maxUncleDistance - Z.of_nat remainingDistance))
                  :: findNonDirectAncestors grandChild remaining maxDepth d
                else []
            | None => []
            end) (CHILDREN node))
      end
  end.

Fixpoint findUncles (grandParent : Byte64) (parent : option Byte64) (remainingDistance : nat)
    (maxDepth : Z) d : outcome (list uncle) :=
  match remainingDistance with
  | O => Ret []
  | S remaining =>
      match getBlockNode grandParent d with
      | None => Ret []
      | Some node =>
          let! uncles := outcome_concat (λ childNode,
            let! p := deref parent in
            if decide (childNode ≠ p) then
              match getBlock childNode d with
              | Some childBlock =>
                  Ret (MkUncle (hash childBlock) (miner childBlock) (Uint64 (depth childBlock))
                         (u64 (Z.of_nat maxUncleDistance - Z.of_nat remainingDistance + 1))
                       :: findNonDirectAncestors childNode remaining maxDepth d)
              | None => Ret []
              end
            else Ret []) (CHILDREN node) in
          let! rest := findUncles (PARENT node) (HASH node) remaining maxDepth d in
          Ret (uncles ++ rest)
      end
  end.

(** ** Adding blocks *)

(** The loop of [addBlock] that walks up to the main list: the first ancestor
    on the main list, and the node below it. *)
Fixpoint walkUp (fuel : nat) (parent : option BlockNode) (mainListParent : BlockNode) d
    : outcome (D * BlockNode * BlockNode) :=
  let! p := deref parent in
  if IsMainList p then Ret (d, p, mainListParent)
  else
    match fuel with
    | O => OutOfFuel
    | S fuel =>
        let p := SetMainList true p in
        let! (d, _) := SaveBlockNode p d in
        walkUp fuel (getBlockNode (PARENT p) d) p d
    end.

(** The loop of [addBlock] that takes the old main list down. *)
Fixpoint walkDown (fuel : nat) (child : option BlockNode) d : outcome D :=
  match child with
  | None => Ret d
  | Some n =>
      match fuel with
      | O => OutOfFuel
      | S fuel =>
          let n := SetMainList false n in
          let! (d, _) := SaveBlockNode n d in
          let! next := findMainListChild n None d in
          walkDown fuel next d
      end
  end.

(** [func (chain *BlockChainInMem) addBlock(block *core.SimpleBlock, parent *BlockNode) error] *)
Definition addBlock (fuel : nat) (block : SimpleBlock) (parent : BlockNode) c d
    : outcome (D * BlockChainInMem * option error) :=
  let child := NewBlockNode block in
  let! (d, _) := SaveBlock block d in
  let! h := deref (HASH child) in
  let parent := (AddChild h parent).1 in
  let! (d, _) := SaveBlockNode parent d in
  if decide (chain_weight c < WEIGHT child) then
    let c := MkChain (genesis c) h (timestamp block) (DEPTH child) (WEIGHT child) in
    let '(d, err) := Put dagTip (Bytes h) d in
    match err with
    | Some _ => Ret (d, c, Some (CoreError ERR_DB_CORRUPTED "failed to update tip in DB"))
    | None =>
        let child := SetMainList true child in
        let! (d, parent, mainListParent) := walkUp fuel (Some parent) child d in
        let! (d, _) := SaveBlockNode child d in
        let! old := findMainListChild parent (Some mainListParent) d in
        let! d := walkDown fuel old d in
        Ret (d, c, None)
    end
  else
    let! (d, _) := SaveBlockNode child d in
    Ret (d, c, None).

(** The loop of [AddBlockNode] over the uncles found *)
Fixpoint addUncles (us : list uncle) (block : SimpleBlock) : outcome SimpleBlock :=
  match us with
  | [] => Ret block
  | u :: us => let! h := deref (uncle_hash u) in addUncles us (AddUncle h 1 block)
  end.

(** [func (chain *BlockChainInMem) AddBlockNode(coreBlock core.Block) error]:
    the caller's block ([None] is [nil]) is changed by the call. *)
Definition AddBlockNode (fuel : nat) (coreBlock : option SimpleBlock) c d
    : outcome (D * BlockChainInMem * option SimpleBlock * option error) :=
  match coreBlock with
  | None => Ret (d, c, None, Some (CoreError ERR_INVALID_BLOCK "nil block"))
  | Some block =>
      match hash block with
      | Some _ => Ret (d, c, Some block, Some (CoreError ERR_INVALID_BLOCK "block has precomputed hash"))
      | None =>
          match getBlockNode (parentHash block) d with
          | None => Ret (d, c, Some block, Some (CoreError ERR_ORPHAN_BLOCK "orphan block"))
          | Some parent =>
              if decide (length (uncles block) ≠ 0%nat) then
                Ret (d, c, Some block, Some (CoreError ERR_INVALID_BLOCK "new block cannot have uncles"))
              else
                let! us := findUncles (PARENT parent) (HASH parent) maxUncleDistance (DEPTH parent) d in
                let! block := addUncles us block in
                let block := ComputeHash block in
                let! h := deref (hash block) in
                if (Has (tableKey tableBlockNode h) d).1 then
                  Ret (d, c, Some block, Some (CoreError ERR_DUPLICATE_BLOCK "duplicate block"))
                else
                  let! (d, c, err) := addBlock fuel block parent c d in
                  Ret (d, c, Some block, err)
          end
      end
  end.

(** [func (chain *BlockChainInMem) AddNetworkNode(coreBlock core.Block) error] *)
Definition AddNetworkNode (fuel : nat) (coreBlock : option SimpleBlock) c d
    : outcome (D * BlockChainInMem * option error) :=
  match coreBlock with
  | None => Ret (d, c, Some (CoreError ERR_INVALID_BLOCK "nil block"))
  | Some block =>
      match hash block with
      | None => Ret (d, c, Some (CoreError ERR_INVALID_HASH "block does not have hash computed"))
      | Some h =>
          if (Has (tableKey tableBlockNode h) d).1 then
            Ret (d, c, Some (CoreError ERR_DUPLICATE_BLOCK "duplicate block"))
          else
            match getBlockNode (parentHash block) d with
            | None => Ret (d, c, Some (CoreError ERR_ORPHAN_BLOCK "orphan block"))
            | Some parent =>
                if forallb (λ uncle, (Has (tableKey tableBlockNode uncle) d).1) (uncles block) then
                  addBlock fuel block parent c d
                else Ret (d, c, Some (CoreError ERR_INVALID_UNCLE "unknown uncle"))
            end
      end
  end.

(** ** Reading the main list *)

(** The loop of [Blocks]: at most [count] more blocks *)
Fixpoint blocksLoop {A} (read : Byte64 → D → option A) (count : nat) (currNode : option BlockNode) d
    : outcome (list A) :=
  match currNode, count with
  | Some n, S count =>
      let! h := deref (BLOCK n) in
      match read h d with
      | Some block =>
          let! next := findMainListChild n None d in
          let! rest := blocksLoop read count next d in
          Ret (block :: rest)
      | None => Ret []
      end
  | _, _ => Ret []
  end.

(** The body that [Blocks] and [BlockSpecs] share *)
Definition readBlocks {A} (read : Byte64 → D → option A) (parent : Byte64) (max : Z) d
    : outcome (list A) :=
  let max := if decide (max > maxBlocks) then maxBlocks else max in
  match getBlockNode parent d with
  | None => Ret []
  | Some n => let! currNode := findMainListChild n None d in blocksLoop read (Z.to_nat max) currNode d
  end.

(** [func (chain *BlockChainInMem) Blocks(parent *core.Byte64, max uint64) []core.Block] *)
Definition Blocks (parent : Byte64) (max : Z) d : outcome (list SimpleBlock) := readBlocks getBlock parent max d.

(** [func (chain *BlockChainInMem) BlockSpecs(parent *core.Byte64, max uint64) []core.BlockSpec] *)
Definition BlockSpecs (parent : Byte64) (max : Z) d : outcome (list BlockSpec) :=
  readBlocks getBlockSpec parent max d.
End operations.
