(* ===== verification/ChainFacts.v ===== *)
(** * Facts about the in-memory block chain

    The stored block nodes form a tree, and the loops of [addBlock] are the
    loops of [MainList] over it.  The invariant of the chain, and what adding
    a block, reading the main list and flushing do to it. *)

From Stdlib Require Import Strings.Byte.
From S2P Require Import Prelude Bytes Db MainList SimpleBlock Chain.

#[global] Instance blockNode_ops : ChainNodeOps BlockNode := {
  n_hash := HASH;
  n_parent := PARENT;
  n_children := CHILDREN;
  n_main := IsMainList;
  n_setMain := SetMainList;
  n_addChild h n := (AddChild h n).1;
}.

#[global] Instance blockNode_laws : ChainNodeLaws BlockNode.
Proof. by split. Qed.

(** What adding a child and moving flags keep of a node. *)
Definition info (n : BlockNode) : Byte64 * Z * Z * option Byte64 :=
  (PARENT n, DEPTH n, WEIGHT n, BLOCK n).

Section chain.
Context {D : Type} {dbo : Database D} {dbl : DatabaseLaws D} {sha : Sha512}.
Context {cbn : Codec BlockNode} {cbnl : CodecLaws BlockNode}.
Context {cbs : Codec BlockSpec} {cbsl : CodecLaws BlockSpec}.
Implicit Types (d : D) (c : BlockChainInMem) (b block : SimpleBlock) (n : BlockNode).

(** The stored nodes. *)
Definition nodes d : view BlockNode := λ h, getBlockNode h d.

(** [V] is what is stored in [d]. *)
Definition stored d (V : view BlockNode) : Prop := ∀ x, nodes d x = V x.

(** Only block nodes differ. *)
Definition same_rest d d' : Prop :=
  ∀ k, (∀ h, k ≠ tableKey tableBlockNode h) → contents d' !! k = contents d !! k.

#[global] Instance same_rest_equiv : Equivalence same_rest.
Proof.
  split.
  - by intros d k.
  - intros d d' Hs k Hk. by rewrite Hs.
  - intros d1 d2 d3 H1 H2 k Hk. by rewrite H2, H1.
Qed.

Lemma core_nodes_frame d d' h :
  contents d' !! tableKey tableBlockNode h = contents d !! tableKey tableBlockNode h →
  nodes d' h = nodes d h.
Proof.
  intros Hg%get_same. unfold nodes, getBlockNode. by destruct (Get _ d'), (Get _ d); simplify_eq/=.
Qed.

Lemma spec_frame d d' h :
  contents d' !! tableKey tableBlockSpec h = contents d !! tableKey tableBlockSpec h →
  getBlockSpec h d' = getBlockSpec h d.
Proof.
  intros Hg%get_same. unfold getBlockSpec. by destruct (Get _ d'), (Get _ d); simplify_eq/=.
Qed.

Lemma getBlock_spec h d : getBlock h d = NewSimpleBlockFromSpec <$> getBlockSpec h d.
Proof. unfold getBlock, getBlockSpec. destruct (Get _ d); [|done]. by destruct (Deserialize _). Qed.

Lemma has_iff k d : (Has k d).1 = bool_decide (is_Some (contents d !! k)).
Proof. by rewrite has_contents. Qed.

Lemma has_nodes h d : nodes d h ≠ None → (Has (tableKey tableBlockNode h) d).1 = true.
Proof.
  intros Hn. rewrite has_iff. apply bool_decide_eq_true_2. unfold nodes, getBlockNode in Hn.
  rewrite <- get_contents. destruct (Get _ d); [by eexists | done].
Qed.

Lemma has_not_nodes h d : (Has (tableKey tableBlockNode h) d).1 = false → nodes d h = None.
Proof.
  intros Hn. destruct (nodes d h) eqn:E; [|done]. rewrite has_nodes in Hn; [done | by rewrite E].
Qed.

Lemma node_spec_key h h' : tableKey tableBlockNode h ≠ tableKey tableBlockSpec h'.
Proof. unfold tableKey, tableBlockNode, tableBlockSpec. done. Qed.

Lemma node_tip_key h : tableKey tableBlockNode h ≠ dagTip.
Proof. done. Qed.

Lemma spec_tip_key h : tableKey tableBlockSpec h ≠ dagTip.
Proof. done. Qed.

(** ** Writes *)

Lemma core_stored_put n d V h :
  HASH n = Some h → stored d V →
  ∃ d', SaveBlockNode n d = Ret (d', None) ∧ stored d' (upd V h n) ∧ same_rest d d'.
Proof.
  intros Hh HV. unfold SaveBlockNode. destruct (serialize_ok n) as [data Hdata]. rewrite Hdata, Hh.
  cbn [deref outcome_bind]. rewrite put_eq. eexists. split; [done|]. split.
  - intros x. unfold upd. destruct (decide (h = x)) as [->|Hx].
    + unfold nodes, getBlockNode.
      assert (Get (tableKey tableBlockNode x) (Put (tableKey tableBlockNode x) data d).1 = Ok data) as ->.
      { apply get_ok_iff. by rewrite put_contents, lookup_insert_eq. }
      by rewrite (deserialize_serialize n data Hdata).
    + rewrite <- HV. apply core_nodes_frame. rewrite put_contents, lookup_insert_ne; [done|]. by intros ?%(inj _).
  - intros k Hk. rewrite put_contents, lookup_insert_ne; [done | congruence].
Qed.

Lemma save_block block d h :
  hash block = Some h →
  ∃ d', SaveBlock block d = Ret (d', None) ∧ getBlockSpec h d' = Some (NewBlockSpecFromBlock block) ∧
    ∀ k, k ≠ tableKey tableBlockSpec h → contents d' !! k = contents d !! k.
Proof.
  intros Hh. unfold SaveBlock. destruct (serialize_ok (NewBlockSpecFromBlock block)) as [data Hdata].
  rewrite Hdata, Hh. cbn [deref outcome_bind]. rewrite put_eq. eexists. split; [done|]. split.
  - unfold getBlockSpec.
    assert (Get (tableKey tableBlockSpec h) (Put (tableKey tableBlockSpec h) data d).1 = Ok data) as ->.
    { apply get_ok_iff. by rewrite put_contents, lookup_insert_eq. }
    by rewrite (deserialize_serialize _ data Hdata).
  - intros k Hk. by rewrite put_contents, lookup_insert_ne.
Qed.

(** ** The loops *)

Lemma core_findMainListLoop_find cs skip d V :
  stored d V → findMainListLoop cs skip d = find V cs skip.
Proof.
  intros HV. induction cs as [|h cs IH]; [done|]. cbn [findMainListLoop find].
  rewrite <- (HV h). unfold nodes. destruct (getBlockNode h d) as [n|]; cbn; by rewrite IH.
Qed.

Lemma core_walkUp_up fuel p below d V V' a m :
  stored d V → up fuel V p below = Ret (V', a, m) →
  ∃ d', walkUp fuel p below d = Ret (d', a, m) ∧ stored d' V' ∧ same_rest d d'.
Proof.
  revert p below d V. induction fuel as [|fuel IH]; intros p below d V HV; cbn [up walkUp];
    (destruct p as [p|]; [|done]); cbn [deref outcome_bind n_main blockNode_ops].
  - destruct (IsMainList p); [|done]. intros [= <- <- <-]. by exists d.
  - destruct (IsMainList p); [intros [= <- <- <-]; by exists d|].
    cbn [n_hash n_parent n_setMain blockNode_ops].
    destruct (HASH (SetMainList true p)) as [hp|] eqn:Hhp; [|done]. cbn [deref outcome_bind].
    destruct (core_stored_put _ d V hp Hhp HV) as (d1 & -> & HV1 & Hs1). cbn [outcome_bind].
    intros Hup. change (getBlockNode (PARENT (SetMainList true p)) d1) with (nodes d1 (PARENT (SetMainList true p))).
    rewrite HV1. destruct (IH _ _ d1 _ HV1 Hup) as (d' & Hw & HV' & Hs').
    exists d'. split_and!; [done..|]. by trans d1.
Qed.

Lemma core_walkDown_down fuel o d V V' :
  stored d V → down fuel V o = Ret V' →
  ∃ d', walkDown fuel o d = Ret d' ∧ stored d' V' ∧ same_rest d d'.
Proof.
  revert o d V. induction fuel as [|fuel IH]; intros o d V HV; cbn [down walkDown].
  - destruct o as [n|]; [done|]. intros [= <-]. by exists d.
  - destruct o as [n|]; [|intros [= <-]; by exists d].
    cbn [n_hash n_children n_setMain blockNode_ops].
    destruct (HASH (SetMainList false n)) as [h|] eqn:Hh; [|done]. cbn [deref outcome_bind].
    destruct (core_stored_put _ d V h Hh HV) as (d1 & -> & HV1 & Hs1). cbn [outcome_bind].
    unfold findMainListChild. rewrite (core_findMainListLoop_find _ _ d1 _ HV1).
    destruct (find _ _ None) as [next| |]; [|done..]. cbn [outcome_bind]. intros Hd.
    destruct (IH next d1 _ HV1 Hd) as (d' & Hw & HV' & Hs'). exists d'. split_and!; [done..|].
    by trans d1.
Qed.

(** The part of [addBlock] that moves the main list. *)
Lemma moveMain_spec fuel child parent d V V' h :
  stored d V → rebalance fuel V parent child = Ret V' → HASH child = Some h →
  ∃ d', stored d' V' ∧ same_rest d d' ∧
    ∀ A (f : D → outcome A),
      (let! (d, parent, mainListParent) := walkUp fuel (Some parent) (SetMainList true child) d in
       let! (d, _) := SaveBlockNode (SetMainList true child) d in
       let! old := findMainListChild parent (Some mainListParent) d in
       let! d := walkDown fuel old d in f d) = f d'.
Proof.
  intros HV Hreb Hh. unfold rebalance in Hreb. apply outcome_bind_ret in Hreb as ([[Vu a] m] & Hup & Hreb).
  destruct (core_walkUp_up fuel (Some parent) (SetMainList true child) d V Vu a m HV Hup) as (d1 & -> & HV1 & Hs1).
  cbn [outcome_bind n_hash n_setMain blockNode_ops] in Hreb |- *.
  assert (Hc : HASH (SetMainList true child) = Some h) by done. rewrite Hc in Hreb. cbn [deref outcome_bind] in Hreb.
  destruct (core_stored_put _ d1 Vu h Hc HV1) as (d2 & -> & HV2 & Hs2). cbn [outcome_bind].
  unfold findMainListChild. rewrite (core_findMainListLoop_find _ _ d2 _ HV2).
  cbn [n_children blockNode_ops] in Hreb. apply outcome_bind_ret in Hreb as (old & -> & Hdown).
  cbn [outcome_bind].
  destruct (core_walkDown_down fuel old d2 _ V' HV2 Hdown) as (d3 & -> & HV3 & Hs3).
  exists d3. split_and!; [done| |done]. trans d1; [done|]. by trans d2.
Qed.
(** ** The invariant *)

(** The stored block agrees with its node. *)
Definition block_agrees (n : BlockNode) (h : Byte64) (s : BlockSpec) : Prop :=
  info n = (ParentHash s, Uint64 (Depth s), Uint64 (Weight s), Some h).

(** The nodes form a tree rooted at genesis with paths of at most [k] nodes;
    those on the path to the tip are exactly the ones on the main list. *)
Record tree_inv (g : Byte64) (k : nat) d (t : Byte64) : Prop := {
  ti_forest : forest (nodes d) g;
  ti_bounded : ∀ x l, path (nodes d) g x l → (length l ≤ k)%nat;
  ti_main : ∃ L, path (nodes d) g t L ∧ flags (nodes d) L;
}.

(** Moreover the numbers of the chain are those of the tip, every node agrees
    with its block, and no node but genesis is heavier than the chain. *)
Record chain_inv (g : Byte64) (k : nat) d c : Prop := {
  ki_genesis : HASH (genesis c) = Some g;
  ki_tree : tree_inv g k d (tip c);
  ki_tip : contents d !! dagTip = Some (Bytes (tip c));
  ki_numbers : ∃ s, getBlockSpec (tip c) d = Some s ∧ td c = Timestamp s ∧
    ((tip c = g ∧ chain_depth c = 0 ∧ chain_weight c = 0) ∨
     (tip c ≠ g ∧ chain_depth c = Uint64 (Depth s) ∧ chain_weight c = Uint64 (Weight s)));
  ki_weight : ∀ x n, nodes d x = Some n → x ≠ g → WEIGHT n ≤ chain_weight c;
  ki_blocks : ∀ x n, nodes d x = Some n → ∃ s, getBlockSpec x d = Some s ∧ block_agrees n x s;
}.

(** Linking a child and moving flags changes no other part of the nodes. *)
Lemma linked_info (V V' : view BlockNode) hp np h cn :
  same_but_flags (linked V hp np h cn) V' → V hp = Some np →
  ∀ x, info <$> V' x = if decide (h = x) then Some (info cn) else info <$> V x.
Proof.
  intros Hs Hp x. rewrite <- (Hs _ info (λ _ _, eq_refl) x). unfold linked, upd.
  case_decide; [done|]. case_decide as Hx; [|done]. subst. by rewrite Hp.
Qed.

Lemma info_some (V V' : view BlockNode) hp np h cn x n :
  same_but_flags (linked V hp np h cn) V' → V hp = Some np → V' x = Some n →
  (x = h ∧ info n = info cn) ∨ (x ≠ h ∧ ∃ n0, V x = Some n0 ∧ info n = info n0).
Proof.
  intros Hs Hp Hn. pose proof (linked_info _ _ _ _ _ _ Hs Hp x) as Hi. rewrite Hn in Hi.
  case_decide as Hx; [left; split; [done | by apply (inj Some) in Hi] | right].
  split; [done|]. destruct (V x) as [n0|]; [|done]. exists n0. split; [done | by apply (inj Some) in Hi].
Qed.

Lemma same_but_flags_refl (V : view BlockNode) : same_but_flags V V.
Proof. by intros A f Hf h. Qed.

(** The chain once the block was adopted as the tip, and else *)
Definition adopted block h c : BlockChainInMem :=
  if decide (chain_weight c < Uint64 (weight block)) then
    MkChain (genesis c) h (timestamp block) (Uint64 (depth block)) (Uint64 (weight block))
  else c.

(** What [addBlock] leaves in the database. *)
Record linked_in (g : Byte64) block h parent c d d' : Prop := {
  li_shape : same_but_flags (linked (nodes d) (parentHash block) parent h (NewBlockNode block)) (nodes d');
  li_flags : ∀ L Lp, path (nodes d) g (tip c) L → flags (nodes d) L → path (nodes d) g (parentHash block) Lp →
    flags (nodes d') (if decide (chain_weight c < Uint64 (weight block)) then Lp ++ [h] else L);
  li_spec : getBlockSpec h d' = Some (NewBlockSpecFromBlock block);
  li_specs x : x ≠ h → getBlockSpec x d' = getBlockSpec x d;
  li_tip : contents d' !! dagTip =
    if decide (chain_weight c < Uint64 (weight block)) then Some (Bytes h) else contents d !! dagTip;
}.

Lemma same_flags (V V' : view BlockNode) L : (∀ x, V' x = V x) → flags V L → flags V' L.
Proof. intros Hs Hf x n. rewrite Hs. apply Hf. Qed.

Lemma stored_same_but_flags d (V0 V : view BlockNode) :
  stored d V → same_but_flags V0 V → same_but_flags V0 (nodes d).
Proof. intros HV Hs A f Hf x. rewrite (HV x). by apply Hs. Qed.

(** The first writes of [addBlock]: the block and the parent's node. *)
Lemma save_parent block h parent d :
  hash block = Some h → HASH parent = Some (parentHash block) →
  ∃ d1 d2, SaveBlock block d = Ret (d1, None) ∧ SaveBlockNode (AddChild h parent).1 d1 = Ret (d2, None) ∧
    stored d2 (upd (nodes d) (parentHash block) (AddChild h parent).1) ∧
    getBlockSpec h d2 = Some (NewBlockSpecFromBlock block) ∧
    (∀ x, x ≠ h → getBlockSpec x d2 = getBlockSpec x d) ∧ contents d2 !! dagTip = contents d !! dagTip.
Proof.
  intros Hh Hp. destruct (save_block block d h Hh) as (d1 & -> & Hspec & Hk1).
  assert (HV1 : stored d1 (nodes d)) by (intros x; apply core_nodes_frame, Hk1, node_spec_key).
  destruct (core_stored_put (AddChild h parent).1 d1 _ (parentHash block) Hp HV1) as (d2 & Hput & HV2 & Hk2).
  assert (Hs : ∀ x, getBlockSpec x d2 = getBlockSpec x d1).
  { intros x. apply spec_frame, Hk2. intros h'. apply not_eq_sym, node_spec_key. }
  exists d1, d2. split_and!; [done|exact Hput|exact HV2| | |].
  - by rewrite Hs.
  - intros x Hx. rewrite Hs. apply spec_frame, Hk1. by intros ?%(inj _).
  - rewrite Hk2 by (intros h'; apply not_eq_sym, node_tip_key). apply Hk1, not_eq_sym, spec_tip_key.
Qed.

Lemma addBlock_spec g k fuel block h parent d c :
  tree_inv g k d (tip c) → hash block = Some h → nodes d h = None →
  nodes d (parentHash block) = Some parent → (k ≤ fuel)%nat →
  ∃ d', addBlock fuel block parent c d = Ret (d', adopted block h c, None) ∧ linked_in g block h parent c d d'.
Proof.
  intros [HF Hk (Lt & HLt & HfLt)] Hh Hnew Hp Hfuel.
  assert (Hfr : fresh (nodes d) (parentHash block) parent h (NewBlockNode block)) by by split.
  destruct (save_parent block h parent d Hh (f_hash _ _ HF _ _ Hp)) as (d1 & d2 & Hsb & Hsn & HV2 & Hs1 & Hs2 & Ht2).
  destruct (f_path _ _ HF _ _ Hp) as [Lp HLp].
  unfold addBlock, adopted. rewrite Hsb. cbn [outcome_bind]. change (HASH (NewBlockNode block)) with (hash block).
  rewrite Hh. cbn [deref outcome_bind]. rewrite Hsn. cbn [outcome_bind].
  change (WEIGHT (NewBlockNode block)) with (Uint64 (weight block)). destruct (decide _) as [Hw|Hw].
  - rewrite put_eq. set (d3 := (Put dagTip (Bytes h) d2).1).
    assert (Hk3 : ∀ k, k ≠ dagTip → contents d3 !! k = contents d2 !! k).
    { intros k' Hk'. unfold d3. by rewrite put_contents, lookup_insert_ne. }
    assert (HV3 : stored d3 (upd (nodes d) (parentHash block) (AddChild h parent).1)).
    { intros x. rewrite <- HV2. apply core_nodes_frame, Hk3, node_tip_key. }
    destruct (rebalance_spec (nodes d) g (parentHash block) parent h (NewBlockNode block) (tip c) Lt Lp fuel)
      as (V' & Hreb & Hsame & HflV); [done..| | |].
    { by etrans; [apply (Hk _ _ HLt)|]. }
    { by etrans; [apply (Hk _ _ HLp)|]. }
    destruct (moveMain_spec fuel (NewBlockNode block) (AddChild h parent).1 d3 _ V' h HV3 Hreb Hh)
      as (d4 & HV4 & Hs4 & Hmove).
    exists d4. split.
    + by rewrite Hmove.
    + split.
      * by eapply stored_same_but_flags.
      * intros L Lp' _ _ HLp'. rewrite decide_True by done.
        rewrite (path_unique _ _ _ _ _ HLp' HLp). by apply (same_flags V').
      * rewrite <- Hs1. trans (getBlockSpec h d3); apply spec_frame;
          [apply Hs4; intros h'; apply not_eq_sym, node_spec_key | apply Hk3, spec_tip_key].
      * intros x Hx. rewrite <- Hs2 by done. trans (getBlockSpec x d3); apply spec_frame;
          [apply Hs4; intros h'; apply not_eq_sym, node_spec_key | apply Hk3, spec_tip_key].
      * rewrite decide_True by done. rewrite Hs4 by (intros h'; apply not_eq_sym, node_tip_key).
        unfold d3. by rewrite put_contents, lookup_insert_eq.
  - destruct (core_stored_put (NewBlockNode block) d2 _ h Hh HV2) as (d3 & Hput & HV3 & Hs3).
    rewrite Hput. cbn [outcome_bind].
    exists d3. split; [done|]. split.
    + eapply stored_same_but_flags; [done|]. apply same_but_flags_refl.
    + intros L Lp' HL HfL _. rewrite decide_False by done. apply (same_flags _ _ _ HV3).
      by apply (linked_flags _ g _ _ _ _ HF Hfr L (tip c)).
    + rewrite <- Hs1. apply spec_frame, Hs3. intros h'. apply not_eq_sym, node_spec_key.
    + intros x Hx. rewrite <- Hs2 by done. apply spec_frame, Hs3. intros h'. apply not_eq_sym, node_spec_key.
    + rewrite decide_False by done. rewrite <- Ht2. apply Hs3. intros h'. apply not_eq_sym, node_tip_key.
Qed.

(** Adding a block keeps the invariants. *)
Lemma linked_in_tree g k block h parent d d' c :
  tree_inv g k d (tip c) → hash block = Some h → nodes d h = None →
  nodes d (parentHash block) = Some parent → linked_in g block h parent c d d' →
  tree_inv g (S k) d' (tip (adopted block h c)).
Proof.
  intros [HF Hk (Lt & HLt & HfLt)] Hh Hnew Hp [Hs Hfl _ _ _].
  assert (Hfr : fresh (nodes d) (parentHash block) parent h (NewBlockNode block)) by by split.
  pose proof (same_but_flags_shape _ _ Hs) as Hsh.
  assert (Hsh' : same_shape (nodes d') (linked (nodes d) (parentHash block) parent h (NewBlockNode block))) by (by symmetry).
  destruct (f_path _ _ HF _ _ Hp) as [Lp HLp]. specialize (Hfl Lt Lp HLt HfLt HLp).
  split.
  - eapply forest_shape; [exact Hsh|]. by apply linked_forest.
  - intros x l Hl. eapply (linked_bounded _ _ _ _ _ _ HF Hfr); [exact Hk|]. by eapply path_shape.
  - unfold adopted. case_decide; simpl; eexists; (split; [|exact Hfl]); (eapply path_shape; [exact Hsh|]).
    + by apply linked_new_path.
    + by apply linked_path.
Qed.

Lemma tree_stored g k d t : tree_inv g k d t → is_Some (nodes d t).
Proof.
  intros [HF _ (L & HL & _)]. apply (path_some _ _ _ _ t (f_root _ _ HF) HL).
  destruct (path_last _ _ _ _ HL) as [? ->]. apply elem_of_app. right. left.
Qed.

Lemma linked_in_inv g k block h parent d d' c :
  chain_inv g k d c → hash block = Some h → nodes d h = None →
  nodes d (parentHash block) = Some parent → linked_in g block h parent c d d' →
  chain_inv g (S k) d' (adopted block h c).
Proof.
  intros [Hg Htree Htip (st & Hst & Htd & Hnum) Hwt Hbl] Hh Hnew Hp Hl.
  pose proof (linked_in_tree _ _ _ _ _ _ _ _ Htree Hh Hnew Hp Hl) as Htree'.
  destruct (tree_stored _ _ _ _ Htree) as [nt Hnt]. destruct (f_root _ _ (ti_forest _ _ _ _ Htree)) as [ng Hng].
  destruct Hl as [Hs _ Hsp Hsps Ht].
  assert (Hhg : h ≠ g) by congruence. assert (Hth : tip c ≠ h) by congruence.
  split; [|done| | | |].
  - unfold adopted. by case_decide.
  - unfold adopted. rewrite Ht. by case_decide.
  - unfold adopted. case_decide; simpl.
    + exists (NewBlockSpecFromBlock block). split; [done|]. rewrite spec_fields. split; [done|]. by right.
    + exists st. rewrite Hsps by done. done.
  - intros x n Hn Hx. destruct (info_some _ _ _ _ _ _ _ _ Hs Hp Hn) as [[-> Hi]|(Hxh & n0 & Hn0 & Hi)]; injection Hi as Hi1 Hi2 Hi3 Hi4.
    + rewrite Hi3. unfold adopted. case_decide; simpl; lia.
    + rewrite Hi3. specialize (Hwt x n0 Hn0 Hx). unfold adopted. case_decide; simpl; lia.
  - intros x n Hn. unfold block_agrees.
    destruct (info_some _ _ _ _ _ _ _ _ Hs Hp Hn) as [[-> ->]|(Hxh & n0 & Hn0 & ->)].
    + eexists. split; [exact Hsp|]. rewrite spec_fields. unfold info. simpl. by rewrite Hh.
    + destruct (Hbl x n0 Hn0) as (s & Hs1 & Ha). exists s. by rewrite Hsps.
Qed.

(** ** The calls that add blocks *)

Lemma core_getBlock_hash h d b : getBlock h d = Some b → is_Some (hash b).
Proof. rewrite getBlock_spec. destruct (getBlockSpec h d); [|done]. intros [= <-]. apply ComputeHash_hash. Qed.

Lemma findNonDirect_hashed r : ∀ x m d,
  Forall (λ u, is_Some (uncle_hash u)) (findNonDirectAncestors x r m d).
Proof.
  induction r as [|r IH]; intros x m d; cbn [findNonDirectAncestors]; [constructor|].
  destruct (getBlockNode x d) as [n|]; [|constructor].
  apply Forall_concat, Forall_map, Forall_true. intros y. simpl.
  destruct (getBlock y d) as [b|] eqn:Eb; [|constructor]. case_decide; [|constructor].
  constructor; [by eapply core_getBlock_hash | apply IH].
Qed.

Lemma findUncles_ret g r : ∀ gp p m d,
  forest (nodes d) g →
  ∃ us, findUncles gp (Some p) r m d = Ret us ∧ Forall (λ u, is_Some (uncle_hash u)) us.
Proof.
  induction r as [|r IH]; intros gp p m d HF; cbn [findUncles]; [by eexists|].
  destruct (getBlockNode gp d) as [n|] eqn:En; [|by eexists].
  rewrite (f_hash _ _ HF gp n En : HASH n = Some gp).
  destruct (IH (PARENT n) gp m d HF) as (rest & -> & Hrest). cbn [deref outcome_bind].
  match goal with |- ∃ us, outcome_bind _ (outcome_concat ?f ?l) = _ ∧ _ =>
    assert (∃ us, outcome_concat f l = Ret us ∧ Forall (λ u, is_Some (uncle_hash u)) us) as (us & -> & Hus) end.
  { induction (CHILDREN n) as [|x xs [us [Hxs Hus]]]; cbn [outcome_concat outcome_bind]; [by eexists|].
    case_decide; [|exists us; by rewrite Hxs]. destruct (getBlock x d) as [b|] eqn:Eb; cbn [outcome_bind].
    - rewrite Hxs. cbn [outcome_bind]. eexists. split; [done|]. apply Forall_app. split; [|done].
      constructor; [by eapply core_getBlock_hash | apply findNonDirect_hashed].
    - exists us. by rewrite Hxs. }
  cbn [outcome_bind]. eexists. split; [done|]. by apply Forall_app.
Qed.

(** The uncles added to a block, and the weight they bring. *)
Lemma addUncles_ret us b :
  Forall (λ u, is_Some (uncle_hash u)) us →
  ∃ b' hs, addUncles us b = Ret b' ∧ map uncle_hash us = map Some hs ∧
    parentHash b' = parentHash b ∧ depth b' = depth b ∧ timestamp b' = timestamp b ∧
    opCodes b' = opCodes b ∧ miner b' = miner b ∧ state b' = state b ∧ nonce b' = nonce b ∧
    uncles b' = uncles b ++ hs ∧ Uint64 (weight b') = u64 (Uint64 (weight b) + Z.of_nat (length us)).
Proof.
  intros Hus. revert b. induction Hus as [|u us [h Hh] Hus IH]; intros b; cbn [addUncles].
  - exists b, []. split_and!; try done; [by rewrite app_nil_r|]. simpl.
    rewrite Z.add_0_r, u64_small; [done|]. apply Uint64_range.
  - rewrite Hh. cbn [deref outcome_bind]. destruct (IH (AddUncle h 1 b)) as (b' & hs & -> & Hm & H).
    exists b', (h :: hs). destruct H as (-> & -> & -> & -> & -> & -> & -> & -> & ->).
    split_and!; try done; cbn [map length AddUncle uncles weight].
    + by rewrite Hh, Hm.
    + by rewrite <- (assoc_L (++)).
    + rewrite Uint64_Uint64ToByte8, u64_idemp. unfold u64. rewrite Zplus_mod_idemp_l. f_equal. lia.
Qed.

(** ** Reading and flushing the main list *)

Lemma blocksLoop_spec {A} (read : Byte64 → D → option A) g t d l2 :
  (∀ x n, nodes d x = Some n → BLOCK n = Some x ∧ is_Some (read x d)) →
  forest (nodes d) g →
  ∀ l1 x count, path (nodes d) g t (l1 ++ x :: l2) → flags (nodes d) (l1 ++ x :: l2) →
  ∃ bs, blocksLoop read count (match l2 with [] => None | z :: _ => nodes d z end) d = Ret bs ∧
    Forall2 (λ x a, read x d = Some a) (take count l2) bs.
Proof.
  intros Hread HF. induction l2 as [|z l2 IH]; intros l1 x count Hp Hfl.
  { exists []. by destruct count. }
  destruct (path_some _ g t _ z (f_root _ _ HF) Hp) as [nz Hz].
  { apply elem_of_app. right. right. left. }
  rewrite Hz. destruct count as [|count]; [by exists []|]. cbn [blocksLoop take].
  destruct (Hread z nz Hz) as [-> [a Ha]]. cbn [deref outcome_bind]. rewrite Ha.
  replace (l1 ++ x :: z :: l2) with ((l1 ++ [x]) ++ z :: l2) in Hp, Hfl by by rewrite <- (assoc_L (++)).
  unfold findMainListChild. rewrite (core_findMainListLoop_find _ _ _ (nodes d)) by done.
  pose proof (find_next (nodes d) (nodes d) g t (l1 ++ [x]) z l2 nz HF Hp Hfl Hz) as Hn.
  cbn [n_children blockNode_ops] in Hn. rewrite Hn; [|by left|done]. cbn [outcome_bind].
  destruct (IH (l1 ++ [x]) z count Hp Hfl) as (bs & -> & Hbs). exists (a :: bs). split; [done|]. by constructor.
Qed.

(** The keys of the records of a block *)
Definition record_key (x : Byte64) (k : bytes) : Prop :=
  k = tableKey tableBlockNode x ∨ k = tableKey tableBlockSpec x.

Lemma nodes_absent d x : contents d !! tableKey tableBlockNode x = None → nodes d x = None.
Proof.
  rewrite <- get_contents. unfold nodes, getBlockNode. by destruct (Get _ d).
Qed.

Lemma delete_records x d :
  let d1 := (Delete (tableKey tableBlockNode x) d).1 in
  let d2 := (Delete (tableKey tableBlockSpec x) d1).1 in
  (∀ k, record_key x k → contents d2 !! k = None) ∧
  (∀ k, ¬ record_key x k → contents d2 !! k = contents d !! k).
Proof.
  cbv zeta. split; intros k Hk; rewrite !delete_contents.
  - destruct Hk as [->| ->]; [rewrite lookup_delete_ne by (apply not_eq_sym, node_spec_key)|];
      apply lookup_delete_eq.
  - rewrite !lookup_delete_ne; [done|intros <-; apply Hk; by left|intros <-; apply Hk; by right].
Qed.

Lemma record_key_inj x y k : record_key x k → record_key y k → x = y.
Proof.
  intros [->| ->] [H|H]; try (by apply (inj _) in H); [by apply node_spec_key in H|].
  symmetry in H. by apply node_spec_key in H.
Qed.

Lemma record_key_node x y : record_key x (tableKey tableBlockNode y) → x = y.
Proof. intros [?%(inj _)|H]; [done | by apply node_spec_key in H]. Qed.

Lemma flushLoop_spec (V : view BlockNode) g t l2 :
  forest V g →
  ∀ l1 x fuel d, path V g t (l1 ++ x :: l2) → flags V (l1 ++ x :: l2) → (length l2 ≤ fuel)%nat →
  (∀ y, nodes d y = V y ∨ nodes d y = None) → (∀ y, y ∈ l2 → nodes d y = V y) →
  ∃ d', flushLoop fuel (match l2 with [] => None | z :: _ => V z end) d = Ret d' ∧
    (∀ y k, y ∈ l2 → record_key y k → contents d' !! k = None) ∧
    (∀ k, (∀ y, y ∈ l2 → ¬ record_key y k) → contents d' !! k = contents d !! k).
Proof.
  intros HF. induction l2 as [|z l2 IH]; intros l1 x fuel d Hp Hfl Hfuel Hsub Hl2.
  { exists d. split; [by destruct fuel|]. split; [by intros y k ?%elem_of_nil | done]. }
  destruct (path_some _ g t _ z (f_root _ _ HF) Hp) as [nz Hz].
  { apply elem_of_app. right. right. left. }
  assert (Hnd : z ∉ l2).
  { apply path_nodup, list.NoDup_app in Hp as (_ & _ & [_ Hp]%list.NoDup_cons).
    by apply list.NoDup_cons in Hp as [? _]. }
  rewrite Hz. simpl in Hfuel. destruct fuel as [|fuel]; [lia|]. cbn [flushLoop].
  rewrite (f_hash _ _ HF z nz Hz : HASH nz = Some z). cbn [deref outcome_bind].
  destruct (delete_records z d) as [Hdel Hkeep]. rewrite delete_eq.
  set (d1 := (Delete (tableKey tableBlockNode z) d).1) in *. rewrite delete_eq.
  set (d2 := (Delete (tableKey tableBlockSpec z) d1).1) in *.
  assert (Hd2 : ∀ y, nodes d2 y = if decide (z = y) then None else nodes d y).
  { intros y. case_decide as Hy.
    - subst y. apply nodes_absent, Hdel. by left.
    - apply core_nodes_frame, Hkeep. by intros ?%record_key_node. }
  replace (l1 ++ x :: z :: l2) with ((l1 ++ [x]) ++ z :: l2) in Hp, Hfl by by rewrite <- (assoc_L (++)).
  assert (Hsub2 : ∀ y, nodes d2 y = V y ∨ nodes d2 y = None).
  { intros y. rewrite Hd2. case_decide; [by right | apply Hsub]. }
  assert (Hl2' : ∀ y, y ∈ l2 → nodes d2 y = V y).
  { intros y Hy. rewrite Hd2, decide_False by (by intros ->). apply Hl2. by right. }
  unfold findMainListChild. rewrite (core_findMainListLoop_find _ _ _ (nodes d2)) by done.
  pose proof (find_next V (nodes d2) g t (l1 ++ [x]) z l2 nz HF Hp Hfl Hz Hsub2 Hl2') as Hn.
  cbn [n_children blockNode_ops] in Hn. rewrite Hn. cbn [outcome_bind].
  destruct (IH (l1 ++ [x]) z fuel d2 Hp Hfl) as (d' & -> & Hgone & Hrest); [lia|done|done|].
  exists d'. split; [done|]. split.
  - intros y k Hy Hk. apply elem_of_cons in Hy as [->|Hy]; [|by eapply Hgone].
    rewrite Hrest; [by apply Hdel|]. intros y Hy Hy'. apply Hnd. by rewrite (record_key_inj z y k Hk Hy').
  - intros k Hk. rewrite Hrest; [apply Hkeep, Hk; left|]. intros y Hy. apply Hk. by right.
Qed.
End chain.
