(* ===== verification/ChainTheorems.v ===== *)
(** * Correctness of the in-memory block chain

    Theorems about [src/core/block.go] and [src/core/chain/blockChain.go],
    over any working database, codecs and hash function. *)

From Stdlib Require Import Strings.Byte.
From S2P Require Import Prelude Bytes Db Concrete MainList SimpleBlock Chain ChainFacts.

(** ** Calls *)

(** A call that adds a block *)
Inductive chain_call :=
  | AddNode (block : option SimpleBlock)
  | NetworkNode (block : option SimpleBlock).

Section theorems.
Context {D : Type} {dbo : Database D} {dbl : DatabaseLaws D} {sha : Sha512}.
Context {cbn : Codec BlockNode} {cbnl : CodecLaws BlockNode}.
Context {cbs : Codec BlockSpec} {cbsl : CodecLaws BlockSpec}.
Implicit Types (d : D) (c : BlockChainInMem) (b block : SimpleBlock) (n : BlockNode).

Fixpoint run_calls (fuel : nat) (calls : list chain_call) c d : outcome (D * BlockChainInMem) :=
  match calls with
  | [] => Ret (d, c)
  | AddNode b :: calls => let! (d, c, _, _) := AddBlockNode fuel b c d in run_calls fuel calls c d
  | NetworkNode b :: calls => let! (d, c, _) := AddNetworkNode fuel b c d in run_calls fuel calls c d
  end.

(** ** Lemmas *)

(** What an accepted block leaves behind. *)
Record accepted (g h : Byte64) (block : SimpleBlock) c d c' d' : Prop := {
  ac_chain : c' = adopted block h c;
  ac_new : nodes d h = None;
  ac_parent : is_Some (nodes d (parentHash block));
  ac_spec : getBlockSpec h d' = Some (NewBlockSpecFromBlock block);
  ac_node : info <$> nodes d' h = Some (info (NewBlockNode block));
  ac_old x : x ≠ h → info <$> nodes d' x = info <$> nodes d x ∧ getBlockSpec x d' = getBlockSpec x d;
}.

Lemma addBlock_accepted g k fuel block h parent d c :
  tree_inv g k d (tip c) → hash block = Some h → nodes d h = None →
  nodes d (parentHash block) = Some parent → (k ≤ fuel)%nat →
  ∃ d', addBlock fuel block parent c d = Ret (d', adopted block h c, None) ∧
    tree_inv g (S k) d' (tip (adopted block h c)) ∧
    (chain_inv g k d c → chain_inv g (S k) d' (adopted block h c)) ∧
    accepted g h block c d (adopted block h c) d'.
Proof.
  intros Ht Hh Hnew Hp Hfuel.
  destruct (addBlock_spec g k fuel block h parent d c Ht Hh Hnew Hp Hfuel) as (d' & Hadd & Hl).
  exists d'. split_and!; [done|by eapply linked_in_tree|intros; by eapply linked_in_inv|].
  pose proof (linked_info _ _ _ _ _ _ (li_shape _ _ _ _ _ _ _ Hl) Hp) as Hi.
  split; [done|done|by eexists|apply Hl| |].
  - rewrite Hi. by rewrite decide_True.
  - intros x Hx. rewrite Hi, decide_False by auto. split; [done|]. by apply Hl.
Qed.

Lemma tree_inv_weaken g k k' d t : (k ≤ k')%nat → tree_inv g k d t → tree_inv g k' d t.
Proof.
  intros Hk [HF Hb Hm]. split; [done| |done]. intros x l Hp. etrans; [by eapply Hb | done].
Qed.

Lemma chain_inv_weaken g k k' d c : (k ≤ k')%nat → chain_inv g k d c → chain_inv g k' d c.
Proof.
  intros Hk [H1 H2 H3 H4 H5 H6]. split; [done| |done..]. by eapply tree_inv_weaken.
Qed.

(** A call that leaves the chain in order *)
Definition keeps (g : Byte64) (k : nat) c d c' d' : Prop :=
  tree_inv g (S k) d' (tip c') ∧ (chain_inv g k d c → chain_inv g (S k) d' c').

Lemma keeps_refl g k c d : tree_inv g k d (tip c) → keeps g k c d c d.
Proof.
  intros Ht. split; [eapply tree_inv_weaken; [|done]; lia | apply chain_inv_weaken; lia].
Qed.

(** What the result of [AddNetworkNode] says: the block is accepted, or nothing changes. *)
Definition network_post (g : Byte64) (ob : option SimpleBlock) c d c' d' (e : option error) : Prop :=
  match e with
  | Some _ => d' = d ∧ c' = c
  | None => ∃ block h, ob = Some block ∧ hash block = Some h ∧ accepted g h block c d c' d' ∧
      Forall (λ u, (Has (tableKey tableBlockNode u) d).1 = true) (uncles block)
  end.

(** What the result of [AddBlockNode] says: the block that is accepted is the
    given one with the uncles found and its hash computed. *)
Definition node_post (g : Byte64) (ob : option SimpleBlock) c d c' d' (ob' : option SimpleBlock)
    (e : option error) : Prop :=
  match e with
  | Some _ => d' = d ∧ c' = c
  | None => ∃ block parent us b' h,
      ob = Some block ∧ hash block = None ∧ uncles block = [] ∧ nodes d (parentHash block) = Some parent ∧
      findUncles (PARENT parent) (HASH parent) maxUncleDistance (DEPTH parent) d = Ret us ∧
      addUncles us block = Ret b' ∧ ob' = Some (ComputeHash b') ∧ hash (ComputeHash b') = Some h ∧
      accepted g h (ComputeHash b') c d c' d'
  end.

Lemma network_tree g k fuel ob d c :
  tree_inv g k d (tip c) → (k ≤ fuel)%nat →
  ∃ d' c' e, AddNetworkNode fuel ob c d = Ret (d', c', e) ∧ keeps g k c d c' d' ∧ network_post g ob c d c' d' e.
Proof.
  intros Ht Hfuel.
  assert (Hno : ∀ e, ∃ d' c' e', Ret (d, c, Some e) = Ret (d', c', e') ∧ keeps g k c d c' d' ∧
    network_post g ob c d c' d' e').
  { intros e. exists d, c, (Some e). split; [done|]; split; [by apply keeps_refl | done]. }
  unfold AddNetworkNode. destruct ob as [block|]; [|apply Hno]. destruct (hash block) as [h|] eqn:Hh; [|apply Hno].
  destruct ((Has _ d).1) eqn:Hhas; [apply Hno|]. apply has_not_nodes in Hhas.
  destruct (getBlockNode _ d) as [parent|] eqn:Hp; [|apply Hno]. destruct (forallb _ _) eqn:Hu; [|apply Hno].
  destruct (addBlock_accepted g k fuel block h parent d c Ht Hh Hhas Hp Hfuel) as (d' & -> & Ht' & Hc' & Ha).
  exists d', (adopted block h c), None. split; [done|]. split; [done|]. exists block, h. split_and!; [done..|].
  apply Forall_forall. intros u Hin. rewrite forallb_forall in Hu. by apply Hu.
Qed.

Lemma node_tree g k fuel ob d c :
  tree_inv g k d (tip c) → (k ≤ fuel)%nat →
  ∃ d' c' ob' e, AddBlockNode fuel ob c d = Ret (d', c', ob', e) ∧ keeps g k c d c' d' ∧
    node_post g ob c d c' d' ob' e.
Proof.
  intros Ht Hfuel.
  assert (Hno : ∀ ob0 e, ∃ d' c' ob' e', Ret (d, c, ob0, Some e) = Ret (d', c', ob', e') ∧ keeps g k c d c' d' ∧
    node_post g ob c d c' d' ob' e').
  { intros ob0 e. exists d, c, ob0, (Some e). split; [done|]; split; [by apply keeps_refl | done]. }
  unfold AddBlockNode. destruct ob as [block|]; [|apply Hno]. destruct (hash block) as [h|] eqn:Hh; [apply Hno|].
  destruct (getBlockNode (parentHash block) d) as [parent|] eqn:Hp; [|apply Hno].
  destruct (uncles block) eqn:Hu; [rewrite decide_False by (simpl; lia) | rewrite decide_True by done; apply Hno].
  pose proof (ti_forest _ _ _ _ Ht) as HF. pose proof (f_hash _ _ HF _ _ Hp : HASH parent = _) as Hhp. rewrite Hhp.
  destruct (findUncles_ret g maxUncleDistance (PARENT parent) (parentHash block) (DEPTH parent) d HF) as (us & Hus & Hhashed).
  rewrite Hus. cbn [outcome_bind]. destruct (addUncles_ret us block Hhashed) as (b' & hs & Hb' & _ & Hpar & _).
  rewrite Hb'. cbn [outcome_bind]. destruct (ComputeHash_hash b') as [h Hch]. rewrite Hch. cbn [deref outcome_bind].
  destruct ((Has _ d).1) eqn:Hhas; [apply Hno|]. apply has_not_nodes in Hhas.
  assert (Hp' : nodes d (parentHash (ComputeHash b')) = Some parent)
    by (change (nodes d (parentHash b') = Some parent); by rewrite Hpar).
  destruct (addBlock_accepted g k fuel (ComputeHash b') h parent d c Ht Hch Hhas Hp' Hfuel) as (d' & -> & Ht' & Hc' & Ha).
  cbn [outcome_bind]. exists d', (adopted (ComputeHash b') h c), (Some (ComputeHash b')), None.
  split; [done|]. split; [done|]. exists block, parent, us, b', h. by rewrite Hhp.
Qed.

(** A new chain consists of the genesis block alone. *)
Lemma NewBlockChainInMem_fresh gb g d :
  hash gb = Some g → contents d !! dagTip = None → (∀ h, nodes d h = None) →
  ∃ d', NewBlockChainInMem gb d = Ret (d', Ok (MkChain (SetMainList true (NewBlockNode gb)) g (timestamp gb) 0 0)) ∧
    chain_inv g 1 d' (MkChain (SetMainList true (NewBlockNode gb)) g (timestamp gb) 0 0).
Proof.
  intros Hg Hnt Hno. unfold NewBlockChainInMem. destruct (proj2 (get_err_iff dagTip d) Hnt) as [e ->].
  set (gn := SetMainList true (NewBlockNode gb)). assert (Hgn : HASH gn = Some g) by done. rewrite Hgn.
  cbn [deref outcome_bind]. rewrite put_eq. set (d1 := (Put dagTip (Bytes g) d).1).
  assert (Hk1 : ∀ k, k ≠ dagTip → contents d1 !! k = contents d !! k).
  { intros k Hk. unfold d1. by rewrite put_contents, lookup_insert_ne. }
  destruct (save_block gb d1 g Hg) as (d2 & -> & Hspec & Hk2). cbn [outcome_bind].
  assert (HV2 : stored d2 (λ _, None)).
  { intros x. rewrite <- (Hno x). trans (nodes d1 x); apply core_nodes_frame;
      [apply Hk2, node_spec_key | apply Hk1, node_tip_key]. }
  destruct (core_stored_put gn d2 _ g Hgn HV2) as (d3 & -> & HV3 & Hs3). cbn [outcome_bind]. rewrite copy8.
  assert (Hgg : nodes d3 g = Some gn) by (rewrite HV3; apply upd_eq).
  assert (Hother : ∀ x, x ≠ g → nodes d3 x = None) by (intros x Hx; by rewrite HV3, upd_ne).
  assert (Hone : ∀ x n, nodes d3 x = Some n → x = g ∧ n = gn).
  { intros x m Hm. destruct (decide (x = g)) as [->|Hne]; [split; congruence|]. by rewrite Hother in Hm. }
  assert (Hspec3 : getBlockSpec g d3 = Some (NewBlockSpecFromBlock gb)).
  { rewrite <- Hspec. apply spec_frame, Hs3. intros h. apply not_eq_sym, node_spec_key. }
  eexists. split; [done|]. split; [done| | | | |].
  - split; [by eapply single_forest| |].
    + intros x l Hp. by rewrite (single_path _ _ _ _ Hother Hp).
    + exists [g]. split; [constructor|]. intros x n Hn. destruct (Hone x n Hn) as [-> ->]. split; [left | done].
  - rewrite Hs3 by (intros h; apply not_eq_sym, node_tip_key). rewrite Hk2 by apply not_eq_sym, spec_tip_key.
    unfold d1. by rewrite put_contents, lookup_insert_eq.
  - exists (NewBlockSpecFromBlock gb). split; [done|]. rewrite spec_fields. split; [done|]. by left.
  - intros x n Hn Hx. by destruct (Hone x n Hn) as [-> _].
  - intros x n Hn. destruct (Hone x n Hn) as [-> ->]. eexists. split; [done|].
    unfold block_agrees. rewrite spec_fields. unfold info, gn. simpl. by rewrite Hg.
Qed.

Lemma run_calls_inv g fuel calls : ∀ k d c,
  chain_inv g k d c → (k + length calls ≤ fuel)%nat →
  ∃ d' c', run_calls fuel calls c d = Ret (d', c') ∧ chain_inv g (k + length calls) d' c'.
Proof.
  induction calls as [|call calls IH]; intros k d c Hc Hfuel; simpl in Hfuel.
  { exists d, c. split; [done|]. by rewrite Nat.add_0_r. }
  destruct call as [ob|ob]; cbn [run_calls length].
  - destruct (node_tree g k fuel ob d c (ki_tree _ _ _ _ Hc)) as (d1 & c1 & ob' & e & -> & [_ Hk] & _); [lia|].
    cbn [outcome_bind]. rewrite Nat.add_succ_r. apply (IH (S k)); [by apply Hk | lia].
  - destruct (network_tree g k fuel ob d c (ki_tree _ _ _ _ Hc)) as (d1 & c1 & e & -> & [_ Hk] & _); [lia|].
    cbn [outcome_bind]. rewrite Nat.add_succ_r. apply (IH (S k)); [by apply Hk | lia].
Qed.

(** ** Theorems *)

(** C39: Opened over an empty database and given any sequence of AddBlockNode and AddNetworkNode
    calls, the in-memory chain never panics and every call returns (fuel one more than the
    number of calls is enough); the block nodes form a tree rooted at genesis, those flagged as
    main list are exactly the path from genesis to the tip, depth, weight and TD are those of
    the tip, no node is heavier than the chain, and every node agrees with its stored block,
    which for nodes other than genesis includes the weight. *)
Theorem core_main_list_invariant gb g d fuel calls :
  hash gb = Some g → contents d !! dagTip = None → (∀ h, nodes d h = None) →
  (length calls < fuel)%nat →
  ∃ d0 c0 d' c', NewBlockChainInMem gb d = Ret (d0, Ok c0) ∧ run_calls fuel calls c0 d0 = Ret (d', c') ∧
    chain_inv g (S (length calls)) d' c'.
Proof.
  intros Hg Hnt Hno Hfuel. destruct (NewBlockChainInMem_fresh gb g d Hg Hnt Hno) as (d0 & Hnew & Hinv).
  destruct (run_calls_inv g fuel calls 1 d0 _ Hinv) as (d' & c' & Hrun & Hinv'); [lia|].
  do 4 eexists. split_and!; [exact Hnew | exact Hrun | done].
Qed.

(** AddNetworkNode always returns and keeps the chain invariant: an error leaves chain and
    database as they were, a block without hash, a stored block and an orphan get their error
    codes, and an accepted block is stored under its hash, becomes the tip exactly when it is
    heavier than the chain, and changes no other block. *)
Theorem network_node_outcome g k fuel block c d :
  chain_inv g k d c → (k ≤ fuel)%nat → is_u64 (nonce block) →
  ∃ d' c' e, AddNetworkNode fuel (Some block) c d = Ret (d', c', e) ∧ chain_inv g (S k) d' c' ∧
    match e with
    | Some _ => d' = d ∧ c' = c
    | None => ∃ h, hash block = Some h ∧ nodes d h = None ∧ is_Some (nodes d (parentHash block)) ∧
        c' = (if decide (chain_weight c < Uint64 (weight block)) then
                MkChain (genesis c) h (timestamp block) (Uint64 (depth block)) (Uint64 (weight block))
              else c) ∧
        getBlock h d' = Some (ComputeHash block) ∧
        ∀ x, x ≠ h → getBlock x d' = getBlock x d
    end ∧
    (hash block = None → error_code <$> e = Some (Some ERR_INVALID_HASH)) ∧
    (∀ h, hash block = Some h → nodes d h ≠ None → error_code <$> e = Some (Some ERR_DUPLICATE_BLOCK)) ∧
    (∀ h, hash block = Some h → (Has (tableKey tableBlockNode h) d).1 = false →
      nodes d (parentHash block) = None → error_code <$> e = Some (Some ERR_ORPHAN_BLOCK)).
Proof.
  intros Hc Hfuel Hn.
  destruct (network_tree g k fuel (Some block) d c (ki_tree _ _ _ _ Hc) Hfuel) as (d' & c' & e & Hrun & [_ Hk] & Hpost).
  exists d', c', e. split_and!; [done|by apply Hk| | | |].
  - destruct e as [e|]; [done|]. destruct Hpost as (b & h & [= <-] & Hh & [Hc' Hnew Hp Hs _ Hold] & _).
    exists h. split_and!; [done..| |].
    + rewrite getBlock_spec, Hs. simpl. by rewrite spec_round_trip.
    + intros x Hx. rewrite !getBlock_spec. by destruct (Hold x Hx) as [_ ->].
  - intros Hh. unfold AddNetworkNode in Hrun. rewrite Hh in Hrun. by injection Hrun as _ _ <-.
  - intros h Hh Hnode%has_nodes. unfold AddNetworkNode in Hrun. rewrite Hh, Hnode in Hrun. by injection Hrun as _ _ <-.
  - intros h Hh Hhas Hp. unfold AddNetworkNode in Hrun. rewrite Hh, Hhas in Hrun.
    unfold nodes in Hp. rewrite Hp in Hrun. by injection Hrun as _ _ <-.
Qed.

(** A new block that AddBlockNode accepts comes back with exactly the uncles that findUncles
    finds, in order, its weight raised by one for each, and its hash computed; it is stored
    under that hash, reads back as returned, and becomes the tip exactly when it is heavier than
    the chain. *)
Theorem new_block_uncles_weigh g k fuel block c d d' c' ob' :
  chain_inv g k d c → (k ≤ fuel)%nat → is_u64 (nonce block) →
  AddBlockNode fuel (Some block) c d = Ret (d', c', ob', None) →
  ∃ parent us hs b' h,
    nodes d (parentHash block) = Some parent ∧
    findUncles (PARENT parent) (HASH parent) maxUncleDistance (DEPTH parent) d = Ret us ∧
    map uncle_hash us = map Some hs ∧
    ob' = Some b' ∧ hash b' = Some h ∧ ComputeHash b' = b' ∧ uncles b' = hs ∧
    Uint64 (weight b') = u64 (Uint64 (weight block) + Z.of_nat (length hs)) ∧
    parentHash b' = parentHash block ∧ depth b' = depth block ∧ opCodes b' = opCodes block ∧
    getBlock h d' = Some b' ∧
    (chain_weight c < Uint64 (weight b') ↔ tip c' = h).
Proof.
  intros Hc Hfuel Hn Hrun.
  destruct (node_tree g k fuel (Some block) d c (ki_tree _ _ _ _ Hc) Hfuel) as (d1 & c1 & ob1 & e & Hrun' & _ & Hpost).
  rewrite Hrun in Hrun'. injection Hrun' as <- <- <- <-.
  destruct Hpost as (b & parent & us & b' & h & [= <-] & _ & Hu & Hp & Hus & Hadd & -> & Hh & [-> Hnew _ Hs _ _]).
  pose proof (ti_forest _ _ _ _ (ki_tree _ _ _ _ Hc)) as HF.
  destruct (findUncles_ret g maxUncleDistance (PARENT parent) (parentHash block) (DEPTH parent) d HF) as (us0 & Hus0 & Hhashed).
  assert (us0 = us) as ->.
  { rewrite (f_hash _ _ HF _ _ Hp : HASH parent = _) in Hus. congruence. }
  destruct (addUncles_ret us block Hhashed) as (b0 & hs & Hb0 & Hm & Hpar & Hdep & _ & Hop & _ & _ & Hnon & Hun & Hw).
  rewrite Hadd in Hb0. injection Hb0 as <-.
  exists parent, us, hs, (ComputeHash b'), h.
  assert (Hlen : length hs = length us).
  { apply (f_equal length) in Hm. rewrite !length_map in Hm. done. }
  split_and!; try done.
  - change (uncles b' = hs). by rewrite Hun, Hu.
  - change (Uint64 (weight b') = u64 (Uint64 (weight block) + Z.of_nat (length hs))). by rewrite Hlen.
  - rewrite getBlock_spec, Hs. cbn [fmap option_fmap option_map]. rewrite spec_round_trip, ComputeHash_idemp; [done|].
    change (is_u64 (nonce b')). by rewrite Hnon.
  - unfold adopted. case_decide; [done|]. split; [done|]. intros Ht.
    destruct (tree_stored _ _ _ _ (ki_tree _ _ _ _ Hc)) as [n Hnt]. rewrite Ht in Hnt. congruence.
Qed.

Lemma readBlocks_spec {A} (read : Byte64 → D → option A) g k c d L :
  chain_inv g k d c → path (nodes d) g (tip c) L → flags (nodes d) L →
  (∀ x s, getBlockSpec x d = Some s → is_Some (read x d)) →
  ∀ x max,
    (∀ l1 l2, L = l1 ++ x :: l2 → ∃ bs, readBlocks read x max d = Ret bs ∧
       Forall2 (λ x a, read x d = Some a) (take (Z.to_nat (Z.min max maxBlocks)) l2) bs) ∧
    (x ∉ L → readBlocks read x max d = Ret []).
Proof.
  intros Hc HL Hfl Hread x max. pose proof (ti_forest _ _ _ _ (ki_tree _ _ _ _ Hc)) as HF.
  assert (Hblocks : ∀ x n, nodes d x = Some n → BLOCK n = Some x ∧ is_Some (read x d)).
  { intros y n Hn. destruct (ki_blocks _ _ _ _ Hc y n Hn) as (s & Hs & Ha). injection Ha as _ _ _ Hb.
    split; [done | by eapply Hread]. }
  assert (Hmax : (if decide (max > maxBlocks) then maxBlocks else max) = Z.min max maxBlocks)
    by (case_decide; lia).
  unfold readBlocks. rewrite Hmax. split.
  - intros l1 l2 ->. destruct (path_some _ g _ _ x (f_root _ _ HF) HL) as [n Hn].
    { apply elem_of_app. right. left. }
    unfold nodes in Hn. rewrite Hn. unfold findMainListChild. rewrite (core_findMainListLoop_find _ _ _ (nodes d)) by done.
    pose proof (find_next (nodes d) (nodes d) g (tip c) l1 x l2 n HF HL Hfl Hn) as Hnext.
    cbn [n_children blockNode_ops] in Hnext. rewrite Hnext; [|by left|done]. cbn [outcome_bind].
    by eapply blocksLoop_spec.
  - intros Hx. destruct (getBlockNode x d) as [n|] eqn:Hn; [|done].
    unfold findMainListChild. rewrite (core_findMainListLoop_find _ _ _ (nodes d)) by done.
    pose proof (find_off (nodes d) g (tip c) L x n HF HL Hfl Hn Hx) as Hoff.
    cbn [n_children blockNode_ops] in Hoff. rewrite Hoff. cbn [outcome_bind]. by destruct (Z.to_nat _).
Qed.

(** Blocks and BlockSpecs return the stored blocks that follow the given block on the main list,
    in order, at most the smaller of max and 100 of them, and nothing for a block that is not on
    the main list. *)
Theorem blocks_read_main_list g k c d :
  chain_inv g k d c →
  ∃ L, path (nodes d) g (tip c) L ∧ flags (nodes d) L ∧ ∀ x max,
    (∀ l1 l2, L = l1 ++ x :: l2 →
       ∃ bs specs, Blocks x max d = Ret bs ∧ BlockSpecs x max d = Ret specs ∧
         Forall2 (λ x b, getBlock x d = Some b) (take (Z.to_nat (Z.min max maxBlocks)) l2) bs ∧
         Forall2 (λ x s, getBlockSpec x d = Some s) (take (Z.to_nat (Z.min max maxBlocks)) l2) specs) ∧
    (x ∉ L → Blocks x max d = Ret [] ∧ BlockSpecs x max d = Ret []).
Proof.
  intros Hc. destruct (ti_main _ _ _ _ (ki_tree _ _ _ _ Hc)) as (L & HL & Hfl).
  exists L. split_and!; [done..|]. intros x max.
  destruct (readBlocks_spec getBlock g k c d L Hc HL Hfl) with (x := x) (max := max) as [Hon Hoff].
  { intros y s Hs. rewrite getBlock_spec, Hs. by eexists. }
  destruct (readBlocks_spec getBlockSpec g k c d L Hc HL Hfl) with (x := x) (max := max) as [Hon' Hoff'].
  { intros y s ->. by eexists. }
  split; [|by auto]. intros l1 l2 Heq. destruct (Hon l1 l2 Heq) as (bs & ? & ?).
  destruct (Hon' l1 l2 Heq) as (specs & ? & ?). by exists bs, specs.
Qed.

Lemma spec_absent d x : contents d !! tableKey tableBlockSpec x = None → getBlockSpec x d = None.
Proof. rewrite <- get_contents. unfold getBlockSpec. by destruct (Get _ d). Qed.

(** Flush always terminates without error: tip, depth and TD are reset to genesis, the nodes and
    blocks of the main list other than genesis are gone, and everything else stays: the records
    off the main list, the node of genesis with its children, and the weight of the chain. *)
Theorem flush_deletes_main_list g k fuel c d :
  chain_inv g k d c → (k ≤ fuel)%nat →
  ∃ d' L s, Flush fuel c d = Ret (d', MkChain (genesis c) g (Timestamp s) 0 (chain_weight c), None) ∧
    getBlockSpec g d = Some s ∧ contents d' !! dagTip = Some (Bytes g) ∧
    path (nodes d) g (tip c) L ∧ flags (nodes d) L ∧
    (∀ x, x ∈ L → x ≠ g → nodes d' x = None ∧ getBlock x d' = None) ∧
    (∀ x, x ∉ L ∨ x = g → nodes d' x = nodes d x ∧ getBlock x d' = getBlock x d).
Proof.
  intros Hc Hfuel. pose proof (ki_tree _ _ _ _ Hc) as Ht. pose proof (ti_forest _ _ _ _ Ht) as HF.
  destruct (ti_main _ _ _ _ Ht) as (L & HL & Hfl). destruct (path_starts _ _ _ _ HL) as [l2 ->].
  destruct (f_root _ _ HF) as [ng Hng]. destruct (ki_blocks _ _ _ _ Hc g ng Hng) as (s & Hs & _).
  unfold Flush. rewrite (ki_genesis _ _ _ _ Hc). cbn [deref outcome_bind]. rewrite put_eq.
  set (d1 := (Put dagTip (Bytes g) d).1).
  assert (Hk1 : ∀ k, k ≠ dagTip → contents d1 !! k = contents d !! k).
  { intros k' Hk'. unfold d1. by rewrite put_contents, lookup_insert_ne. }
  assert (Hn1 : ∀ x, nodes d1 x = nodes d x) by (intros x; apply core_nodes_frame, Hk1, node_tip_key).
  assert (Hs1 : getBlockSpec g d1 = Some s) by (rewrite <- Hs; apply spec_frame, Hk1, spec_tip_key).
  rewrite getBlock_spec, Hs1. cbn [fmap option_fmap option_map deref outcome_bind].
  change (getBlockNode g d1) with (nodes d1 g). rewrite Hn1, Hng. cbn [deref outcome_bind].
  unfold findMainListChild. rewrite (core_findMainListLoop_find _ _ _ (nodes d)) by done.
  pose proof (find_next (nodes d) (nodes d) g (tip c) [] g l2 ng HF HL Hfl Hng) as Hnext.
  cbn [n_children blockNode_ops] in Hnext. rewrite Hnext; [|by left|done]. cbn [outcome_bind].
  pose proof (ti_bounded _ _ _ _ Ht _ _ HL) as Hlen. simpl in Hlen.
  destruct (flushLoop_spec (nodes d) g (tip c) l2 HF [] g fuel d1 HL Hfl) as (d' & -> & Hgone & Hkeep);
    [lia|by left|done|]. cbn [outcome_bind].
  pose proof (path_nodup _ _ _ _ HL) as [Hgl _]%list.NoDup_cons.
  exists d', (g :: l2), s. split_and!; [|done| |done|done| |].
  - do 3 f_equal. unfold NewSimpleBlockFromSpec. simpl. by rewrite copy8.
  - rewrite Hkeep; [unfold d1; by rewrite put_contents, lookup_insert_eq|].
    intros y _ [H|H]; symmetry in H; [by apply node_tip_key in H | by apply spec_tip_key in H].
  - intros x [->|Hx]%elem_of_cons Hne; [done|]. rewrite getBlock_spec, spec_absent, nodes_absent; [done|..];
      (eapply Hgone; [done|]); [by left | by right].
  - intros x Hx. assert (Hx2 : x ∉ l2) by (intros Hin; destruct Hx as [Hx| ->]; [apply Hx; by right | done]).
    rewrite !getBlock_spec, <- Hn1. split; [|f_equal; trans (getBlockSpec x d1)].
    + apply core_nodes_frame, Hkeep. by intros y Hy ->%record_key_node.
    + apply spec_frame, Hkeep. intros y Hy Hk. apply Hx2.
      by rewrite <- (record_key_inj y x _ Hk (or_intror eq_refl)).
    + apply spec_frame, Hk1, spec_tip_key.
Qed.

(** Reopening the chain over its database restores tip, depth and TD but not the weight: any
    acceptable block of positive weight becomes the tip of the reopened chain, however heavy the
    old tip was. *)
Theorem restart_forgets_weight g k fuel c d gb :
  chain_inv g k d c → (k ≤ fuel)%nat →
  ∃ n c0, nodes d (tip c) = Some n ∧ NewBlockChainInMem gb d = Ret (d, Ok c0) ∧
    tip c0 = tip c ∧ td c0 = td c ∧ chain_depth c0 = DEPTH n ∧ chain_weight c0 = 0 ∧
    ∀ block h, hash block = Some h → (Has (tableKey tableBlockNode h) d).1 = false →
      is_Some (nodes d (parentHash block)) → uncles block = [] → 0 < Uint64 (weight block) →
      ∃ d' c', AddNetworkNode fuel (Some block) c0 d = Ret (d', c', None) ∧ tip c' = h ∧
        chain_weight c' = Uint64 (weight block).
Proof.
  intros Hc Hfuel. pose proof (ki_tree _ _ _ _ Hc) as Ht. destruct (tree_stored _ _ _ _ Ht) as [n Hn].
  destruct (ki_numbers _ _ _ _ Hc) as (s & Hs & Htd & _).
  exists n, (MkChain (SetMainList true (NewBlockNode gb)) (tip c) (td c) (DEPTH n) 0).
  split; [done|]. split; [|split_and!; [done..|]].
  - unfold NewBlockChainInMem. rewrite (proj2 (get_ok_iff dagTip d _) (ki_tip _ _ _ _ Hc)), copy64.
    unfold nodes in Hn. rewrite Hn, getBlock_spec, Hs. cbn [fmap option_fmap option_map].
    rewrite copy8, Htd. unfold NewSimpleBlockFromSpec. simpl. by rewrite copy8.
  - intros block h Hh Hhas [parent Hp] Hu Hw. unfold AddNetworkNode. rewrite Hh, Hhas.
    unfold nodes in Hp. rewrite Hp, Hu. cbn [forallb]. apply has_not_nodes in Hhas.
    destruct (addBlock_accepted g k fuel block h parent d
      (MkChain (SetMainList true (NewBlockNode gb)) (tip c) (td c) (DEPTH n) 0) Ht Hh Hhas Hp Hfuel)
      as (d' & -> & _). do 2 eexists. split; [done|]. unfold adopted. simpl. by rewrite decide_True.
Qed.

(** Going through the wire format turns a core block into the same block with its hash computed,
    and is the identity on specs. *)
Theorem core_block_spec_round_trip b spec :
  is_u64 (nonce b) →
  NewSimpleBlockFromSpec (NewBlockSpecFromBlock b) = ComputeHash b ∧
  NewBlockSpecFromBlock (NewSimpleBlockFromSpec spec) = spec ∧
  hash (NewSimpleBlockFromSpec spec) ≠ None.
Proof.
  intros Hn. split_and!; [by apply spec_round_trip | apply spec_from_spec | done].
Qed.
End theorems.

(** ** Witnesses *)

Section witnesses.
#[local] Instance cw_hash : Sha512 := sample_hash.
#[global] Instance wire_block_node : Wire BlockNode :=
  wire_iso (λ n, (HASH n, PARENT n, DEPTH n, WEIGHT n, (ISMAINLIST n, CHILDREN n, BLOCK n)))
    (λ '(h, p, d, w, (m, c, b)), MkBlockNode h p d w m c b)
    (λ n, match n with MkBlockNode _ _ _ _ _ _ _ => eq_refl end).
#[global] Instance wire_block_spec : Wire BlockSpec :=
  wire_iso (λ s, (ParentHash s, Miner s, Transactions s, Timestamp s, Depth s, (Weight s, State s, Uncles s, Nonce s)))
    (λ '(p, m, t, ts, d, (w, s, u, n)), MkBlockSpec p m t ts d w s u n)
    (λ s, match s with MkBlockSpec _ _ _ _ _ _ _ _ _ => eq_refl end).
#[local] Instance cw_nodes : Codec BlockNode := codec_of_wire.
#[local] Instance cw_specs : Codec BlockSpec := codec_of_wire.
#[local] Instance cw_nodes_laws : CodecLaws BlockNode := codec_of_wire_laws.
#[local] Instance cw_specs_laws : CodecLaws BlockSpec := codec_of_wire_laws.
Abbreviation wdb := (gmap bytes bytes).

Definition cw_hash_of (b : SimpleBlock) : Byte64 := default (BytesToByte64 []) (hash b).

(** Genesis, two blocks on it, of which the second becomes an uncle of a third. *)
Definition cw_genesis : SimpleBlock := ComputeHash (NewSimpleBlock 0 (BytesToByte64 []) 0 0 7 [x6d]).
Definition cw_g : Byte64 := cw_hash_of cw_genesis.
Definition cw_b1 : SimpleBlock := NewSimpleBlock 0 cw_g 1 1 8 [x61].
Definition cw_b2 : SimpleBlock := ComputeHash (NewSimpleBlock 0 cw_g 1 1 9 [x62]).
Definition cw_b3 : SimpleBlock := NewSimpleBlock 0 (cw_hash_of (ComputeHash cw_b1)) 2 2 10 [x61].
Definition cw_calls : list chain_call := [AddNode (Some cw_b1); NetworkNode (Some cw_b2)].

Definition cw_start : wdb * BlockChainInMem :=
  match NewBlockChainInMem cw_genesis (∅ : wdb) with
  | Ret (d, Ok c) => (d, c)
  | _ => (∅, MkChain (NewBlockNode cw_genesis) cw_g (BytesToByte8 []) 0 0)
  end.
Definition cw_two : wdb * BlockChainInMem :=
  match run_calls 4 cw_calls cw_start.2 cw_start.1 with Ret r => r | _ => cw_start end.

Lemma cw_no_nodes h : nodes (∅ : wdb) h = None.
Proof. unfold nodes, getBlockNode. simpl. by rewrite lookup_empty. Qed.

Lemma cw_start_inv : chain_inv cw_g 1 cw_start.1 cw_start.2.
Proof.
  destruct (NewBlockChainInMem_fresh (D:=wdb) cw_genesis cw_g ∅ eq_refl (lookup_empty dagTip) cw_no_nodes)
    as (d & Heq & Hinv). unfold cw_start. by rewrite Heq.
Qed.

Lemma cw_two_inv : chain_inv cw_g 3 cw_two.1 cw_two.2.
Proof.
  destruct (run_calls_inv (D:=wdb) cw_g 4 cw_calls 1 cw_start.1 cw_start.2 cw_start_inv) as (d & c & Heq & Hinv);
    [simpl; lia|]. unfold cw_two. by rewrite Heq.
Qed.

Lemma core_main_list_invariant_witness :
  ∃ d0 c0 d' c', NewBlockChainInMem cw_genesis (∅ : wdb) = Ret (d0, Ok c0) ∧
    run_calls 4 cw_calls c0 d0 = Ret (d', c') ∧ chain_inv cw_g 3 d' c'.
Proof.
  apply (core_main_list_invariant (D:=wdb) cw_genesis cw_g ∅ 4 cw_calls);
    [exact eq_refl | exact (lookup_empty dagTip) | exact cw_no_nodes | simpl; lia].
Defined.

(** What the concrete chain computes *)
Example cw_two_numbers :
  (chain_depth cw_two.2, chain_weight cw_two.2, bool_decide (tip cw_two.2 = cw_hash_of (ComputeHash cw_b1)),
   length <$> (CHILDREN <$> getBlockNode cw_g cw_two.1)) = (1, 1, true, Some 2%nat).
Proof. vm_compute. reflexivity. Qed.

Lemma network_node_outcome_witness :
  ∃ d' c' e, AddNetworkNode 3 (Some cw_b2) cw_two.2 cw_two.1 = Ret (d', c', e) ∧
    chain_inv cw_g 4 d' c' ∧ (hash cw_b2 = None → error_code <$> e = Some (Some ERR_INVALID_HASH)).
Proof.
  destruct (network_node_outcome (D:=wdb) cw_g 3 3 cw_b2 cw_two.2 cw_two.1 cw_two_inv (le_n 3))
    as (d' & c' & e & Hrun & Hinv & _ & He & _); [by split|].
  exists d', c', e. split; [exact Hrun|]. split; [exact Hinv | exact He].
Defined.

(** The third block is added with the second one as uncle. *)
Definition cw_third : outcome (wdb * BlockChainInMem * option SimpleBlock * option error) :=
  AddBlockNode 3 (Some cw_b3) cw_two.2 cw_two.1.
Definition cw_three : wdb * BlockChainInMem * option SimpleBlock :=
  match cw_third with Ret (r, _) => r | _ => (cw_two, None) end.

Lemma cw_third_ok : match cw_third with Ret (_, None) => true | _ => false end = true.
Proof. vm_compute. reflexivity. Qed.

Lemma cw_third_eq :
  AddBlockNode 3 (Some cw_b3) cw_two.2 cw_two.1 = Ret (cw_three.1.1, cw_three.1.2, cw_three.2, None).
Proof.
  pose proof cw_third_ok as H. change (cw_third = Ret (cw_three.1.1, cw_three.1.2, cw_three.2, None)).
  unfold cw_three. revert H. generalize cw_third as o. by intros [[[[d c] b] [e|]]| |].
Qed.

Example cw_third_uncles :
  (uncles <$> cw_three.2, Uint64 <$> (weight <$> cw_three.2), chain_weight cw_three.1.2) =
  (Some [cw_hash_of cw_b2], Some 3, 3).
Proof. vm_compute. reflexivity. Qed.

Lemma new_block_uncles_weigh_witness :
  ∃ us hs b', map uncle_hash us = map Some hs ∧ cw_three.2 = Some b' ∧ uncles b' = hs ∧
    Uint64 (weight b') = u64 (Uint64 (weight cw_b3) + Z.of_nat (length hs)).
Proof.
  destruct (new_block_uncles_weigh (D:=wdb) cw_g 3 3 cw_b3 cw_two.2 cw_two.1 cw_three.1.1 cw_three.1.2 cw_three.2
    cw_two_inv (le_n 3)) as (parent & us & hs & b' & h & _ & _ & Hm & Hb & _ & _ & Hu & Hw & _);
    [by split | exact cw_third_eq|].
  exists us, hs, b'. split; [exact Hm|]. split; [exact Hb|]. split; [exact Hu | exact Hw].
Defined.

Lemma blocks_read_main_list_witness :
  ∃ L, path (nodes cw_two.1) cw_g (tip cw_two.2) L ∧ flags (nodes cw_two.1) L ∧
    ∀ x, x ∉ L → Blocks x 10 cw_two.1 = Ret [].
Proof.
  destruct (blocks_read_main_list (D:=wdb) cw_g 3 cw_two.2 cw_two.1 cw_two_inv) as (L & HL & Hfl & Hall).
  exists L. split; [exact HL|]. split; [exact Hfl|]. intros x Hx. apply (proj2 (Hall x 10) Hx).
Defined.

(** The main list of the concrete chain is read from genesis on. *)
Example cw_blocks :
  match Blocks cw_g 10 cw_two.1 with Ret bs => map hash bs | _ => [] end = [hash (ComputeHash cw_b1)].
Proof. vm_compute. reflexivity. Qed.

Lemma flush_deletes_main_list_witness :
  ∃ d' L s, Flush 3 cw_two.2 cw_two.1 =
      Ret (d', MkChain (genesis cw_two.2) cw_g (Timestamp s) 0 (chain_weight cw_two.2), None) ∧
    path (nodes cw_two.1) cw_g (tip cw_two.2) L ∧ (∀ x, x ∈ L → x ≠ cw_g → nodes d' x = None ∧ getBlock x d' = None).
Proof.
  destruct (flush_deletes_main_list (D:=wdb) cw_g 3 3 cw_two.2 cw_two.1 cw_two_inv (le_n 3))
    as (d' & L & s & Hrun & _ & _ & HL & _ & Hgone & _).
  exists d', L, s. split; [exact Hrun|]. split; [exact HL | exact Hgone].
Defined.

Lemma restart_forgets_weight_witness :
  ∃ c0, NewBlockChainInMem cw_genesis cw_two.1 = Ret (cw_two.1, Ok c0) ∧ tip c0 = tip cw_two.2 ∧ chain_weight c0 = 0.
Proof.
  destruct (restart_forgets_weight (D:=wdb) cw_g 3 3 cw_two.2 cw_two.1 cw_genesis cw_two_inv (le_n 3))
    as (n & c0 & _ & Hnew & Htip & _ & _ & Hw & _).
  exists c0. split; [exact Hnew|]. split; [exact Htip | exact Hw].
Defined.

Lemma core_block_spec_round_trip_witness :
  NewSimpleBlockFromSpec (NewBlockSpecFromBlock cw_b1) = ComputeHash cw_b1.
Proof.
  apply (core_block_spec_round_trip cw_b1 (NewBlockSpecFromBlock cw_b1)). by split.
Defined.
End witnesses.
