(* ===== verification/Trustee.v ===== *)
(** * Mining rewards ([src/network/trustee.go],
      [src/network/trusteeTransactions.go])

    Definitions only: account balances kept in the world state of a block,
    and the reward transaction that a miner puts first into its block and
    that every peer verifies.  Go strings are byte strings here.  The
    elliptic-curve library is the class [Ecdsa]. *)

From Stdlib Require Import Strings.Byte.
From stdpp Require Import pretty.
From S2P Require Import Prelude Bytes Db WorldStateI Block.

(** ** The libraries *)

(** [crypto/ecdsa] and the key encoding of go-ethereum.  The randomness that
    signing draws is an argument. *)
Class Ecdsa := {
  PrivateKey : Type;
  PublicKey : Type;
  publicKey : PrivateKey → PublicKey;
  ecdsa_Sign : Z → PrivateKey → bytes → result (Z * Z);
  ecdsa_Verify : PublicKey → bytes → Z → Z → bool;
  FromECDSAPub : PublicKey → bytes;
  ToECDSAPub : bytes → option PublicKey;
}.

Class EcdsaLaws `{Ecdsa} := {
  verify_sign rand k h r s : ecdsa_Sign rand k h = Ok (r, s) → ecdsa_Verify (publicKey k) h r s = true;
  to_from_pub p : ToECDSAPub (FromECDSAPub p) = Some p;
  from_pub_ne p : FromECDSAPub p ≠ [];
}.

(** [fmt.Sprintf] of [%x] on a byte slice *)
Definition hexDigits : bytes := str_bytes "0123456789abcdef".
Definition hexDigit (n : Z) : byte := nth (Z.to_nat n) hexDigits x00.
Fixpoint bytesToHexString (bs : bytes) : bytes :=
  match bs with
  | [] => []
  | b :: bs => hexDigit (byte_val b `div` 16) :: hexDigit (byte_val b `mod` 16) :: bytesToHexString bs
  end.

(** [fmt.Sprintf] of [%d] on a [uint64] *)
Definition fmt_d (n : Z) : string := pretty (Z.to_N n).

(** [strconv.ParseUint(s, 10, 64)] *)
Fixpoint parseDigits (n : Z) (s : bytes) : result Z :=
  match s with
  | [] => Ok n
  | c :: s =>
      let v := byte_val c - 48 in
      if decide (0 ≤ v ≤ 9) then
        if decide (2 ^ 64 ≤ n * 10 + v) then Err (StdError "value out of range")
        else parseDigits (n * 10 + v) s
      else Err (StdError "invalid syntax")
  end.
Definition ParseUint (s : bytes) : result Z :=
  match s with [] => Err (StdError "invalid syntax") | _ => parseDigits 0 s end.

(** ** Operations and amounts ([trusteeTransactions.go]) *)

(** [type Op struct] *)
Record Op := MkOp {
  OpCode : bytes;
  Params : gmap bytes bytes;
}.

Definition OpReward : bytes := str_bytes "REWARD".
Definition ParamMiner : bytes := str_bytes "MINER".
Definition ParamUncle : bytes := str_bytes "UNCLE".
Definition ParamAward : bytes := str_bytes "AWARD".
Definition MinerAward : bytes := str_bytes "1000000".
Definition UncleAward : bytes := str_bytes "200000".
Definition RtuDivisor : Z := 1000000.

(** [func NewOp(opCode string) *Op] *)
Definition NewOp (opCode : bytes) : option Op :=
  if decide (opCode = OpReward) then Some (MkOp opCode ∅) else None.

(** [type RTU uint64] *)
Definition RTU : Type := Z.

Definition rtu_Bytes (r : RTU) : bytes := Bytes (Uint64ToByte8 r).
Definition rtu_Units (r : RTU) : Z := r `div` RtuDivisor.
Definition rtu_Decimals (r : RTU) : Z := r `mod` RtuDivisor.
Definition rtu_String (r : RTU) : string := (fmt_d (rtu_Units r) +:+ "." +:+ fmt_d (rtu_Decimals r))%string.
Definition Uint64ToRtu (number : Z) : RTU := number.
Definition BytesToRtu (bs : bytes) : RTU := Uint64ToRtu (Uint64 (BytesToByte8 bs)).

(** [src/network/error.go] *)
Definition ERR_LOW_BALANCE : Z := 0x600.

(** [type signature struct]; a decoder leaves a missing field [nil]. *)
Record signature := MkSignature {
  sig_R : option Z;
  sig_S : option Z;
}.

(** The order in which Go ranges over the parameters of an operation *)
Definition paramOrder : Type := gmap bytes bytes → list (bytes * bytes).

(** The variables of the loops of [process] over the parameters *)
Record scan := Scan {
  validOp : bool;
  account : bytes;
  amount : Z;
}.

(** The body of the two loops of [process] over the parameters of an
    operation: [who] is [ParamMiner] or [ParamUncle], [owner] the account
    that has to be named and [award] the amount. *)
Definition scanParam (who owner award : bytes) (s : scan) (kv : bytes * bytes) : scan :=
  let '(key, value) := kv in
  if decide (key = who) then
    if decide (value ≠ owner) then Scan false (account s) (amount s)
    else Scan (validOp s) value (amount s)
  else if decide (key = ParamAward) then
    if decide (value ≠ award) then Scan false (account s) (amount s)
    else match ParseUint value with
         | Err _ => Scan false (account s) (amount s)
         | Ok v => Scan (validOp s) (account s) v
         end
  else Scan false (account s) (amount s).

Definition scanParams (who owner award : bytes) (params : list (bytes * bytes)) : scan :=
  fold_left (scanParam who owner award) params (Scan true [] 0).

Definition scan_ok (s : scan) : bool :=
  validOp s && bool_decide (0 < length (account s))%nat && bool_decide (0 < amount s).

Section operations.
Context {D W : Type} {wso : WorldState W D} {sha : Sha512} {ec : Ecdsa}.
Context {cop : Codec (list Op)} {csg : Codec signature}.
Implicit Types (b : block W) (d : D).

(** ** Balances *)

(** The bytes of [bytes, _ := block.Lookup(account)]: [nil] with an error *)
Definition lookupBytes (account : bytes) b d : outcome (block W * bytes) :=
  let! (b, r) := block_Lookup account b d in
  Ret (b, match r with Ok v => v | Err _ => [] end).

(** [func MiningRewardBalance(block consensus.Block, account []byte) *RTU] *)
Definition MiningRewardBalance (account : bytes) b d : outcome (block W * RTU) :=
  let! (b, v) := lookupBytes account b d in
  Ret (b, BytesToRtu v).

(** [func (t *trusteeImpl) MiningRewardBalance(block consensus.Block, account []byte) *RTU] *)
Definition trustee_MiningRewardBalance (account : bytes) b d : outcome (block W * RTU) :=
  MiningRewardBalance (bytesToHexString account) b d.

(** [func Credit(block consensus.Block, account []byte, delta *RTU) error];
    it always returns [nil]. *)
Definition Credit (account : bytes) (delta : RTU) b d : outcome (block W) :=
  let! (b, v) := lookupBytes account b d in
  let newVal := u64 (BytesToRtu v + delta) in
  Ret (block_Update account (rtu_Bytes (Uint64ToRtu newVal)) b).1.

(** [func Debit(block consensus.Block, account []byte, delta *RTU) error] *)
Definition Debit (account : bytes) (delta : RTU) b d : outcome (block W * option error) :=
  let! (b, v) := lookupBytes account b d in
  let currVal := BytesToRtu v in
  if decide (currVal < delta) then
    Ret (b, Some (CoreError ERR_LOW_BALANCE
      ("insufficient fund: " +:+ fmt_d currVal +:+ " < " +:+ fmt_d delta)))
  else Ret ((block_Update account (rtu_Bytes (Uint64ToRtu (u64 (currVal - delta)))) b).1, None).

(** ** The trustee *)

(** [type trusteeImpl struct], without the logger, the platform manager and
    the application's configuration *)
Record trusteeImpl := MkTrustee {
  identity : PrivateKey;
  myAddress : bytes;
  myReward : Op;
}.

(** [func NewTrusteeApp(mgr, identity, appConfig) *trusteeImpl] *)
Definition NewTrusteeApp (key : PrivateKey) : outcome trusteeImpl :=
  let addr := FromECDSAPub (publicKey key) in
  let! op := deref (NewOp OpReward) in
  Ret (MkTrustee key addr
    (MkOp (OpCode op) (<[ParamAward := MinerAward]> (<[ParamMiner := bytesToHexString addr]> (Params op))))).

(** [func (t *trusteeImpl) sign(payload []byte) []byte]; [nil] on an error *)
Definition sign (rand : Z) (t : trusteeImpl) (payload : bytes) : bytes :=
  match ecdsa_Sign rand (identity t) (Bytes (Sum512 payload)) with
  | Err _ => []
  | Ok (r, s) =>
      match Serialize (MkSignature (Some r) (Some s)) with
      | Err _ => []
      | Ok txSignature => txSignature
      end
  end.

(** [func (t *trusteeImpl) verify(payload, sign, submitter []byte) bool];
    [ecdsa.Verify] dereferences both numbers. *)
Definition verify (payload sign submitter : bytes) : outcome bool :=
  match ToECDSAPub submitter with
  | None => Ret false
  | Some key =>
      match Deserialize sign with
      | Err _ => Ret false
      | Ok s =>
          let! r := deref (sig_R s) in
          let! s := deref (sig_S s) in
          Ret (ecdsa_Verify key (Bytes (Sum512 payload)) r s)
      end
  end.

(** The loop of [process] over the uncles of the block *)
Fixpoint processUncles (order : paramOrder) (uncles : list bytes) (ops : list Op) b d
    : outcome (block W * bool) :=
  match uncles with
  | [] => Ret (b, true)
  | uncle :: uncles =>
      match ops with
      | [] => Panic
      | op :: ops =>
          let s := scanParams ParamUncle (bytesToHexString uncle) UncleAward (order (Params op)) in
          if scan_ok s then
            let! b := Credit (account s) (Uint64ToRtu (amount s)) b d in
            processUncles order uncles ops b d
          else Ret (b, false)
      end
  end.

(** [func (t *trusteeImpl) process(block consensus.Block, tx *consensus.Transaction) bool] *)
Definition process (order : paramOrder) (tx : Transaction) b d : outcome (block W * bool) :=
  match Deserialize (Payload tx) with
  | Err _ => Ret (b, false)
  | Ok ops =>
      if decide (length ops ≠ 1 + length (UncleMiners b))%nat then Ret (b, false)
      else
        match ops with
        | [] => Panic
        | op :: ops =>
            let s := scanParams ParamMiner (bytesToHexString (Submitter tx)) MinerAward (order (Params op)) in
            if scan_ok s then
              let! b := Credit (account s) (Uint64ToRtu (amount s)) b d in
              processUncles order (UncleMiners b) ops b d
            else Ret (b, false)
        end
  end.

(** The operations of a reward transaction *)
Fixpoint uncleOps (uncleMiners : list bytes) : outcome (list Op) :=
  match uncleMiners with
  | [] => Ret []
  | uncleMiner :: uncleMiners =>
      let! op := deref (NewOp OpReward) in
      let! ops := uncleOps uncleMiners in
      Ret (MkOp (OpCode op)
        (<[ParamAward := UncleAward]> (<[ParamUncle := bytesToHexString uncleMiner]> (Params op))) :: ops)
  end.

(** [func (t *trusteeImpl) NewMiningRewardTx(block consensus.Block) *consensus.Transaction];
    [None] is [nil]. *)
Definition NewMiningRewardTx (order : paramOrder) (now rand : Z) (t : trusteeImpl) b d
    : outcome (block W * option Transaction) :=
  let! ops := uncleOps (UncleMiners b) in
  match Serialize (myReward t :: ops) with
  | Err _ => Ret (b, None)
  | Ok payload =>
      let signature := sign rand t payload in
      if decide (0 < length signature)%nat then
        let tx := NewTransaction now payload signature (myAddress t) in
        let! (b, _) := AddTransaction tx b d in
        let! (b, _) := process order tx b d in
        Ret (b, Some tx)
      else Ret (b, None)
  end.

(** [func (t *trusteeImpl) VerifyMiningRewardTx(block consensus.Block) bool] *)
Definition VerifyMiningRewardTx (order : paramOrder) b d : outcome (block W * bool) :=
  let! tx := deref (head (Transactions b)) in
  let! valid := verify (Payload tx) (Signature tx) (Submitter tx) in
  if negb valid then Ret (b, false)
  else if decide (Submitter tx ≠ Miner b) then Ret (b, false)
  else process order tx b d.
End operations.
