(* ===== verification/TrusteeFacts.v ===== *)
(** * Facts about mining rewards

    What crediting and debiting an account do to the view of a block, and
    which operations [process] accepts. *)

From Stdlib Require Import Strings.Byte.
From S2P Require Import Prelude Bytes Db WorldStateI Block BlockFacts Trustee.

(** ** Hexadecimal strings *)

Lemma hexDigit_lookup n : 0 ≤ n < 16 → hexDigits !! Z.to_nat n = Some (hexDigit n).
Proof.
  intros Hn. destruct (nth_lookup_or_length hexDigits (Z.to_nat n) x00) as [H|H]; [done|].
  change (length hexDigits) with 16%nat in H. lia.
Qed.

Lemma hexDigit_inj m n : 0 ≤ m < 16 → 0 ≤ n < 16 → hexDigit m = hexDigit n → m = n.
Proof.
  intros Hm Hn Heq. apply Z2Nat.inj; [lia..|].
  apply (NoDup_lookup hexDigits _ _ (hexDigit m)); [|by apply hexDigit_lookup|rewrite Heq; by apply hexDigit_lookup].
  by apply (bool_decide_eq_true_1 (NoDup hexDigits)).
Qed.

#[global] Instance bytesToHexString_inj : Inj (=) (=) bytesToHexString.
Proof.
  intros l. induction l as [|b l IH]; intros [|c k]; try done. cbn [bytesToHexString].
  intros [= H1 H2 H3]. pose proof (byte_val_range b). pose proof (byte_val_range c).
  apply hexDigit_inj in H1; [|zlia..]. apply hexDigit_inj in H2; [|zlia..].
  assert (byte_val b = byte_val c) as ->%byte_val_inj by zlia. f_equal. by apply IH.
Qed.

Lemma bytesToHexString_nil l : bytesToHexString l = [] ↔ l = [].
Proof. by destruct l. Qed.

(** ** The parameters of an operation *)

Definition is_order (order : paramOrder) : Prop := ∀ m, order m ≡ₚ map_to_list m.

(** The parameters that an operation rewarding [owner] has to have. *)
Definition reward_params (who owner award : bytes) : gmap bytes bytes :=
  {[ who := owner; ParamAward := award ]}.

Section scanning.
Context (who owner award : bytes) (v : Z).
Hypothesis Hwho : who ≠ ParamAward.
Hypothesis Howner : owner ≠ [].
Hypothesis Haward : ParseUint award = Ok v.
Hypothesis Hv : 0 < v.

Definition good_param (kv : bytes * bytes) : Prop := kv = (who, owner) ∨ kv = (ParamAward, award).

(** One parameter keeps the operation valid exactly when it is one of the two. *)
Lemma scanParam_valid s kv :
  (validOp (scanParam who owner award s kv) = true ↔ validOp s = true ∧ good_param kv) ∧
  (good_param kv → scanParam who owner award s kv =
     Scan (validOp s) (if decide (kv.1 = who) then owner else account s)
       (if decide (kv.1 = who) then amount s else v)).
Proof.
  destruct kv as [key value]. unfold good_param, scanParam. cbn [fst].
  destruct (decide (key = who)) as [->|Hk].
  - destruct (decide (value ≠ owner)) as [Hn|Hn]; simpl.
    + split; [|by intros [[= ->]|[= ? _]]]. split; [done|]. by intros [_ [[= ->]|[= ? _]]].
    + assert (value = owner) as -> by (by destruct (decide (value = owner))).
      split; [|done]. split; [by auto | by intros [? _]].
  - destruct (decide (key = ParamAward)) as [->|Hk'].
    + destruct (decide (value ≠ award)) as [Hn|Hn]; simpl.
      * split; [|by intros [[= ? _]|[= ->]]]. split; [done|]. by intros [_ [[= ? _]|[= ->]]].
      * assert (value = award) as -> by (by destruct (decide (value = award))). rewrite Haward.
        split; [|done]. split; [by auto | by intros [? _]].
    + simpl. split; [|by intros [[= ? _]|[= ? _]]]. split; [done|]. by intros [_ [[= ? _]|[= ? _]]].
Qed.

Lemma scan_fold l : ∀ s,
  (validOp (fold_left (scanParam who owner award) l s) = true ↔ validOp s = true ∧ Forall good_param l) ∧
  (Forall good_param l → fold_left (scanParam who owner award) l s =
     Scan (validOp s) (if decide ((who, owner) ∈ l) then owner else account s)
       (if decide ((ParamAward, award) ∈ l) then v else amount s)).
Proof.
  induction l as [|kv l IH]; intros s; cbn [fold_left].
  - split; [split; [by split | by intros [? _]]|]. intros _. rewrite !decide_False by apply not_elem_of_nil. by destruct s.
  - destruct (IH (scanParam who owner award s kv)) as [IH1 IH2].
    destruct (scanParam_valid s kv) as [H1 H2]. split.
    + rewrite IH1, H1, Forall_cons_iff. tauto.
    + intros [Hkv Hl]%Forall_cons_iff. rewrite (IH2 Hl), (H2 Hkv). cbn [validOp account amount].
      destruct Hkv as [->| ->]; cbn [fst].
      * rewrite !(decide_True (P:=who = who)) by done. f_equal.
        -- rewrite (decide_True (P:=_ ∈ (who, owner) :: l)) by left. by destruct (decide ((who, owner) ∈ l)).
        -- destruct (decide ((ParamAward, award) ∈ l)) as [Hi|Hi].
           ++ by rewrite decide_True by (by right).
           ++ rewrite decide_False; [done|]. intros [[= ? _]|?]%elem_of_cons; [by destruct Hwho | done].
      * rewrite !(decide_False (P:=ParamAward = who)) by auto. f_equal.
        -- destruct (decide ((who, owner) ∈ l)) as [Hi|Hi].
           ++ by rewrite decide_True by (by right).
           ++ rewrite decide_False; [done|]. intros [[= ? _]|?]%elem_of_cons; done.
        -- rewrite (decide_True (P:=_ ∈ (ParamAward, award) :: l)) by left. by destruct (decide ((ParamAward, award) ∈ l)).
Qed.

(** An operation is accepted exactly when its parameters are those of the
    reward, in whatever order they are visited. *)
Lemma scanParams_ok order m :
  is_order order →
  (scan_ok (scanParams who owner award (order m)) = true ↔ m = reward_params who owner award) ∧
  (m = reward_params who owner award → scanParams who owner award (order m) = Scan true owner v).
Proof.
  intros Ho. destruct (scan_fold (order m) (Scan true [] 0)) as [H1 H2].
  assert (Hin : ∀ k x, (k, x) ∈ order m ↔ m !! k = Some x) by (intros k x; by rewrite (Ho m), elem_of_map_to_list).
  assert (Hall : m = reward_params who owner award → Forall good_param (order m)).
  { intros ->. apply list.Forall_forall. intros [k x] Hx. apply Hin in Hx. unfold reward_params in Hx. apply lookup_insert_Some in Hx as [[<- <-]|[_ Hx]]; [by left|].
    apply lookup_singleton_Some in Hx as [<- <-]. by right. }
  assert (Hr : m = reward_params who owner award → scanParams who owner award (order m) = Scan true owner v).
  { intros Hm. unfold scanParams. rewrite (H2 (Hall Hm)). subst m. rewrite !decide_True; [done|..]; apply Hin; unfold reward_params.
    - by rewrite lookup_insert_ne, lookup_singleton_eq by done.
    - by rewrite lookup_insert_eq. }
  split; [|done]. split; [|intros Hm; rewrite (Hr Hm); unfold scan_ok; simpl].
  - unfold scan_ok, scanParams. rewrite !andb_true_iff, !bool_decide_eq_true. intros [[Hval Hacc] Ham].
    apply H1 in Hval as [_ Hgood]. rewrite (H2 Hgood) in Hacc, Ham. simpl in Hacc, Ham.
    destruct (decide ((who, owner) ∈ order m)) as [Hw|_]; [|simpl in Hacc; lia].
    destruct (decide ((ParamAward, award) ∈ order m)) as [Ha|_]; [|lia].
    apply Hin in Hw, Ha. apply map_eq. intros k. unfold reward_params.
    destruct (decide (k = who)) as [->|Hk]; [by rewrite lookup_insert_eq|]. rewrite lookup_insert_ne by done.
    destruct (decide (k = ParamAward)) as [->|Hk']; [by rewrite lookup_singleton_eq|].
    rewrite lookup_singleton_ne by done. apply eq_None_not_Some. intros [x Hx]. apply Hin in Hx.
    rewrite list.Forall_forall in Hgood. by destruct (Hgood _ Hx) as [[= ? _]|[= ? _]].
  - rewrite !bool_decide_eq_true_2; [done|done|]. destruct owner; [done | simpl; lia].
Qed.
End scanning.

(** An empty account is never accepted. *)
Lemma scan_account who owner award l s :
  account s = [] ∨ account s = owner →
  account (fold_left (scanParam who owner award) l s) = [] ∨
  account (fold_left (scanParam who owner award) l s) = owner.
Proof.
  revert s. induction l as [|[key value] l IH]; intros s Hs; cbn [fold_left]; [done|].
  apply IH. unfold scanParam. repeat case_decide; try done.
  - right. simpl. by destruct (decide (value = owner)).
  - by destruct (ParseUint value).
Qed.

Lemma scan_empty_owner who award l : scan_ok (scanParams who [] award l) = false.
Proof.
  unfold scan_ok, scanParams.
  destruct (scan_account who [] award l (Scan true [] 0)) as [->| ->]; [by left|..]; simpl; by rewrite andb_false_r.
Qed.

Lemma reward_scan who owner award v order m :
  who ≠ ParamAward → ParseUint award = Ok v → 0 < v → is_order order →
  (scan_ok (scanParams who owner award (order m)) = true ↔ owner ≠ [] ∧ m = reward_params who owner award) ∧
  (owner ≠ [] → m = reward_params who owner award → scanParams who owner award (order m) = Scan true owner v).
Proof.
  intros Hwho Haward Hv Ho. destruct (decide (owner = [])) as [->|Hne].
  - rewrite scan_empty_owner. split; [split; [done | by intros [? _]] | done].
  - destruct (scanParams_ok who owner award v Hwho Hne Haward Hv order m Ho) as [H1 H2].
    split; [|done]. rewrite H1. split; [done | by intros [_ ?]].
Qed.

(** ** Balances *)

Section balances.
Context {D W : Type} {wso : WorldState W D}.
Implicit Types (b : block W) (d : D).

(** What a client reads under a key of the block. *)
Definition bview b d (k : bytes) : option bytes :=
  match variables b !! k with
  | Some v => v
  | None => worldState b ≫= λ w, result_opt (ws_Lookup w k d)
  end.

Definition balance b d (a : bytes) : Z := BytesToRtu (default [] (bview b d a)).

(** [b'] is [b] but for the variables. *)
Definition same_block b b' : Prop := ∃ m, b' = set_variables m b.

#[global] Instance same_block_preorder : PreOrder same_block.
Proof.
  split.
  - intros b. exists (variables b). by destruct b.
  - intros b1 b2 b3 [m ->] [m' ->]. by exists m'.
Qed.

Lemma same_block_state b b' : same_block b b' → worldState b' = worldState b.
Proof. by intros [m ->]. Qed.

Lemma same_block_uncles b b' : same_block b b' → UncleMiners b' = UncleMiners b.
Proof. by intros [m ->]. Qed.

Lemma balance_range b d a : is_u64 (balance b d a).
Proof. apply Uint64_range. Qed.

Lemma rtu_round_trip x : BytesToRtu (rtu_Bytes x) = u64 x.
Proof.
  unfold BytesToRtu, rtu_Bytes, Uint64ToRtu, BytesToByte8.
  by rewrite BytesToArr_Bytes, Uint64_Uint64ToByte8.
Qed.

(** Reading answers the view and leaves it. *)
Lemma lookupBytes_spec k b d :
  is_Some (worldState b) →
  ∃ b', lookupBytes k b d = Ret (b', default [] (bview b d k)) ∧ same_block b b' ∧
    ∀ k', bview b' d k' = bview b d k'.
Proof.
  intros [w Hw]. unfold lookupBytes, block_Lookup, bview. rewrite Hw.
  destruct (variables b !! k) as [[v|]|] eqn:Ek; cbn [deref outcome_bind].
  1, 2: exists b; split; [done|]; split; [reflexivity|]; intros k'; by rewrite ?Hw.
  simpl. destruct (ws_Lookup w k d) as [v|e] eqn:El; cbn [outcome_bind].
  - eexists. split; [done|]. split; [by eexists|]. intros k'. cbn [set_variables variables worldState].
    destruct (decide (k = k')) as [->|Hk]; [rewrite lookup_insert_eq, Ek; simpl; by rewrite El|].
    rewrite lookup_insert_ne by done. by rewrite ?Hw.
  - exists b. split; [done|]. split; [reflexivity|]. intros k'; by rewrite ?Hw.
Qed.

Lemma bview_update k v b d k' :
  bview (block_Update k v b).1 d k' = if decide (k = k') then Some v else bview b d k'.
Proof.
  unfold bview. cbn [block_Update fst set_variables variables worldState].
  case_decide as Hk; [subst; by rewrite lookup_insert_eq | by rewrite lookup_insert_ne].
Qed.

(** The view with the balance of one account set. *)
Definition paid (a : bytes) (x : Z) b d b' : Prop :=
  same_block b b' ∧ ∀ k, bview b' d k = if decide (a = k) then Some (rtu_Bytes x) else bview b d k.

Lemma paid_balance a x b d b' a' :
  paid a x b d b' → balance b' d a' = if decide (a = a') then u64 x else balance b d a'.
Proof.
  intros [_ Hv]. unfold balance. rewrite Hv. case_decide; [simpl; apply rtu_round_trip | done].
Qed.

Lemma Credit_spec a x b d :
  is_Some (worldState b) →
  ∃ b', Credit a x b d = Ret b' ∧ paid a (u64 (balance b d a + x)) b d b'.
Proof.
  intros Hw. unfold Credit. destruct (lookupBytes_spec a b d Hw) as (b1 & -> & Hs & Hv). cbn [outcome_bind].
  eexists. split; [done|]. split; [by etrans; [exact Hs | eexists]|].
  intros k. rewrite bview_update. by case_decide.
Qed.

Lemma Debit_spec a x b d :
  is_Some (worldState b) → is_u64 x →
  ∃ b' e, Debit a x b d = Ret (b', e) ∧
    if decide (balance b d a < x) then
      error_code <$> e = Some (Some ERR_LOW_BALANCE) ∧ same_block b b' ∧ ∀ k, bview b' d k = bview b d k
    else e = None ∧ paid a (balance b d a - x) b d b'.
Proof.
  intros Hw Hx. unfold Debit. destruct (lookupBytes_spec a b d Hw) as (b1 & -> & Hs & Hv). cbn [outcome_bind].
  change (BytesToRtu (default [] (bview b d a))) with (balance b d a).
  destruct (decide (balance b d a < x)) as [Hlow|Hlow].
  - by do 2 eexists.
  - do 2 eexists. split; [done|]. split; [done|]. split; [by etrans; [exact Hs | eexists]|].
    intros k. rewrite bview_update, Hv. unfold Uint64ToRtu. rewrite u64_small; [done|].
    pose proof (balance_range b d a). unfold is_u64 in *. lia.
Qed.

(** ** Rewards *)

(** What a list of rewards pays to an account. *)
Definition owed (rs : list (bytes * Z)) (a : bytes) : Z :=
  foldr (λ r acc, (if decide (r.1 = a) then r.2 else 0) + acc) 0 rs.

(** [b'] reads as [b] with the rewards paid. *)
Definition rewarded (rs : list (bytes * Z)) b d b' : Prop :=
  same_block b b' ∧
  ∀ k, bview b' d k = if decide (k ∈ map fst rs) then Some (rtu_Bytes (u64 (balance b d k + owed rs k)))
                      else bview b d k.

Lemma owed_other rs a : a ∉ map fst rs → owed rs a = 0.
Proof.
  induction rs as [|[k x] rs IH]; [done|]. intros [Hk Hr]%not_elem_of_cons. simpl in *.
  rewrite decide_False by auto. by rewrite IH.
Qed.

Lemma rewarded_balance rs b d b' a : rewarded rs b d b' → balance b' d a = u64 (balance b d a + owed rs a).
Proof.
  intros [_ Hv]. unfold balance at 1. rewrite Hv. case_decide as Ha.
  - simpl. by rewrite rtu_round_trip, u64_idemp.
  - rewrite owed_other by done. by rewrite Z.add_0_r, u64_small by apply balance_range.
Qed.

Lemma rewarded_nil b d : rewarded [] b d b.
Proof. split; [reflexivity|]. intros k. by rewrite decide_False by apply not_elem_of_nil. Qed.

Lemma rewarded_cons a x rs b d b1 b2 :
  paid a (u64 (balance b d a + x)) b d b1 → rewarded rs b1 d b2 → rewarded ((a, x) :: rs) b d b2.
Proof.
  intros Hp [Hs Hv]. split; [by etrans; [apply Hp|]|]. intros k.
  rewrite Hv, (paid_balance _ _ _ _ _ k Hp). destruct Hp as [_ Hp]. cbn [map fst owed foldr snd]. fold (owed rs k).
  destruct (decide (a = k)) as [<-|Hk].
  - rewrite (decide_True (P:=a ∈ a :: _)) by left. rewrite u64_idemp. case_decide as Ha.
    + do 2 f_equal. unfold u64. rewrite Zplus_mod_idemp_l. f_equal. lia.
    + rewrite Hp, decide_True by done. rewrite (owed_other rs a) by done. do 2 f_equal. f_equal. lia.
  - rewrite Z.add_0_l, Hp, (decide_False (P:=a = k)) by done.
    destruct (decide (k ∈ map fst rs)) as [Hi|Hi]; [by rewrite decide_True by (by right)|].
    by rewrite decide_False by (intros [?|?]%elem_of_cons; auto).
Qed.

Definition uncle_rewards (miners : list bytes) : list (bytes * Z) :=
  map (λ u, (bytesToHexString u, 200000)) miners.

Definition uncle_op (u : bytes) (op : Op) : Prop :=
  u ≠ [] ∧ Params op = reward_params ParamUncle (bytesToHexString u) UncleAward.

Lemma uncle_scan order u op :
  is_order order →
  (scan_ok (scanParams ParamUncle (bytesToHexString u) UncleAward (order (Params op))) = true ↔ uncle_op u op) ∧
  (uncle_op u op → scanParams ParamUncle (bytesToHexString u) UncleAward (order (Params op)) =
     Scan true (bytesToHexString u) 200000).
Proof.
  intros Ho. destruct (reward_scan ParamUncle (bytesToHexString u) UncleAward 200000 order (Params op)) as [H1 H2]; try done.
  rewrite bytesToHexString_nil in H1, H2. split; [done|]. intros [? ?]. by apply H2.
Qed.

Definition miner_op (u : bytes) (op : Op) : Prop :=
  u ≠ [] ∧ Params op = reward_params ParamMiner (bytesToHexString u) MinerAward.

Lemma miner_scan order u op :
  is_order order →
  (scan_ok (scanParams ParamMiner (bytesToHexString u) MinerAward (order (Params op))) = true ↔ miner_op u op) ∧
  (miner_op u op → scanParams ParamMiner (bytesToHexString u) MinerAward (order (Params op)) =
     Scan true (bytesToHexString u) 1000000).
Proof.
  intros Ho. destruct (reward_scan ParamMiner (bytesToHexString u) MinerAward 1000000 order (Params op)) as [H1 H2]; try done.
  rewrite bytesToHexString_nil in H1, H2. split; [done|]. intros [? ?]. by apply H2.
Qed.

Lemma processUncles_spec order us : ∀ ops b d,
  is_order order → is_Some (worldState b) → length ops = length us →
  ∃ b' ok, processUncles order us ops b d = Ret (b', ok) ∧ same_block b b' ∧
    (ok = true ↔ Forall2 uncle_op us ops) ∧ (ok = true → rewarded (uncle_rewards us) b d b').
Proof.
  induction us as [|u us IH]; intros [|op ops] b d Ho Hw Hlen; try done; cbn [processUncles].
  - exists b, true. split; [done|]. split; [done|]. split; [done | intros _; apply rewarded_nil].
  - destruct (uncle_scan order u op Ho) as [Hok Hscan]. destruct (scan_ok _) eqn:Es.
    + assert (Hop : uncle_op u op) by by apply Hok. rewrite (Hscan Hop). cbn [account amount].
      destruct (Credit_spec (bytesToHexString u) (Uint64ToRtu 200000) b d Hw) as (b1 & -> & Hp). cbn [outcome_bind].
      destruct (IH ops b1 d Ho) as (b' & ok & -> & Hs & Hiff & Hr); [|simpl in Hlen; lia|].
      { by rewrite (same_block_state b b1) by apply Hp. }
      exists b', ok. split; [done|]. split; [by etrans; [apply Hp|]|]. split.
      * rewrite Hiff. split; [by constructor | intros HF; by inversion HF].
      * intros Ht. by eapply rewarded_cons; [|apply Hr].
    + exists b, false. split; [done|]. split; [done|]. split; [|done]. split; [done|].
      intros HF. inversion HF; subst. by apply Hok.
Qed.

(** ** Processing a reward transaction *)

Definition rewards (miner : bytes) (uncles : list bytes) : list (bytes * Z) :=
  (bytesToHexString miner, 1000000) :: uncle_rewards uncles.

Definition reward_ops (miner : bytes) (uncles : list bytes) (ops : list Op) : Prop :=
  match ops with [] => False | op :: ops => miner_op miner op ∧ Forall2 uncle_op uncles ops end.

Lemma reward_ops_length miner uncles ops : reward_ops miner uncles ops → length ops = S (length uncles).
Proof. destruct ops; [done|]. intros [_ ?%Forall2_length]. simpl. lia. Qed.

Lemma process_spec `{Codec (list Op)} order tx ops b d :
  is_order order → is_Some (worldState b) → Deserialize (Payload tx) = Ok ops →
  ∃ b' ok, process order tx b d = Ret (b', ok) ∧ same_block b b' ∧
    (ok = true ↔ reward_ops (Submitter tx) (UncleMiners b) ops) ∧
    (ok = true → rewarded (rewards (Submitter tx) (UncleMiners b)) b d b').
Proof.
  intros Ho Hw Hops. unfold process. rewrite Hops.
  destruct (decide (length ops ≠ 1 + length (UncleMiners b))%nat) as [Hlen|Hlen].
  { exists b, false. split; [done|]. split; [reflexivity|]. split; [|done].
    split; [done|]. intros ?%reward_ops_length. lia. }
  destruct ops as [|op ops]; [simpl in Hlen; lia|]. simpl in Hlen.
  destruct (miner_scan order (Submitter tx) op Ho) as [Hok Hscan]. destruct (scan_ok _) eqn:Es.
  - assert (Hop : miner_op (Submitter tx) op) by by apply Hok. rewrite (Hscan Hop). cbn [account amount].
    destruct (Credit_spec (bytesToHexString (Submitter tx)) (Uint64ToRtu 1000000) b d Hw) as (b1 & -> & Hp). cbn [outcome_bind].
    rewrite (same_block_uncles b b1) by apply Hp.
    destruct (processUncles_spec order (UncleMiners b) ops b1 d Ho) as (b' & ok & -> & Hs & Hiff & Hr); [|lia|].
    { by rewrite (same_block_state b b1) by apply Hp. }
    exists b', ok. split; [done|]. split; [by etrans; [apply Hp|]|]. split.
    + rewrite Hiff. simpl. tauto.
    + intros Ht. by eapply rewarded_cons; [|apply Hr].
  - exists b, false. split; [done|]. split; [reflexivity|]. split; [|done]. split; [done|].
    intros [?%Hok _]. done.
Qed.

(** ** Making a reward transaction *)

Lemma uncleOps_spec us : ∃ ops, uncleOps us = Ret ops ∧ (Forall (.≠ []) us → Forall2 uncle_op us ops).
Proof.
  induction us as [|u us (ops & IH & Hops)]; [exists []; split; [done | by constructor]|].
  cbn [uncleOps]. unfold NewOp. rewrite decide_True by done. cbn [deref outcome_bind]. rewrite IH. cbn [outcome_bind].
  eexists. split; [done|]. intros [Hu Hus]%Forall_cons_iff. constructor; [|by apply Hops].
  split; [done|]. cbn [Params]. unfold reward_params. rewrite insert_insert_ne by done. by rewrite insert_empty.
Qed.

Lemma NewTrusteeApp_spec `{EcdsaLaws} key :
  ∃ t, NewTrusteeApp key = Ret t ∧ identity t = key ∧ myAddress t = FromECDSAPub (publicKey key) ∧
    miner_op (myAddress t) (myReward t).
Proof.
  unfold NewTrusteeApp, NewOp. rewrite decide_True by done. cbn [deref outcome_bind].
  eexists. split; [done|]. split; [done|]. split; [done|]. cbn [myAddress myReward].
  split; [apply from_pub_ne|]. cbn [Params]. unfold reward_params. rewrite insert_insert_ne by done. by rewrite insert_empty.
Qed.

Lemma sign_verifies `{Sha512, EcdsaLaws, CodecLaws signature} rand t payload :
  myAddress t = FromECDSAPub (publicKey (identity t)) → (0 < length (sign rand t payload))%nat →
  verify payload (sign rand t payload) (myAddress t) = Ret true.
Proof.
  intros Hadr. unfold sign, verify. rewrite Hadr, to_from_pub.
  destruct (ecdsa_Sign _ _ _) as [[r s]|] eqn:Es; simpl; [|lia].
  destruct (serialize_ok (MkSignature (Some r) (Some s))) as [bs Hbs]. rewrite Hbs, (deserialize_serialize _ _ Hbs).
  intros _. cbn. by rewrite (verify_sign _ _ _ _ _ Es).
Qed.

End balances.
