(* ===== verification/TrusteeTheorems.v ===== *)
(** * Theorems about mining rewards

    The properties of [src/network/trustee.go] and
    [src/network/trusteeTransactions.go], with their witnesses. *)

From Stdlib Require Import Strings.Byte.
From S2P Require Import Prelude Bytes Db Trie TrieSpec TrieFacts WorldState Concrete TrieTheorems WorldStateI Block BlockFacts BlockTheorems Trustee TrusteeFacts.

Section rewards.
Context {D W : Type} {wso : WorldState W D} {sha : Sha512} {ec : Ecdsa} {ecl : EcdsaLaws}.
Context {cop : Codec (list Op)} {copl : CodecLaws (list Op)} {csg : Codec signature} {csgl : CodecLaws signature}.
Implicit Types (b : block W) (d : D).

(** C15: Processing decoded reward operations accepts exactly the operations that name the
    submitter with the miner award and every uncle miner in order with the uncle award; it then
    adds exactly those awards to those balances modulo 2^64 and changes no other key. *)
Theorem reward_processing_exact order tx ops b d :
  is_order order → is_Some (worldState b) → Deserialize (Payload tx) = Ok ops →
  ∃ b' ok, process order tx b d = Ret (b', ok) ∧ same_block b b' ∧
    (ok = true ↔ reward_ops (Submitter tx) (UncleMiners b) ops) ∧
    (ok = true →
      (∀ a, balance b' d a = u64 (balance b d a + owed (rewards (Submitter tx) (UncleMiners b)) a)) ∧
      (∀ k, k ∉ map fst (rewards (Submitter tx) (UncleMiners b)) → bview b' d k = bview b d k)).
Proof.
  intros Ho Hw Hops. destruct (process_spec order tx ops b d Ho Hw Hops) as (b' & ok & Heq & Hs & Hiff & Hr).
  exists b', ok. split; [done|]. split; [done|]. split; [done|]. intros Ht. specialize (Hr Ht). split.
  - intros a. by apply rewarded_balance.
  - intros k Hk. destruct Hr as [_ ->]. by rewrite decide_False.
Qed.

(** A reward transaction that was made, and what making it did. *)
Lemma NewMiningRewardTx_spec order now rand key t b d b1 tx :
  is_order order → is_Some (worldState b) → Forall (.≠ []) (UncleMiners b) →
  NewTrusteeApp key = Ret t → NewMiningRewardTx order now rand t b d = Ret (b1, Some tx) →
  Submitter tx = myAddress t ∧ verify (Payload tx) (Signature tx) (Submitter tx) = Ret true ∧
  (∃ ops : list Op, Deserialize (Payload tx) = Ok ops ∧ reward_ops (Submitter tx) (UncleMiners b) ops) ∧
  ∀ k, bview b1 d k = if decide (k ∈ map fst (rewards (myAddress t) (UncleMiners b)))
    then Some (rtu_Bytes (u64 (balance b d k + owed (rewards (myAddress t) (UncleMiners b)) k))) else bview b d k.
Proof.
  intros Ho Hw Hus Ht. destruct (NewTrusteeApp_spec key) as (t' & Ht' & Hid & Hadr & Hmine).
  rewrite Ht in Ht'. injection Ht' as <-.
  unfold NewMiningRewardTx. destruct (uncleOps_spec (UncleMiners b)) as (ops & -> & Hops). cbn [outcome_bind].
  destruct (serialize_ok (myReward t :: ops)) as [payload Hp]. rewrite Hp.
  destruct (decide (0 < length (sign rand t payload))%nat) as [Hsig|]; [|done].
  set (tx' := NewTransaction now payload (sign rand t payload) (myAddress t)).
  assert (∃ b0 e, AddTransaction tx' b d = Ret (b0, e) ∧ worldState b0 = worldState b ∧
            UncleMiners b0 = UncleMiners b ∧ ∀ k, bview b0 d k = bview b d k) as (b0 & e & -> & Hw0 & Hu0 & Hv0).
  { unfold AddTransaction. destruct Hw as [w Hw]. rewrite Hw. cbn [deref outcome_bind].
    destruct (ws_HasTransaction _ _ _); [by do 2 eexists|]. case_decide; by do 2 eexists. }
  cbn [outcome_bind].
  assert (Hops' : reward_ops (Submitter tx') (UncleMiners b) (myReward t :: ops)) by (split; [done | by apply Hops]).
  destruct (process_spec order tx' (myReward t :: ops) b0 d) as (b' & ok & -> & _ & Hiff & Hr);
    [done | by rewrite Hw0 | by apply deserialize_serialize|].
  rewrite Hu0 in Hiff, Hr. destruct (Hr (proj2 Hiff Hops')) as [_ Hv].
  cbn [outcome_bind]. intros [= -> <-]. split; [done|]. split; [apply sign_verifies; [by rewrite Hid | done]|].
  split; [by exists (myReward t :: ops); split; [apply deserialize_serialize|]|].
  intros k. unfold balance in *. rewrite <- (Hv0 k). apply Hv.
Qed.

(** The reward transaction that a miner puts first into its block verifies at a peer that reads
    the same parent state, whatever the orders of ranging over parameters, and pays the miner
    and every uncle miner exactly their awards, modulo 2^64. *)
Theorem reward_tx_verifies_at_peer order order' now rand key t b d b1 tx nb d' :
  is_order order → is_order order' → is_Some (worldState b) → is_Some (worldState nb) →
  Forall (.≠ []) (UncleMiners b) →
  NewTrusteeApp key = Ret t → NewMiningRewardTx order now rand t b d = Ret (b1, Some tx) →
  head (Transactions nb) = Some tx → Miner nb = myAddress t → UncleMiners nb = UncleMiners b →
  (∀ k, bview nb d' k = bview b d k) →
  ∃ nb1, VerifyMiningRewardTx order' nb d' = Ret (nb1, true) ∧ same_block nb nb1 ∧
    (∀ k, bview nb1 d' k = bview b1 d k) ∧
    ∀ a, balance b1 d a = u64 (balance b d a + owed (rewards (myAddress t) (UncleMiners b)) a).
Proof.
  intros Ho Ho' Hw Hw' Hus Ht Hnew Hhd Hm Hu Hview.
  destruct (NewMiningRewardTx_spec order now rand key t b d b1 tx) as (Hsub & Hver & (ops & Hdes & Hops) & Hv); [done..|].
  unfold VerifyMiningRewardTx. rewrite Hhd. cbn [deref outcome_bind]. rewrite Hver. cbn [outcome_bind negb].
  rewrite decide_False by (rewrite Hm, Hsub; tauto).
  destruct (process_spec order' tx ops nb d') as (nb1 & ok & -> & Hs & Hiff & Hr); [done..|].
  rewrite Hu in Hiff, Hr. assert (ok = true) as -> by by apply Hiff. destruct (Hr eq_refl) as [_ Hv'].
  exists nb1. split; [done|]. split; [done|]. split.
  - intros k. rewrite Hv, Hv', Hsub. unfold balance. by rewrite Hview.
  - intros a. unfold balance at 1. rewrite Hv. case_decide as Ha.
    + simpl. by rewrite rtu_round_trip, u64_idemp.
    + rewrite owed_other by done. by rewrite Z.add_0_r, u64_small by apply balance_range.
Qed.

(** Debiting one account and crediting another moves exactly the amount when the balance covers
    it, and otherwise fails with a low-balance error and changes nothing. *)
Theorem transfer_conserves_balances a c x b d :
  is_Some (worldState b) → is_u64 x → a ≠ c → is_u64 (balance b d c + x) →
  ∃ b1 e, Debit a x b d = Ret (b1, e) ∧
    (e ≠ None ↔ balance b d a < x) ∧
    (e ≠ None → error_code <$> e = Some (Some ERR_LOW_BALANCE) ∧ ∀ k, bview b1 d k = bview b d k) ∧
    (e = None → ∃ b2, Credit c x b1 d = Ret b2 ∧
      balance b2 d a = balance b d a - x ∧ balance b2 d c = balance b d c + x ∧
      (∀ k, k ≠ a → k ≠ c → bview b2 d k = bview b d k)).
Proof.
  intros Hw Hx Hac Hover. destruct (Debit_spec a x b d Hw Hx) as (b1 & e & Heq & Hcase).
  exists b1, e. split; [done|]. destruct (decide (balance b d a < x)) as [Hlow|Hlow].
  - destruct Hcase as (He & _ & Hv). split; [split; [done | by destruct e]|]. split; [done|]. by intros ->.
  - destruct Hcase as [-> Hp]. split; [done|]. split; [done|]. intros _.
    destruct (Credit_spec c x b1 d) as (b2 & -> & Hp2); [by rewrite (same_block_state b b1) by apply Hp|].
    exists b2. split; [done|]. rewrite !(paid_balance _ _ _ _ _ _ Hp2), !(paid_balance _ _ _ _ _ _ Hp).
    rewrite (decide_False (P:=c = a)), (decide_False (P:=a = c)), !decide_True by auto.
    pose proof (balance_range b d a). unfold is_u64 in *. rewrite !u64_small by (rewrite ?u64_small; unfold is_u64; lia).
    split; [done|]. split; [done|]. intros k Hka Hkc. destruct Hp2 as [_ ->], Hp as [_ ->].
    by rewrite !decide_False by auto.
Qed.

(** Verifying the reward of a network block panics exactly when the block has no transaction, or
    its first transaction has a submitter key and a decodable signature that lacks one of its
    numbers; otherwise it returns. *)
Theorem reward_verification_panics order b d :
  is_order order → is_Some (worldState b) →
  (VerifyMiningRewardTx order b d = Panic ↔
    match Transactions b with
    | [] => True
    | tx :: _ => is_Some (ToECDSAPub (Submitter tx)) ∧
        ∃ s : signature, Deserialize (Signature tx) = Ok s ∧ (sig_R s = None ∨ sig_S s = None)
    end) ∧
  (VerifyMiningRewardTx order b d = Panic ∨ ∃ b' ok, VerifyMiningRewardTx order b d = Ret (b', ok)).
Proof.
  intros Ho Hw. unfold VerifyMiningRewardTx. destruct (Transactions b) as [|tx txs]; cbn [head deref outcome_bind].
  { by split; [|left]. }
  assert (Hproc : ∀ valid, ∃ b' ok, (if negb valid then Ret (b, false)
            else if decide (Submitter tx ≠ Miner b) then Ret (b, false) else process order tx b d) = Ret (b', ok)).
  { intros valid. destruct (negb valid); [by do 2 eexists|]. case_decide; [by do 2 eexists|].
    destruct (Deserialize (A:=list Op) (Payload tx)) as [ops|e] eqn:Ed.
    - destruct (process_spec order tx ops b d Ho Hw Ed) as (b' & ok & -> & _). by do 2 eexists.
    - unfold process. rewrite Ed. by do 2 eexists. }
  unfold verify. destruct (ToECDSAPub (Submitter tx)) as [pk|].
  2: { cbn. split; [|right; by do 2 eexists]. split; [done | by intros [[? [=]] _]]. }
  destruct (Deserialize (A:=signature) (Signature tx)) as [[[r|] [s|]]|e] eqn:Es; cbn [deref outcome_bind sig_R sig_S].
  - destruct (Hproc (ecdsa_Verify pk (Bytes (Sum512 (Payload tx))) r s)) as (b' & ok & ->).
    split; [|right; by do 2 eexists]. split; [done|]. by intros (_ & ? & [= <-] & [[=]|[=]]).
  - split; [|by left]. split; [|done]. intros _. split; [done|]. eexists. split; [done|]. by right.
  - split; [|by left]. split; [|done]. intros _. split; [done|]. eexists. split; [done|]. by left.
  - split; [|by left]. split; [|done]. intros _. split; [done|]. eexists. split; [done|]. by left.
  - split; [|right; by do 2 eexists]. split; [done|]. by intros (_ & ? & [=] & _).
Qed.
End rewards.

(** ** Witnesses *)

(** A signature scheme that has the laws: the second number is the sum of the
    key, the first number and the bytes of the hash. *)
Definition sample_checksum (k r : Z) (h : bytes) : Z := fold_left (λ acc b, acc + byte_val b) h (k + r).

#[global] Instance sample_ecdsa : Ecdsa := {|
  PrivateKey := Z;
  PublicKey := Z;
  publicKey k := k;
  ecdsa_Sign rand k h := Ok (rand, sample_checksum k rand h);
  ecdsa_Verify k h r s := bool_decide (s = sample_checksum k r h);
  FromECDSAPub k := enc k;
  ToECDSAPub b := match dec b with Some (k, []) => Some k | _ => None end;
|}.

#[global] Instance sample_ecdsa_laws : EcdsaLaws.
Proof.
  split; cbn [PublicKey PrivateKey publicKey ecdsa_Sign ecdsa_Verify FromECDSAPub ToECDSAPub sample_ecdsa].
  - intros rand k h r s [= <- <-]. by apply bool_decide_eq_true_2.
  - intros k. pose proof (dec_enc k []) as H. rewrite app_nil_r in H. by rewrite H.
  - intros [|p|p]; done.
Qed.

#[global] Instance wire_params : Wire (gmap bytes bytes) :=
  wire_iso (B:=list (bytes * bytes)) (λ m, map_to_list m) (λ l, list_to_map l) (λ m, list_to_map_to_list m).
#[global] Instance wire_op : Wire Op :=
  wire_iso (λ o, (OpCode o, Params o)) (λ '(c, p), MkOp c p) (λ o, match o with MkOp _ _ => eq_refl end).
#[global] Instance wire_signature : Wire signature :=
  wire_iso (λ s, (sig_R s, sig_S s)) (λ '(r, s), MkSignature r s) (λ s, match s with MkSignature _ _ => eq_refl end).

Section witnesses.
#[local] Existing Instances w_hash w_codec w_laws w_ops.
Definition w_ops_codec : Codec (list Op) := codec_of_wire.
Definition w_sig_codec : Codec signature := codec_of_wire.
#[local] Existing Instances w_ops_codec w_sig_codec.
#[local] Instance w_ops_codec_laws : CodecLaws (list Op) := codec_of_wire_laws.
#[local] Instance w_sig_codec_laws : CodecLaws signature := codec_of_wire_laws.

Definition w_order : paramOrder := λ m, map_to_list m.
Definition w_order' : paramOrder := λ m, rev (map_to_list m).
Lemma w_order_ok : is_order w_order.
Proof. by intros m. Qed.
Lemma w_order_ok' : is_order w_order'.
Proof. intros m. symmetry. apply Permutation_rev. Qed.

Definition w_trustee : trusteeImpl :=
  match NewTrusteeApp 5 with Ret t => t | _ => MkTrustee 5 [] (MkOp [] ∅) end.

(** A candidate block with two uncles, of which the miner mined one, and in
    which the miner already owns something. *)
Definition w_candidate : block MptWorldState :=
  set_variables {[bytesToHexString (myAddress w_trustee) := Some (rtu_Bytes 77)]}
    (set_uncleMiners [[x6d; x6e]; myAddress w_trustee] (newBlock 0 null 1 1 9 7 (myAddress w_trustee) (Some w_ws))).

Definition w_reward : option (block MptWorldState * Transaction) :=
  match NewMiningRewardTx w_order 3 11 w_trustee w_candidate w_db with Ret (b, Some tx) => Some (b, tx) | _ => None end.

Lemma w_reward_some : bool_decide (is_Some w_reward) = true.
Proof. vm_compute. reflexivity. Qed.

Lemma w_reward_eq :
  ∃ b1 tx, NewMiningRewardTx w_order 3 11 w_trustee w_candidate w_db = Ret (b1, Some tx).
Proof.
  pose proof w_reward_some as [[b tx] H]%bool_decide_eq_true_1. unfold w_reward in H. revert H.
  generalize (NewMiningRewardTx w_order 3 11 w_trustee w_candidate w_db) as o.
  intros [[b0 [tx0|]]| |] [=]; subst. by exists b, tx.
Qed.

(** The block as a peer sees it. *)
Definition w_received_reward (tx : Transaction) : block MptWorldState :=
  set_isNetworkBlock true (set_spec (set_TXs [tx; tx] (spec w_candidate)) w_candidate).

Lemma w_uncles_ok : Forall (.≠ []) (UncleMiners w_candidate).
Proof. by repeat constructor. Qed.

Lemma reward_tx_verifies_at_peer_witness :
  ∃ tx nb1, VerifyMiningRewardTx w_order' (w_received_reward tx) w_db = Ret (nb1, true).
Proof.
  destruct w_reward_eq as (b1 & tx & Heq).
  destruct (reward_tx_verifies_at_peer (ec:=sample_ecdsa) w_order w_order' 3 11 5 w_trustee w_candidate w_db b1 tx (w_received_reward tx) w_db
    w_order_ok w_order_ok' (mk_is_Some _ _ eq_refl) (mk_is_Some _ _ eq_refl)
    w_uncles_ok
    eq_refl Heq eq_refl eq_refl eq_refl (λ k, eq_refl)) as (nb1 & H & _).
  exists tx, nb1. exact H.
Defined.

Definition w_payload : bytes :=
  match w_reward with Some (_, tx) => Payload tx | None => [] end.
Definition w_reward_ops : list Op :=
  match Deserialize w_payload with Ok ops => ops | Err _ => [] end.

Lemma w_payload_eq : match Deserialize (A:=list Op) w_payload with Ok ops => length ops = 3%nat | Err _ => False end.
Proof. vm_compute. reflexivity. Qed.

Lemma reward_processing_exact_witness :
  ∃ b' ok, process w_order (Tx w_payload [] (myAddress w_trustee) (Uint64ToByte8 4)) w_candidate w_db = Ret (b', ok).
Proof.
  assert (Deserialize w_payload = Ok w_reward_ops) as Hops.
  { pose proof w_payload_eq as H. unfold w_reward_ops. destruct (Deserialize w_payload); [done | destruct H]. }
  destruct (reward_processing_exact w_order (Tx w_payload [] (myAddress w_trustee) (Uint64ToByte8 4)) w_reward_ops
    w_candidate w_db w_order_ok (mk_is_Some _ _ eq_refl) Hops) as (b' & ok & H & _).
  exists b', ok. exact H.
Defined.

Lemma transfer_conserves_balances_witness :
  ∃ b1 e, Debit (bytesToHexString (myAddress w_trustee)) 70 w_candidate w_db = Ret (b1, e).
Proof.
  assert (is_u64 70 ∧ is_u64 (balance w_candidate w_db [x61] + 70)) as [Hx Hover].
  { split; apply (bool_decide_eq_true_1 (_ ≤ _ ∧ _ < _)); vm_compute; reflexivity. }
  assert (bytesToHexString (myAddress w_trustee) ≠ [x61]) as Hne by (apply (bool_decide_eq_true_1 (_ ≠ _)); vm_compute; reflexivity).
  destruct (transfer_conserves_balances (bytesToHexString (myAddress w_trustee)) [x61] 70 w_candidate w_db
    (mk_is_Some _ _ eq_refl) Hx Hne Hover) as (b1 & e & H & _).
  exists b1, e. exact H.
Defined.

(** A signature without numbers. *)
Definition w_bad_sig : bytes := match Serialize (MkSignature None None) with Ok x => x | Err _ => [] end.
Definition w_bad_block : block MptWorldState :=
  set_spec (set_TXs [Tx w_payload w_bad_sig (myAddress w_trustee) (Uint64ToByte8 4)] (spec w_candidate)) w_candidate.

Lemma reward_verification_panics_witness : VerifyMiningRewardTx w_order w_bad_block w_db = Panic.
Proof.
  apply (reward_verification_panics w_order w_bad_block w_db w_order_ok (mk_is_Some _ _ eq_refl)).
  split; [by eexists|]. exists (MkSignature None None). split; [vm_compute; reflexivity | by left].
Defined.

(** Amounts print without leading zeros of the decimals. *)
Lemma rtu_string_sample : rtu_String 1000005 = "1.5"%string ∧ rtu_String 1500000 = "1.500000"%string.
Proof. split; vm_compute; reflexivity. Qed.
End witnesses.
