(* ===== verification/Peers.v ===== *)
(** * Peers ([src/common/set.go], [src/network/node.go],
      [src/network/protocol.go], [src/db/peerSetDbInMem.go])

    Definitions only: sets, what a node keeps about a connected peer, and the
    data base of registered peers.  Peers are shared objects: a goroutine
    that talks to a peer, the peer data base and a synchronization all hold
    the same [*peerNode].  They are references into a [heap] here. *)

From Stdlib Require Import Strings.Byte.
From S2P Require Import Prelude Bytes Db.

(** ** Sets ([src/common/set.go]) *)

Section set.
Context {A : Type} `{Countable A}.
Implicit Types (s : gset A).

Definition NewSet : gset A := ∅.
Definition set_Size s : Z := Z.of_nat (size s).
Definition set_Add (items : list A) s : gset A :=
  if decide (length items = 0)%nat then s else fold_left (λ s item, {[item]} ∪ s) items s.
Definition set_Remove (items : list A) s : gset A :=
  if decide (length items = 0)%nat then s else fold_left (λ s item, s ∖ {[item]}) items s.
Definition set_Has (item : A) s : bool := bool_decide (item ∈ s).

(** The element that ranging over a set visits first *)
Definition picker : Type := gset A → option A.

(** [func (set *Set) Pop() interface{}]; [None] is [nil]. *)
Definition set_Pop (pick : picker) s : gset A * option A :=
  match pick s with
  | Some item => (s ∖ {[item]}, Some item)
  | None => (s, None)
  end.
End set.
Arguments picker A {_ _}.

(** ** Messages ([src/network/protocol.go]) *)

Definition Handshake : Z := 0x00.
Definition GetBlockHashesRequest : Z := Handshake + 1.
Definition GetBlockHashesResponse : Z := GetBlockHashesRequest + 1.
Definition GetBlockHashesRewind : Z := GetBlockHashesResponse + 1.
Definition GetBlocksRequest : Z := GetBlockHashesRewind + 1.
Definition GetBlocksResponse : Z := GetBlocksRequest + 1.
Definition NewBlock : Z := GetBlocksResponse + 1.
Definition ProtocolMsgCount : Z := NewBlock + 1.

Definition ErrorHandshakeFailed : Z := 0x01.
Definition ErrorUnknownMessageType : Z := 0x03.
Definition ErrorSyncFailed : Z := 0x05.
Definition ErrorInvalidRequest : Z := 0x06.
Definition ErrorNotFound : Z := 0x08.
Definition ErrorBadBlock : Z := 0x09.

(** [type HandshakeMsg struct] *)
Record HandshakeMsg := MkHandshake {
  hs_NetworkId : Byte16;
  hs_Genesis : Byte64;
  hs_ProtocolId : Byte16;
  hs_TotalWeight : Byte8;
  hs_TipNumeric : Byte8;
}.

(** [type GetBlockHashesRequestMsg struct] *)
Record GetBlockHashesRequestMsg := MkHashesRequest {
  rq_ParentHash : Byte64;
  rq_MaxBlocks : Byte8;
}.

(** ** Peer nodes ([src/network/node.go]) *)

Definition maxKnownTxs : Z := 1024.
Definition maxKnownBlocks : Z := 1024.

Definition CHAN_ERROR : Z := 0.
Definition CHAN_NEXT : Z := 1.
Definition CHAN_ABORT : Z := 2.
Definition CHAN_RETRY : Z := 3.
Definition CHAN_DONE : Z := 4.

(** A key of a set or map of [interface]s: a [core.Byte64] or [core.Byte16] is
    compared by value, a [*core.Byte64] by address. *)
Inductive item :=
  | ItemPtr (address : N)
  | ItemHash (h : Byte64)
  | ItemId (h : Byte16).

#[global] Instance item_eq_dec : EqDecision item.
Proof. solve_decision. Defined.

#[global] Program Instance item_countable : Countable item :=
  inj_countable' (λ i, match i with ItemPtr a => inl a | ItemHash h => inr (inl h) | ItemId h => inr (inr h) end)
    (λ x, match x with inl a => ItemPtr a | inr (inl h) => ItemHash h | inr (inr h) => ItemId h end) _.
Next Obligation. by intros []. Qed.

(** A buffered channel: the values in it (first the values buffered, then
    that of a sender who waits for room), and whether it is closed *)
Record channel := Channel {
  ch_queue : list Z;
  ch_closed : bool;
}.

Definition chan_capacity : nat := 2.

(** [ch <- x].  A sender that finds the buffer full waits in Go until there is
    room; here its value waits in the queue, behind the others, and the sender
    goes on, so that the model has more interleavings than the program and the
    same order of values. *)
Definition chan_send (x : Z) (ch : channel) : outcome channel :=
  if ch_closed ch then Panic else Ret (Channel (ch_queue ch ++ [x]) false).

(** [<- ch]: a closed channel that is empty gives the zero value; [None] when
    the receiver has to wait *)
Definition chan_recv (ch : channel) : option (Z * channel) :=
  match ch_queue ch with
  | x :: q => Some (x, Channel q (ch_closed ch))
  | [] => if ch_closed ch then Some (0, ch) else None
  end.

(** [close(ch)] *)
Definition chan_close (ch : channel) : outcome channel :=
  if ch_closed ch then Panic else Ret (Channel (ch_queue ch) true).

(** [type peerNode struct], without the connection and the lock.  Of the
    [*p2p.Peer] it keeps the node id, its printed form and the name. *)
Record peerNode := PeerNode {
  pn_NodeId : bytes;
  pn_Id : bytes;
  pn_Name : bytes;
  pn_status : option HandshakeMsg;
  pn_knownTxs : gset item;
  pn_knownBlocks : gset item;
  pn_GetBlockHashesChan : channel;
  pn_GetBlocksChan : channel;
  pn_LastHash : option Byte64;
}.

Definition set_pn_status (x : option HandshakeMsg) (n : peerNode) : peerNode :=
  PeerNode (pn_NodeId n) (pn_Id n) (pn_Name n) x (pn_knownTxs n) (pn_knownBlocks n)
    (pn_GetBlockHashesChan n) (pn_GetBlocksChan n) (pn_LastHash n).
Definition set_pn_knownTxs (x : gset item) (n : peerNode) : peerNode :=
  PeerNode (pn_NodeId n) (pn_Id n) (pn_Name n) (pn_status n) x (pn_knownBlocks n)
    (pn_GetBlockHashesChan n) (pn_GetBlocksChan n) (pn_LastHash n).
Definition set_pn_knownBlocks (x : gset item) (n : peerNode) : peerNode :=
  PeerNode (pn_NodeId n) (pn_Id n) (pn_Name n) (pn_status n) (pn_knownTxs n) x
    (pn_GetBlockHashesChan n) (pn_GetBlocksChan n) (pn_LastHash n).
Definition set_pn_chans (x y : channel) (n : peerNode) : peerNode :=
  PeerNode (pn_NodeId n) (pn_Id n) (pn_Name n) (pn_status n) (pn_knownTxs n) (pn_knownBlocks n)
    x y (pn_LastHash n).
Definition set_pn_LastHash (x : option Byte64) (n : peerNode) : peerNode :=
  PeerNode (pn_NodeId n) (pn_Id n) (pn_Name n) (pn_status n) (pn_knownTxs n) (pn_knownBlocks n)
    (pn_GetBlockHashesChan n) (pn_GetBlocksChan n) x.

(** [func NewPeerNode(peer *p2p.Peer, conn p2p.MsgReadWriter) *peerNode] *)
Definition NewPeerNode (nodeId id name : bytes) : peerNode :=
  PeerNode nodeId id name None NewSet NewSet (Channel [] false) (Channel [] false) None.

(** The beginning of [AddTx] and [AddBlock]: three elements are dropped from
    a full set. *)
Definition makeRoom (pick : picker item) (max : Z) (s : gset item) : gset item :=
  if decide (max ≤ set_Size s) then
    (set_Pop pick (set_Pop pick (set_Pop pick s).1).1).1
  else s.

(** [func (node *peerNode) AddTx(tx interface{})] *)
Definition AddTx (pick : picker item) (tx : item) (n : peerNode) : peerNode :=
  set_pn_knownTxs (set_Add [tx] (makeRoom pick maxKnownTxs (pn_knownTxs n))) n.

Definition HasTx (tx : item) (n : peerNode) : bool := set_Has tx (pn_knownTxs n).

(** [func (node *peerNode) AddBlock(block interface{})] *)
Definition AddBlock (pick : picker item) (blk : item) (n : peerNode) : peerNode :=
  set_pn_knownBlocks (set_Add [blk] (makeRoom pick maxKnownBlocks (pn_knownBlocks n))) n.

Definition HasBlock (blk : item) (n : peerNode) : bool := set_Has blk (pn_knownBlocks n).

Definition SetStatus (status : HandshakeMsg) (n : peerNode) : peerNode := set_pn_status (Some status) n.

(** ** The peer data base ([src/db/peerSetDb.go], [src/db/peerSetDbInMem.go]) *)

(** [type PeerNode interface] of package [db] *)
Class DbPeerNode (N : Type) := {
  node_AddTx : picker item → item → N → N;
  node_HasTx : item → N → bool;
  node_Id : N → bytes;
}.

#[global] Instance peerNode_db : DbPeerNode peerNode := {|
  node_AddTx := AddTx;
  node_HasTx := HasTx;
  node_Id := pn_Id;
|}.

(** Addresses of peer nodes *)
Abbreviation ref := positive.
Abbreviation peerHeap := (gmap ref peerNode).

(** [type PeerSetDbInMemory struct], without the lock.  [myHistory] maps to
    [true] only. *)
Record PeerSetDbInMemory := PeerSetDb {
  ps_nodes : gmap bytes ref;
  ps_myHistory : gset item;
}.

(** The order in which ranging visits the registered nodes *)
Definition nodeOrder : Type := gmap bytes ref → list ref.

Definition NewPeerSetDbInMemory : PeerSetDbInMemory := PeerSetDb ∅ ∅.
Definition PeerNodeForId (id : bytes) (ps : PeerSetDbInMemory) : option ref := ps_nodes ps !! id.

Section peer_set.
Context {N : Type} {dbn : DbPeerNode N}.
Implicit Types (heap : gmap ref N) (ps : PeerSetDbInMemory).

Definition RegisterPeerNode heap (node : ref) ps : outcome (PeerSetDbInMemory * option error) :=
  let! n := deref (heap !! node) in
  Ret (PeerSetDb (<[node_Id n := node]> (ps_nodes ps)) (ps_myHistory ps), None).

Definition UnRegisterPeerNodeForId (id : bytes) ps : PeerSetDbInMemory * option error :=
  (PeerSetDb (delete id (ps_nodes ps)) (ps_myHistory ps), None).

(** The loop of [PeerNodesWithMsgNotSeen] *)
Fixpoint notSeenLoop heap (it : item) (nodes : list ref) : outcome (list ref) :=
  match nodes with
  | [] => Ret []
  | node :: nodes =>
      let! n := deref (heap !! node) in
      let! peers := notSeenLoop heap it nodes in
      Ret (if node_HasTx it n then peers else node :: peers)
  end.

Definition PeerNodesWithMsgNotSeen (order : nodeOrder) heap (it : item) ps : outcome (list ref) :=
  notSeenLoop heap it (order (ps_nodes ps)).

(** [func (ps *PeerSetDbInMemory) HaveISeenIt(item interface{}) bool] *)
Definition HaveISeenIt (it : item) ps : PeerSetDbInMemory * bool :=
  let seen := bool_decide (it ∈ ps_myHistory ps) in
  if negb seen then (PeerSetDb (ps_nodes ps) ({[it]} ∪ ps_myHistory ps), seen)
  else (ps, seen).
End peer_set.
