(* ===== verification/PeersTheorems.v ===== *)
(** * Facts and theorems about peers

    The sets of items that peers are known to have stay bounded, and the peer
    data base answers with exactly the registered peers that lack an item. *)

From Stdlib Require Import Strings.Byte.
From S2P Require Import Prelude Bytes Db Concrete Consensus Peers.

(** A choice of an element, as ranging over a set makes it. *)
Definition is_picker {A} `{Countable A} (pick : picker A) : Prop :=
  ∀ s, match pick s with Some x => x ∈ s | None => s = ∅ end.

(** An order of ranging over the registered nodes. *)
Definition is_node_order (order : nodeOrder) : Prop := ∀ m, order m ≡ₚ (map_to_list m).*2.

Section sets.
Context {A : Type} `{Countable A}.
Implicit Types (s : gset A).

Lemma set_Add_spec items s : set_Add items s = list_to_set items ∪ s.
Proof.
  unfold set_Add. destruct (decide (length items = 0)%nat) as [Hl|_].
  - apply nil_length_inv in Hl as ->. set_solver.
  - revert s. induction items as [|x items IH]; intros s; simpl; [set_solver|]. rewrite IH. set_solver.
Qed.

Lemma set_Remove_spec items s : set_Remove items s = s ∖ list_to_set items.
Proof.
  unfold set_Remove. destruct (decide (length items = 0)%nat) as [Hl|_].
  - apply nil_length_inv in Hl as ->. set_solver.
  - revert s. induction items as [|x items IH]; intros s; simpl; [set_solver|]. rewrite IH. set_solver.
Qed.

Lemma set_Pop_size pick s :
  is_picker pick → (size (set_Pop pick s).1 = size s - 1)%nat ∧ (set_Pop pick s).1 ⊆ s.
Proof.
  intros Hp. unfold set_Pop. specialize (Hp s). destruct (pick s) as [x|]; simpl.
  - rewrite size_difference, size_singleton by set_solver. set_solver.
  - subst s. by rewrite size_empty.
Qed.
End sets.

Lemma makeRoom_spec pick max s :
  is_picker pick → (4 ≤ max) → set_Size s ≤ max →
  makeRoom pick max s ⊆ s ∧ set_Size s - 3 ≤ set_Size (makeRoom pick max s) < max ∧
  (set_Size s < max → makeRoom pick max s = s).
Proof.
  intros Hp Hmax Hs. unfold makeRoom, set_Size in *. case_decide; [|split; [done | split; [lia | done]]].
  destruct (set_Pop_size pick s Hp) as [H1 H1'].
  destruct (set_Pop_size pick (set_Pop pick s).1 Hp) as [H2 H2'].
  destruct (set_Pop_size pick (set_Pop pick (set_Pop pick s).1).1 Hp) as [H3 H3'].
  split; [set_solver | lia].
Qed.

(** What an addition does to a bounded set: the item is there, nothing else is
    new, at most three items were dropped, and none while there was room. *)
Definition adds (max : Z) (it : item) (s s' : gset item) : Prop :=
  it ∈ s' ∧ s' ⊆ {[it]} ∪ s ∧ set_Size s' ≤ max ∧ set_Size (s ∖ s') ≤ 3 ∧ (set_Size s < max → s ⊆ s').

Lemma room_adds pick max it s :
  is_picker pick → 4 ≤ max → set_Size s ≤ max → adds max it s (set_Add [it] (makeRoom pick max s)).
Proof.
  intros Hp Hmax Hs. destruct (makeRoom_spec pick max s Hp Hmax Hs) as (Hsub & Hsize & Hroom).
  rewrite set_Add_spec. simpl. unfold adds, set_Size in *.
  assert (size (makeRoom pick max s) ≤ size ({[it]} ∪ ∅ ∪ makeRoom pick max s) ≤ size (makeRoom pick max s) + 1)%nat.
  { split; [apply subseteq_size; set_solver|].
    rewrite (union_empty_r_L {[it]}), size_union_alt, size_singleton.
    pose proof (subseteq_size (makeRoom pick max s ∖ {[it]}) (makeRoom pick max s)) as Hle. specialize (Hle ltac:(set_solver)). lia. }
  split; [set_solver|]. split; [set_solver|]. split; [lia|]. split; [|intros Hlt; rewrite Hroom by done; set_solver].
  pose proof (size_difference s (makeRoom pick max s) Hsub).
  pose proof (subseteq_size (s ∖ ({[it]} ∪ ∅ ∪ makeRoom pick max s)) (s ∖ makeRoom pick max s)) as Hle.
  specialize (Hle ltac:(set_solver)). lia.
Qed.

Lemma AddTx_spec pick it n :
  is_picker pick → set_Size (pn_knownTxs n) ≤ maxKnownTxs →
  adds maxKnownTxs it (pn_knownTxs n) (pn_knownTxs (AddTx pick it n)).
Proof. intros. apply room_adds; done. Qed.

Lemma AddBlock_spec pick it n :
  is_picker pick → set_Size (pn_knownBlocks n) ≤ maxKnownBlocks →
  adds maxKnownBlocks it (pn_knownBlocks n) (pn_knownBlocks (AddBlock pick it n)).
Proof. intros. apply room_adds; done. Qed.

(** A call on a peer node. *)
Inductive pcall := PAddTx (pick : picker item) (it : item) | PAddBlock (pick : picker item) (it : item).

Definition pcall_ok (c : pcall) : Prop :=
  match c with PAddTx pick _ | PAddBlock pick _ => is_picker pick end.

Definition run_pcall (n : peerNode) (c : pcall) : peerNode :=
  match c with PAddTx pick it => AddTx pick it n | PAddBlock pick it => AddBlock pick it n end.

(** C40: After any sequence of additions to a new peer node both known-item sets hold at most
    1024 items; a further addition puts its item into its set and nothing else, drops at most
    three of the items that were there, and none when the set was not full, and leaves the other
    set untouched. *)
Theorem known_items_bounded nodeId id name calls c :
  Forall pcall_ok calls → pcall_ok c →
  let n := fold_left run_pcall calls (NewPeerNode nodeId id name) in
  set_Size (pn_knownTxs n) ≤ maxKnownTxs ∧ set_Size (pn_knownBlocks n) ≤ maxKnownBlocks ∧
  match c with
  | PAddTx _ it => HasTx it (run_pcall n c) = true ∧
      adds maxKnownTxs it (pn_knownTxs n) (pn_knownTxs (run_pcall n c)) ∧
      ∀ i, HasBlock i (run_pcall n c) = HasBlock i n
  | PAddBlock _ it => HasBlock it (run_pcall n c) = true ∧
      adds maxKnownBlocks it (pn_knownBlocks n) (pn_knownBlocks (run_pcall n c)) ∧
      ∀ i, HasTx i (run_pcall n c) = HasTx i n
  end.
Proof.
  intros Hall Hc n.
  assert (set_Size (pn_knownTxs n) ≤ maxKnownTxs ∧ set_Size (pn_knownBlocks n) ≤ maxKnownBlocks) as [H1 H2].
  { assert (∀ n0, set_Size (pn_knownTxs n0) ≤ maxKnownTxs ∧ set_Size (pn_knownBlocks n0) ≤ maxKnownBlocks →
      set_Size (pn_knownTxs (fold_left run_pcall calls n0)) ≤ maxKnownTxs ∧
      set_Size (pn_knownBlocks (fold_left run_pcall calls n0)) ≤ maxKnownBlocks) as Hgen.
    { clear n. induction Hall as [|[pick it|pick it] calls Hok _ IH]; intros n0 [Ht Hb]; [done|..]; apply IH.
      - destruct (AddTx_spec pick it n0 Hok Ht) as (_ & _ & Hmax & _). by split.
      - destruct (AddBlock_spec pick it n0 Hok Hb) as (_ & _ & Hmax & _). by split. }
    by apply Hgen. }
  split; [done|]. split; [done|]. destruct c as [pick it|pick it]; cbn [run_pcall].
  - pose proof (AddTx_spec pick it n Hc H1) as Hadds. split; [exact (bool_decide_eq_true_2 _ (proj1 Hadds)) | split; [exact Hadds | done]].
  - pose proof (AddBlock_spec pick it n Hc H2) as Hadds. split; [exact (bool_decide_eq_true_2 _ (proj1 Hadds)) | split; [exact Hadds | done]].
Qed.

(** ** The peer data base *)

Lemma notSeenLoop_spec {N} {dbn : DbPeerNode N} (heap : gmap ref N) it nodes :
  Forall (λ r, is_Some (heap !! r)) nodes →
  notSeenLoop heap it nodes = Ret (filter (λ r, node_HasTx it <$> heap !! r ≠ Some true) nodes).
Proof.
  induction 1 as [|r nodes [n Hn] _ IH]; [done|]. cbn [notSeenLoop]. rewrite Hn. cbn [deref outcome_bind].
  rewrite IH. cbn [outcome_bind]. rewrite filter_cons, Hn. cbn [fmap option_fmap option_map].
  destruct (node_HasTx it n); [by rewrite decide_False by tauto | by rewrite decide_True].
Qed.

(** The messages sent when [msg] goes to each of a list of peers; [net] is what
    sending returns. *)
Fixpoint deliver (net : list (ref * Msg) → ref → Msg → option error) (log : list (ref * Msg)) (tos : list ref)
    (msg : Msg) : list (ref * Msg) :=
  match tos with
  | [] => log
  | r :: tos => deliver net (match net log r msg with None => log ++ [(r, msg)] | Some _ => log end) tos msg
  end.

(** Ranging over the registered nodes visits every registered reference. *)
Lemma node_order_elem order m r : is_node_order order → r ∈ order m ↔ ∃ id, m !! id = Some r.
Proof.
  intros Ho. rewrite (Ho m), list_elem_of_fmap. split.
  - intros ([id x] & -> & Hin). exists id. by apply elem_of_map_to_list.
  - intros [id Hid]. exists (id, r). split; [done|]. by apply elem_of_map_to_list.
Qed.

Lemma HaveISeenIt_spec it ps :
  (HaveISeenIt it ps).2 = bool_decide (it ∈ ps_myHistory ps) ∧
  ps_myHistory (HaveISeenIt it ps).1 = {[it]} ∪ ps_myHistory ps ∧
  ps_nodes (HaveISeenIt it ps).1 = ps_nodes ps.
Proof.
  unfold HaveISeenIt. case_bool_decide; simpl; [|done]. split; [done|]. split; [set_solver | done].
Qed.

Definition w_pick : picker item := λ s, head (elements s).
Lemma w_pick_ok : is_picker w_pick.
Proof.
  intros s. unfold w_pick. destruct (elements s) as [|x l] eqn:E; simpl.
  - by apply leibniz_equiv, elements_empty_iff.
  - apply elem_of_elements. rewrite E. left.
Qed.

Lemma known_items_bounded_witness :
  HasTx (ItemPtr 7) (run_pcall (fold_left run_pcall [PAddBlock w_pick (ItemPtr 1); PAddTx w_pick (ItemHash (BytesToByte64 [x01]))]
    (NewPeerNode [] [] [])) (PAddTx w_pick (ItemPtr 7))) = true.
Proof.
  apply (known_items_bounded [] [] [] [PAddBlock w_pick (ItemPtr 1); PAddTx w_pick (ItemHash (BytesToByte64 [x01]))]
    (PAddTx w_pick (ItemPtr 7))).
  - repeat constructor; exact w_pick_ok.
  - exact w_pick_ok.
Defined.

(** An encoding of messages with the laws. *)
Definition rlp_of_wire {A} `{Wire A} : Rlp A := {|
  Encode x := Ok (enc x);
  Decode b := match dec b with Some (x, []) => Ok x | _ => Err (StdError "malformed message") end;
|}.

Lemma rlp_of_wire_laws {A} `{Wire A} : @RlpLaws A rlp_of_wire.
Proof.
  split. simpl. intros x b [= <-]. rewrite <- (app_nil_r (enc x)). by rewrite dec_enc.
Qed.

(** All messages arrive. *)
Definition w_net : list (ref * Msg) → ref → Msg → option error := λ _ _ _, None.
Definition w_nodes : nodeOrder := λ m, (map_to_list m).*2.
Lemma w_nodes_ok : is_node_order w_nodes.
Proof. by intros m. Qed.
