(* ===== verification/Platform.v ===== *)
(** * The platform manager ([src/network/platform.go], [src/network/types.go])

    Definitions only: connecting peers, the message handlers, block
    synchronization and the block producer, over the interface [Engine] of
    the consensus layer.  A handler runs to its end in one step; what waits
    on a channel ([syncNode], [blockProducer], the shutdown of the producer)
    is cut into the steps between two waits.

    What the code gets from outside is an argument: the results of sending to
    a connection ([net]), and per call the environment [env] with the clock,
    the randomness and the orders in which Go ranges over maps. *)

From Stdlib Require Import Strings.Byte.
From S2P Require Import Prelude Bytes Db WorldStateI Block Consensus Trustee Peers.

(** [src/network/error.go] and the codes of [src/consensus/error.go] that only
    the platform uses *)
Definition ERR_NOT_IMPLEMENTED : Z := 0x001.
Definition ERR_DUPLICATE_START : Z := 0x501.
Definition ERR_DUPLICATE_SUSPEND : Z := 0x503.
Definition ERR_INVALID_TX : Z := 0x401.
Definition ERR_GREEDY_BLOCK : Z := 0x702.

Definition txQueueSize : nat := 10.
Definition maxTxCount : Z := 10.
Definition sync_maxBlocks : Z := 10.
Definition genesisTimeStamp : Z := 0x200000.
(** Milliseconds *)
Definition maxTxWait : Z := 10000.
Definition shortWait : Z := 50.

(** ** The interface of the consensus layer *)

(** [type Consensus interface] of [src/consensus/consensus.go]: [C] is the
    chain with its database. *)
Class Engine (C D W : Type) := {
  en_db : C → D;
  en_New : Z → bytes → D → outcome (result C);
  en_Genesis : C → option Byte64;
  en_NewCandidateBlock : Z → C → outcome (C * option (block W));
  en_MineCandidateBlockPoW : block W → option PowApprover → C → outcome (C * block W * result (block W));
  en_CheckNetworkBlockPoW : block W → option PowApprover → C → outcome (C * block W * option error);
  en_TransactionStatus : Byte64 → C → outcome (option (block W) * option error);
  en_DecodeNetworkBlock : Msg → C → outcome (C * result (block W));
  en_DecodeNetworkBlockSpec : BlockSpec → C → outcome (C * result (block W));
  en_AcceptNetworkBlock : block W → C → outcome (C * block W * option error);
  en_BestBlock : C → outcome (C * option (block W));
  en_Block : Byte64 → C → outcome (C * result (block W));
  en_Descendents : Byte64 → Z → C → outcome (list (block W) * option error);
  en_Ancestor : Byte64 → Z → C → outcome (option (block W) * option error);
}.

(** The implementation of [src/consensus/blockChainConsensus.go]. *)
Section chain_engine.
Context {D W : Type} {dbo : Database D} {wso : WorldState W D} {sha : Sha512}.
Context {cdn : Codec chainNode} {cds : Codec BlockSpec} {rls : Rlp BlockSpec}.
Context (fuel attempts : nat) (range : ranger) (now : Z).

(** An operation that changes the database only *)
Definition on_db {A} (f : D → outcome (D * A)) (c : BlockChainConsensus W * D)
    : outcome (BlockChainConsensus W * D * A) :=
  let! (d, a) := f c.2 in Ret (c.1, d, a).

Definition chain_engine : Engine (BlockChainConsensus W * D) D W := {|
  en_db := snd;
  en_New ts miner d :=
    let! (d, r) := NewBlockChainConsensus attempts range now ts miner d in
    Ret match r with Ok c => Ok (c, d) | Err e => Err e end;
  en_Genesis c := Genesis c.1;
  en_NewCandidateBlock now c := on_db (NewCandidateBlock now c.1) c;
  en_MineCandidateBlockPoW b p c :=
    let! (d, c, b, r) := MineCandidateBlockPoW fuel attempts range b p c.1 c.2 in Ret (c, d, b, r);
  en_CheckNetworkBlockPoW b p c :=
    let! (d, b, e) := CheckNetworkBlockPoW attempts range b p c.2 in Ret (c.1, d, b, e);
  en_TransactionStatus h c := TransactionStatus h c.1 c.2;
  en_DecodeNetworkBlock m := on_db (DecodeNetworkBlock fuel m);
  en_DecodeNetworkBlockSpec s := on_db (DecodeNetworkBlockSpec fuel s);
  en_AcceptNetworkBlock b c :=
    let! (d, c, b, e) := AcceptNetworkBlock fuel attempts range b c.1 c.2 in Ret (c, d, b, e);
  en_BestBlock c := on_db (BestBlock c.1) c;
  en_Block h := on_db (chain_Block h);
  en_Descendents h max c := Descendents fuel h max c.2;
  en_Ancestor h max c := Ancestor h max c.1 c.2;
|}.
End chain_engine.

(** ** Types ([src/network/types.go]) *)

(** [type AppConfig struct] *)
Record AppConfig := MkApp {
  ac_NetworkId : Byte16;
  ac_NodeId : bytes;
  ac_NodeName : bytes;
  ac_ProtocolId : Byte16;
}.

(** The application's callback [TxProcessor] is handed a transaction with
    which it can read, write and delete keys of the block's world state: a
    program of such calls. *)
Inductive appProg :=
  | AppReturn (ok : bool)
  | AppLookup (key : bytes) (k : result bytes → appProg)
  | AppUpdate (key value : bytes) (k : bool → appProg)
  | AppDelete (key : bytes) (k : bool → appProg).

Definition TxProcessor : Type := Transaction → appProg.
Definition PeerValidator : Type := AppConfig → option error.

(** [type ServiceConfig struct]: the key and the callbacks (the rest
    configures the p2p server) *)
Record ServiceConfig `{Ecdsa} := MkService {
  sc_IdentityKey : PrivateKey;
  sc_TxProcessor : option TxProcessor;
  sc_PowApprover : option PowApprover;
  sc_PeerValidator : option PeerValidator;
}.

(** [type PlatformConfig struct] *)
Record PlatformConfig `{Ecdsa} := MkConfig {
  cf_App : AppConfig;
  cf_Service : ServiceConfig;
  cf_genesis : option Byte64;
  cf_minerId : bytes;
}.

(** [type Transaction struct] and [type State struct] *)
Record NetTransaction {W : Type} := MkNetTx {
  nt_tx : Transaction;
  nt_block : block W;
}.
Arguments NetTransaction : clear implicits.

Record State {W : Type} := MkState { st_block : block W }.
Arguments State : clear implicits.

Section types.
Context {D W : Type} {wso : WorldState W D}.

Definition tx_Block (tx : NetTransaction W) : block W := nt_block tx.
Definition tx_Payload (tx : NetTransaction W) : bytes := Payload (nt_tx tx).
Definition tx_Submitter (tx : NetTransaction W) : bytes := Submitter (nt_tx tx).
Definition tx_Signature (tx : NetTransaction W) : bytes := Signature (nt_tx tx).
Definition tx_Lookup (key : bytes) (tx : NetTransaction W) (d : D) : outcome (NetTransaction W * result bytes) :=
  let! (b, r) := block_Lookup key (nt_block tx) d in Ret (MkNetTx W (nt_tx tx) b, r).
Definition tx_Delete (key : bytes) (tx : NetTransaction W) : NetTransaction W * bool :=
  let '(b, r) := block_Delete key (nt_block tx) in (MkNetTx W (nt_tx tx) b, r).
Definition tx_Update (key value : bytes) (tx : NetTransaction W) : NetTransaction W * bool :=
  let '(b, r) := block_Update key value (nt_block tx) in (MkNetTx W (nt_tx tx) b, r).

Definition st_Get (key : bytes) (s : State W) (d : D) : outcome (State W * result bytes) :=
  let! (b, r) := block_Lookup key (st_block s) d in Ret (MkState W b, r).
Definition st_Depth (s : State W) : Z := Uint64 (Depth (st_block s)).
Definition st_Weight (s : State W) : Z := Uint64 (Weight (st_block s)).
Definition st_Tip (s : State W) : outcome Byte64 := deref (block_Hash (st_block s)).
Definition st_Timestamp (s : State W) : Z := Uint64 (block_Timestamp (st_block s)).
Definition st_GetAllKeys (s : State W) : result (list bytes) := Err (CoreError ERR_NOT_IMPLEMENTED "TBD").

(** Running the application's program *)
Fixpoint runApp (p : appProg) (tx : NetTransaction W) (d : D) : outcome (NetTransaction W * bool) :=
  match p with
  | AppReturn ok => Ret (tx, ok)
  | AppLookup key k => let! (tx, r) := tx_Lookup key tx d in runApp (k r) tx d
  | AppUpdate key value k => let '(tx, r) := tx_Update key value tx in runApp (k r) tx d
  | AppDelete key k => let '(tx, r) := tx_Delete key tx in runApp (k r) tx d
  end.
End types.

(** ** The manager *)

(** What a call gets from outside: the clock when a candidate block and when
    its reward transaction are made, randomness, and the orders of ranging
    over maps and sets *)
Record env := Env {
  e_now : Z;
  e_rewardNow : Z;
  e_rand : Z;
  e_params : paramOrder;
  e_nodes : nodeOrder;
  e_pick : picker item;
}.

(** The variables of the goroutine [blockProducer]: the duration the timer
    was last reset to stands for the timer *)
Record producer {W : Type} := Producer {
  pr_newBlock : option (block W);
  pr_txCount : Z;
  pr_wait : Z;
}.
Arguments producer : clear implicits.

(** [type platformManager struct], without the p2p server, the lock and the
    logger (the database is that of the engine), together with what is shared
    with it: the goroutine that produces blocks, the peer nodes, what was sent
    over the connections, and the number of hashes allocated so far (the
    address of the next one). *)
Record platformManager `{Ecdsa} {C W : Type} := Mgr {
  config : PlatformConfig;
  trustee : trusteeImpl;
  engine : C;
  txQ : list Transaction;
  blockProducer : option (producer W);
  peerDb : PeerSetDbInMemory;
  deadTxs : gset Byte64;
  mgr_peers : gmap bytes AppConfig;
  peerCount : Z;
  isRunning : bool;
  heap : peerHeap;
  sent : list (ref * Msg);
  nextPtr : N;
}.
Arguments platformManager {_} C W.

(** A call returns, or waits on a channel that nobody serves. *)
Inductive call (A : Type) :=
  | Returned (a : A)
  | Blocked.
Arguments Returned {A} a.
Arguments Blocked {A}.

(** Where a synchronization is: it has returned, waits for the peer's
    answer, or waits for the block producer to shut down. *)
Inductive syncState :=
  | SyncReturned (e : option error)
  | SyncWaiting
  | SyncBlocked.

Section manager.
Context {C D W : Type} {wso : WorldState W D} {eng : Engine C D W} {sha : Sha512} {ec : Ecdsa}.
Context {cop : Codec (list Op)} {csg : Codec signature}.
Context {rls : Rlp BlockSpec} {rlss : Rlp (list BlockSpec)} {rlh : Rlp Byte64} {rlhs : Rlp (list Byte64)}.
Context {rlhm : Rlp HandshakeMsg} {rlrq : Rlp GetBlockHashesRequestMsg}.
(** What sending a message to a peer returns, after the messages sent before *)
Context (net : list (ref * Msg) → ref → Msg → option error).
Abbreviation mgr := (platformManager C W).

Definition set_engine (x : C) (m : mgr) : mgr :=
  Mgr _ C W (config m) (trustee m) x (txQ m) (blockProducer m) (peerDb m) (deadTxs m) (mgr_peers m)
    (peerCount m) (isRunning m) (heap m) (sent m) (nextPtr m).
Definition set_txQ (x : list Transaction) (m : mgr) : mgr :=
  Mgr _ C W (config m) (trustee m) (engine m) x (blockProducer m) (peerDb m) (deadTxs m) (mgr_peers m)
    (peerCount m) (isRunning m) (heap m) (sent m) (nextPtr m).
Definition set_blockProducer (x : option (producer W)) (r : bool) (m : mgr) : mgr :=
  Mgr _ C W (config m) (trustee m) (engine m) (txQ m) x (peerDb m) (deadTxs m) (mgr_peers m)
    (peerCount m) r (heap m) (sent m) (nextPtr m).
Definition set_deadTxs (x : gset Byte64) (m : mgr) : mgr :=
  Mgr _ C W (config m) (trustee m) (engine m) (txQ m) (blockProducer m) (peerDb m) x (mgr_peers m)
    (peerCount m) (isRunning m) (heap m) (sent m) (nextPtr m).
Definition set_peerDb (x : PeerSetDbInMemory) (m : mgr) : mgr :=
  Mgr _ C W (config m) (trustee m) (engine m) (txQ m) (blockProducer m) x (deadTxs m) (mgr_peers m)
    (peerCount m) (isRunning m) (heap m) (sent m) (nextPtr m).
Definition set_peers (x : gmap bytes AppConfig) (n : Z) (m : mgr) : mgr :=
  Mgr _ C W (config m) (trustee m) (engine m) (txQ m) (blockProducer m) (peerDb m) (deadTxs m) x
    n (isRunning m) (heap m) (sent m) (nextPtr m).
Definition set_heap (x : peerHeap) (m : mgr) : mgr :=
  Mgr _ C W (config m) (trustee m) (engine m) (txQ m) (blockProducer m) (peerDb m) (deadTxs m) (mgr_peers m)
    (peerCount m) (isRunning m) x (sent m) (nextPtr m).
Definition set_sent (x : list (ref * Msg)) (m : mgr) : mgr :=
  Mgr _ C W (config m) (trustee m) (engine m) (txQ m) (blockProducer m) (peerDb m) (deadTxs m) (mgr_peers m)
    (peerCount m) (isRunning m) (heap m) x (nextPtr m).
Definition set_nextPtr (x : N) (m : mgr) : mgr :=
  Mgr _ C W (config m) (trustee m) (engine m) (txQ m) (blockProducer m) (peerDb m) (deadTxs m) (mgr_peers m)
    (peerCount m) (isRunning m) (heap m) (sent m) x.

(** *** Running with the manager as state *)

Definition M (A : Type) : Type := mgr → outcome (mgr * A).
Definition M_ret {A} (a : A) : M A := λ m, Ret (m, a).
Definition M_bind {A B} (f : A → M B) (x : M A) : M B := λ m, let! (m, a) := x m in f a m.
Definition M_lift {A} (o : outcome A) : M A := λ m, let! a := o in Ret (m, a).
Definition M_gets {A} (f : mgr → A) : M A := λ m, Ret (m, f m).
Definition M_modify (f : mgr → mgr) : M unit := λ m, Ret (f m, tt).

Notation "'do!' x ':=' e 'in' k" := (M_bind (λ x, k) e)
  (at level 10, x pattern, e at level 100, k at level 200).
Notation "'run!' e 'in' k" := (M_bind (λ _, k) e) (at level 10, e at level 100, k at level 200).

(** A call of the engine *)
Definition M_engine {A} (f : C → outcome (C * A)) : M A := λ m,
  let! (c, a) := f (engine m) in Ret (set_engine c m, a).
Definition M_query {A} (f : C → outcome A) : M A := λ m,
  let! a := f (engine m) in Ret (m, a).
(** A read or change of a peer *)
Definition M_peer (r : ref) : M peerNode := λ m, let! n := deref (heap m !! r) in Ret (m, n).
Definition M_setPeer (r : ref) (n : peerNode) : M unit := M_modify (λ m, set_heap (<[r := n]> (heap m)) m).
(** The address of a hash that was just computed *)
Definition M_alloc : M N := λ m, Ret (set_nextPtr (N.succ (nextPtr m)) m, nextPtr m).

(** [func (node *peerNode) Send(msgcode uint64, data interface{}) error] *)
Definition Send {A} `{Rlp A} (to : ref) (msgcode : Z) (data : A) : M (option error) := λ m,
  match Encode data with
  | Err e => Ret (m, Some e)
  | Ok payload =>
      let msg := MkMsg msgcode payload in
      match net (sent m) to msg with
      | Some e => Ret (m, Some e)
      | None => Ret (set_sent (sent m ++ [(to, msg)]) m, None)
      end
  end.

(** [node.AddTx(block.Hash())] for the hash at address [p] *)
Definition markKnown (e : env) (r : ref) (p : N) : M unit :=
  do! n := M_peer r in M_setPeer r (AddTx (e_pick e) (ItemPtr p) n).

(** [node.GetBlockHashesChan <- x] *)
Definition signal (r : ref) (x : Z) : M unit :=
  do! n := M_peer r in
  do! ch := M_lift (chan_send x (pn_GetBlockHashesChan n)) in
  M_setPeer r (set_pn_chans ch (pn_GetBlocksChan n) n).

Definition setLastHash (r : ref) (h : option Byte64) : M unit :=
  do! n := M_peer r in M_setPeer r (set_pn_LastHash h n).

(** *** Creation and control *)

(** [func NewPlatformManager(appConfig *AppConfig, srvConfig *ServiceConfig, appDb db.Database)];
    [p2p] is what [configureP2P] gives: the node id of the started server *)
Definition NewPlatformManager (appConfig : option AppConfig) (srvConfig : option ServiceConfig)
    (appDb : option D) (p2p : result bytes) : outcome (result mgr) :=
  match appConfig, srvConfig with
  | Some app, Some srv =>
      match sc_TxProcessor srv, sc_PeerValidator srv with
      | Some _, Some _ =>
          match appDb with
          | None => Ret (Err (CoreError ERR_INVALID_ARG "incorrect or nil app DB"))
          | Some d =>
              match p2p with
              | Err e => Ret (Err e)
              | Ok self =>
                  let app := MkApp (ac_NetworkId app) self (ac_NodeName app) (ac_ProtocolId app) in
                  let! r := en_New genesisTimeStamp (FromECDSAPub (publicKey (sc_IdentityKey srv))) d in
                  match r with
                  | Err e => Ret (Err e)
                  | Ok c =>
                      let! t := NewTrusteeApp (sc_IdentityKey srv) in
                      Ret (Ok (Mgr _ C W (MkConfig _ app srv (en_Genesis c) self) t c [] None
                        NewPeerSetDbInMemory ∅ ∅ 0 false ∅ [] 0%N))
                  end
              end
          end
      | _, _ => Ret (Err (CoreError ERR_INVALID_ARG "callback not provided"))
      end
  | _, _ => Ret (Err (CoreError ERR_INVALID_ARG "incorrect or nil config"))
  end.

(** The beginning of [blockProducer] *)
Definition newProducer : producer W := Producer W None 0 maxTxWait.

(** [func (mgr *platformManager) Start() error] *)
Definition Start : M (option error) := λ m,
  if isRunning m then
    Ret (m, Some (CoreError ERR_DUPLICATE_START "block production already running"))
  else Ret (set_blockProducer (Some newProducer) true m, None).

(** [mgr.shutdownBlockProducer <- true]: the channel is not buffered, a
    producer takes the value and returns. *)
Definition shutdownProducer : M (call unit) := λ m,
  match blockProducer m with
  | None => Ret (m, Blocked)
  | Some _ => Ret (set_blockProducer None (isRunning m) m, Returned tt)
  end.

(** [func (mgr *platformManager) Suspend() error] *)
Definition Suspend : M (call (option error)) :=
  do! running := M_gets isRunning in
  if negb running then
    M_ret (Returned (Some (CoreError ERR_DUPLICATE_SUSPEND "block production already suspended")))
  else
    do! r := shutdownProducer in
    match r with
    | Blocked => M_ret Blocked
    | Returned _ =>
        run! M_modify (λ m, set_blockProducer (blockProducer m) false m) in
        M_ret (Returned None)
    end.

(** [func (mgr *platformManager) Stop() error]; [closed] is what closing the
    database returns. *)
Definition Stop (closed : option error) : M (call (option error)) :=
  do! r := shutdownProducer in
  match r with
  | Blocked => M_ret Blocked
  | Returned _ =>
      run! M_modify (λ m, set_blockProducer (blockProducer m) false m) in
      M_ret (Returned closed)
  end.

(** *** Queries and submission *)

(** [func (mgr *platformManager) Status(txId *core.Byte64) (consensus.Block, error)] *)
Definition Status (txId : Byte64) : M (option (block W) * option error) :=
  do! dead := M_gets deadTxs in
  if decide (txId ∈ dead) then
    run! M_modify (set_deadTxs (dead ∖ {[txId]})) in
    M_ret (None, Some (CoreError ERR_TX_NOT_APPLIED "transaction rejected"))
  else M_query (en_TransactionStatus txId).

(** [func (mgr *platformManager) State() *State]; [None] is a state with a
    [nil] block. *)
Definition mgr_State : M (option (State W)) :=
  do! b := M_engine en_BestBlock in M_ret (MkState W <$> b).

(** [func (mgr *platformManager) MiningRewardBalance(miner []byte) *RTU] *)
Definition mgr_MiningRewardBalance (miner : bytes) : M RTU :=
  do! t := M_gets trustee in
  let miner := if decide (length miner = 0)%nat then myAddress t else miner in
  do! b := M_engine en_BestBlock in
  do! b := M_lift (deref b) in
  do! d := M_gets (λ m, en_db (engine m)) in
  do! (_, r) := M_lift (trustee_MiningRewardBalance miner b d) in
  M_ret r.

(** [func (mgr *platformManager) Submit(txPayload, signature, submitter []byte) *core.Byte64] *)
Definition Submit (e : env) (txPayload signature submitter : bytes) : M (call Byte64) := λ m,
  let tx := NewTransaction (e_now e) txPayload signature submitter in
  if decide (txQueueSize ≤ length (txQ m))%nat then Ret (m, Blocked)
  else Ret (set_txQ (txQ m ++ [tx]) m, Returned (Transaction_Id tx)).

(** [func (mgr *platformManager) Peers() []AppConfig], in some order *)
Definition Peers : M (list AppConfig) := M_gets (λ m, (map_to_list (mgr_peers m)).*2).
Definition PeerCount : M Z := M_gets peerCount.

(** [func (mgr *platformManager) Disconnect(app *AppConfig) error]; the
    connection of the peer is told to close. *)
Definition Disconnect (app : AppConfig) : M (option error) := λ m,
  let id := bytesToHexString (ac_NodeId app) in
  match PeerNodeForId id (peerDb m) with
  | None => Ret (m, Some (CoreError ErrorNotFound "peer not found"))
  | Some _ => let '(ps, e) := UnRegisterPeerNodeForId id (peerDb m) in Ret (set_peerDb ps m, e)
  end.
(** *** Blocks and peers *)

(** [func (mgr *platformManager) processTx(tx *consensus.Transaction, block consensus.Block) bool] *)
Definition processTx (tx : Transaction) (b : block W) : M (block W * bool) :=
  do! cfg := M_gets config in
  do! proc := M_lift (deref (sc_TxProcessor (cf_Service cfg))) in
  do! d := M_gets (λ m, en_db (engine m)) in
  do! (t, ok) := M_lift (runApp (proc tx) (MkNetTx W tx b) d) in
  M_ret (nt_block t, ok).

(** The loop of [broadcast] *)
Fixpoint broadcastLoop (e : env) (p : N) (b : block W) (nodes : list ref) : M Z :=
  match nodes with
  | [] => M_ret 0
  | node :: nodes =>
      run! markKnown e node p in
      do! _ := Send node NewBlock (Spec b) in
      do! count := broadcastLoop e p b nodes in
      M_ret (1 + count)
  end.

(** [func (mgr *platformManager) broadcast(block consensus.Block) int]; [p] is
    the address [block.Hash()] *)
Definition broadcast (e : env) (p : N) (b : block W) : M Z :=
  do! ps := M_gets peerDb in
  do! h := M_gets heap in
  do! nodes := M_lift (PeerNodesWithMsgNotSeen (e_nodes e) h (ItemPtr p) ps) in
  broadcastLoop e p b nodes.

(** The loop of [processBlock] over the application's transactions: [false]
    at the first that is rejected *)
Fixpoint processTxs (txs : list Transaction) (b : block W) : M (block W * bool) :=
  match txs with
  | [] => M_ret (b, true)
  | tx :: txs =>
      do! (b, ok) := processTx tx b in
      if ok : bool then processTxs txs b else M_ret (b, false)
  end.

(** [func (mgr *platformManager) processBlock(block consensus.Block, from *peerNode) error] *)
Definition processBlock (e : env) (b : block W) (from : ref) : M (block W * option error) :=
  let txs := Transactions b in
  if decide (length txs < 2)%nat then M_ret (b, Some (CoreError ERR_GREEDY_BLOCK "greedy block"))
  else
    do! d := M_gets (λ m, en_db (engine m)) in
    do! (b, valid) := M_lift (VerifyMiningRewardTx (e_params e) b d) in
    if negb valid then M_ret (b, Some (CoreError ERR_BLOCK_VALIDATION "invalid mining reward"))
    else
      do! (b, ok) := processTxs (tail txs) b in
      if negb ok then M_ret (b, Some (CoreError ERR_INVALID_TX "transaction error"))
      else
        do! cfg := M_gets config in
        do! (b, err) := M_engine (λ c, let! (c, b, err) := en_CheckNetworkBlockPoW b (sc_PowApprover (cf_Service cfg)) c in
                                       Ret (c, (b, err))) in
        match err with
        | Some err => M_ret (b, Some err)
        | None =>
            do! (b, err) := M_engine (λ c, let! (c, b, err) := en_AcceptNetworkBlock b c in Ret (c, (b, err))) in
            match err with
            | Some err => M_ret (b, Some err)
            | None =>
                do! p := M_alloc in
                run! markKnown e from p in
                do! h := M_lift (deref (block_Hash b)) in
                do! ps := M_gets peerDb in
                let '(ps, seen) := HaveISeenIt (ItemHash h) ps in
                run! M_modify (set_peerDb ps) in
                if seen : bool then M_ret (b, Some (CoreError ERR_DUPLICATE_BLOCK "repeated block"))
                else
                  do! _ := broadcast e p b in
                  M_ret (b, None)
            end
        end.

(** [err != nil && err.( *core.CoreError).Code() != consensus.ERR_DUPLICATE_BLOCK];
    the type assertion panics on another type of error. *)
Definition isRealError (err : option error) : outcome bool :=
  match err with
  | None => Ret false
  | Some err => let! code := deref (error_code err) in Ret (bool_decide (code ≠ ERR_DUPLICATE_BLOCK))
  end.

(** *** Message handlers *)

(** [handleGetBlockHashesRewindMsg] *)
Definition handleGetBlockHashesRewindMsg (msg : Msg) (from : ref) : M (option error) :=
  do! n := M_peer from in
  run! match pn_LastHash n with
       | Some _ => M_ret tt
       | None =>
           do! best := M_engine en_BestBlock in
           do! best := M_lift (deref best) in
           setLastHash from (block_Hash best)
       end in
  do! n := M_peer from in
  do! last := M_lift (deref (pn_LastHash n)) in
  do! (ancestor, err) := M_query (en_Ancestor last 10) in
  match err with
  | Some err => M_ret (Some err)
  | None =>
      do! ancestor := M_lift (deref ancestor) in
      run! setLastHash from (block_Hash ancestor) in
      do! _ := M_lift (deref (block_Hash ancestor)) in
      run! signal from CHAN_RETRY in
      M_ret None
  end.

(** [handleNewBlockMsg] *)
Definition handleNewBlockMsg (e : env) (msg : Msg) (from : ref) : M (option error) :=
  do! r := M_engine (en_DecodeNetworkBlock msg) in
  match r with
  | Err err => M_ret (Some (CoreError ErrorBadBlock (Error_string err)))
  | Ok b =>
      do! (_, err) := processBlock e b from in
      do! real := M_lift (isRealError err) in
      if real : bool then
        run! signal from CHAN_ERROR in
        M_ret err
      else M_ret None
  end.

(** The loop of [handleGetBlocksRequestMsg] *)
Fixpoint collectBlocks (hashes : list Byte64) : M (list BlockSpec) :=
  match hashes with
  | [] => M_ret []
  | h :: hashes =>
      do! r := M_engine (en_Block h) in
      do! specs := collectBlocks hashes in
      M_ret (match r with Ok b => Spec b :: specs | Err _ => specs end)
  end.

(** [handleGetBlocksRequestMsg] *)
Definition handleGetBlocksRequestMsg (msg : Msg) (to : ref) : M (option error) :=
  match Decode (A:=list Byte64) (msg_Payload msg) with
  | Err err => M_ret (Some (CoreError ErrorSyncFailed (Error_string err)))
  | Ok hashes =>
      if decide (length hashes < 1)%nat then
        M_ret (Some (CoreError ErrorInvalidRequest "GetBlocksRequestMsg does not have any hashes"))
      else
        do! blocks := collectBlocks hashes in
        if decide (length blocks < 1)%nat then
          M_ret (Some (CoreError ErrorNotFound "GetBlocksRequestMsg did not find any blocks"))
        else Send to GetBlocksResponse blocks
  end.

(** The loop of [handleGetBlocksResponseMsg]: the error to return, if any *)
Fixpoint syncBlocks (e : env) (specs : list BlockSpec) (from : ref) : M (option error) :=
  match specs with
  | [] => M_ret None
  | s :: specs =>
      do! r := M_engine (en_DecodeNetworkBlockSpec s) in
      match r with
      | Err err => M_ret (Some err)
      | Ok b =>
          do! (b, err) := processBlock e b from in
          do! real := M_lift (isRealError err) in
          if real : bool then
            run! signal from CHAN_ERROR in
            M_ret err
          else
            run! setLastHash from (block_Hash b) in
            syncBlocks e specs from
      end
  end.

(** [handleGetBlocksResponseMsg] *)
Definition handleGetBlocksResponseMsg (e : env) (msg : Msg) (from : ref) : M (option error) :=
  match Decode (A:=list BlockSpec) (msg_Payload msg) with
  | Err err =>
      run! signal from CHAN_ERROR in
      M_ret (Some (CoreError ErrorSyncFailed (Error_string err)))
  | Ok specs =>
      if decide (length specs < 1)%nat then
        M_ret (Some (CoreError ErrorInvalidRequest "GetBlocksResponseMsg does not have any blocks"))
      else
        do! err := syncBlocks e specs from in
        match err with
        | Some err => M_ret (Some err)
        | None =>
            run! signal from CHAN_NEXT in
            M_ret None
        end
  end.

(** [int(x)] of a [uint64] *)
Definition to_int (x : Z) : Z := if decide (x < 2 ^ 63) then x else x - 2 ^ 64.

(** The hashes of blocks *)
Fixpoint blockHashes (bs : list (block W)) : outcome (list Byte64) :=
  match bs with
  | [] => Ret []
  | b :: bs =>
      let! h := deref (block_Hash b) in
      let! hs := blockHashes bs in
      Ret (h :: hs)
  end.

(** [handleGetBlockHashesRequestMsg] *)
Definition handleGetBlockHashesRequestMsg (msg : Msg) (from : ref) : M (option error) :=
  match Decode (A:=GetBlockHashesRequestMsg) (msg_Payload msg) with
  | Err err => M_ret (Some (CoreError ErrorSyncFailed (Error_string err)))
  | Ok request =>
      do! (blocks, _) := M_query (en_Descendents (rq_ParentHash request) (to_int (Uint64 (rq_MaxBlocks request)))) in
      if decide (length blocks < 1)%nat then Send from GetBlockHashesRewind (BytesToByte64 [])
      else
        do! hashes := M_lift (blockHashes blocks) in
        Send from GetBlockHashesResponse hashes
  end.

(** [handleGetBlockHashesResponseMsg] *)
Definition handleGetBlockHashesResponseMsg (msg : Msg) (from : ref) : M (option error) :=
  match Decode (A:=list Byte64) (msg_Payload msg) with
  | Err err =>
      run! signal from CHAN_ERROR in
      M_ret (Some (CoreError ErrorSyncFailed (Error_string err)))
  | Ok hashes =>
      if decide (length hashes < 1)%nat then
        run! signal from CHAN_DONE in
        M_ret None
      else
        do! err := Send from GetBlocksRequest hashes in
        match err with
        | Some err =>
            run! signal from CHAN_ABORT in
            M_ret (Some (CoreError ErrorSyncFailed (Error_string err)))
        | None => M_ret None
        end
  end.

(** One round of [func (mgr *platformManager) listen(peer *peerNode) error]:
    [Some] error ends the loop.  [read] is what reading from the connection
    gives. *)
Definition listen (e : env) (read : result Msg) (peer : ref) : M (option error) :=
  match read with
  | Err err => M_ret (Some err)
  | Ok msg =>
      if decide (msg_Code msg = GetBlockHashesRequest) then handleGetBlockHashesRequestMsg msg peer
      else if decide (msg_Code msg = GetBlockHashesResponse) then handleGetBlockHashesResponseMsg msg peer
      else if decide (msg_Code msg = GetBlockHashesRewind) then handleGetBlockHashesRewindMsg msg peer
      else if decide (msg_Code msg = GetBlocksRequest) then handleGetBlocksRequestMsg msg peer
      else if decide (msg_Code msg = GetBlocksResponse) then handleGetBlocksResponseMsg e msg peer
      else if decide (msg_Code msg = NewBlock) then handleNewBlockMsg e msg peer
      else M_ret (Some (CoreError ErrorUnknownMessageType "unknown protocol message recieved"))
  end.
(** *** Connecting *)

(** [registerPeer]; registering in the peer data base never fails. *)
Definition registerPeer (peer : ref) (hs : HandshakeMsg) (peerConf : AppConfig) : M (option error) :=
  do! h := M_gets heap in
  do! ps := M_gets peerDb in
  do! (ps, err) := M_lift (RegisterPeerNode h peer ps) in
  match err with
  | Some err => M_ret (Some err)
  | None =>
      run! M_modify (set_peerDb ps) in
      do! n := M_peer peer in
      run! M_setPeer peer (SetStatus hs n) in
      run! M_modify (λ m, set_peers (<[pn_Id n := peerConf]> (mgr_peers m)) (peerCount m + 1) m) in
      M_ret None
  end.

(** [unregisterPeer] *)
Definition unregisterPeer (peer : ref) : M unit :=
  do! n := M_peer peer in
  run! M_modify (λ m, set_peerDb (UnRegisterPeerNodeForId (pn_Id n) (peerDb m)).1 m) in
  M_modify (λ m, set_peers (delete (pn_Id n) (mgr_peers m)) (peerCount m - 1) m).

(** [validateAndAdd] *)
Definition validateAndAdd (hs : HandshakeMsg) (peer : ref) : M (option error) :=
  do! cfg := M_gets config in
  if decide (hs_NetworkId hs ≠ ac_NetworkId (cf_App cfg)) then
    M_ret (Some (CoreError ErrorHandshakeFailed "network ID does not match"))
  else
    do! genesis := M_lift (deref (cf_genesis cfg)) in
    if decide (hs_Genesis hs ≠ genesis) then
      M_ret (Some (CoreError ErrorHandshakeFailed "genesis does not match"))
    else
      do! n := M_peer peer in
      let peerConf := MkApp (hs_NetworkId hs) (x04 :: pn_NodeId n) (pn_Name n) (hs_ProtocolId hs) in
      do! validator := M_lift (deref (sc_PeerValidator (cf_Service cfg))) in
      match validator peerConf with
      | Some err => M_ret (Some err)
      | None => registerPeer peer hs peerConf
      end.

(** [getHandshakeMsg] *)
Definition getHandshakeMsg (best : block W) : M HandshakeMsg :=
  do! cfg := M_gets config in
  do! genesis := M_lift (deref (cf_genesis cfg)) in
  M_ret (MkHandshake (ac_NetworkId (cf_App cfg)) genesis (ac_ProtocolId (cf_App cfg))
           (Weight best) (Uint64ToByte8 (Numeric best))).

(** [handshake]; [read] is what reading gives within the time limit. *)
Definition handshake (status : HandshakeMsg) (read : result Msg) (peer : ref) : M (option error) :=
  do! err := Send peer Handshake status in
  match err with
  | Some err => M_ret (Some (CoreError ErrorHandshakeFailed (Error_string err)))
  | None =>
      match read with
      | Err err => M_ret (Some err)
      | Ok msg =>
          if decide (msg_Code msg ≠ Handshake) then
            M_ret (Some (CoreError ErrorHandshakeFailed "first message needs to be handshake status"))
          else
            match Decode (A:=HandshakeMsg) (msg_Payload msg) with
            | Err err => M_ret (Some (CoreError ErrorHandshakeFailed (Error_string err)))
            | Ok hs => validateAndAdd hs peer
            end
      end
  end.

(** The beginning of [Run] of [protocol], up to the handshake: our best block,
    and the error that ends it.  [peer] is the address of the new node. *)
Definition connect (peer : ref) (nodeId id name : bytes) (read : result Msg) : M (block W * option error) :=
  run! M_setPeer peer (NewPeerNode nodeId id name) in
  do! best := M_engine en_BestBlock in
  do! best := M_lift (deref best) in
  do! status := getHandshakeMsg best in
  do! err := handshake status read peer in
  M_ret (best, err).

(** The deferred function of [Run], when [listen] has returned *)
Definition disconnected (peer : ref) : M unit :=
  run! unregisterPeer peer in
  do! n := M_peer peer in
  do! c1 := M_lift (chan_close (pn_GetBlockHashesChan n)) in
  do! c2 := M_lift (chan_close (pn_GetBlocksChan n)) in
  M_setPeer peer (set_pn_chans c1 c2 n).

(** *** Synchronization *)

(** [func isSyncNeeded(best consensus.Block, node *peerNode) bool] *)
Definition isSyncNeeded (best : block W) (node : peerNode) : outcome bool :=
  let! status := deref (pn_status node) in
  Ret (bool_decide (Uint64 (hs_TotalWeight status) > Uint64 (Weight best)) ||
       (bool_decide (Uint64 (hs_TotalWeight status) = Uint64 (Weight best)) &&
        bool_decide (Uint64 (hs_TipNumeric status) < Numeric best))).

(** The loop of [syncNode], up to where it waits *)
Definition syncRequest (node : ref) : M syncState :=
  do! running := M_gets isRunning in
  do! r := (if running : bool then Suspend else M_ret (Returned None)) in
  match r with
  | Blocked => M_ret SyncBlocked
  | Returned _ =>
      do! n := M_peer node in
      do! last := M_lift (deref (pn_LastHash n)) in
      do! err := Send node GetBlockHashesRequest (MkHashesRequest last (Uint64ToByte8 sync_maxBlocks)) in
      match err with
      | Some err => M_ret (SyncReturned (Some (CoreError ErrorSyncFailed (Error_string err))))
      | None => M_ret SyncWaiting
      end
  end.

(** The loop of [syncNode] that announces the uncles of our next block *)
Fixpoint announceUncles (e : env) (uncles : list Byte64) (node : ref) : M (option error) :=
  match uncles with
  | [] => M_ret None
  | u :: uncles =>
      do! r := M_engine (en_Block u) in
      match r with
      | Err err => M_ret (Some err)
      | Ok b =>
          do! p := M_alloc in
          run! markKnown e node p in
          do! _ := Send node NewBlock (Spec b) in
          announceUncles e uncles node
      end
  end.

(** The end of [syncNode] *)
Definition syncFinish (e : env) (node : ref) : M syncState :=
  do! b := M_engine (en_NewCandidateBlock (e_now e)) in
  do! b := M_lift (deref b) in
  do! err := announceUncles e (Uncles b) node in
  match err with
  | Some err => M_ret (SyncReturned (Some err))
  | None =>
      do! running := M_gets isRunning in
      run! (if negb running then (do! _ := Start in M_ret tt) else M_ret tt) in
      M_ret (SyncReturned None)
  end.

(** [func (mgr *platformManager) syncNode(best consensus.Block, node *peerNode) error],
    up to where it first waits *)
Definition syncNode (best : block W) (node : ref) : M syncState :=
  run! setLastHash node (block_Hash best) in
  do! n := M_peer node in
  do! needed := M_lift (isSyncNeeded best n) in
  if negb needed then M_ret (SyncReturned None) else syncRequest node.

(** [syncNode] from where it waits for an answer to where it waits again *)
Definition syncResume (e : env) (node : ref) : M syncState :=
  do! n := M_peer node in
  match chan_recv (pn_GetBlockHashesChan n) with
  | None => M_ret SyncWaiting
  | Some (x, ch) =>
      run! M_setPeer node (set_pn_chans ch (pn_GetBlocksChan n) n) in
      if decide (x = CHAN_ERROR) then
        M_ret (SyncReturned (Some (CoreError ErrorSyncFailed "error processing sync protocol")))
      else if decide (x = CHAN_ABORT) then
        M_ret (SyncReturned (Some (CoreError ErrorSyncFailed "sync protocol aborted")))
      else if decide (x = CHAN_DONE) then M_ret (SyncReturned None)
      else
        do! best := M_engine en_BestBlock in
        do! best := M_lift (deref best) in
        do! n := M_peer node in
        do! needed := M_lift (isSyncNeeded best n) in
        if needed : bool then syncRequest node else syncFinish e node
  end.

(** *** Producing blocks *)

(** [func (mgr *platformManager) mineCandidateBlock(newBlock consensus.Block) bool];
    the block is changed by mining. *)
Definition mgr_mineCandidateBlock (e : env) (b : block W) : M (block W * bool) :=
  do! cfg := M_gets config in
  do! (b, r) := M_engine (λ c, let! (c, b, r) := en_MineCandidateBlockPoW b (sc_PowApprover (cf_Service cfg)) c in
                               Ret (c, (b, r))) in
  match r with
  | Err _ => M_ret (b, false)
  | Ok _ =>
      do! p := M_alloc in
      do! _ := broadcast e p b in
      M_ret (b, true)
  end.

(** Mining the block of the producer; if that fails, its transactions are
    dead. *)
Definition mineOrBury (e : env) (b : block W) : M unit :=
  do! (b, ok) := mgr_mineCandidateBlock e b in
  if ok : bool then M_ret tt
  else M_modify (λ m, set_deadTxs (fold_left (λ s tx, {[Transaction_Id tx]} ∪ s) (Transactions b) (deadTxs m)) m).

Definition setProducer (p : producer W) : M unit :=
  M_modify (λ m, set_blockProducer (Some p) (isRunning m) m).

(** The producer's block, or a new candidate block with the reward
    transaction; adding that again is refused. *)
Definition openBlock (e : env) (p : producer W) : M (block W) :=
  match pr_newBlock p with
  | Some b => M_ret b
  | None =>
      do! b := M_engine (en_NewCandidateBlock (e_now e)) in
      do! b := M_lift (deref b) in
      do! t := M_gets trustee in
      do! d := M_gets (λ m, en_db (engine m)) in
      do! (b, tx) := M_lift (NewMiningRewardTx (e_params e) (e_rewardNow e) (e_rand e) t b d) in
      do! tx := M_lift (deref tx) in
      do! (b, _) := M_lift (AddTransaction tx b d) in
      M_ret b
  end.

(** [case tx := <- mgr.txQ] of [blockProducer] *)
Definition produceTx (e : env) (tx : Transaction) (p : producer W) : M unit :=
  do! b := openBlock e p in
  do! (b, ok) := processTx tx b in
  if ok : bool then
    do! d := M_gets (λ m, en_db (engine m)) in
    do! (b, _) := M_lift (AddTransaction tx b d) in
    let txCount := pr_txCount p + 1 in
    if decide (txCount = maxTxCount) then
      run! mineOrBury e b in
      setProducer (Producer W None 0 maxTxWait)
    else setProducer (Producer W (Some b) txCount shortWait)
  else
    run! M_modify (λ m, set_deadTxs ({[Transaction_Id tx]} ∪ deadTxs m) m) in
    setProducer (Producer W (Some b) (pr_txCount p) (pr_wait p)).

(** [case <- wait.C] of [blockProducer] *)
Definition produceTimeout (e : env) (p : producer W) : M unit :=
  run! match pr_newBlock p with
       | Some b => if decide (1 < length (Transactions b))%nat then mineOrBury e b else M_ret tt
       | None => M_ret tt
       end in
  setProducer (Producer W None 0 maxTxWait).

(** A round of [blockProducer] that takes the first transaction of the queue
    ([timeout = false]) or is woken up by the timer; [false] when there is
    nothing to do *)
Definition produce (e : env) (timeout : bool) : M bool := λ m,
  match blockProducer m with
  | None => Ret (m, false)
  | Some p =>
      if timeout then let! (m, _) := produceTimeout e p m in Ret (m, true)
      else
        match txQ m with
        | [] => Ret (m, false)
        | tx :: q => let! (m, _) := produceTx e tx p (set_txQ q m) in Ret (m, true)
        end
  end.
End manager.
