(* ===== verification/PlatformFacts.v ===== *)
(** * Facts about the platform manager

    A weakest-precondition calculus for calls with the manager as state, the
    invariant of the manager, and that every call preserves it. *)

From Stdlib Require Import Strings.Byte.
From S2P Require Import Prelude Bytes Db WorldStateI Block BlockFacts Consensus Trustee TrusteeFacts.
From S2P Require Import Peers PeersTheorems Platform.

(** ** What filling a block leaves alone *)

Section filling.
Context {D W : Type} {wso : WorldState W D} {sha : Sha512}.
Implicit Types (b : block W) (d : D).

Lemma Credit_same a x b d b' : Credit a x b d = Ret b' → same_block b b'.
Proof.
  unfold Credit, lookupBytes. rewrite outcome_bind_ret. intros ([b1 v] & Hl & [= <-]).
  apply outcome_bind_ret in Hl as ([b2 r] & [m ->]%block_Lookup_fields & [= <- _]). by eexists.
Qed.

Lemma processUncles_same order us ops b d b' ok :
  processUncles order us ops b d = Ret (b', ok) → same_block b b'.
Proof.
  revert ops b. induction us as [|u us IH]; intros ops b; cbn [processUncles]; [intros [= <- _]; reflexivity|].
  destruct ops as [|op ops]; [done|]. destruct (scan_ok _); [|intros [= <- _]; reflexivity].
  rewrite outcome_bind_ret. intros (b1 & H1%Credit_same & H2). etrans; [exact H1 | by eapply IH].
Qed.

Lemma process_same `{Codec (list Op)} order tx b d b' ok :
  process order tx b d = Ret (b', ok) → same_block b b'.
Proof.
  unfold process. destruct (Deserialize _) as [ops|]; [|intros [= <- _]; reflexivity].
  case_decide; [intros [= <- _]; reflexivity|]. destruct ops as [|op ops]; [done|].
  destruct (scan_ok _); [|intros [= <- _]; reflexivity].
  rewrite outcome_bind_ret. intros (b1 & H1%Credit_same & H2%processUncles_same). by etrans.
Qed.

Lemma runApp_same p : ∀ (tx : NetTransaction W) d tx' ok,
  runApp p tx d = Ret (tx', ok) → same_block (nt_block tx) (nt_block tx').
Proof.
  induction p as [ok0|key k IH|key value k IH|key k IH]; intros tx d tx' ok; cbn [runApp].
  - intros [= <- _]. reflexivity.
  - rewrite outcome_bind_ret. intros ([tx1 r] & Hl & Hr%IH). unfold tx_Lookup in Hl.
    apply outcome_bind_ret in Hl as ([b1 r1] & [m Hm]%block_Lookup_fields & [= <- _]).
    etrans; [|exact Hr]. by exists m.
  - intros Hr%IH. etrans; [|exact Hr]. by eexists.
  - intros Hr%IH. etrans; [|exact Hr]. by eexists.
Qed.

Lemma same_block_spec b b' : same_block b b' → spec b' = spec b ∧ transactions b' = transactions b.
Proof. by intros [m ->]. Qed.

Lemma AddTransaction_length tx b d b' e :
  AddTransaction tx b d = Ret (b', e) →
  (e = None ∧ Transactions b' = Transactions b ++ [tx]) ∨ (e ≠ None ∧ b' = b).
Proof.
  unfold AddTransaction. rewrite outcome_bind_ret. intros (w & _ & Ha).
  destruct (ws_HasTransaction _ _ _); [injection Ha as <- <-; by right|].
  case_decide; injection Ha as <- <-; [by right | by left].
Qed.

(** A transaction is refused the second time, also when the block was
    written to in between. *)
Lemma AddTransaction_again tx b b1 b2 d e b3 e' :
  AddTransaction tx b d = Ret (b1, e) → same_block b1 b2 → AddTransaction tx b2 d = Ret (b3, e') → b3 = b2.
Proof.
  intros Ha Hs. unfold AddTransaction in *. apply outcome_bind_ret in Ha as (w & Hw & Ha).
  assert (worldState b2 = Some w ∧ (is_ok (ws_HasTransaction w (Transaction_Id tx) d) = true ∨ Transaction_Id tx ∈ transactions b2)) as [Hw2 Hin].
  { destruct (worldState b) as [w0|] eqn:Ew; [|done]. injection Hw as ->.
    rewrite (same_block_state b1 b2) by done. destruct (same_block_spec b1 b2 Hs) as [_ ->].
    destruct (ws_HasTransaction w (Transaction_Id tx) d); [injection Ha as <- _; split; [done | by left]|].
    case_decide; injection Ha as <- _; (split; [done|right]); [done|]. cbn. set_solver. }
  rewrite Hw2. cbn [deref outcome_bind]. destruct (ws_HasTransaction w (Transaction_Id tx) d); [by intros [= <- _]|].
  destruct Hin as [?|Hin]; [done|]. rewrite decide_True by done. by intros [= <- _].
Qed.

Lemma NewMiningRewardTx_length `{Ecdsa, Codec (list Op), Codec signature} order now rand t b d b1 tx b2 e :
  Transactions b = [] → NewMiningRewardTx order now rand t b d = Ret (b1, Some tx) →
  AddTransaction tx b1 d = Ret (b2, e) → b2 = b1 ∧ (length (Transactions b1) ≤ 1)%nat.
Proof.
  intros Hb. unfold NewMiningRewardTx. rewrite outcome_bind_ret. intros (ops & _ & Hn).
  destruct (Serialize _) as [payload|]; [|done]. case_decide; [|done].
  apply outcome_bind_ret in Hn as ([b0 e0] & Ha & Hn).
  apply outcome_bind_ret in Hn as ([b0' ok] & Hp%process_same & [= <- <-]).
  intros Hagain. split; [exact (AddTransaction_again _ _ _ _ _ _ _ _ Ha Hp Hagain)|].
  unfold Transactions. destruct (same_block_spec _ _ Hp) as [-> _].
  apply AddTransaction_length in Ha as [[_ Ha]|[_ ->]]; unfold Transactions in *; rewrite ?Ha, Hb; simpl; lia.
Qed.
End filling.

(** ** The interface of the engine *)

(** A new candidate block is empty and has a world state. *)
Definition fresh_block {W} (b : block W) : Prop :=
  Transactions b = [] ∧ transactions b = ∅ ∧ variables b = ∅ ∧ is_Some (worldState b).

(** What the platform relies on. *)
Class EngineLaws (C D W : Type) `{Engine C D W} := {
  en_candidate_fresh now c c' b : en_NewCandidateBlock now c = Ret (c', Some b) → fresh_block b;
}.

Section chain_laws.
Context {D W : Type} {dbo : Database D} {wso : WorldState W D} {sha : Sha512}.
Context {cdn : Codec chainNode} {cds : Codec BlockSpec} {rls : Rlp BlockSpec}.
Context (fuel attempts : nat) (range : ranger) (now : Z).

Lemma addUncles_fresh us (b b' : block W) : addUncles us b = Ret b' → fresh_block b → fresh_block b'.
Proof.
  revert b. induction us as [|u us IH]; intros b; cbn [addUncles]; [by intros [= <-]|].
  rewrite outcome_bind_ret. intros (b1 & Hu & Hr) Hb. eapply IH; [exact Hr|]. unfold addUncle in Hu.
  apply outcome_bind_ret in Hu as (h & _ & [= <-]). exact Hb.
Qed.

#[global] Instance chain_engine_laws :
  @EngineLaws (BlockChainConsensus W * D) D W (chain_engine fuel attempts range now).
Proof.
  split. intros n c c' b. cbn. unfold on_db. rewrite outcome_bind_ret. intros ([d ob] & Hc & [= <- ->]).
  unfold NewCandidateBlock in Hc. destruct (ws_New _) as [d1 w]. destruct w as [w|]; [|done]. cbn [deref outcome_bind] in Hc.
  apply outcome_bind_ret in Hc as (cw & _ & Hc). destruct (ws_Rebase _ _ _) as [[d2 w2] [e|]]; [done|].
  apply outcome_bind_ret in Hc as (h & _ & Hc). apply outcome_bind_ret in Hc as (us & _ & Hc).
  apply outcome_bind_ret in Hc as (b1 & Hu & [= _ <-]). eapply addUncles_fresh; [exact Hu|].
  by repeat split; [..|eexists].
Qed.
End chain_laws.

(** ** Weakest preconditions *)

Section logic.
Context {C D W : Type} {wso : WorldState W D} {eng : Engine C D W} {sha : Sha512} {ec : Ecdsa}.
Context {cop : Codec (list Op)} {csg : Codec signature}.
Context {rls : Rlp BlockSpec} {rlss : Rlp (list BlockSpec)} {rlh : Rlp Byte64} {rlhs : Rlp (list Byte64)}.
Context {rlhm : Rlp HandshakeMsg} {rlrq : Rlp GetBlockHashesRequestMsg}.
Context (net : list (ref * Msg) → ref → Msg → option error).
Abbreviation mgr := (platformManager C W).
Abbreviation M := (@M C W ec).
Implicit Types (m : mgr).

(** [Q] holds of every value and state that [x] returns from [m]. *)
Definition wp {A} (x : M A) (Q : A → mgr → Prop) m : Prop :=
  ∀ m' a, x m = Ret (m', a) → Q a m'.

Lemma wp_mono {A} (x : M A) (Q Q' : A → mgr → Prop) m :
  wp x Q m → (∀ a m', Q a m' → Q' a m') → wp x Q' m.
Proof. intros Hx HQ m' a H. by apply HQ, Hx. Qed.

(** Running a call whose first step is known. *)
Lemma run_bind {A B} (x : M A) (f : A → M B) m m1 a : x m = Ret (m1, a) → M_bind f x m = f a m1.
Proof. intros Hx. unfold M_bind. by rewrite Hx. Qed.

Lemma run_markKnown e r p m n :
  heap m !! r = Some n → markKnown e r p m = Ret (set_heap (<[r := AddTx (e_pick e) (ItemPtr p) n]> (heap m)) m, tt).
Proof. intros Hn. unfold markKnown, M_bind, M_peer. by rewrite Hn. Qed.

Lemma wp_ret {A} (a : A) (Q : A → mgr → Prop) m : Q a m → wp (M_ret a) Q m.
Proof. by intros HQ m' a' [= <- <-]. Qed.

Lemma wp_bind {A B} (x : M A) (f : A → M B) (Q : B → mgr → Prop) m :
  wp x (λ a m1, wp (f a) Q m1) m → wp (M_bind f x) Q m.
Proof.
  intros Hx m' b. unfold M_bind. rewrite outcome_bind_ret. intros ([m1 a] & H1 & H2).
  by apply (Hx m1 a).
Qed.

Lemma wp_lift {A} (o : outcome A) (Q : A → mgr → Prop) m : (∀ a, o = Ret a → Q a m) → wp (M_lift o) Q m.
Proof. intros HQ m' a. unfold M_lift. rewrite outcome_bind_ret. intros (a' & Ho & [= <- <-]). by apply HQ. Qed.

Lemma wp_gets {A} (f : mgr → A) (Q : A → mgr → Prop) m : Q (f m) m → wp (M_gets f) Q m.
Proof. by intros HQ m' a [= <- <-]. Qed.

Lemma wp_modify (f : mgr → mgr) (Q : unit → mgr → Prop) m : Q tt (f m) → wp (M_modify f) Q m.
Proof. by intros HQ m' a [= <- <-]. Qed.

Lemma wp_engine {A} (f : C → outcome (C * A)) (Q : A → mgr → Prop) m :
  (∀ c a, f (engine m) = Ret (c, a) → Q a (set_engine c m)) → wp (M_engine f) Q m.
Proof. intros HQ m' a. unfold M_engine. rewrite outcome_bind_ret. intros ([c a'] & Ho & [= <- <-]). by apply HQ. Qed.

Lemma wp_query {A} (f : C → outcome A) (Q : A → mgr → Prop) m :
  (∀ a, f (engine m) = Ret a → Q a m) → wp (M_query f) Q m.
Proof. intros HQ m' a. unfold M_query. rewrite outcome_bind_ret. intros (a' & Ho & [= <- <-]). by apply HQ. Qed.

Lemma wp_peer r (Q : peerNode → mgr → Prop) m :
  (∀ n, heap m !! r = Some n → Q n m) → wp (M_peer r) Q m.
Proof.
  intros HQ m' a. unfold M_peer. rewrite outcome_bind_ret. intros (n & Hn & [= <- <-]).
  apply HQ. by destruct (heap m !! r); [injection Hn as ->|].
Qed.

Lemma wp_Send {A} `{Rlp A} to code (data : A) (Q : option error → mgr → Prop) m :
  (∀ err, Q (Some err) m) →
  (∀ payload, Encode data = Ok payload → Q None (set_sent (sent m ++ [(to, MkMsg code payload)]) m)) →
  wp (Send net to code data) Q m.
Proof.
  intros He Hs m' a. unfold Send. destruct (Encode data) as [payload|err] eqn:E; [|by intros [= <- <-]].
  destruct (net _ _ _); [by intros [= <- <-]|]. intros [= <- <-]. by apply Hs.
Qed.

Lemma wp_if {A} (c : bool) (x y : M A) (Q : A → mgr → Prop) m :
  (c = true → wp x Q m) → (c = false → wp y Q m) → wp (if c then x else y) Q m.
Proof. destruct c; auto. Qed.

Lemma wp_decide {A} P `{Decision P} (x y : M A) (Q : A → mgr → Prop) m :
  (P → wp x Q m) → (¬ P → wp y Q m) → wp (if decide P then x else y) Q m.
Proof. case_decide; auto. Qed.
End logic.

(** Takes the next step of a call. *)
Ltac wp_step :=
  lazymatch goal with
  | |- wp (M_bind _ _) _ _ => apply wp_bind
  | |- wp (M_ret _) _ _ => apply wp_ret
  | |- wp (M_lift _) _ _ => apply wp_lift; intros ??
  | |- wp (M_gets _) _ _ => apply wp_gets
  | |- wp (M_modify _) _ _ => apply wp_modify
  | |- wp (M_setPeer _ _) _ _ => apply wp_modify
  | |- wp (M_engine _) _ _ => apply wp_engine; intros ???
  | |- wp (M_query _) _ _ => apply wp_query; intros ??
  | |- wp (M_peer _) _ _ => apply wp_peer; intros ??
  | |- wp (Send _ _ _ _) _ _ => apply wp_Send; [intros ?|intros ??]
  | |- wp (if decide _ then _ else _) _ _ => apply wp_decide; intros ?
  | |- wp (if _ then _ else _) _ _ => apply wp_if; intros ?
  | |- wp (match ?x with _ => _ end) _ _ => destruct x eqn:?
  | |- wp (let '(_, _) := ?x in _) _ _ => destruct x eqn:?
  | |- wp ((λ _, _) _) _ _ => progress cbv beta
  | |- (let '(_, _) := ?x in _) _ => destruct x eqn:?
  end.

(** ** The invariant *)

Section invariant.
Context {C D W : Type} {wso : WorldState W D} {eng : Engine C D W} {engl : EngineLaws C D W} {sha : Sha512} {ec : Ecdsa}.
Context {cop : Codec (list Op)} {csg : Codec signature}.
Context {rls : Rlp BlockSpec} {rlss : Rlp (list BlockSpec)} {rlh : Rlp Byte64} {rlhs : Rlp (list Byte64)}.
Context {rlhm : Rlp HandshakeMsg} {rlrq : Rlp GetBlockHashesRequestMsg}.
Context {rlsl : RlpLaws BlockSpec} {rlssl : RlpLaws (list BlockSpec)} {rlhl : RlpLaws Byte64} {rlhsl : RlpLaws (list Byte64)}.
Context {rlhml : RlpLaws HandshakeMsg} {rlrql : RlpLaws GetBlockHashesRequestMsg}.
Context (net : list (ref * Msg) → ref → Msg → option error).
Abbreviation mgr := (platformManager C W).
Abbreviation M := (@M C W ec).
Implicit Types (m : mgr) (e : env).

Definition decodes (A : Type) `{Rlp A} (msg : Msg) : Prop := ∃ x : A, Decode (msg_Payload msg) = Ok x.

(** The payload of a message is of the type that belongs to its code. *)
Definition typed (msg : Msg) : Prop :=
  (msg_Code msg = Handshake ∧ decodes HandshakeMsg msg) ∨
  (msg_Code msg = GetBlockHashesRequest ∧ decodes GetBlockHashesRequestMsg msg) ∨
  (msg_Code msg = GetBlockHashesResponse ∧ decodes (list Byte64) msg) ∨
  (msg_Code msg = GetBlockHashesRewind ∧ decodes Byte64 msg) ∨
  (msg_Code msg = GetBlocksRequest ∧ decodes (list Byte64) msg) ∨
  (msg_Code msg = GetBlocksResponse ∧ decodes (list BlockSpec) msg) ∨
  (msg_Code msg = NewBlock ∧ decodes BlockSpec msg).

Lemma decodes_encode {A} `{RlpLaws A} (x : A) code payload : Encode x = Ok payload → decodes A (MkMsg code payload).
Proof. intros Hx. exists x. by apply decode_encode. Qed.

(** The candidate block of the producer has at most its reward transaction
    and the counted ones; when it has one to mine, the timer is short. *)
Definition producer_ok (p : producer W) : Prop :=
  0 ≤ pr_txCount p < maxTxCount ∧
  match pr_newBlock p with
  | None => pr_txCount p = 0
  | Some b => Z.of_nat (length (Transactions b)) ≤ 1 + pr_txCount p
  end ∧
  (0 < pr_txCount p → pr_wait p = shortWait).

(** A peer knows few items, and no address that was not given out. *)
Definition peer_ok (next : N) (n : peerNode) : Prop :=
  set_Size (pn_knownTxs n) ≤ maxKnownTxs ∧ ∀ a, ItemPtr a ∈ pn_knownTxs n → (a < next)%N.

Record plat_inv m : Prop := {
  pi_nodes id r : ps_nodes (peerDb m) !! id = Some r → ∃ n, heap m !! r = Some n ∧ pn_Id n = id;
  pi_known r n : heap m !! r = Some n → peer_ok (nextPtr m) n;
  pi_running : isRunning m = true ↔ is_Some (blockProducer m);
  pi_producer p : blockProducer m = Some p → producer_ok p;
  pi_sent : Forall (λ x, typed x.2) (sent m);
  pi_queue : (length (txQ m) ≤ txQueueSize)%nat;
}.

(** The environment of a call chooses and orders what is there. *)
Definition env_ok e : Prop := is_picker (e_pick e) ∧ is_node_order (e_nodes e) ∧ is_order (e_params e).

(** The invariant, with [k] addresses given out and the producer that of [m0]. *)
Definition quiet (k : N) (m0 m : mgr) : Prop :=
  plat_inv m ∧ (k ≤ nextPtr m)%N ∧ blockProducer m = blockProducer m0 ∧ isRunning m = isRunning m0.

Definition keeps {A} (I : mgr → Prop) (x : M A) : Prop := ∀ m, I m → wp x (λ _, I) m.

Lemma quiet_start m : plat_inv m → quiet 0 m m.
Proof. intros Hm. split; [done|]. split; [lia | done]. Qed.

Lemma quiet_engine k m0 m c : quiet k m0 m → quiet k m0 (set_engine c m).
Proof. intros ([] & Hq). split; [by split|done]. Qed.

Lemma quiet_dead k m0 m s : quiet k m0 m → quiet k m0 (set_deadTxs s m).
Proof. intros ([] & Hq). split; [by split|done]. Qed.

Lemma quiet_history k m0 m s : quiet k m0 m → quiet k m0 (set_peerDb (PeerSetDb (ps_nodes (peerDb m)) s) m).
Proof. intros ([] & Hq). split; [by split|done]. Qed.

Lemma quiet_sent k m0 m to msg : quiet k m0 m → typed msg → quiet k m0 (set_sent (sent m ++ [(to, msg)]) m).
Proof.
  intros ([] & Hq) Ht. split; [|done]. split; try done. apply Forall_app. split; [done|]. by apply Forall_singleton.
Qed.

(** Changing a peer that keeps its identity. *)
Lemma quiet_peer k m0 m r n n' :
  quiet k m0 m → heap m !! r = Some n → pn_Id n' = pn_Id n → peer_ok (nextPtr m) n' →
  quiet k m0 (set_heap (<[r := n']> (heap m)) m).
Proof.
  intros ([Hnodes Hknown ? ? ? ?] & Hq) Hn Hid Hok. split; [|done]. split; try done.
  - intros id r' Hr. cbn [heap set_heap]. destruct (decide (r = r')) as [<-|Hne].
    + exists n'. rewrite lookup_insert_eq. split; [done|]. destruct (Hnodes id r Hr) as (n1 & Hn1 & <-). congruence.
    + rewrite lookup_insert_ne by done. by apply Hnodes.
  - intros r' n1. cbn [heap set_heap nextPtr]. intros [[<- <-]|[_ Hn1]]%lookup_insert_Some; [done | by eapply Hknown].
Qed.

(** Changing a peer but for its known transactions. *)
Lemma quiet_peer_same k m0 m r n n' :
  quiet k m0 m → heap m !! r = Some n → pn_Id n' = pn_Id n → pn_knownTxs n' = pn_knownTxs n →
  quiet k m0 (set_heap (<[r := n']> (heap m)) m).
Proof.
  intros Hq Hn Hid Hkn. eapply quiet_peer; [done..|]. unfold peer_ok. rewrite Hkn. destruct Hq as [[_ Hknown _ _ _ _] _]. exact (Hknown r n Hn).
Qed.

Lemma keeps_weaken {A} k k' m0 (x : M A) m :
  (k ≤ k')%N → quiet k' m0 m → keeps (quiet k' m0) x → wp x (λ _, quiet k m0) m.
Proof.
  intros Hk Hm Hx. eapply wp_mono; [by apply Hx|]. intros a m' (? & ? & ?). split; [done|]. split; [lia | done].
Qed.

Lemma keeps_bind {A B} I (x : M A) (f : A → M B) : keeps I x → (∀ a, keeps I (f a)) → keeps I (M_bind f x).
Proof. intros Hx Hf m Hm. apply wp_bind. eapply wp_mono; [by apply Hx|]. intros a m' Hm'. by apply Hf. Qed.

Lemma keeps_ret {A} I (a : A) : keeps I (M_ret a).
Proof. intros m Hm. by apply wp_ret. Qed.
Lemma keeps_lift {A} I (o : outcome A) : keeps I (M_lift o).
Proof. intros m Hm. by apply wp_lift. Qed.
Lemma keeps_gets {A} I (f : mgr → A) : keeps I (M_gets f).
Proof. intros m Hm. by apply wp_gets. Qed.
Lemma keeps_query {A} I (f : C → outcome A) : keeps I (M_query f).
Proof. intros m Hm. by apply wp_query. Qed.
Lemma keeps_peer I r : keeps I (M_peer r).
Proof. intros m Hm. by apply wp_peer. Qed.
Lemma keeps_engine {A} k m0 (f : C → outcome (C * A)) : keeps (quiet k m0) (M_engine f).
Proof. intros m Hm. apply wp_engine. intros. by apply quiet_engine. Qed.

Lemma keeps_Send {A} `{Rlp A} k m0 to code (x : A) :
  (∀ payload, Encode x = Ok payload → typed (MkMsg code payload)) → keeps (quiet k m0) (Send net to code x).
Proof. intros Ht m Hm. apply wp_Send; [done|]. intros payload Hp. by apply quiet_sent; [|apply Ht]. Qed.

Lemma keeps_markKnown k m0 e r p : env_ok e → (p < k)%N → keeps (quiet k m0) (markKnown e r p).
Proof.
  intros [Hpick _] Hp m Hm. unfold markKnown. apply wp_bind, wp_peer. intros n Hn. wp_step.
  assert (Hok : peer_ok (nextPtr m) n) by (destruct Hm as [[] _]; eauto). destruct Hok as [Hsize Hptr].
  destruct (AddTx_spec (e_pick e) (ItemPtr p) n Hpick Hsize) as (_ & Hsub & Hmax & _).
  eapply quiet_peer; [done..|]. split; [done|]. intros q Hq. apply Hsub in Hq.
  destruct Hm as (_ & Hk & _). apply elem_of_union in Hq as [[= ->]%elem_of_singleton|Hq]; [lia | by apply Hptr].
Qed.

Lemma keeps_signal k m0 r x : keeps (quiet k m0) (signal r x).
Proof. intros m Hm. unfold signal. repeat wp_step. by eapply quiet_peer_same. Qed.

Lemma keeps_setLastHash k m0 r h : keeps (quiet k m0) (setLastHash r h).
Proof. intros m Hm. unfold setLastHash. repeat wp_step. by eapply quiet_peer_same. Qed.

Lemma quiet_seen k m0 m h : quiet k m0 m → quiet k m0 (set_peerDb (HaveISeenIt h (peerDb m)).1 m).
Proof.
  intros Hm. destruct (HaveISeenIt_spec h (peerDb m)) as (_ & _ & Hn).
  destruct (HaveISeenIt h (peerDb m)).1 as [nodes hist]. cbn in Hn. subst nodes. by apply quiet_history.
Qed.

(** A new address is above those given out. *)
Lemma quiet_alloc k m0 m :
  quiet k m0 m → quiet (N.succ (nextPtr m)) m0 (set_nextPtr (N.succ (nextPtr m)) m) ∧ (k ≤ N.succ (nextPtr m))%N.
Proof.
  intros ([Hn Hknown ? ? ? ?] & Hk & Hq). split; [|lia]. split; [|split; [cbn; lia | done]]. split; try done.
  cbn. intros r n Hr. destruct (Hknown r n Hr) as [Hs Hp]. split; [done|]. intros a Ha. specialize (Hp a Ha). lia.
Qed.

(** What follows the computation of a hash may use its address. *)
Lemma keeps_alloc {A} k m0 (f : N → M A) :
  (∀ p, keeps (quiet (N.succ p) m0) (f p)) → keeps (quiet k m0) (M_bind f M_alloc).
Proof.
  intros Hf m Hm. apply wp_bind. intros m' p [= <- <-]. destruct (quiet_alloc k m0 m Hm) as [Hq Hk].
  by eapply keeps_weaken.
Qed.

(** Looking a hash up in the history. *)
Lemma keeps_seen {A} k m0 it (f : bool → M A) :
  (∀ seen, keeps (quiet k m0) (f seen)) →
  keeps (quiet k m0) (M_bind (λ ps, let '(ps, seen) := HaveISeenIt it ps in
                                    M_bind (λ _, f seen) (M_modify (set_peerDb ps))) (M_gets peerDb)).
Proof.
  intros Hf m Hm. apply wp_bind, wp_gets. apply (quiet_seen _ _ _ it) in Hm.
  destruct (HaveISeenIt it (peerDb m)) as [ps seen]. apply wp_bind, wp_modify. by apply Hf.
Qed.

(** Finds the case of [typed]. *)
Ltac typed_tac :=
  first [ left; split; [reflexivity | assumption] | split; [reflexivity | assumption] | right; typed_tac ].

(** Decomposes a call into its steps, each of which keeps the invariant. *)
Create HintDb keeps discriminated.
Hint Resolve keeps_ret keeps_lift keeps_gets keeps_query keeps_peer keeps_engine keeps_signal keeps_setLastHash : keeps.
Ltac keeps_steps :=
  repeat first
    [ progress eauto 2 with keeps
    | match goal with
      | |- keeps _ (M_bind _ M_alloc) => apply keeps_alloc; intros ?
      | |- keeps _ (M_bind (λ x, let '(_, _) := HaveISeenIt _ x in _) _) => apply keeps_seen; intros ?
      | |- keeps _ (markKnown _ _ _) => apply keeps_markKnown; [done | lia]
      | |- keeps _ (M_bind _ _) => apply keeps_bind; [|intros ?]
      | |- keeps _ (match ?x with _ => _ end) => destruct x eqn:?
      | |- keeps _ ((λ _, _) _) => progress cbv beta
      | |- keeps _ (Send _ _ ?code ?x) => apply keeps_Send; intros ? ?%(decodes_encode x code); typed_tac
      end ].

Lemma keeps_processTx k m0 tx b : keeps (quiet k m0) (processTx tx b).
Proof. unfold processTx. keeps_steps. Qed.

Lemma keeps_newBlock k m0 to (b : block W) : keeps (quiet k m0) (Send net to NewBlock (Spec b)).
Proof. apply keeps_Send. intros p Hp%(decodes_encode _ NewBlock). do 6 right. done. Qed.
#[local] Hint Resolve keeps_processTx keeps_newBlock : keeps.

Lemma keeps_broadcast k m0 e p b : env_ok e → (p < k)%N → keeps (quiet k m0) (broadcast net e p b).
Proof.
  intros He Hp. unfold broadcast. keeps_steps.
  assert (∀ nodes, keeps (quiet k m0) (broadcastLoop net e p b nodes)) as Hloop; [|apply Hloop].
  induction nodes as [|r nodes IH]; cbn [broadcastLoop]; keeps_steps.
Qed.

Lemma keeps_processTxs k m0 txs b : keeps (quiet k m0) (processTxs txs b).
Proof. revert b. induction txs as [|tx txs IH]; intros b; cbn [processTxs]; keeps_steps. Qed.
#[local] Hint Resolve keeps_processTxs : keeps.

Lemma keeps_processBlock k m0 e b from : env_ok e → keeps (quiet k m0) (processBlock net e b from).
Proof. intros He. unfold processBlock. keeps_steps. apply keeps_broadcast; [done | lia]. Qed.
#[local] Hint Resolve keeps_processBlock keeps_broadcast : keeps.

Lemma keeps_collectBlocks k m0 hs : keeps (quiet k m0) (collectBlocks hs).
Proof. induction hs as [|h hs IH]; cbn [collectBlocks]; keeps_steps. Qed.

Lemma keeps_syncBlocks k m0 e specs from : env_ok e → keeps (quiet k m0) (syncBlocks net e specs from).
Proof. intros He. induction specs as [|s specs IH]; cbn [syncBlocks]; keeps_steps. Qed.
#[local] Hint Resolve keeps_collectBlocks keeps_syncBlocks : keeps.

Lemma keeps_announceUncles k m0 e us r : env_ok e → keeps (quiet k m0) (announceUncles net e us r).
Proof.
  intros He. revert k. induction us as [|u us IH]; intros k; cbn [announceUncles]; keeps_steps.
Qed.
#[local] Hint Resolve keeps_announceUncles : keeps.

Lemma keeps_listen k m0 e read peer : env_ok e → keeps (quiet k m0) (listen net e read peer).
Proof.
  intros He. unfold listen. keeps_steps;
    unfold handleGetBlockHashesRequestMsg, handleGetBlockHashesResponseMsg, handleGetBlockHashesRewindMsg,
      handleGetBlocksRequestMsg, handleGetBlocksResponseMsg, handleNewBlockMsg; keeps_steps.
Qed.

(** *** Calls that start and stop the producer *)

Lemma keeps_inv {A} (x : M A) : (∀ m0, keeps (quiet 0 m0) x) → keeps plat_inv x.
Proof. intros Hx m Hm. eapply wp_mono; [apply (Hx m), quiet_start, Hm|]. by intros a m' [? _]. Qed.

Lemma inv_producer m p r :
  plat_inv m → (r = true ↔ is_Some p) → (∀ x, p = Some x → producer_ok x) → plat_inv (set_blockProducer p r m).
Proof. intros [] Hr Hp. by split. Qed.

Lemma keeps_Start : keeps plat_inv Start.
Proof.
  intros m Hm m' a. unfold Start. destruct (isRunning m) eqn:Er; intros [= <- _]; [done|].
  apply inv_producer; [done|done|]. intros x [= <-]. by split.
Qed.

Lemma keeps_Suspend : keeps plat_inv Suspend.
Proof.
  intros m Hm. unfold Suspend. apply wp_bind, wp_gets. apply wp_if; intros Hr; [by apply wp_ret|].
  apply wp_bind. intros m1 a. unfold shutdownProducer. destruct (blockProducer m) as [p|] eqn:Ep; intros [= <- <-]; [|by apply wp_ret].
  apply wp_bind, wp_modify, wp_ret. cbn. change (plat_inv (set_blockProducer None false m)). by apply inv_producer.
Qed.

Lemma keeps_Stop closed : keeps plat_inv (Stop closed).
Proof.
  intros m Hm. unfold Stop. apply wp_bind. intros m1 a. unfold shutdownProducer.
  destruct (blockProducer m) as [p|] eqn:Ep; intros [= <- <-]; [|by apply wp_ret].
  apply wp_bind, wp_modify, wp_ret. cbn. change (plat_inv (set_blockProducer None false m)). by apply inv_producer.
Qed.

Lemma keeps_queue e payload sig sub : keeps plat_inv (Submit e payload sig sub).
Proof.
  intros m Hm m' a. unfold Submit. case_decide as Hl; intros [= <- _]; [done|]. destruct Hm. split; try done.
  cbn. rewrite length_app. cbn. lia.
Qed.

Lemma keeps_Status h : keeps plat_inv (Status h).
Proof.
  apply keeps_inv. intros m0. unfold Status. apply keeps_bind; [keeps_steps|]. intros s. case_decide; [|keeps_steps].
  apply keeps_bind; [|intros; keeps_steps]. intros m Hm. by apply wp_modify, quiet_dead.
Qed.

Lemma keeps_Disconnect app : keeps plat_inv (Disconnect app).
Proof.
  intros m Hm m' a. unfold Disconnect. destruct (PeerNodeForId _ _); intros [= <- _]; [|done]. destruct Hm. split; try done.
  cbn. intros id r [_ Hr]%lookup_delete_Some. eauto.
Qed.

(** *** Connections *)

Lemma keeps_register peer hs conf : keeps plat_inv (registerPeer peer hs conf).
Proof.
  intros m Hm. unfold registerPeer. apply wp_bind, wp_gets, wp_bind, wp_gets, wp_bind, wp_lift. intros [ps err] Hreg.
  unfold RegisterPeerNode in Hreg. apply outcome_bind_ret in Hreg as (n & Hn & [= <- <-]).
  assert (heap m !! peer = Some n) as Hh by (destruct (heap m !! peer); [by injection Hn as ->|done]).
  apply wp_bind, wp_modify, wp_bind, wp_peer. cbn [heap set_peerDb]. intros n' Hn'. simplify_eq.
  apply wp_bind, wp_modify, wp_bind, wp_modify, wp_ret. destruct Hm as [Hnodes Hknown ? ? ? ?]. split; try done.
  - cbn. intros id r Hr. destruct (decide (peer = r)) as [<-|Hne].
    + rewrite lookup_insert_eq. eexists. split; [done|]. cbn.
      apply lookup_insert_Some in Hr as [[? _]|[_ Hr]]; [done|]. destruct (Hnodes id peer Hr) as (? & ? & <-). congruence.
    + rewrite lookup_insert_ne by done. apply lookup_insert_Some in Hr as [[_ ?]|[_ Hr]]; [done | by apply Hnodes].
  - cbn. intros r n0 [[<- <-]|[_ Hr]]%lookup_insert_Some; [exact (Hknown _ _ Hh) | by eapply Hknown].
Qed.

Lemma keeps_validateAndAdd hs peer : keeps plat_inv (validateAndAdd hs peer).
Proof.
  unfold validateAndAdd. keeps_steps. apply keeps_register.
Qed.

Lemma keeps_connect peer nodeId id name read :
  ∀ m, plat_inv m → heap m !! peer = None → wp (connect net peer nodeId id name read) (λ _, plat_inv) m.
Proof.
  intros m Hm Hfresh. unfold connect. apply wp_bind, wp_modify.
  assert (plat_inv (set_heap (<[peer := NewPeerNode nodeId id name]> (heap m)) m)) as Hm'.
  { destruct Hm as [Hnodes Hknown ? ? ? ?]. split; try done.
    - cbn. intros i r Hr. destruct (Hnodes i r Hr) as (n & Hn & Hi). exists n.
      rewrite lookup_insert_ne by congruence. done.
    - cbn. intros r n [[<- <-]|[_ Hr]]%lookup_insert_Some; [|by eapply Hknown]. split; [done | set_solver]. }
  revert Hm'. generalize (set_heap (<[peer := NewPeerNode nodeId id name]> (heap m)) m). clear m Hm Hfresh.
  match goal with |- ∀ p, _ → wp ?x _ _ => change (keeps plat_inv x) end.
  assert (∀ A (f : C → outcome (C * A)), keeps plat_inv (M_engine f)) as Heng
    by (intros; apply keeps_inv; intros; apply keeps_engine).
  apply keeps_bind; [apply Heng|]. intros ob. apply keeps_bind; [keeps_steps|]. intros best.
  apply keeps_bind; [unfold getHandshakeMsg; keeps_steps|]. intros status. apply keeps_bind; [|intros; keeps_steps].
  unfold handshake. apply keeps_bind; [apply keeps_inv; intros; keeps_steps|]. intros err. keeps_steps.
  apply keeps_validateAndAdd.
Qed.

Lemma keeps_disconnected peer : keeps plat_inv (disconnected peer).
Proof.
  intros m Hm. unfold disconnected, unregisterPeer. apply wp_bind, wp_bind, wp_peer. intros n Hn.
  apply wp_bind, wp_modify, wp_modify.
  assert (plat_inv (set_peers (delete (pn_Id n) (mgr_peers m)) (peerCount m - 1)
            (set_peerDb (UnRegisterPeerNodeForId (pn_Id n) (peerDb m)).1 m))) as Hm'.
  { destruct Hm. split; try done. cbn. intros id r [_ Hr]%lookup_delete_Some. eauto. }
  revert Hm'. cbn [mgr_peers peerCount set_peerDb].
  generalize (set_peers (delete (pn_Id n) (mgr_peers m)) (peerCount m - 1) (set_peerDb (UnRegisterPeerNodeForId (pn_Id n) (peerDb m)).1 m)).
  clear m Hm Hn n. intros m Hm. repeat wp_step. apply quiet_start in Hm.
  eapply quiet_peer_same in Hm; [by destruct Hm | done..].
Qed.

(** *** Synchronization *)

Lemma keeps_inv_engine {A} (f : C → outcome (C * A)) : keeps plat_inv (M_engine f).
Proof. apply keeps_inv. intros m0. apply keeps_engine. Qed.
#[local] Hint Resolve keeps_inv_engine keeps_Start keeps_Suspend : keeps.

Lemma keeps_syncRequest node : keeps plat_inv (syncRequest net node).
Proof.
  unfold syncRequest. keeps_steps.
  apply keeps_inv. intros m0. keeps_steps.
Qed.

Lemma keeps_syncFinish e node : env_ok e → keeps plat_inv (syncFinish net e node).
Proof. intros He. unfold syncFinish. keeps_steps. apply keeps_inv. intros m0. keeps_steps. Qed.
#[local] Hint Resolve keeps_syncRequest keeps_syncFinish : keeps.

Lemma keeps_syncNode best node : keeps plat_inv (syncNode net best node).
Proof. unfold syncNode. keeps_steps. apply keeps_inv. intros m0. keeps_steps. Qed.

Lemma keeps_syncResume e node : env_ok e → keeps plat_inv (syncResume net e node).
Proof.
  intros He m Hm. unfold syncResume. apply wp_bind, wp_peer. intros n Hn.
  destruct (chan_recv _) as [[x ch]|]; [|by apply wp_ret]. apply wp_bind, wp_modify.
  assert (plat_inv (set_heap (<[node := set_pn_chans ch (pn_GetBlocksChan n) n]> (heap m)) m)) as Hm'.
  { apply quiet_start in Hm. eapply quiet_peer_same in Hm; [by destruct Hm | done..]. }
  revert Hm'. generalize (set_heap (<[node := set_pn_chans ch (pn_GetBlocksChan n) n]> (heap m)) m).
  match goal with |- ∀ p, _ → wp ?y _ _ => change (keeps plat_inv y) end. keeps_steps.
Qed.

(** *** The producer *)

Lemma keeps_mineOrBury k m0 e b : env_ok e → keeps (quiet k m0) (mineOrBury net e b).
Proof.
  intros He. unfold mineOrBury, mgr_mineCandidateBlock. keeps_steps; [apply keeps_broadcast; [done | lia]|].
  intros m Hm. by apply wp_modify, quiet_dead.
Qed.

(** Replacing the producer's variables. *)
Lemma quiet_setProducer k m0 m p :
  quiet k m0 m → is_Some (blockProducer m0) → producer_ok p → wp (setProducer p) (λ _, plat_inv) m.
Proof.
  intros (Hm & _ & Hb & _) Hs Hp. apply wp_modify, inv_producer; [done| |by intros x [= <-]].
  destruct Hm as [_ _ Hr _ _ _]. rewrite Hr, Hb. split; [by eexists | done].
Qed.

(** The block in which the producer puts the next transaction. *)
Definition open_ok (p : producer W) (b : block W) : Prop := Z.of_nat (length (Transactions b)) ≤ 1 + pr_txCount p.

Lemma wp_openBlock k m0 m e p :
  quiet k m0 m → producer_ok p → wp (openBlock e p) (λ b m', quiet k m0 m' ∧ open_ok p b) m.
Proof.
  intros Hm (Hc & Hb & _). unfold openBlock, open_ok. destruct (pr_newBlock p) as [b|]; [by apply wp_ret|].
  apply wp_bind, wp_engine. intros c ob Hcand. apply wp_bind, wp_lift. intros b Hob.
  destruct ob as [b'|]; [|done]. injection Hob as ->. apply en_candidate_fresh in Hcand as [Htxs _].
  apply wp_bind, wp_gets, wp_bind, wp_gets, wp_bind, wp_lift. intros [b1 otx] Hnew.
  apply wp_bind, wp_lift. intros tx Htx. destruct otx as [tx'|]; [|done]. injection Htx as ->.
  apply wp_bind, wp_lift. intros [b2 err] Hadd. apply wp_ret.
  destruct (NewMiningRewardTx_length _ _ _ _ _ _ _ _ _ _ Htxs Hnew Hadd) as [-> Hlen].
  split; [by apply quiet_engine | lia].
Qed.

Lemma wp_processTx k m0 m tx b :
  quiet k m0 m → wp (processTx tx b) (λ r m', quiet k m0 m' ∧ Transactions r.1 = Transactions b) m.
Proof.
  intros Hm. unfold processTx. apply wp_bind, wp_gets, wp_bind, wp_lift. intros proc _.
  apply wp_bind, wp_gets, wp_bind, wp_lift. intros [t ok] Hrun%runApp_same. apply wp_ret. cbn [fst].
  split; [done|]. unfold Transactions. by destruct (same_block_spec _ _ Hrun) as [-> _].
Qed.

Lemma keeps_produceTx e tx p m :
  env_ok e → quiet 0 m m → blockProducer m = Some p → wp (produceTx net e tx p) (λ _, plat_inv) m.
Proof.
  intros He Hm Hp. assert (Hok : producer_ok p) by (destruct Hm as [[] _]; eauto).
  unfold produceTx. apply wp_bind. eapply wp_mono; [by apply wp_openBlock|]. intros b m1 [Hm1 Hb].
  apply wp_bind. eapply wp_mono; [by apply wp_processTx|]. intros [b1 ok] m2 [Hm2 Hb1]. cbn [fst] in Hb1.
  assert (is_Some (blockProducer m)) as Hs by (rewrite Hp; by eexists).
  destruct ok.
  - apply wp_bind, wp_gets, wp_bind, wp_lift. intros [b2 err] Hadd.
    assert (Z.of_nat (length (Transactions b2)) ≤ 1 + (pr_txCount p + 1)) as Hb2.
    { unfold open_ok in Hb. rewrite <- Hb1 in Hb.
      apply AddTransaction_length in Hadd as [[_ ->]|[_ ->]]; [rewrite length_app; cbn; lia | lia]. }
    destruct Hok as (Hc & _ & _). apply wp_decide; intros Hmax.
    + apply wp_bind. eapply wp_mono; [by apply keeps_mineOrBury|]. intros [] m3 Hm3.
      eapply quiet_setProducer; [done..|]. by split.
    + eapply quiet_setProducer; [done..|]. split; [cbn; unfold maxTxCount in *; lia|]. by split.
  - apply wp_bind, wp_modify. eapply quiet_setProducer; [by apply quiet_dead | done|].
    destruct Hok as (Hc & _ & Hw). split; [done|]. split; [|done]. cbn. unfold open_ok in Hb. by rewrite Hb1.
Qed.

Lemma keeps_produceTimeout e p m :
  env_ok e → quiet 0 m m → blockProducer m = Some p → wp (produceTimeout net e p) (λ _, plat_inv) m.
Proof.
  intros He Hm Hp. unfold produceTimeout. apply wp_bind. apply (wp_mono _ (λ _, quiet 0 m)).
  - destruct (pr_newBlock p); [|by apply wp_ret]. apply wp_decide; intros _; [by apply keeps_mineOrBury | by apply wp_ret].
  - intros _ m1 Hm1. eapply quiet_setProducer; [done|rewrite Hp; by eexists|]. by split.
Qed.

Lemma keeps_produce e timeout : env_ok e → keeps plat_inv (produce net e timeout).
Proof.
  intros He m Hm m' a. unfold produce. destruct (blockProducer m) as [p|] eqn:Hp; [|by intros [= <- _]].
  destruct timeout.
  - rewrite outcome_bind_ret. intros ([m1 u] & H1 & [= <- _]).
    by eapply (keeps_produceTimeout e p m He (quiet_start m Hm) Hp).
  - destruct (txQ m) as [|tx q] eqn:Hq; [by intros [= <- _]|]. rewrite outcome_bind_ret. intros ([m1 u] & H1 & [= <- _]).
    assert (plat_inv (set_txQ q m)) as Hm'. { destruct Hm. split; try done. cbn. rewrite Hq in *. cbn in *. lia. }
    by eapply (keeps_produceTx e tx p (set_txQ q m) He (quiet_start _ Hm') Hp).
Qed.
End invariant.
