(* ===== verification/PlatformTheorems.v ===== *)
(** * Theorems about the platform manager

    The properties of [src/network/platform.go], proved against the interface
    of the consensus layer; their witnesses are in [PlatformWitnesses]. *)

From Stdlib Require Import Strings.Byte.
From S2P Require Import Prelude Bytes Db WorldStateI Block BlockFacts Consensus Trustee TrusteeFacts.
From S2P Require Import Peers PeersTheorems Platform PlatformFacts.

Section theorems.
Context {C D W : Type} {wso : WorldState W D} {eng : Engine C D W} {engl : EngineLaws C D W} {sha : Sha512} {ec : Ecdsa}.
Context {cop : Codec (list Op)} {csg : Codec signature}.
Context {rls : Rlp BlockSpec} {rlss : Rlp (list BlockSpec)} {rlh : Rlp Byte64} {rlhs : Rlp (list Byte64)}.
Context {rlhm : Rlp HandshakeMsg} {rlrq : Rlp GetBlockHashesRequestMsg}.
Context {rlsl : RlpLaws BlockSpec} {rlssl : RlpLaws (list BlockSpec)} {rlhl : RlpLaws Byte64} {rlhsl : RlpLaws (list Byte64)}.
Context {rlhml : RlpLaws HandshakeMsg} {rlrql : RlpLaws GetBlockHashesRequestMsg}.
Context (net : list (ref * Msg) → ref → Msg → option error).
Abbreviation mgr := (platformManager C W).
Implicit Types (m : mgr) (e : env).

(** ** Reachable states *)

(** A step of the platform: a call of its interface, a round of a listener, a
    synchronization or the producer, a connection that opens or closes. *)
Inductive plat_step : mgr → mgr → Prop :=
  | step_start m m' r : Start m = Ret (m', r) → plat_step m m'
  | step_suspend m m' r : Suspend m = Ret (m', r) → plat_step m m'
  | step_stop closed m m' r : Stop closed m = Ret (m', r) → plat_step m m'
  | step_status h m m' r : Status h m = Ret (m', r) → plat_step m m'
  | step_state m m' r : mgr_State m = Ret (m', r) → plat_step m m'
  | step_balance miner m m' r : mgr_MiningRewardBalance miner m = Ret (m', r) → plat_step m m'
  | step_submit e p s u m m' r : Submit e p s u m = Ret (m', r) → plat_step m m'
  | step_disconnect app m m' r : Disconnect app m = Ret (m', r) → plat_step m m'
  | step_connect peer nodeId id name read m m' r :
      heap m !! peer = None → connect net peer nodeId id name read m = Ret (m', r) → plat_step m m'
  | step_listen e read peer m m' r : env_ok e → listen net e read peer m = Ret (m', r) → plat_step m m'
  | step_disconnected peer m m' r : disconnected peer m = Ret (m', r) → plat_step m m'
  | step_sync best peer m m' r : syncNode net best peer m = Ret (m', r) → plat_step m m'
  | step_resume e peer m m' r : env_ok e → syncResume net e peer m = Ret (m', r) → plat_step m m'
  | step_produce e timeout m m' r : env_ok e → produce net e timeout m = Ret (m', r) → plat_step m m'.

Lemma plat_step_inv m m' : plat_step m m' → plat_inv m → plat_inv m'.
Proof.
  destruct 1 as [m m' r H|m m' r H|c m m' r H|h m m' r H|m m' r H|miner m m' r H|e p s u m m' r H|app m m' r H
    |peer nodeId id name read m m' r Hf H|e read peer m m' r He H|peer m m' r H|best peer m m' r H
    |e peer m m' r He H|e timeout m m' r He H]; intros Hm; revert m' r H.
  - by apply keeps_Start.
  - by apply keeps_Suspend.
  - by apply keeps_Stop.
  - by apply keeps_Status.
  - apply keeps_bind; [apply keeps_inv_engine | intros; apply keeps_ret | done].
  - revert m Hm. change (keeps plat_inv (mgr_MiningRewardBalance miner)). unfold mgr_MiningRewardBalance.
    repeat (apply keeps_bind; [first [apply keeps_gets | apply keeps_inv_engine | apply keeps_lift]|intros ?]).
    destruct a3. apply keeps_ret.
  - by apply keeps_queue.
  - by apply keeps_Disconnect.
  - by apply keeps_connect.
  - revert m Hm. apply keeps_inv. intros m0. by apply keeps_listen.
  - by apply keeps_disconnected.
  - by apply keeps_syncNode.
  - by apply keeps_syncResume.
  - by apply keeps_produce.
Qed.

Lemma reachable_inv m m' : plat_inv m → rtc plat_step m m' → plat_inv m'.
Proof. intros Hm. induction 1 as [|m m1 m' H _ IH]; [done|]. by eapply IH, plat_step_inv. Qed.

Lemma NewPlatformManager_inv app srv db p2p m :
  NewPlatformManager app srv db p2p = Ret (Ok m) → plat_inv m.
Proof.
  unfold NewPlatformManager. destruct app as [app|], srv as [srv|]; try done.
  destruct (sc_TxProcessor srv), (sc_PeerValidator srv); try done. destruct db as [d|]; [|done]. destruct p2p as [self|]; [|done].
  rewrite outcome_bind_ret. intros ([c|] & _ & Hn); [|done]. apply outcome_bind_ret in Hn as (tr & _ & [= <-]).
  split; cbn; try done; try set_solver. lia.
Qed.

(** C2: In every state that a new platform manager reaches by any sequence of its calls,
    messages, connections and producer steps: production is on exactly when a block producer
    runs, the transaction queue holds at most ten, every registered peer is a live node under
    its own id, known-transaction sets hold at most 1024 items, and the producer's pending block
    has fewer than ten counted transactions, no more transactions than counted plus the reward,
    and a short timer as soon as it has one. *)
Theorem platform_invariant app srv db p2p m0 m :
  NewPlatformManager app srv db p2p = Ret (Ok m0) → rtc plat_step m0 m →
  (isRunning m = true ↔ is_Some (blockProducer m)) ∧
  (length (txQ m) ≤ txQueueSize)%nat ∧
  (∀ id r, ps_nodes (peerDb m) !! id = Some r → ∃ n, heap m !! r = Some n ∧ pn_Id n = id) ∧
  (∀ r n, heap m !! r = Some n → set_Size (pn_knownTxs n) ≤ maxKnownTxs) ∧
  (∀ p, blockProducer m = Some p →
     0 ≤ pr_txCount p < maxTxCount ∧ (0 < pr_txCount p → pr_wait p = shortWait) ∧
     ∀ b, pr_newBlock p = Some b → Z.of_nat (length (Transactions b)) ≤ 1 + pr_txCount p).
Proof.
  intros Hnew%NewPlatformManager_inv Hrtc. destruct (reachable_inv _ _ Hnew Hrtc) as [Hnodes Hknown Hrun Hprod _ Hq].
  split; [done|]. split; [done|]. split; [done|]. split; [by intros r n Hn; apply (Hknown r n Hn)|].
  intros p Hp. destruct (Hprod p Hp) as (Hc & Hb & Hw). split; [done|]. split; [done|]. intros b Heq. by rewrite Heq in Hb.
Qed.

(** C19: Every message that a platform manager ever sends has a payload that decodes at the type
    its code stands for, so a peer never fails to decode a message of a correct node. *)
Theorem sent_messages_are_typed app srv db p2p m0 m to msg :
  NewPlatformManager app srv db p2p = Ret (Ok m0) → rtc plat_step m0 m → (to, msg) ∈ sent m →
  typed msg.
Proof.
  intros Hnew%NewPlatformManager_inv Hrtc Hin. destruct (reachable_inv _ _ Hnew Hrtc) as [_ _ _ _ Hs _].
  rewrite list.Forall_forall in Hs. exact (Hs _ Hin).
Qed.

(** ** Relaying blocks *)

Definition announce (log : list (ref * Msg)) (tos : list ref) (b : block W) : list (ref * Msg) :=
  match Encode (Spec b) with Ok payload => deliver net log tos (MkMsg NewBlock payload) | Err _ => log end.

Definition registered m : list ref := (map_to_list (ps_nodes (peerDb m))).*2.

(** Broadcasting only changes the peers and what was sent. *)
Lemma broadcastLoop_spec e p b nodes : ∀ m,
  Forall (λ r, is_Some (heap m !! r)) nodes →
  ∃ h, broadcastLoop net e p b nodes m =
    Ret (set_sent (announce (sent m) nodes b) (set_heap h m), Z.of_nat (length nodes)).
Proof.
  induction nodes as [|r nodes IH]; intros m Hin.
  { exists (heap m). unfold announce. destruct m, (Encode (Spec b)); done. }
  apply Forall_cons_iff in Hin as [[n Hn] Hin]. cbn [broadcastLoop].
  rewrite (run_bind _ _ _ _ _ (run_markKnown e r p m n Hn)). set (h1 := <[r := _]> (heap m)). unfold M_bind at 1, Send.
  assert (∀ log, ∃ h, M_bind (λ count, M_ret (1 + count)) (broadcastLoop net e p b nodes) (set_sent log (set_heap h1 m))
      = Ret (set_sent (announce log nodes b) (set_heap h m), Z.of_nat (length (r :: nodes)))) as Hrest.
  { intros log. destruct (IH (set_sent log (set_heap h1 m))) as (h & Hm').
    { apply list.Forall_forall. intros x Hx. rewrite list.Forall_forall in Hin. apply lookup_insert_is_Some'. auto. }
    exists h. unfold M_bind. rewrite Hm'. cbn [outcome_bind M_ret]. unfold M_ret. do 2 f_equal. cbn [length]. lia. }
  unfold announce in *. destruct (Encode (Spec b)) as [payload|err] eqn:Ee; cbn [outcome_bind deliver sent set_heap].
  - destruct (net (sent m) r (MkMsg NewBlock payload)); cbn [outcome_bind]; [exact (Hrest (sent m)) | apply Hrest].
  - exact (Hrest (sent m)).
Qed.

Lemma broadcast_spec e p b m :
  env_ok e → plat_inv m →
  ∃ h targets, broadcast net e p b m = Ret (set_sent (announce (sent m) targets b) (set_heap h m), Z.of_nat (length targets)) ∧
    targets ≡ₚ filter (λ r, HasTx (ItemPtr p) <$> heap m !! r ≠ Some true) (registered m).
Proof.
  intros (_ & Ho & _) Hm. unfold broadcast, M_bind, M_gets, M_lift. cbn [outcome_bind].
  assert (Forall (λ r, is_Some (heap m !! r)) (e_nodes e (ps_nodes (peerDb m)))) as Hin.
  { apply list.Forall_forall. intros r [id Hr]%(node_order_elem _ _ _ Ho). destruct (pi_nodes _ Hm id r Hr) as (n & Hn & _). by exists n. }
  unfold PeerNodesWithMsgNotSeen. rewrite notSeenLoop_spec by done. cbn [outcome_bind].
  set (targets := filter _ _). destruct (broadcastLoop_spec e p b targets m) as (h & Hb).
  { apply list.Forall_forall. intros r [_ Hr]%list_elem_of_filter. rewrite list.Forall_forall in Hin. auto. }
  exists h, targets. split; [done|]. unfold targets, registered. by rewrite (Ho (ps_nodes (peerDb m))).
Qed.

Lemma wp_processTxs txs : ∀ b m, wp (processTxs txs b) (λ _ m', m' = m) m.
Proof.
  assert (∀ tx b m, wp (processTx tx b) (λ _ m', m' = m) m) as Hone.
  { intros tx b m. unfold processTx. repeat wp_step; done. }
  induction txs as [|tx txs IH]; intros b m; cbn [processTxs]; [by apply wp_ret|].
  apply wp_bind. eapply wp_mono; [apply Hone|]. intros [b1 ok] m' ->. destruct ok; [apply IH | by apply wp_ret].
Qed.

(** Nobody knows a new address. *)
Lemma unknown_targets m p :
  (∀ r n, heap m !! r = Some n → ItemPtr p ∉ pn_knownTxs n) →
  filter (λ r, HasTx (ItemPtr p) <$> heap m !! r ≠ Some true) (registered m) = registered m.
Proof.
  intros Hp. induction (registered m) as [|r l IH]; [done|]. rewrite filter_cons_True; [by rewrite IH|].
  destruct (heap m !! r) as [n|] eqn:Hr; [|done].
  cbn. unfold HasTx, set_Has. rewrite bool_decide_eq_false_2; [done | by eapply Hp].
Qed.

(** After the sender was marked, exactly the sender knows a new address. *)
Lemma fresh_targets e m from n :
  env_ok e → plat_inv m → heap m !! from = Some n →
  filter (λ r, HasTx (ItemPtr (nextPtr m)) <$> <[from := AddTx (e_pick e) (ItemPtr (nextPtr m)) n]> (heap m) !! r ≠ Some true)
    (registered m) = filter (.≠ from) (registered m).
Proof.
  intros [Hpick _] Hm Hn. apply list_filter_iff. intros r. destruct (decide (r = from)) as [->|Hne].
  - rewrite lookup_insert_eq. cbn [fmap option_fmap option_map]. destruct (pi_known _ Hm _ _ Hn) as [Hsize _].
    destruct (AddTx_spec (e_pick e) (ItemPtr (nextPtr m)) n Hpick Hsize) as (Hin & _).
    unfold HasTx, set_Has. rewrite bool_decide_eq_true_2 by done. tauto.
  - rewrite lookup_insert_ne by done. split; [done|]. intros _.
    destruct (heap m !! r) as [n'|] eqn:Hr; [|done]. cbn. unfold HasTx, set_Has. rewrite bool_decide_eq_false_2; [done|].
    intros Hin. destruct (pi_known _ Hm _ _ Hr) as [_ Hp]. specialize (Hp _ Hin). lia.
Qed.

Definition history m : gset item := ps_myHistory (peerDb m).

(** What [processBlock] has done when it returns. *)
Definition relayed m (from : ref) m' (r : block W * option error) : Prop :=
  match r.2 with
  | None => ∃ h targets, block_Hash r.1 = Some h ∧ (ItemHash h ∉ history m) ∧
      history m' = {[ItemHash h]} ∪ history m ∧
      (targets ≡ₚ filter (.≠ from) (registered m)) ∧ sent m' = announce (sent m) targets r.1
  | Some _ => sent m' = sent m ∧ history m' = history m
  end.

(** The end of [processBlock], from a block that the engine has accepted. *)
Lemma wp_relay e b from m :
  env_ok e → plat_inv m →
  wp (M_bind (λ p, M_bind (λ _, M_bind (λ h, M_bind (λ ps, let '(ps, seen) := HaveISeenIt (ItemHash h) ps in
        M_bind (λ _, if seen : bool then M_ret (b, Some (CoreError ERR_DUPLICATE_BLOCK "repeated block"))
          else M_bind (λ _, M_ret (b, None)) (broadcast net e p b)) (M_modify (set_peerDb ps)))
      (M_gets peerDb)) (M_lift (deref (block_Hash b)))) (markKnown e from p)) M_alloc)
    (λ r m', relayed m from m' r) m.
Proof.
  intros He Hm. apply wp_bind. intros m1 p [= <- <-]. apply wp_bind. unfold markKnown. apply wp_bind, wp_peer. intros n Hn. apply wp_modify.
  apply wp_bind, wp_lift. intros h Hh. destruct (block_Hash b) as [h'|] eqn:Eh; [|done]. injection Hh as ->.
  apply wp_bind, wp_gets. cbn [peerDb set_heap set_nextPtr].
  destruct (HaveISeenIt_spec (ItemHash h) (peerDb m)) as (Hseen & Hhist & Hnodes).
  destruct (HaveISeenIt (ItemHash h) (peerDb m)) as [ps seen] eqn:Es. cbn [fst snd] in *. apply wp_bind, wp_modify.
  destruct seen; [apply wp_ret|].
  - symmetry in Hseen. apply bool_decide_eq_true_1 in Hseen. split; [done|]. unfold history. cbn [peerDb set_peerDb]. set_solver.
  - symmetry in Hseen. apply bool_decide_eq_false_1 in Hseen. apply wp_bind.
    match goal with |- wp _ _ ?x => set (m2 := x) end.
    assert (plat_inv m2) as Hm2.
    { destruct (quiet_alloc 0 m m (quiet_start m Hm)) as [Hq _].
      eapply (keeps_markKnown _ _ e from (nextPtr m)) in Hq as Hq1; [|done | lia].
      unfold markKnown in Hq1. assert (Hq2 := Hq1 _ tt (run_markKnown e from (nextPtr m) (set_nextPtr (N.succ (nextPtr m)) m) n Hn)).
      apply (quiet_seen _ _ _ (ItemHash h)) in Hq2. cbn [peerDb set_heap set_nextPtr] in Hq2.
      rewrite Es in Hq2. by destruct Hq2 as [Hq2 _]. }
    destruct (broadcast_spec e (nextPtr m) b m2 He Hm2) as (h3 & targets & Hb & Ht).
    intros m' a Heq. rewrite Hb in Heq. injection Heq as <- <-. apply wp_ret.
    exists h, targets. split; [done|]. split; [done|]. split; [done|]. split; [|done].
    rewrite Ht. change (registered m2) with ((map_to_list (ps_nodes ps)).*2). rewrite Hnodes.
    rewrite <- (fresh_targets e m from n He Hm Hn). done.
Qed.

(** C7: When processBlock accepts a block, its hash was not in the history, is there now, and
    the block was sent to exactly the registered peers other than the sender; when it returns an
    error (a repeated block included) nothing is sent and the history is as before. *)
Theorem accepted_block_relayed_once e b from m m' b' err :
  env_ok e → plat_inv m → processBlock net e b from m = Ret (m', (b', err)) →
  match err with
  | None => ∃ h targets, block_Hash b' = Some h ∧ (ItemHash h ∉ history m) ∧
      history m' = {[ItemHash h]} ∪ history m ∧
      (targets ≡ₚ filter (.≠ from) (registered m)) ∧ sent m' = announce (sent m) targets b'
  | Some _ => sent m' = sent m ∧ history m' = history m
  end.
Proof.
  intros He Hm Hrun. change (relayed m from m' (b', err)). revert Hrun. revert m' b' err.
  assert (wp (processBlock net e b from) (λ r m', relayed m from m' r) m) as Hwp; [|intros m' b' err; apply Hwp].
  assert (∀ c, plat_inv (set_engine c m)) as Hc.
  { intros c. by destruct (quiet_engine _ _ _ c (quiet_start m Hm)). }
  unfold processBlock. apply wp_decide; intros Hlen; [by apply wp_ret|]. apply wp_bind, wp_gets, wp_bind, wp_lift. intros [b1 valid] _.
  apply wp_if; intros _; [by apply wp_ret|]. apply wp_bind. eapply wp_mono; [apply wp_processTxs|]. intros [b2 ok] m1 ->.
  apply wp_if; intros _; [by apply wp_ret|]. apply wp_bind, wp_gets, wp_bind, wp_engine. intros c [b3 [err|]] _; [by apply wp_ret|].
  apply wp_bind, wp_engine. intros c' [b4 [err|]] _; [by apply wp_ret|].
  exact (wp_relay e b4 from (set_engine c' (set_engine c m)) He (Hc c')).
Qed.

(** ** Admitting peers *)

(** C24: A peer is admitted exactly when its network id and genesis hash are ours and the
    application's validator accepts it; then it is registered under its id with its status and
    configuration and the peer count grows by one, otherwise nothing changes. *)
Theorem handshake_admits_exactly hs peer m n g validator :
  heap m !! peer = Some n → cf_genesis (config m) = Some g → sc_PeerValidator (cf_Service (config m)) = Some validator →
  let conf := MkApp (hs_NetworkId hs) (x04 :: pn_NodeId n) (pn_Name n) (hs_ProtocolId hs) in
  ∃ m' err, validateAndAdd hs peer m = Ret (m', err) ∧
    (err = None ↔ hs_NetworkId hs = ac_NetworkId (cf_App (config m)) ∧ hs_Genesis hs = g ∧ validator conf = None) ∧
    (err ≠ None → m' = m) ∧
    (err = None → ps_nodes (peerDb m') = <[pn_Id n := peer]> (ps_nodes (peerDb m)) ∧
      mgr_peers m' = <[pn_Id n := conf]> (mgr_peers m) ∧ peerCount m' = peerCount m + 1 ∧
      heap m' = <[peer := SetStatus hs n]> (heap m) ∧ sent m' = sent m ∧ history m' = history m).
Proof.
  intros Hn Hg Hv conf. unfold validateAndAdd. rewrite (run_bind _ _ m m (config m)) by done.
  destruct (decide (hs_NetworkId hs ≠ ac_NetworkId (cf_App (config m)))) as [Hnet|Hnet].
  { do 2 eexists. split; [done|]. split; [|done]. by split; [|intros [? _]]. }
  rewrite (run_bind _ _ m m g) by (unfold M_lift; by rewrite Hg).
  destruct (decide (hs_Genesis hs ≠ g)) as [Hgen|Hgen].
  { do 2 eexists. split; [done|]. split; [|done]. by split; [|intros (_ & ? & _)]. }
  apply dec_stable in Hnet, Hgen. rewrite (run_bind _ _ m m n) by (unfold M_peer; by rewrite Hn).
  fold conf. rewrite (run_bind _ _ m m validator) by (unfold M_lift; by rewrite Hv).
  destruct (validator conf) as [err|] eqn:Ev.
  { do 2 eexists. split; [done|]. split; [|done]. by split; [|intros (_ & _ & ?)]. }
  unfold registerPeer. rewrite (run_bind _ _ m m (heap m)), (run_bind _ _ m m (peerDb m)) by done.
  set (ps := PeerSetDb (<[pn_Id n := peer]> (ps_nodes (peerDb m))) (ps_myHistory (peerDb m))).
  rewrite (run_bind _ _ m m (ps, None)) by (unfold M_lift, RegisterPeerNode; by rewrite Hn).
  rewrite (run_bind _ _ m (set_peerDb ps m) tt) by done.
  rewrite (run_bind _ _ (set_peerDb ps m) (set_peerDb ps m) n) by (unfold M_peer; cbn [heap set_peerDb]; by rewrite Hn).
  do 2 eexists. split; [done|]. split; [done|]. split; done.
Qed.

(** ** Synchronization *)

Lemma Numeric_range (b : block W) : is_u64 (Numeric b).
Proof.
  unfold Numeric. destruct (hash b) as [h|]; [|apply u64_range].
  assert (∀ l acc, is_u64 acc → is_u64 (fold_left (λ num x, u64 (num + byte_val x)) l acc)) as Hgen.
  { induction l as [|x l IH]; intros acc Ha; [done|]. apply IH, u64_range. }
  apply Hgen. by split.
Qed.

(** Of two nodes that exchanged handshakes about their best blocks, never both synchronize with
    each other, and neither does exactly when weight and numeric value of the two blocks agree. *)
Theorem one_side_synchronizes (m1 m2 : mgr) (best1 best2 : block W) n1 n2 m1' m2' hs1 hs2 :
  getHandshakeMsg best1 m1 = Ret (m1', hs1) → getHandshakeMsg best2 m2 = Ret (m2', hs2) →
  pn_status n1 = Some hs2 → pn_status n2 = Some hs1 →
  ∃ r1 r2, isSyncNeeded best1 n1 = Ret r1 ∧ isSyncNeeded best2 n2 = Ret r2 ∧
    ¬ (r1 = true ∧ r2 = true) ∧
    (r1 = false ∧ r2 = false ↔ Weight best1 = Weight best2 ∧ Numeric best1 = Numeric best2).
Proof.
  intros H1 H2 Hs1 Hs2.
  assert (∀ (m m' : mgr) best hs, getHandshakeMsg best m = Ret (m', hs) →
            hs_TotalWeight hs = Weight best ∧ Uint64 (hs_TipNumeric hs) = Numeric best) as Hhs.
  { intros m m' best hs. unfold getHandshakeMsg, M_bind, M_gets, M_lift. cbn [outcome_bind].
    destruct (cf_genesis (config m)); [|done]. intros [= <- <-]. split; [done|]. cbn [hs_TipNumeric].
    rewrite Uint64_Uint64ToByte8. by apply u64_small, Numeric_range. }
  apply Hhs in H1 as [Hw1 Hn1], H2 as [Hw2 Hn2]. unfold isSyncNeeded. rewrite Hs1, Hs2. cbn [deref outcome_bind].
  rewrite Hw1, Hw2, Hn1, Hn2. do 2 eexists. split; [done|]. split; [done|].
  assert (Weight best1 = Weight best2 ↔ Uint64 (Weight best1) = Uint64 (Weight best2)) as ->
    by (split; [congruence | apply Uint64_inj]).
  split; repeat case_bool_decide; cbn; try lia; naive_solver lia.
Qed.

(** Sending and calls of the engine leave the peers and the producer. *)
Lemma wp_syncRequest node m :
  plat_inv m → wp (syncRequest net node) (λ st m', heap m' = heap m ∧ isRunning m' = false ∧ st ≠ SyncBlocked ∧
    (st ≠ SyncReturned None) ∧ (isRunning m = false → blockProducer m' = blockProducer m)) m.
Proof.
  intros Hm. unfold syncRequest. apply wp_bind, wp_gets, wp_bind.
  assert (wp (if isRunning m then Suspend else M_ret (Returned None))
    (λ r m', heap m' = heap m ∧ isRunning m' = false ∧ (∃ x, r = Returned x) ∧ (isRunning m = false → blockProducer m' = blockProducer m)) m) as Hsus.
  { destruct (isRunning m) eqn:Er; [|apply wp_ret; split_and!; [done | done | by eexists | done]].
    destruct (proj1 (pi_running _ Hm) Er) as [p Hp]. unfold Suspend. apply wp_bind, wp_gets. rewrite Er. cbn [negb].
    apply wp_bind. intros m1 r. unfold shutdownProducer. rewrite Hp. intros [= <- <-].
    apply wp_bind, wp_modify, wp_ret. split_and!; [done | done | by eexists | done]. }
  eapply wp_mono; [exact Hsus|]. intros r m1 (Hh & Hr & [x ->] & Hp).
  apply wp_bind, wp_peer. intros n Hn. apply wp_bind, wp_lift. intros last Hl. apply wp_bind, wp_Send.
  - intros err. apply wp_ret. done.
  - intros payload _. apply wp_ret. done.
Qed.

Lemma wp_syncFinish e node m :
  env_ok e → plat_inv m → isRunning m = false →
  wp (syncFinish net e node) (λ st m', ∃ err, st = SyncReturned err ∧
    match err with
    | None => isRunning m' = true ∧ blockProducer m' = Some newProducer
    | Some _ => isRunning m' = false ∧ blockProducer m' = None
    end) m.
Proof.
  intros He Hm Hr. assert (blockProducer m = None) as Hp.
  { destruct (blockProducer m) eqn:E; [|done]. destruct (pi_running _ Hm) as [_ Hx]. rewrite Hx in Hr; [done | by eexists]. }
  unfold syncFinish. apply wp_bind, wp_engine. intros c ob _. apply wp_bind, wp_lift. intros b _. apply wp_bind.
  assert (quiet 0 m (set_engine c m)) as Hq by apply quiet_engine, quiet_start, Hm.
  eapply wp_mono; [by apply keeps_announceUncles|]. intros [err|] m1 (_ & _ & Hb & Hrun).
  - apply wp_ret. exists (Some err). rewrite Hrun, Hb. done.
  - apply wp_bind, wp_gets. rewrite Hrun, Hr. cbn [negb]. apply wp_bind, wp_bind. intros m2 r. unfold Start. rewrite Hrun, Hr.
    intros [= <- <-]. do 2 apply wp_ret. by exists None.
Qed.

(** A synchronization that waits for its peer has suspended block production; when it then
    returns an error, or returns on CHAN_DONE, production stays suspended and no producer runs,
    and only a synchronization that completes starts it again. *)
Theorem failed_sync_leaves_production_suspended e best node m :
  env_ok e → plat_inv m →
  (∀ m', syncNode net best node m = Ret (m', SyncWaiting) → isRunning m' = false) ∧
  (isRunning m = false → ∀ n x ch, heap m !! node = Some n → chan_recv (pn_GetBlockHashesChan n) = Some (x, ch) →
   ∀ m' st, syncResume net e node m = Ret (m', st) →
   match st with
   | SyncReturned (Some _) => isRunning m' = false ∧ blockProducer m' = None
   | SyncReturned None => x = CHAN_DONE ∧ isRunning m' = false ∨ isRunning m' = true ∧ blockProducer m' = Some newProducer
   | SyncWaiting => isRunning m' = false ∧ x ∉ [CHAN_ERROR; CHAN_ABORT; CHAN_DONE]
   | SyncBlocked => False
   end).
Proof.
  intros He Hm. split.
  - assert (wp (syncNode net best node) (λ st m', st = SyncWaiting → isRunning m' = false) m) as Hwp; [|intros m' Hs; by apply (Hwp _ _ Hs)].
    unfold syncNode. apply wp_bind. eapply wp_mono; [apply (keeps_setLastHash 0 m), quiet_start, Hm|]. intros _ m1 (Hm1 & _).
    apply wp_bind, wp_peer. intros n1 _. apply wp_bind, wp_lift. intros [|] _; cbn [negb]; [|by apply wp_ret].
    eapply wp_mono; [by apply wp_syncRequest|]. by intros st1 m2 (_ & ? & _).
  - intros Hr n x ch Hn Hrecv.
    match goal with |- ∀ m' st, _ → @?Q m' st => change (wp (syncResume net e node) (λ st m', Q m' st) m) end.
    unfold syncResume. apply wp_bind, wp_peer. intros n' Hn'. rewrite Hn in Hn'. injection Hn' as <-. rewrite Hrecv.
    apply wp_bind, wp_modify. set (m1 := set_heap _ m).
    assert (plat_inv m1) as Hm1. { apply quiet_start in Hm. eapply quiet_peer_same in Hm; [by destruct Hm | done..]. }
    assert (Hp : blockProducer m1 = None).
    { cbn. destruct (blockProducer m) eqn:E; [|done]. destruct (pi_running _ Hm) as [_ Hx]. rewrite Hx in Hr; [done | by eexists]. }
    apply wp_decide; intros H0; [by apply wp_ret|]. apply wp_decide; intros H2; [by apply wp_ret|].
    apply wp_decide; intros H4; [apply wp_ret; by left|].
    apply wp_bind, wp_engine. intros c ob _. apply wp_bind, wp_lift. intros b _. apply wp_bind, wp_peer. intros n2 _.
    assert (plat_inv (set_engine c m1)) as Hm2 by (by destruct (quiet_engine _ _ _ c (quiet_start m1 Hm1))).
    apply wp_bind, wp_lift. intros needed _. destruct needed.
    + eapply wp_mono; [by apply wp_syncRequest|]. intros st m' (_ & Hrun & Hblk & Hret & Hprod). destruct st as [[err|]| |]; try done.
      * split; [done|]. by rewrite Hprod.
      * split; [done|]. rewrite !not_elem_of_cons, elem_of_nil. tauto.
    + eapply wp_mono; [by apply wp_syncFinish|]. intros st m' (err & -> & Hcase). destruct err; [done | by right].
Qed.

(** The consensus layer answers a synchronization with [e], and keeps [P]. *)
Record answers e (P : C → Prop) : Prop := {
  an_best c : P c → ∃ c' b, en_BestBlock c = Ret (c', Some b) ∧ P c';
  an_candidate c : P c → ∃ c' b, en_NewCandidateBlock (e_now e) c = Ret (c', Some b) ∧ P c' ∧
    ∀ u c2, u ∈ Uncles b → P c2 → ∃ c3 r, en_Block u c2 = Ret (c3, r) ∧ P c3;
}.

(** A peer that a synchronization runs with: its status and the last known
    block are set. *)
Definition sync_peer (nd : peerNode) : Prop := is_Some (pn_status nd) ∧ is_Some (pn_LastHash nd).

Lemma run_engine {A} (f : C → outcome (C * A)) m c a : f (engine m) = Ret (c, a) → M_engine f m = Ret (set_engine c m, a).
Proof. intros Hf. unfold M_engine. by rewrite Hf. Qed.

Lemma Send_returns {A} `{Rlp A} to code (x : A) m : ∃ log err, Send net to code x m = Ret (set_sent log m, err).
Proof.
  unfold Send. destruct (Encode x) as [p|err]; [destruct (net _ _ _)|]; [|by do 2 eexists|]; exists (sent m); eexists; by destruct m.
Qed.

Lemma announceUncles_returns e (P : C → Prop) us node : ∀ m,
  (∀ u c, u ∈ us → P c → ∃ c' r, en_Block u c = Ret (c', r) ∧ P c') →
  P (engine m) → is_Some (heap m !! node) → ∃ m' err, announceUncles net e us node m = Ret (m', err).
Proof.
  induction us as [|u us IH]; intros m Hblock HP [nd Hn]; cbn [announceUncles]; [by do 2 eexists|].
  destruct (Hblock u (engine m)) as (c & r & Hb & HPc); [by left | done|]. rewrite (run_bind _ _ _ _ _ (run_engine _ m _ _ Hb)).
  destruct r as [b|err]; [|by do 2 eexists]. rewrite (run_bind _ _ _ _ _ eq_refl).
  match goal with |- context [M_bind _ (markKnown _ _ _) ?m1] => rewrite (run_bind _ _ _ _ _ (run_markKnown e node _ m1 nd Hn)) end.
  match goal with |- context [M_bind _ (Send _ _ _ _) ?m1] => destruct (Send_returns node NewBlock (Spec b) m1) as (log & err & Hsend) end.
  rewrite (run_bind _ _ _ _ _ Hsend). apply IH; [intros u' c' Hu'; apply Hblock; by right | done|].
  cbn [heap set_sent set_heap]. rewrite lookup_insert_eq. by eexists.
Qed.

(** What is asked for next: production is suspended first when it runs. *)
Lemma syncRequest_returns node nd m :
  plat_inv m → heap m !! node = Some nd → sync_peer nd →
  ∃ m' st, syncRequest net node m = Ret (m', st) ∧ (st = SyncWaiting ∨ ∃ err, st = SyncReturned err) ∧
    engine m' = engine m ∧ heap m' = heap m.
Proof.
  intros Hm Hn [_ [lh Hlh]]. unfold syncRequest. rewrite (run_bind _ _ _ _ _ eq_refl).
  assert (∃ m1 x, (if isRunning m then Suspend else M_ret (Returned None)) m = Ret (m1, Returned x) ∧ engine m1 = engine m ∧ heap m1 = heap m)
    as (m1 & x & Hrun & He & Hh).
  { destruct (isRunning m) eqn:Er; [|by exists m, None]. destruct (proj1 (pi_running _ Hm) Er) as [p Hp].
    unfold Suspend. rewrite (run_bind _ _ _ _ _ eq_refl). rewrite Er. cbn [negb].
    unfold M_bind, shutdownProducer. rewrite Hp. cbn [outcome_bind]. by do 2 eexists. }
  rewrite (run_bind _ _ _ _ _ Hrun), (run_bind _ _ m1 m1 nd) by (unfold M_peer; by rewrite Hh, Hn).
  rewrite Hlh, (run_bind _ _ _ _ _ eq_refl).
  match goal with |- context [M_bind _ (Send _ _ _ ?x) ?m2] => destruct (Send_returns node GetBlockHashesRequest x m2) as (log & err & Hsend) end.
  rewrite (run_bind _ _ _ _ _ Hsend).
  destruct err as [err|]; do 2 eexists; (split; [done|]); (split; [|done]); [right; by eexists | by left].
Qed.

Lemma syncFinish_returns e (P : C → Prop) node m :
  answers e P → P (engine m) → is_Some (heap m !! node) → ∃ m' err, syncFinish net e node m = Ret (m', SyncReturned err).
Proof.
  intros [_ Hcand] HP Hn. unfold syncFinish. destruct (Hcand _ HP) as (c2 & b2 & Hc2 & HPc2 & Hblk).
  rewrite (run_bind _ _ _ _ _ (run_engine _ m _ _ Hc2)), (run_bind _ _ _ _ _ eq_refl).
  destruct (announceUncles_returns e P (Uncles b2) node (set_engine c2 m)) as (m2 & err & Ha); [done..|].
  rewrite (run_bind _ _ _ _ _ Ha). destruct err; [by do 2 eexists|]. rewrite (run_bind _ _ _ _ _ eq_refl).
  destruct (isRunning m2) eqn:Hr2; cbn [negb]; [by do 2 eexists|]. unfold M_bind, Start. rewrite Hr2. by do 2 eexists.
Qed.

(** A peer to which the channel of answers is closed *)
Record closed_peer m node nd : Prop := {
  cp_node : heap m !! node = Some nd;
  cp_sync : sync_peer nd;
  cp_closed : ch_closed (pn_GetBlockHashesChan nd) = true;
}.

(** The answers that are left in the channel *)
Abbreviation left_over nd := (length (ch_queue (pn_GetBlockHashesChan nd))).

(** Resuming returns; when [syncNode] then waits again it has taken an answer. *)
Lemma syncResume_closed e (P : C → Prop) node nd m :
  env_ok e → answers e P → plat_inv m → P (engine m) → closed_peer m node nd →
  ∃ m' st, syncResume net e node m = Ret (m', st) ∧
    ((∃ err, st = SyncReturned err) ∨
     st = SyncWaiting ∧ plat_inv m' ∧ P (engine m') ∧ ∃ nd', closed_peer m' node nd' ∧ left_over nd = S (left_over nd')).
Proof.
  intros He Ha Hm HP [Hn Hs Hc].
  assert (∀ m' st, syncResume net e node m = Ret (m', st) → plat_inv m') as Hkeep by (intros m' st Hrun; by eapply keeps_syncResume).
  revert Hkeep. unfold syncResume. rewrite (run_bind _ _ m m nd) by (unfold M_peer; by rewrite Hn).
  unfold chan_recv. destruct (pn_GetBlockHashesChan nd) as [q cl] eqn:Ech. cbn [ch_queue ch_closed] in *. subst cl.
  destruct q as [|x q]; intros Hkeep; [do 2 eexists; split; [done | left; by eexists]|].
  revert Hkeep. rewrite (run_bind _ _ _ _ _ eq_refl). set (nd1 := set_pn_chans _ _ nd). set (m1 := set_heap (<[node := nd1]> (heap m)) m).
  assert (heap m1 !! node = Some nd1) as Hn1 by apply lookup_insert_eq.
  assert (plat_inv m1) as Hm1. { apply quiet_start in Hm. eapply quiet_peer_same in Hm; [by destruct Hm | done..]. }
  do 3 (case_decide; [intros _; do 2 eexists; split; [done | left; by eexists]|]).
  destruct (an_best _ _ Ha (engine m1) HP) as (c & b & Hb & HPc).
  rewrite (run_bind _ _ _ _ _ (run_engine _ m1 _ _ Hb)), (run_bind _ _ _ _ _ eq_refl).
  rewrite (run_bind _ _ (set_engine c m1) (set_engine c m1) nd1) by (unfold M_peer; cbn [heap set_engine]; by rewrite Hn1).
  assert (plat_inv (set_engine c m1)) as Hm2 by (by destruct (quiet_engine _ _ _ c (quiet_start m1 Hm1))).
  destruct Hs as [[hs Hst] Hlh]. unfold isSyncNeeded at 1 2. change (pn_status nd1) with (pn_status nd). rewrite Hst. cbn [deref outcome_bind].
  rewrite (run_bind _ _ _ _ _ eq_refl). intros Hkeep. match goal with |- context [if ?c then _ else _] => destruct c end.
  - destruct (syncRequest_returns node nd1 (set_engine c m1)) as (m' & st & Hrun & Hcase & Hen & Hh); [done | exact Hn1 | by split; [eexists|]|].
    exists m', st. split; [exact Hrun|]. destruct Hcase as [->|Hret]; [right | by left]. split; [done|].
    split; [by eapply Hkeep|]. split; [by rewrite Hen|]. exists nd1. split; [|done].
    split; [by rewrite Hh | by split; [eexists|] | done].
  - destruct (syncFinish_returns e P node (set_engine c m1)) as (m' & err & Hrun); [done | done | by eexists|].
    exists m', (SyncReturned err). split; [exact Hrun | left; by eexists].
Qed.

(** [syncNode] resumed as often as it waits, at most [n + 1] times; between
    two times other goroutines do what [others] says. *)
Fixpoint syncRun (n : nat) (others : nat → mgr → mgr) e (node : ref) m : outcome (mgr * syncState) :=
  let! (m, st) := syncResume net e node m in
  match st, n with SyncWaiting, S n => syncRun n others e node (others n m) | _, _ => Ret (m, st) end.

(** Other goroutines keep the invariant and the engine answering.  They cannot
    send on the closed channel, and only [syncNode] receives from it. *)
Record spares_sync (P : C → Prop) (node : ref) (f : mgr → mgr) : Prop := {
  ss_inv m : plat_inv m → plat_inv (f m);
  ss_engine m : P (engine m) → P (engine (f m));
  ss_peer m nd : closed_peer m node nd →
    ∃ nd', closed_peer (f m) node nd' ∧ pn_GetBlockHashesChan nd' = pn_GetBlockHashesChan nd;
}.

(** C21: A synchronization whose peer, which had given its status, has disconnected ends: when
    the manager is in a state of its invariant, the consensus layer answers each call, and
    between two resumptions other goroutines keep that invariant, the consensus layer answering
    and the peer with its closed channel as they are, then syncNode, resumed at most once per
    answer left in the closed channel and once more, returns (it neither waits again nor
    blocks), and with an empty channel it returns the sync error at once. *)
Theorem sync_ends_after_disconnect e (P : C → Prop) others node nd m k :
  env_ok e → answers e P → (∀ i, spares_sync P node (others i)) → plat_inv m → P (engine m) → closed_peer m node nd → (left_over nd ≤ k)%nat →
  ∃ m' err, syncRun k others e node m = Ret (m', SyncReturned err) ∧
    (left_over nd = 0%nat → err = Some (CoreError ErrorSyncFailed "error processing sync protocol")).
Proof.
  intros He Ha Ho. revert m nd. induction k as [|k IH]; intros m nd Hm HP Hcp Hk; cbn [syncRun];
    destruct (syncResume_closed e P node nd m He Ha Hm HP Hcp) as (m1 & st & Hrun & Hcase).
  all: assert (left_over nd = 0%nat → ∀ err, st = SyncReturned err → err = Some (CoreError ErrorSyncFailed "error processing sync protocol")) as Hempty
    by (destruct Hcp as [Hn _ Hc]; intros Hq%nil_length_inv err ->; revert Hrun; unfold syncResume;
        rewrite (run_bind _ _ m m nd) by (unfold M_peer; by rewrite Hn); unfold chan_recv; rewrite Hq, Hc; by intros [= _ <-]).
  all: rewrite Hrun; cbn [outcome_bind]; destruct Hcase as [[err ->]|(-> & Hm1 & HP1 & nd1 & Hcp1 & Hlen)];
    [exists m1, err; split; [done | intros Hq; by apply Hempty]|].
  - lia.
  - destruct (ss_peer _ _ _ (Ho k) _ _ Hcp1) as (nd2 & Hcp2 & Heq).
    destruct (IH (others k m1) nd2) as (m' & err & Hrec & _); [by apply Ho | by apply Ho | done | rewrite Heq; lia|].
    exists m', err. split; [exact Hrec | lia].
Qed.

(** ** Producing blocks *)

Lemma buried_dead (txs : list Transaction) (dead : gset Byte64) tx :
  tx ∈ txs ∨ Transaction_Id tx ∈ dead → Transaction_Id tx ∈ fold_left (λ s tx, {[Transaction_Id tx]} ∪ s) txs dead.
Proof.
  revert dead. induction txs as [|t txs IH]; intros dead [Hin|Hin]; cbn [fold_left]; [by apply elem_of_nil in Hin | done|..]; apply IH.
  - apply elem_of_cons in Hin as [->|Hin]; [right; set_solver | by left].
  - right. set_solver.
Qed.

(** What mining the producer's block, with this result, has done. *)
Definition mined_or_buried m (c' : C) (b' : block W) (res : result (block W)) m' : Prop :=
  txQ m' = txQ m ∧ isRunning m' = isRunning m ∧ engine m' = c' ∧
  match res with
  | Ok _ => deadTxs m' = deadTxs m ∧ ∃ targets, (targets ≡ₚ registered m) ∧ sent m' = announce (sent m) targets b'
  | Err _ => sent m' = sent m ∧ ∀ tx, tx ∈ Transactions b' → Transaction_Id tx ∈ deadTxs m'
  end.

Lemma mineOrBury_run e b m c' b' res :
  env_ok e → plat_inv m →
  en_MineCandidateBlockPoW b (sc_PowApprover (cf_Service (config m))) (engine m) = Ret (c', b', res) →
  ∃ m', mineOrBury net e b m = Ret (m', tt) ∧ mined_or_buried m c' b' res m'.
Proof.
  intros He Hm Hmine. pose proof (quiet_start m Hm) as Hq. unfold mineOrBury, mgr_mineCandidateBlock, mined_or_buried.
  assert (M_engine (λ c, let! (c, b, r) := en_MineCandidateBlockPoW b (sc_PowApprover (cf_Service (config m))) c in Ret (c, (b, r))) m =
    Ret (set_engine c' m, (b', res))) as Hrun by (apply run_engine; by rewrite Hmine).
  destruct res as [bb|err].
  - set (m2 := set_nextPtr (N.succ (nextPtr m)) (set_engine c' m)).
    assert (plat_inv m2) as Hm2 by (by destruct (quiet_alloc _ _ _ (quiet_engine _ _ _ c' Hq)) as [[? _] _]).
    destruct (broadcast_spec e (nextPtr m) b' m2 He Hm2) as (h & targets & Hbc & Ht). eexists. split.
    + unfold M_bind at 1. rewrite (run_bind _ _ m m (config m) eq_refl), (run_bind _ _ _ _ _ Hrun). cbn beta iota.
      rewrite (run_bind _ _ _ m2 (nextPtr m) eq_refl), (run_bind _ _ _ _ _ Hbc). done.
    + do 3 (split; [done|]). split; [done|]. exists targets. split; [|done].
      rewrite Ht, unknown_targets; [done|]. intros r n Hn Hin. destruct (pi_known _ Hm _ _ Hn) as [_ Hk]. specialize (Hk _ Hin). lia.
  - eexists. split.
    + unfold M_bind at 1. rewrite (run_bind _ _ m m (config m) eq_refl), (run_bind _ _ _ _ _ Hrun). done.
    + do 3 (split; [done|]). split; [done|]. intros tx Htx. apply buried_dead. by left.
Qed.

(** C25: When the timer of the producer fires with transactions pending and mining returns, the
    round returns with a fresh producer still running: either the mined block was sent to every
    registered peer, or every transaction of the block is in the dead list, and the queue is
    untouched. *)
Theorem pending_block_is_mined_or_buried e m p b c' b' res :
  env_ok e → plat_inv m → blockProducer m = Some p → pr_newBlock p = Some b → (1 < length (Transactions b))%nat →
  en_MineCandidateBlockPoW b (sc_PowApprover (cf_Service (config m))) (engine m) = Ret (c', b', res) →
  ∃ m', produce net e true m = Ret (m', true) ∧ mined_or_buried m c' b' res m' ∧
    blockProducer m' = Some newProducer ∧ isRunning m' = true.
Proof.
  intros He Hm Hp Hb Hlen Hmine. destruct (mineOrBury_run e b m c' b' res He Hm Hmine) as (m1 & Hrun & Hdone).
  unfold produce. rewrite Hp. unfold produceTimeout. rewrite Hb, decide_True by done. rewrite (run_bind _ _ _ _ _ Hrun).
  eexists. split; [done|]. split; [exact Hdone|]. split; [done|]. cbn. destruct Hdone as (_ & Hr & _). rewrite Hr.
  apply (pi_running _ Hm). rewrite Hp. by eexists.
Qed.

(** ** Stopping and disconnecting *)

(** While block production is suspended Stop waits forever on the channel of the producer that
    is gone; otherwise Stop and Suspend end the producer and keep queue and dead list. *)
Theorem stop_blocks_when_suspended closed m :
  plat_inv m →
  (isRunning m = false → Stop closed m = Ret (m, Blocked) ∧
     ∃ err, Suspend m = Ret (m, Returned (Some err)) ∧ error_code err = Some ERR_DUPLICATE_SUSPEND) ∧
  (isRunning m = true →
     (∃ m', Stop closed m = Ret (m', Returned closed) ∧ isRunning m' = false ∧ blockProducer m' = None ∧
        deadTxs m' = deadTxs m ∧ txQ m' = txQ m) ∧
     (∃ m', Suspend m = Ret (m', Returned None) ∧ isRunning m' = false ∧ blockProducer m' = None ∧
        deadTxs m' = deadTxs m ∧ txQ m' = txQ m)).
Proof.
  intros Hm. unfold Stop, Suspend. split; intros Hr.
  - assert (blockProducer m = None) as Hp.
    { destruct (blockProducer m) eqn:E; [|done]. destruct (pi_running _ Hm) as [_ Hx]. rewrite Hx in Hr; [done | by eexists]. }
    split; [unfold M_bind, shutdownProducer; by rewrite Hp|].
    rewrite (run_bind _ _ m m false) by (unfold M_gets; by rewrite Hr). by eexists.
  - destruct (proj1 (pi_running _ Hm) Hr) as [p Hp].
    rewrite (run_bind _ _ m m true) by (unfold M_gets; by rewrite Hr). cbn [negb]. unfold M_bind, shutdownProducer. rewrite Hp.
    split; by eexists.
Qed.

(** Disconnect never finds an admitted peer by the configuration that Peers returns: the node id
    there starts with an additional byte 0x04. *)
Theorem admitted_peer_cannot_be_disconnected m conf nodeId :
  (∀ id r, ps_nodes (peerDb m) !! id = Some r → ∃ x, id = bytesToHexString x ∧ length x = 64%nat) →
  ac_NodeId conf = x04 :: nodeId → length nodeId = 64%nat →
  Disconnect conf m = Ret (m, Some (CoreError ErrorNotFound "peer not found")).
Proof.
  intros Hids Hid Hlen. unfold Disconnect, PeerNodeForId.
  destruct (ps_nodes (peerDb m) !! bytesToHexString (ac_NodeId conf)) as [r|] eqn:Hr; [|done].
  destruct (Hids _ _ Hr) as (x & Hx%(inj bytesToHexString) & Hl). subst x. rewrite Hid in Hl. simpl in Hl. lia.
Qed.
End theorems.

(** ** Over the block chain *)

Section over_chain.
Context {D W : Type} {dbo : Database D} {wso : WorldState W D} {sha : Sha512} {ec : Ecdsa}.
Context {cdn : Codec chainNode} {cds : Codec BlockSpec} {rls : Rlp BlockSpec}.
Context {rlh : Rlp Byte64} {rlhs : Rlp (list Byte64)} {rlrq : Rlp GetBlockHashesRequestMsg}.
Context (net : list (ref * Msg) → ref → Msg → option error).
Context (fuel attempts : nat) (range : ranger) (now : Z).
#[local] Existing Instance chain_engine.

(** A request for 2^63 or more block hashes makes the node that answers it panic. *)
Theorem huge_hashes_request_panics (m : platformManager (BlockChainConsensus W * D) W) msg from rq :
  Decode (msg_Payload msg) = Ok rq → 2 ^ 63 ≤ Uint64 (rq_MaxBlocks rq) →
  handleGetBlockHashesRequestMsg (eng:=chain_engine fuel attempts range now) net msg from m = Panic.
Proof.
  intros Hd Hmax. unfold handleGetBlockHashesRequestMsg. rewrite Hd. unfold M_bind, M_query. cbn [en_Descendents chain_engine].
  pose proof (Uint64_range (rq_MaxBlocks rq)) as Hr. unfold is_u64 in Hr.
  unfold Descendents, to_int. rewrite (decide_False (P:=_ < 2 ^ 63)) by lia.
  rewrite (decide_False (P:=_ > maxBlocks)) by (unfold maxBlocks; lia). by rewrite decide_True by lia.
Qed.
End over_chain.
