(* ===== verification/Produced.v ===== *)
(** * From the block producer to the peers

    A block that a producer fills and mines passes the checks of a peer that
    has the same parent state and runs the same application.  The meaning of
    the application's programs, of the rewards and of whole blocks is a
    function of what the parent state answers ([specApp], [specTxs]); producer
    and peer both implement it. *)

From Stdlib Require Import Strings.Byte.
From S2P Require Import Prelude Bytes Db Trie TrieSpec TrieFacts WorldState WorldStateI Block BlockFacts BlockTheorems.
From S2P Require Import Consensus Trustee TrusteeFacts TrusteeTheorems Peers PeersTheorems Platform PlatformFacts.

(** ** The meaning of programs *)

Section meaning.
(** What the parent state answers *)
Context (parent : bytes → result bytes).
Implicit Types (writes m : gmap bytes (option bytes)).

Definition view writes (k : bytes) : result bytes :=
  match writes !! k with
  | Some (Some v) => Ok v
  | Some None => Err (CoreError ERR_KEY_NOT_FOUND "key not found")
  | None => parent k
  end.

Fixpoint specApp (p : appProg) writes : gmap bytes (option bytes) * bool :=
  match p with
  | AppReturn ok => (writes, ok)
  | AppLookup k g => specApp (g (view writes k)) writes
  | AppUpdate k v g => specApp (g true) (<[k := Some v]> writes)
  | AppDelete k g => specApp (g true) (<[k := None]> writes)
  end.

(** The application's part of a block: the writes, if all are accepted *)
Fixpoint specTxs (proc : TxProcessor) (txs : list Transaction) writes : option (gmap bytes (option bytes)) :=
  match txs with
  | [] => Some writes
  | tx :: txs => let '(writes, ok) := specApp (proc tx) writes in if ok then specTxs proc txs writes else None
  end.

Definition specCredit (a : bytes) (x : Z) writes : gmap bytes (option bytes) :=
  let v := match view writes a with Ok v => v | Err _ => [] end in
  <[a := Some (rtu_Bytes (u64 (BytesToRtu v + x)))]> writes.

Definition specRewards (rs : list (bytes * Z)) writes : gmap bytes (option bytes) :=
  fold_left (λ w r, specCredit r.1 r.2 w) rs writes.

(** A program leaves nothing behind when it answers [ok]. *)
Definition leaves_nothing (p : appProg) (ok : bool) : Prop :=
  ∀ writes writes', specApp p writes = (writes', ok) → writes' = writes.

(** A rejected transaction leaves nothing behind. *)
Definition rejects_cleanly (p : appProg) : Prop := leaves_nothing p false.

(** The variables are the writes and some of the values read. *)
Definition over writes m : Prop :=
  ∀ k, m !! k = writes !! k ∨ (writes !! k = None ∧ ∃ v, parent k = Ok v ∧ m !! k = Some (Some v)).

Lemma over_insert writes m k x : over writes m → over (<[k := x]> writes) (<[k := x]> m).
Proof.
  intros H k'. destruct (decide (k = k')) as [->|Hne]; [left; by simplify_map_eq|].
  rewrite !lookup_insert_ne by done. apply H.
Qed.

Section blocks.
Context {D W : Type} {wso : WorldState W D} {sha : Sha512}.
Implicit Types (b : block W) (d : D).

(** A block over the parent state that has made the writes. *)
Definition holds b d writes : Prop :=
  (∃ w, worldState b = Some w ∧ ∀ k, ws_Lookup w k d = parent k) ∧ over writes (variables b).

Lemma block_Lookup_holds k b d writes :
  holds b d writes → ∃ b', block_Lookup k b d = Ret (b', view writes k) ∧ holds b' d writes ∧ same_block b b'.
Proof.
  intros [(w & Hw & Hp) Hov]. unfold block_Lookup, view. destruct (Hov k) as [Heq|(Hn & v & Hv & Heq)].
  - rewrite Heq. destruct (writes !! k) as [[v|]|] eqn:E.
    1, 2: exists b; split; [done|]; split; [|reflexivity]; split; [by exists w | done].
    rewrite Hw. cbn [deref outcome_bind]. rewrite Hp. destruct (parent k) as [v|e] eqn:Ep.
    + eexists. split; [done|]. split; [|by eexists]. split; [by exists w|]. cbn [variables set_variables]. intros k'.
      destruct (decide (k = k')) as [->|Hne]; [right; split; [done|]; exists v; by simplify_map_eq|].
      rewrite lookup_insert_ne by done. apply Hov.
    + exists b. split; [done|]. split; [|reflexivity]. split; [by exists w | done].
  - rewrite Heq, Hn, Hv. exists b. split; [done|]. split; [|reflexivity]. split; [by exists w | done].
Qed.

Lemma write_holds k x b d writes :
  holds b d writes → holds (set_variables (<[k := x]> (variables b)) b) d (<[k := x]> writes).
Proof. intros [Hw Hov]. split; [done|]. by apply over_insert. Qed.

Lemma runApp_holds p : ∀ (tx : NetTransaction W) d writes,
  holds (nt_block tx) d writes →
  ∃ tx', runApp p tx d = Ret (tx', (specApp p writes).2) ∧ holds (nt_block tx') d (specApp p writes).1 ∧
    same_block (nt_block tx) (nt_block tx').
Proof.
  induction p as [ok|k g IH|k v g IH|k g IH]; intros tx d writes Hh; cbn [runApp specApp].
  - exists tx. split; [done|]. split; [done | reflexivity].
  - unfold tx_Lookup. destruct (block_Lookup_holds k (nt_block tx) d writes Hh) as (b' & -> & Hh' & Hs). cbn [outcome_bind].
    destruct (IH (view writes k) (MkNetTx W (nt_tx tx) b') d writes Hh') as (tx' & -> & Hh2 & Hs2).
    exists tx'. split; [done|]. split; [done | by etrans].
  - destruct (IH true (tx_Update k v tx).1 d (<[k := Some v]> writes)) as (tx' & Hr & Hh2 & Hs2); [by apply write_holds|].
    exists tx'. split; [exact Hr|]. split; [done|]. etrans; [|exact Hs2]. by eexists.
  - destruct (IH true (tx_Delete k tx).1 d (<[k := None]> writes)) as (tx' & Hr & Hh2 & Hs2); [by apply write_holds|].
    exists tx'. split; [exact Hr|]. split; [done|]. etrans; [|exact Hs2]. by eexists.
Qed.

Lemma Credit_holds a x b d writes :
  holds b d writes → ∃ b', Credit a x b d = Ret b' ∧ holds b' d (specCredit a x writes) ∧ same_block b b'.
Proof.
  intros Hh. unfold Credit, lookupBytes. destruct (block_Lookup_holds a b d writes Hh) as (b1 & -> & Hh1 & Hs1). cbn [outcome_bind].
  eexists. split; [done|]. split; [by apply write_holds|]. etrans; [exact Hs1 | by eexists].
Qed.

Lemma processUncles_holds order us : ∀ ops b d writes,
  is_order order → Forall2 uncle_op us ops → holds b d writes →
  ∃ b', processUncles order us ops b d = Ret (b', true) ∧ holds b' d (specRewards (uncle_rewards us) writes) ∧ same_block b b'.
Proof.
  induction us as [|u us IH]; intros ops b d writes Ho Hops Hh; inversion Hops; subst; cbn [processUncles].
  - exists b. split; [done|]. split; [done | reflexivity].
  - match goal with H : uncle_op u ?op |- _ => destruct (uncle_scan order u op Ho) as [Hok Hscan]; rewrite (proj2 Hok H), (Hscan H) end.
    cbn [account amount]. destruct (Credit_holds (bytesToHexString u) (Uint64ToRtu 200000) b d writes Hh) as (b1 & -> & Hh1 & Hs1).
    cbn [outcome_bind]. edestruct IH as (b' & -> & Hh' & Hs'); [done..|]. exists b'. split; [done|]. split; [done | by etrans].
Qed.

Lemma process_holds `{Codec (list Op)} order tx ops b d writes :
  is_order order → Deserialize (Payload tx) = Ok ops → reward_ops (Submitter tx) (UncleMiners b) ops → holds b d writes →
  ∃ b', process order tx b d = Ret (b', true) ∧ holds b' d (specRewards (rewards (Submitter tx) (UncleMiners b)) writes) ∧ same_block b b'.
Proof.
  intros Ho Hdes Hops Hh. pose proof (reward_ops_length _ _ _ Hops) as Hlen. unfold process. rewrite Hdes.
  rewrite decide_False by (rewrite Hlen; simpl; lia). destruct ops as [|op ops]; [done|]. destruct Hops as [Hop Hus].
  destruct (miner_scan order (Submitter tx) op Ho) as [Hok Hscan]. rewrite (proj2 Hok Hop), (Hscan Hop). cbn [account amount].
  destruct (Credit_holds (bytesToHexString (Submitter tx)) (Uint64ToRtu 1000000) b d writes Hh) as (b1 & -> & Hh1 & Hs1). cbn [outcome_bind].
  rewrite (same_block_uncles b b1 Hs1).
  destruct (processUncles_holds order (UncleMiners b) ops b1 d _ Ho Hus Hh1) as (b' & -> & Hh' & Hs').
  exists b'. split; [done|]. split; [done | by etrans].
Qed.
End blocks.
End meaning.

(** ** Filling a block and processing it *)

Section filling.
Context {C D W : Type} {wso : WorldState W D} {eng : Engine C D W} {sha : Sha512} {ec : Ecdsa}.
Abbreviation mgr := (platformManager C W).
Implicit Types (m : mgr) (b : block W).

(** The transactions [txs] that the producer of [m] puts into a block, and the
    others that it drops on the way, each with the application's answer: those
    that the application rejects, and those that it accepts and the block
    refuses as duplicates.  Whatever they have written stays in the block. *)
Inductive fills m : block W → list Transaction → list (bool * Transaction) → block W → Prop :=
  | fills_nil b : fills m b [] [] b
  | fills_accept tx txs dropped b b1 b2 b3 :
      processTx tx b m = Ret (m, (b1, true)) → AddTransaction tx b1 (en_db (engine m)) = Ret (b2, None) →
      fills m b2 txs dropped b3 → fills m b (tx :: txs) dropped b3
  | fills_reject tx txs dropped b b1 b3 :
      processTx tx b m = Ret (m, (b1, false)) →
      fills m b1 txs dropped b3 → fills m b txs ((false, tx) :: dropped) b3
  | fills_refuse tx txs dropped b b1 b2 b3 err :
      processTx tx b m = Ret (m, (b1, true)) → AddTransaction tx b1 (en_db (engine m)) = Ret (b2, Some err) →
      fills m b2 txs dropped b3 → fills m b txs ((true, tx) :: dropped) b3.

(** No dropped transaction left a write in the block. *)
Definition cleanly_dropped parent (proc : TxProcessor) (dropped : list (bool * Transaction)) : Prop :=
  Forall (λ d, leaves_nothing parent (proc d.2) d.1) dropped.

(** What adding transactions leaves alone. *)
Definition same_header b b' : Prop :=
  MINER (spec b') = MINER (spec b) ∧ worldState b' = worldState b ∧ isNetworkBlock b' = isNetworkBlock b ∧
  UncleMiners b' = UncleMiners b.

Lemma processTx_holds parent m proc tx b writes :
  sc_TxProcessor (cf_Service (config m)) = Some proc → holds parent b (en_db (engine m)) writes →
  ∃ b', processTx tx b m = Ret (m, (b', (specApp parent (proc tx) writes).2)) ∧
    holds parent b' (en_db (engine m)) (specApp parent (proc tx) writes).1 ∧ same_block b b'.
Proof.
  intros Hproc Hh. destruct (runApp_holds parent (proc tx) (MkNetTx W tx b) _ writes Hh) as (tx' & Hr & Hh' & Hs).
  exists (nt_block tx'). split; [|done]. unfold processTx, M_bind, M_gets, M_lift. cbn [outcome_bind]. rewrite Hproc. cbn [deref outcome_bind].
  by rewrite Hr.
Qed.

(** A refused transaction leaves the block as it is. *)
Lemma AddTransaction_refused tx b (d : D) b' err : AddTransaction tx b d = Ret (b', Some err) → b' = b.
Proof.
  unfold AddTransaction. rewrite outcome_bind_ret. intros (ws & _ & Ha).
  destruct (ws_HasTransaction _ _ _); [by injection Ha|]. case_decide; by injection Ha.
Qed.

Lemma fills_holds parent m proc b txs dropped b' :
  sc_TxProcessor (cf_Service (config m)) = Some proc →
  fills m b txs dropped b' → cleanly_dropped parent proc dropped → ∀ writes, holds parent b (en_db (engine m)) writes →
  ∃ writes', specTxs parent proc txs writes = Some writes' ∧ holds parent b' (en_db (engine m)) writes' ∧
    Transactions b' = Transactions b ++ txs ∧ same_header b b'.
Proof.
  intros Hproc. induction 1 as [b|tx txs dropped b b1 b2 b3 Hp Ha _ IH|tx txs dropped b b1 b3 Hp _ IH|tx txs dropped b b1 b2 b3 err Hp Ha _ IH];
    intros Hclean writes Hh; cbn [specTxs].
  - exists writes. split; [done|]. split; [done|]. split; [by rewrite app_nil_r | done].
  - destruct (processTx_holds parent m proc tx b writes Hproc Hh) as (b1' & Hp' & Hh1 & [v Hs]).
    rewrite Hp in Hp'. injection Hp' as <- Hok. destruct (specApp parent (proc tx) writes) as [w ok]. cbn [fst snd] in *. subst ok.
    unfold AddTransaction in Ha. apply outcome_bind_ret in Ha as (ws & _ & Ha). destruct (ws_HasTransaction _ _ _); [done|].
    case_decide; [done|]. injection Ha as <-. destruct (IH Hclean w) as (writes' & Hw & Hh3 & Htx & Hhd); [by destruct Hh1|].
    exists writes'. split; [done|]. split; [done|]. subst b1. split; [|exact Hhd]. rewrite Htx. cbn. by rewrite <- (assoc_L (++)).
  - destruct (processTx_holds parent m proc tx b writes Hproc Hh) as (b1' & Hp' & Hh1 & [v Hs]).
    apply Forall_cons_1 in Hclean as [Hleft Hclean].
    rewrite Hp in Hp'. injection Hp' as <- Hok. destruct (specApp parent (proc tx) writes) as [w ok] eqn:Ew. cbn [fst snd] in *. subst ok.
    pose proof (Hleft _ _ Ew) as ->. destruct (IH Hclean writes Hh1) as (writes' & Hw & Hh3 & Htx & Hhd). subst b1. by exists writes'.
  - destruct (processTx_holds parent m proc tx b writes Hproc Hh) as (b1' & Hp' & Hh1 & [v Hs]).
    apply Forall_cons_1 in Hclean as [Hleft Hclean]. pose proof (AddTransaction_refused _ _ _ _ _ Ha) as ->.
    rewrite Hp in Hp'. injection Hp' as <- Hok. destruct (specApp parent (proc tx) writes) as [w ok] eqn:Ew. cbn [fst snd] in *. subst ok.
    pose proof (Hleft _ _ Ew) as ->. destruct (IH Hclean writes Hh1) as (writes' & Hw & Hh3 & Htx & Hhd). subst b1. by exists writes'.
Qed.

Lemma processTxs_holds parent m proc txs : ∀ b writes writes',
  sc_TxProcessor (cf_Service (config m)) = Some proc → holds parent b (en_db (engine m)) writes →
  specTxs parent proc txs writes = Some writes' →
  ∃ b', processTxs txs b m = Ret (m, (b', true)) ∧ holds parent b' (en_db (engine m)) writes' ∧ same_block b b'.
Proof.
  induction txs as [|tx txs IH]; intros b writes writes' Hproc Hh Hspec; cbn [specTxs processTxs] in *.
  - injection Hspec as <-. exists b. split; [done|]. split; [done | reflexivity].
  - destruct (processTx_holds parent m proc tx b writes Hproc Hh) as (b1 & Hp & Hh1 & Hs1).
    destruct (specApp parent (proc tx) writes) as [w ok]. cbn [fst snd] in *. destruct ok; [|done].
    destruct (IH b1 w writes' Hproc Hh1 Hspec) as (b' & Hr & Hh' & Hs'). exists b'.
    rewrite (run_bind _ _ _ _ _ Hp). split; [done|]. split; [done | by etrans].
Qed.

(** Mining does not touch transactions and miner. *)
Lemma computeHash_txs attempts range b (d d' : D) b' h :
  computeHash attempts range b d = Ret (d', b', h) → TXs (spec b') = TXs (spec b) ∧ MINER (spec b') = MINER (spec b).
Proof.
  unfold computeHash. rewrite outcome_bind_ret. intros ([[d1 b1] st] & Hst & Hr).
  assert (TXs (spec b1) = TXs (spec b) ∧ MINER (spec b1) = MINER (spec b)) as Hb1.
  { destruct (worldState b) eqn:Ew; [|by injection Hst as _ <- _].
    apply outcome_bind_ret in Hst as ([d2 b2] & Hp & Hst). unfold persistState in Hp. rewrite Ew in Hp. cbn [deref outcome_bind] in Hp.
    apply outcome_bind_ret in Hp as ([d3 w3] & _ & [= <- <-]). cbn in Hst. destruct (isNetworkBlock b); by injection Hst as _ <- _. }
  destruct (powLoop _ _ _ _ _ _ _ _) as [nonce [hh|]]; by injection Hr as _ <- _.
Qed.
End filling.

(** ** The theorem *)

Section rewarding.
Context {D W : Type} {wso : WorldState W D} {sha : Sha512} {ec : Ecdsa} {ecl : EcdsaLaws}.
Context {cop : Codec (list Op)} {copl : CodecLaws (list Op)} {csg : Codec signature} {csgl : CodecLaws signature}.
Implicit Types (b : block W) (d : D).

Lemma NewMiningRewardTx_holds parent order now rand t b d b1 tx ops writes :
  is_order order → Deserialize (Payload tx) = Ok ops → reward_ops (Submitter tx) (UncleMiners b) ops → Submitter tx = myAddress t →
  holds parent b d writes → NewMiningRewardTx order now rand t b d = Ret (b1, Some tx) →
  holds parent b1 d (specRewards parent (rewards (Submitter tx) (UncleMiners b)) writes) ∧ same_header b b1.
Proof.
  intros Ho Hdes Hops Hsub Hh. unfold NewMiningRewardTx. rewrite outcome_bind_ret. intros (os & _ & Hn).
  destruct (Serialize _) as [payload|]; [|done]. case_decide; [|done]. apply outcome_bind_ret in Hn as ([b0 e] & Ha & Hn).
  apply outcome_bind_ret in Hn as ([b0' ok] & Hp & [= <- <-]).
  assert (same_header b b0 ∧ variables b0 = variables b) as [Hhd Hv].
  { unfold AddTransaction in Ha. apply outcome_bind_ret in Ha as (w & _ & Ha).
    destruct (ws_HasTransaction _ _ _); [by injection Ha as <- _|]. case_decide; by injection Ha as <- _. }
  assert (holds parent b0 d writes) as Hh0.
  { destruct Hh as [(w & Hw & Hl) Hov]. split; [exists w; split; [|done] | by rewrite Hv]. destruct Hhd as (_ & -> & _). done. }
  assert (UncleMiners b0 = UncleMiners b) as Hu by apply Hhd. rewrite <- Hu in Hops.
  destruct (process_holds parent order _ ops b0 d writes Ho Hdes Hops Hh0) as (b' & Hp' & Hh' & [v Hs]).
  rewrite Hp in Hp'. injection Hp' as <- ->. rewrite <- Hu. split; [done|]. by subst b0'.
Qed.
End rewarding.

Section theorem.
Context {C D : Type} {dbo : Database D} {dbl : DatabaseLaws D}.
Context {sha : Sha512} {cdc : Codec node} {cdl : CodecLaws node} {ec : Ecdsa} {ecl : EcdsaLaws}.
Context {cop : Codec (list Op)} {copl : CodecLaws (list Op)} {csg : Codec signature} {csgl : CodecLaws signature}.
Context {eng : Engine C D MptWorldState} (fuel : nat).
#[local] Hint Extern 0 (WorldState MptWorldState _) => exact (mpt_instance fuel) : typeclass_instances.
Abbreviation mgr := (platformManager C MptWorldState).
Implicit Types (m : mgr) (b : block MptWorldState).

(** A candidate block that the producer of [m] has opened on the world state
    [ws], filled with [txs], having dropped others, and mined: [b3] with hash
    [h]. *)
Record produced m (pw : option PowApprover) (ws : MptWorldState) (range : ranger) b0 b2 (txs : list Transaction)
    (dropped : list (bool * Transaction)) b3 (h : Byte64) : Prop := {
  pd_fresh : fresh_block b0;
  pd_ws : worldState b0 = Some ws;
  pd_candidate : isNetworkBlock b0 = false;
  pd_miner : Miner b0 = myAddress (trustee m);
  pd_uncles : Forall (.≠ []) (UncleMiners b0);
  pd_filled : ∃ order now rand b1 rtx, is_order order ∧
    NewMiningRewardTx order now rand (trustee m) b0 (en_db (engine m)) = Ret (b1, Some rtx) ∧
    Transactions b1 = [rtx] ∧ fills m b1 txs dropped b2;
  pd_mined : ∃ attempts d1, computeHash attempts range (set_pow pw b2) (en_db (engine m)) = Ret (d1, b3, Some h);
}.

(** The block [b3] as a peer decodes it over the world state [ws']. *)
Record received b0 b3 (ws' : MptWorldState) nb : Prop := {
  rc_spec : spec nb = Spec b3;
  rc_ws : worldState nb = Some ws';
  rc_network : isNetworkBlock nb = true;
  rc_variables : variables nb = ∅;
  rc_uncles : UncleMiners nb = UncleMiners b0;
}.

(** What a world state with the content [base] answers *)
Definition content_answers (base : gmap bytes bytes) (k : bytes) : result bytes :=
  match base !! k with Some v => Ok v | None => Err (CoreError ERR_NOT_FOUND "key does not exists") end.

(** Over a trie, variables that extend the same writes have the same effect. *)
Lemma over_effect base t writes vars :
  wf_tree t → models base t → over (content_answers base) writes vars → effect t vars = effect t writes.
Proof.
  intros Ht Hm Hov. apply (effect_overlays t base); [done..|]. intros k. destruct (Hov k) as [?|(Hn & v & Hv & Hk)]; [by left|].
  right. split; [done|]. exists v. split; [|done]. unfold content_answers in Hv. destruct (base !! k); by simplify_eq.
Qed.

(** What a produced block is made of: a reward transaction that verifies, and
    transactions whose meaning is that of the block. *)
Lemma produced_meaning parent m proc key pw ws range b0 b2 txs dropped b3 h :
  NewTrusteeApp key = Ret (trustee m) → sc_TxProcessor (cf_Service (config m)) = Some proc →
  cleanly_dropped parent proc dropped →
  (∀ k, Lookup ws k (en_db (engine m)) = parent k) → produced m pw ws range b0 b2 txs dropped b3 h →
  ∃ rtx ops writes, verify (Payload rtx) (Signature rtx) (Submitter rtx) = Ret true ∧
    Deserialize (Payload rtx) = Ok ops ∧ reward_ops (Submitter rtx) (UncleMiners b0) ops ∧
    specTxs parent proc txs (specRewards parent (rewards (Submitter rtx) (UncleMiners b0)) ∅) = Some writes ∧
    holds parent b2 (en_db (engine m)) writes ∧
    TXs (spec b3) = rtx :: txs ∧ MINER (spec b3) = Submitter rtx ∧ worldState b2 = Some ws ∧ isNetworkBlock b2 = false.
Proof.
  intros Hkey Hproc Hclean Hlook
    [(_ & _ & Hv0 & _) Hws Hcand Hmin Hun (order & now & rand & b1 & rtx & Ho & Hnew & Htx1 & Hfill) (attempts & d1 & Hmine)].
  assert (holds parent b0 (en_db (engine m)) ∅) as Hh0.
  { split; [by exists ws|]. intros k. left. by rewrite Hv0. }
  destruct (NewMiningRewardTx_spec order now rand key (trustee m) b0 (en_db (engine m)) b1 rtx) as (Hsub & Hver & (ops & Hdes & Hops) & _);
    [done | by rewrite Hws | done..|].
  destruct (NewMiningRewardTx_holds parent order now rand (trustee m) b0 (en_db (engine m)) b1 rtx ops ∅)
    as [Hh1 (Hm1 & Hw1 & Hn1 & _)]; [done..|].
  destruct (fills_holds parent m proc b1 txs dropped b2 Hproc Hfill Hclean _ Hh1) as (writes & Hw & Hh2 & Htx2 & (Hm2 & Hw2 & Hn2 & _)).
  destruct (computeHash_txs _ _ _ _ _ _ _ Hmine) as [Htx3 Hmin3]. cbn in Htx3, Hmin3. unfold Transactions, Miner in *.
  exists rtx, ops, writes. do 5 (split; [done|]). split_and!.
  - by rewrite Htx3, Htx2, Htx1.
  - by rewrite Hmin3, Hm2, Hm1, Hmin, Hsub.
  - by rewrite Hw2, Hw1.
  - by rewrite Hn2, Hn1.
Qed.

(** C1: A block that a producer opened over its tip, filled with its reward and with accepted
    transactions and mined, passes a peer with the same application and approver whose world
    state stands for the same parent state, provided the hashed contents are free of collisions
    and every transaction that the producer dropped on the way (rejected by the application, or
    accepted by it and refused as a duplicate by the block) leaves no write behind: the reward
    transaction verifies, every application transaction is accepted, and the proof-of-work check
    succeeds with the same hash and world state, whatever the orders in which the two nodes
    range over maps. *)
Theorem produced_block_passes_peer U t base m m' proc key pw ws ws' range range' order' b0 b2 txs dropped b3 h nb attempts' :
  universe U → db_ok U (en_db (engine m)) → db_ok U (en_db (engine m')) →
  repr (en_db (engine m)) ws t → repr (en_db (engine m')) ws' t → models base t →
  is_range range → is_range range' → is_order order' →
  NewTrusteeApp key = Ret (trustee m) →
  sc_TxProcessor (cf_Service (config m)) = Some proc → sc_TxProcessor (cf_Service (config m')) = Some proc →
  cleanly_dropped (content_answers base) proc dropped →
  produced m pw ws range b0 b2 txs dropped b3 h → covers U t (range (variables b2)) → received b0 b3 ws' nb →
  ∃ nb1 nb2, VerifyMiningRewardTx order' nb (en_db (engine m')) = Ret (nb1, true) ∧
    processTxs (tail (Transactions nb)) nb1 m' = Ret (m', (nb2, true)) ∧
    (covers U t (range' (variables nb2)) →
     ∃ d2 nb3, CheckNetworkBlockPoW (S attempts') range' nb2 pw (en_db (engine m')) = Ret (d2, nb3, None) ∧
       hash nb3 = Some h ∧ Hash <$> worldState nb3 = Some (STATE (spec nb3))).
Proof.
  intros HU Hd Hd' Hr Hr' Hbase Hrg Hrg' Ho' Hkey Hproc Hproc' Hclean Hprod Hcov [Hspec Hws' Hnet Hnv Hnu].
  set (parent := content_answers base).
  assert (holds parent nb (en_db (engine m')) ∅) as Hhn.
  { split; [exists ws'; split; [done|]; intros k; by apply (Lookup_models U _ _ t)|]. intros k. left. by rewrite Hnv. }
  destruct (produced_meaning parent m proc key pw ws range b0 b2 txs dropped b3 h)
    as (rtx & ops & writes & Hver & Hdes & Hops & Hw & Hh2 & Htx3 & Hmin3 & Hws2 & Hcand2); [done..| |done|].
  { intros k. by apply (Lookup_models U _ _ t). }
  assert (Transactions nb = rtx :: txs) as Htxs by (unfold Transactions; rewrite Hspec; exact Htx3).
  assert (Miner nb = Submitter rtx) as Hmn by (unfold Miner; rewrite Hspec; exact Hmin3).
  rewrite <- Hnu in Hops. destruct (process_holds parent order' rtx ops nb (en_db (engine m')) ∅ Ho' Hdes Hops Hhn) as (nb1 & Hp1 & Hhn1 & Hs1).
  rewrite Hnu in Hhn1. destruct (processTxs_holds parent m' proc txs nb1 _ writes Hproc' Hhn1 Hw) as (nb2 & Hp2 & Hhn2 & Hs2).
  exists nb1, nb2. split.
  { unfold VerifyMiningRewardTx. rewrite Htxs. cbn [head deref outcome_bind]. rewrite Hver. cbn [outcome_bind negb].
    rewrite decide_False by (rewrite Hmn; tauto). exact Hp1. }
  split; [by rewrite Htxs|]. intros Hcov2. destruct (pd_mined _ _ _ _ _ _ _ _ _ _ Hprod) as (attempts & d1 & Hmine).
  assert (∃ vs, nb2 = set_variables vs nb) as [vs Hnb2] by (by destruct Hs1 as [v1 ->], Hs2 as [v2 ->]; exists v2).
  destruct (mined_verifies fuel U (en_db (engine m)) (en_db (engine m')) t ws ws' (set_pow pw b2) (set_pow pw nb2) attempts attempts' range range' d1 b3 h)
    as (d2 & nb3 & Hc & Hh3 & Hst3); try (done || by rewrite Hnb2).
  - cbn [variables set_pow]. rewrite (over_effect base t writes (variables nb2)), (over_effect base t writes (variables b2));
      first [done | apply Hr | apply Hh2 | apply Hhn2].
  - exists d2, nb3. unfold CheckNetworkBlockPoW. rewrite Hnb2 at 1. cbn [isNetworkBlock set_variables]. rewrite Hnet. cbn [negb].
    rewrite Hc. by split.
Qed.

End theorem.

(** ** The steps of the producer *)

Section producing.
Context {C D W : Type} {wso : WorldState W D} {eng : Engine C D W} {sha : Sha512} {ec : Ecdsa}.
Context {cop : Codec (list Op)} {csg : Codec signature}.
Abbreviation mgr := (platformManager C W).
Implicit Types (m : mgr) (b : block W).

(** The steps of the producer, between opening a block and mining it, fill it. *)
Lemma produce_fills `{Rlp BlockSpec} net e m m' r p b tx q :
  blockProducer m = Some p → pr_newBlock p = Some b → txQ m = tx :: q → pr_txCount p + 1 ≠ maxTxCount →
  produce net e false m = Ret (m', r) →
  ∃ p' b', blockProducer m' = Some p' ∧ pr_newBlock p' = Some b' ∧ engine m' = engine m ∧
    (fills m b [tx] [] b' ∨ (fills m b [] [(false, tx)] b' ∧ Transaction_Id tx ∈ deadTxs m') ∨ fills m b [] [(true, tx)] b').
Proof.
  intros Hp Hb Hq Hmax. unfold produce. rewrite Hp, Hq. rewrite outcome_bind_ret. intros ([m1 []] & Hrun & [= <- _]).
  assert (∀ res, processTx tx b (set_txQ q m) = Ret res → res.1 = set_txQ q m ∧ processTx tx b m = Ret (m, res.2)) as Hptx.
  { intros [m2 res]. unfold processTx, M_bind, M_gets, M_lift. cbn [outcome_bind]. change (config (set_txQ q m)) with (config m).
    destruct (sc_TxProcessor (cf_Service (config m))); [|done]. cbn [deref outcome_bind]. change (engine (set_txQ q m)) with (engine m).
    destruct (runApp _ _ _) as [[tr ok]| |]; [|done..]. by intros [= <- <-]. }
  unfold produceTx in Hrun. rewrite (run_bind _ _ (set_txQ q m) (set_txQ q m) b) in Hrun by (unfold openBlock; by rewrite Hb).
  unfold M_bind at 1 in Hrun. apply outcome_bind_ret in Hrun as ([m2 [b1 ok]] & Hpt & Hrun). apply Hptx in Hpt as [H1 H2]. cbn in H1, H2. subst m2.
  destruct ok.
  - rewrite (run_bind _ _ (set_txQ q m) (set_txQ q m) (en_db (engine m))) in Hrun by done. unfold M_bind at 1, M_lift in Hrun.
    destruct (AddTransaction tx b1 (en_db (engine m))) as [[b2 err]| |] eqn:Ha; [|done..]. cbn [outcome_bind] in Hrun.
    rewrite decide_False in Hrun by done. injection Hrun as <-. do 2 eexists. split; [done|]. split; [done|]. split; [done|].
    destruct err as [err|]; [right; right; eapply fills_refuse; [done..|constructor] | left; eapply fills_accept; [done..|constructor]].
  - injection Hrun as <-. do 2 eexists. split; [done|]. split; [done|]. split; [done|]. right. left. split; [|cbn; set_solver].
    exact (fills_reject m tx [] [] b b1 b1 H2 (fills_nil m b1)).
Qed.

(** When an application writes and then rejects a transaction, the producer keeps the write in
    the block it goes on filling, while the transaction is not in the block and is listed as
    dead. *)
Theorem rejected_transaction_leaves_writes `{Rlp BlockSpec} net e m p b tx q proc key value :
  blockProducer m = Some p → pr_newBlock p = Some b → txQ m = tx :: q →
  sc_TxProcessor (cf_Service (config m)) = Some proc →
  proc tx = AppUpdate key value (λ _, AppReturn false) →
  ∃ m' p' b', produce net e false m = Ret (m', true) ∧ blockProducer m' = Some p' ∧ pr_newBlock p' = Some b' ∧
    variables b' = <[key := Some value]> (variables b) ∧ Transactions b' = Transactions b ∧ Transaction_Id tx ∈ deadTxs m'.
Proof.
  intros Hp Hb Hq Hproc Htx. unfold produce. rewrite Hp, Hq. unfold produceTx.
  rewrite (run_bind _ _ (set_txQ q m) (set_txQ q m) b) by (unfold openBlock; by rewrite Hb).
  rewrite (run_bind _ _ (set_txQ q m) (set_txQ q m) ((block_Update key value b).1, false)).
  - do 3 eexists. split; [done|]. split; [done|]. split; [done|]. split; [done|]. split; [done|]. cbn. set_solver.
  - unfold processTx, M_bind, M_gets, M_lift. cbn [outcome_bind]. change (config (set_txQ q m)) with (config m).
    rewrite Hproc. cbn [deref outcome_bind]. by rewrite Htx.
Qed.
End producing.
