(* ===== verification/PlatformWitnesses.v ===== *)
(** * Two nodes, run

    The witnesses of [PlatformTheorems] and [Produced]: concrete platforms
    over a block chain with a world state that exchange handshakes, produce a
    block and process it. *)

From Stdlib Require Import Strings.Byte.
From S2P Require Import Prelude Bytes Db Trie TrieSpec TrieFacts WorldState Concrete TrieTheorems WorldStateI Block BlockFacts BlockTheorems.
From S2P Require Import Consensus ConsensusFacts ConsensusTheorems Trustee TrusteeFacts TrusteeTheorems.
From S2P Require Import Peers PeersTheorems Platform PlatformFacts PlatformTheorems Produced.

(** ** Encoding of messages *)

#[global] Instance wire_handshake : Wire HandshakeMsg :=
  wire_iso (λ h, (hs_NetworkId h, hs_Genesis h, hs_ProtocolId h, hs_TotalWeight h, hs_TipNumeric h))
    (λ '(n, g, p, w, t), MkHandshake n g p w t) (λ h, match h with MkHandshake _ _ _ _ _ => eq_refl end).
#[global] Instance wire_hashesRequest : Wire GetBlockHashesRequestMsg :=
  wire_iso (λ r, (rq_ParentHash r, rq_MaxBlocks r)) (λ '(p, m), MkHashesRequest p m)
    (λ r, match r with MkHashesRequest _ _ => eq_refl end).

Section witnesses.
#[local] Existing Instances w_hash w_codec w_laws w_ops w_spec_codec w_cn_codec w_ops_codec w_sig_codec.
#[local] Existing Instances w_ops_codec_laws w_sig_codec_laws.
#[local] Instance w_rlp_spec : Rlp BlockSpec := rlp_of_wire.
#[local] Instance w_rlp_specs : Rlp (list BlockSpec) := rlp_of_wire.
#[local] Instance w_rlp_hash : Rlp Byte64 := rlp_of_wire.
#[local] Instance w_rlp_hashes : Rlp (list Byte64) := rlp_of_wire.
#[local] Instance w_rlp_handshake : Rlp HandshakeMsg := rlp_of_wire.
#[local] Instance w_rlp_request : Rlp GetBlockHashesRequestMsg := rlp_of_wire.
#[local] Instance w_rlp_spec_laws : RlpLaws BlockSpec := rlp_of_wire_laws.
#[local] Instance w_rlp_specs_laws : RlpLaws (list BlockSpec) := rlp_of_wire_laws.
#[local] Instance w_rlp_hash_laws : RlpLaws Byte64 := rlp_of_wire_laws.
#[local] Instance w_rlp_hashes_laws : RlpLaws (list Byte64) := rlp_of_wire_laws.
#[local] Instance w_rlp_handshake_laws : RlpLaws HandshakeMsg := rlp_of_wire_laws.
#[local] Instance w_rlp_request_laws : RlpLaws GetBlockHashesRequestMsg := rlp_of_wire_laws.

Abbreviation wdb := (gmap bytes bytes).
Abbreviation wc := (BlockChainConsensus MptWorldState * wdb)%type.
#[local] Instance w_engine : Engine wc wdb MptWorldState := chain_engine 10 3 w_range 0.
#[local] Instance w_engine_laws : EngineLaws wc wdb MptWorldState := chain_engine_laws 10 3 w_range 0.
Abbreviation wmgr := (platformManager (H:=sample_ecdsa) wc MptWorldState).

Definition w_env : env := Env 40 41 11 w_order w_nodes w_pick.
Lemma w_env_ok : env_ok w_env.
Proof. split; [exact w_pick_ok|]. split; [by intros m | exact w_order_ok]. Qed.

(** An application that sets a key once. *)
Definition w_proc : TxProcessor := λ tx,
  AppLookup [x61] (λ r, match r with
                        | Ok _ => AppReturn false
                        | Err _ => AppUpdate [x61] (Payload tx) (λ ok, AppReturn ok)
                        end).
Lemma w_proc_clean tx parent : rejects_cleanly parent (w_proc tx).
Proof. intros writes writes'. unfold w_proc. cbn [specApp]. destruct (view parent writes [x61]); cbn [specApp]; [by intros [= <-] | done]. Qed.

Definition w_app : AppConfig := MkApp (BytesToByte16 [x07]) [] [x6e] (BytesToByte16 [x08]).
Definition w_service (key : Z) : ServiceConfig (H:=sample_ecdsa) := MkService sample_ecdsa key (Some w_proc) None (Some (λ _, None)).
(** The id of a node, as the p2p server gives it *)
Definition w_self (key : byte) : bytes := replicate 64 key.

(** The state after a call that returns. *)
Definition after {A} (x : @M wc MptWorldState sample_ecdsa A) (m : wmgr) : wmgr :=
  match x m with Ret (m', _) => m' | _ => m end.
Definition returns {A} (x : @M wc MptWorldState sample_ecdsa A) (m : wmgr) : bool :=
  match x m with Ret _ => true | _ => false end.

Lemma after_eq {A} (x : @M wc MptWorldState sample_ecdsa A) m : returns x m = true → ∃ r, x m = Ret (after x m, r).
Proof. unfold returns, after. destruct (x m) as [[m' r]| |]; [by eexists | done..]. Qed.

Definition w_manager (key : Z) (self : bytes) : outcome (result wmgr) :=
  NewPlatformManager (Some w_app) (Some (w_service key)) (Some ∅) (Ok self).
Definition w_none : wmgr :=
  Mgr _ _ _ (MkConfig _ w_app (w_service 0) None []) (MkTrustee 0 [] (MkOp [] ∅)) (w_dead_chain, ∅) [] None
    NewPeerSetDbInMemory ∅ ∅ 0 false ∅ [] 0%N.
Definition w_node (key : Z) (self : bytes) : wmgr := match w_manager key self with Ret (Ok m) => m | _ => w_none end.

(** The nodes [a] and [b], connected to each other, and [b] to one more. *)
Definition w_a0 : wmgr := w_node 5 (w_self x05).
Definition w_b0 : wmgr := w_node 6 (w_self x06).

Lemma w_a0_eq : w_manager 5 (w_self x05) = Ret (Ok w_a0).
Proof.
  assert (match w_manager 5 (w_self x05) with Ret (Ok _) => true | _ => false end = true) as H by (vm_compute; reflexivity).
  unfold w_a0, w_node. destruct (w_manager 5 (w_self x05)) as [[m|]| |]; done.
Qed.

Definition w_hello (m : wmgr) : result Msg :=
  match en_BestBlock (engine m) with
  | Ret (_, Some best) => match getHandshakeMsg best m with
                          | Ret (_, hs) => match Encode hs with Ok p => Ok (MkMsg Handshake p) | Err e => Err e end
                          | _ => Err (StdError "panic")
                          end
  | _ => Err (StdError "panic")
  end.

Definition w_connect (r : ref) (self : bytes) (other : wmgr) : @M wc MptWorldState sample_ecdsa (block MptWorldState * option error) :=
  connect w_net r self (bytesToHexString self) [x70] (w_hello other).
Definition w_a1 : wmgr := after (w_connect 1 (w_self x06) w_b0) w_a0.
Definition w_b1 : wmgr := after (w_connect 2 (w_self x07) w_a0) (after (w_connect 1 (w_self x05) w_a0) w_b0).
Definition w_a2 : wmgr := after Start w_a1.
Definition w_a3 : wmgr := after (Submit w_env [x31] [] [x32]) w_a2.
Definition w_a4 : wmgr := after (produce w_net w_env false) w_a3.
Definition w_a5 : wmgr := after (produce w_net w_env true) w_a4.

(** What [a] announced, as [b] decodes it. *)
Definition w_announced : Msg :=
  match head (rev (sent w_a5)) with Some (_, msg) => msg | None => MkMsg 0 [] end.
Definition w_decoded : wmgr * block MptWorldState :=
  match M_engine (en_DecodeNetworkBlock w_announced) w_b1 with Ret (m, Ok b) => (m, b) | _ => (w_none, w_dead) end.
Definition w_b2 : wmgr := after (listen w_net w_env (Ok w_announced) 1%positive) w_b1.

(** The run: [a] mines one block, [b] accepts it and relays it to the third. *)
Lemma w_run_ok :
  bool_decide (Numeric (c_tip (engine w_b2).1) = Numeric (c_tip (engine w_a5).1) ∧
    map (λ x, (x.1, msg_Code x.2)) (sent w_a5) = [(1%positive, Handshake); (1%positive, NewBlock)] ∧
    map (λ x, (x.1, msg_Code x.2)) (sent w_b2) = [(1%positive, Handshake); (2%positive, Handshake); (2%positive, NewBlock)]) = true.
Proof. vm_compute. reflexivity. Qed.

(** *** Reachable states *)

Lemma w_connect_step (r : ref) (self : bytes) (other m : wmgr) :
  returns (w_connect r self other) m = true → bool_decide (heap m !! r = None) = true →
  plat_step w_net m (after (w_connect r self other) m).
Proof. intros [x Hx]%after_eq Hf%bool_decide_eq_true_1. by eapply step_connect. Qed.

Lemma w_a1_step : plat_step w_net w_a0 w_a1.
Proof. apply w_connect_step; vm_compute; reflexivity. Qed.
Lemma w_a2_step : plat_step w_net w_a1 w_a2.
Proof. destruct (after_eq Start w_a1) as [r Hr]; [vm_compute; reflexivity|]. by eapply step_start. Qed.
Lemma w_a3_step : plat_step w_net w_a2 w_a3.
Proof. destruct (after_eq (Submit w_env [x31] [] [x32]) w_a2) as [r Hr]; [vm_compute; reflexivity|]. by eapply step_submit. Qed.
Lemma w_a4_step : plat_step w_net w_a3 w_a4.
Proof.
  destruct (after_eq (produce w_net w_env false) w_a3) as [r Hr]; [vm_compute; reflexivity|].
  eapply step_produce; [exact w_env_ok | exact Hr].
Qed.
Lemma w_a4_reachable : rtc (plat_step w_net) w_a0 w_a4.
Proof.
  eapply rtc_l; [exact w_a1_step|]. eapply rtc_l; [exact w_a2_step|]. eapply rtc_l; [exact w_a3_step|].
  eapply rtc_l; [exact w_a4_step|]. reflexivity.
Qed.

Lemma platform_invariant_witness :
  ∃ m0, w_manager 5 (w_self x05) = Ret (Ok m0) ∧ rtc (plat_step w_net) m0 w_a4 ∧
    (isRunning w_a4 = true ↔ is_Some (blockProducer w_a4)).
Proof.
  exists w_a0. split; [exact w_a0_eq|]. split; [exact w_a4_reachable|].
  apply (platform_invariant (D:=wdb) w_net (Some w_app) (Some (w_service 5)) (Some ∅) (Ok (w_self x05)) w_a0 w_a4 w_a0_eq w_a4_reachable).
Defined.

Lemma w_a4_sent : ∃ to msg, (to, msg) ∈ sent w_a4.
Proof.
  assert (bool_decide (length (sent w_a4) = 1%nat) = true) as H%bool_decide_eq_true_1 by (vm_compute; reflexivity).
  destruct (sent w_a4) as [|[to msg] l]; [done|]. exists to, msg. left.
Qed.

Lemma sent_messages_are_typed_witness : ∃ to msg, (to, msg) ∈ sent w_a4 ∧ typed msg.
Proof.
  destruct w_a4_sent as (to & msg & Hin). exists to, msg. split; [exact Hin|].
  apply (sent_messages_are_typed (D:=wdb) w_net (Some w_app) (Some (w_service 5)) (Some ∅) (Ok (w_self x05)) w_a0 w_a4 to msg w_a0_eq w_a4_reachable Hin).
Defined.

Lemma w_a0_inv : plat_inv w_a0.
Proof. exact (NewPlatformManager_inv (D:=wdb) _ _ _ _ _ w_a0_eq). Qed.

Lemma w_b0_eq : w_manager 6 (w_self x06) = Ret (Ok w_b0).
Proof.
  assert (match w_manager 6 (w_self x06) with Ret (Ok _) => true | _ => false end = true) as H by (vm_compute; reflexivity).
  unfold w_b0, w_node. destruct (w_manager 6 (w_self x06)) as [[m|]| |]; done.
Qed.

Lemma w_b1_inv : plat_inv w_b1.
Proof.
  apply (plat_step_inv (D:=wdb) w_net (after (w_connect 1 (w_self x05) w_a0) w_b0)).
  - apply w_connect_step; vm_compute; reflexivity.
  - apply (plat_step_inv (D:=wdb) w_net w_b0); [apply w_connect_step; vm_compute; reflexivity|].
    exact (NewPlatformManager_inv (D:=wdb) _ _ _ _ _ w_b0_eq).
Qed.

(** *** Relaying *)

Lemma relayed_eq (o : outcome (wmgr * (block MptWorldState * option error))) :
  match o with Ret (_, (_, None)) => true | _ => false end = true → ∃ m' b', o = Ret (m', (b', None)).
Proof. destruct o as [[m' [b' [err|]]]| |]; [done | by eexists _, _ | done..]. Qed.

Lemma w_relayed_eq :
  ∃ m' b', processBlock w_net w_env w_decoded.2 1%positive w_decoded.1 = Ret (m', (b', None)).
Proof. apply relayed_eq. vm_compute. reflexivity. Qed.

Lemma w_decoded_inv : plat_inv w_decoded.1.
Proof.
  assert (match M_engine (en_DecodeNetworkBlock w_announced) w_b1 with Ret (_, Ok _) => true | _ => false end = true) as H
    by (vm_compute; reflexivity).
  pose proof (keeps_inv_engine (en_DecodeNetworkBlock w_announced) w_b1 w_b1_inv) as Hk. unfold wp in Hk. unfold w_decoded.
  destruct (M_engine (en_DecodeNetworkBlock w_announced) w_b1) as [[m [b|]]| |]; [|done..]. exact (Hk m (Ok b) eq_refl).
Qed.

Lemma accepted_block_relayed_once_witness :
  ∃ m' b' h targets, processBlock w_net w_env w_decoded.2 1%positive w_decoded.1 = Ret (m', (b', None)) ∧
    block_Hash b' = Some h ∧ (ItemHash h ∉ history w_decoded.1) ∧
    (targets ≡ₚ filter (.≠ 1%positive) (registered w_decoded.1)) ∧ sent m' = announce w_net (sent w_decoded.1) targets b'.
Proof.
  destruct w_relayed_eq as (m' & b' & E).
  destruct (accepted_block_relayed_once (D:=wdb) w_net w_env w_decoded.2 1%positive w_decoded.1 m' b' None w_env_ok w_decoded_inv E)
    as (h & targets & H1 & H2 & _ & H3 & H4).
  exists m', b', h, targets. split; [exact E|]. split; [exact H1|]. split; [exact H2|]. split; [exact H3 | exact H4].
Defined.

(** *** Handshakes *)

Definition w_zero : Byte8 := Uint64ToByte8 0.
Definition w_fresh_peer : wmgr := set_heap {[1%positive := NewPeerNode (w_self x06) (bytesToHexString (w_self x06)) [x70]]} w_a0.
Definition w_genesis : Byte64 := match cf_genesis (config w_a0) with Some g => g | None => null end.

Lemma w_genesis_eq : cf_genesis (config w_fresh_peer) = Some w_genesis.
Proof.
  assert (bool_decide (is_Some (cf_genesis (config w_a0))) = true) as [g Hg]%bool_decide_eq_true_1 by (vm_compute; reflexivity).
  change (cf_genesis (config w_a0) = Some w_genesis). unfold w_genesis. by rewrite Hg.
Qed.

(** A node of another network is refused. *)
Definition w_foreign : HandshakeMsg := MkHandshake (BytesToByte16 [x09]) w_genesis (BytesToByte16 [x08]) w_zero w_zero.

Lemma w_config_eq : ∃ v, sc_PeerValidator (cf_Service (config w_fresh_peer)) = Some v.
Proof.
  assert (bool_decide (is_Some (sc_PeerValidator (cf_Service (config w_a0)))) = true) as [g Hg]%bool_decide_eq_true_1 by (vm_compute; reflexivity).
  exists g. exact Hg.
Qed.

Lemma handshake_admits_exactly_witness : ∃ m' err, validateAndAdd w_foreign 1%positive w_fresh_peer = Ret (m', err).
Proof.
  destruct w_config_eq as [v Hv].
  destruct (handshake_admits_exactly w_foreign 1%positive w_fresh_peer (NewPeerNode (w_self x06) (bytesToHexString (w_self x06)) [x70])
    w_genesis v (lookup_insert_eq _ _ _) w_genesis_eq Hv) as (m' & err & H & _).
  exists m', err. exact H.
Defined.

(** *** Synchronization *)

Definition w_status (m : wmgr) (best : block MptWorldState) : HandshakeMsg :=
  match getHandshakeMsg best m with Ret (_, hs) => hs | _ => w_foreign end.

Lemma w_status_of best : getHandshakeMsg best w_fresh_peer = Ret (w_fresh_peer, w_status w_fresh_peer best).
Proof. unfold w_status, getHandshakeMsg, M_bind, M_gets, M_lift. cbn [outcome_bind]. by rewrite w_genesis_eq. Qed.

Definition w_peer_with (hs : HandshakeMsg) : peerNode := SetStatus hs (NewPeerNode [] [] []).

Lemma one_side_synchronizes_witness :
  ∃ r1 r2, isSyncNeeded w_block (w_peer_with (w_status w_fresh_peer w_hashed)) = Ret r1 ∧
    isSyncNeeded w_hashed (w_peer_with (w_status w_fresh_peer w_block)) = Ret r2 ∧ ¬ (r1 = true ∧ r2 = true).
Proof.
  destruct (one_side_synchronizes w_fresh_peer w_fresh_peer w_block w_hashed (w_peer_with (w_status w_fresh_peer w_hashed))
    (w_peer_with (w_status w_fresh_peer w_block)) w_fresh_peer w_fresh_peer _ _ (w_status_of w_block) (w_status_of w_hashed) eq_refl eq_refl)
    as (r1 & r2 & H1 & H2 & H3 & _).
  exists r1, r2. split; [exact H1|]. split; [exact H2 | exact H3].
Defined.

(** A peer that has gone, with answers [q] left in the channel. *)
Definition w_gone (q : list Z) : peerNode :=
  set_pn_LastHash (Some (BytesToByte64 [x01])) (set_pn_chans (Channel q true) (Channel [] true) (w_peer_with w_foreign)).
(** The consensus layer after it was asked for its best block *)
Definition w_asked : wc := match en_BestBlock (engine w_a0) with Ret (c, _) => c | _ => (w_dead_chain, ∅) end.
Definition w_gone_mgr (q : list Z) : wmgr := set_engine w_asked (set_heap {[1%positive := w_gone q]} w_a0).

Lemma w_gone_inv q : plat_inv (w_gone_mgr q).
Proof.
  destruct w_a0_inv as [_ _ Hr Hp Hs Hq]. split; [|..|exact Hr|exact Hp|exact Hs|exact Hq].
  - intros id r Hid. exfalso. assert (bool_decide (ps_nodes (peerDb w_a0) = ∅) = true) as He%bool_decide_eq_true_1 by (vm_compute; reflexivity).
    change (ps_nodes (peerDb w_a0) !! id = Some r) in Hid. rewrite He in Hid. by apply lookup_empty_Some in Hid.
  - assert (∀ k, peer_ok k (w_gone q)) as Hgone.
    { intros k. unfold peer_ok. change (pn_knownTxs (w_gone q)) with (∅ : gset item). split; [done|]. by intros a Ha%not_elem_of_empty. }
    intros r n Hnn. change (({[1%positive := w_gone q]} : peerHeap) !! r = Some n) in Hnn.
    apply lookup_singleton_Some in Hnn as [<- <-]. apply Hgone.
Qed.

Lemma w_gone_suspended q : isRunning (w_gone_mgr q) = false.
Proof.
  assert (isRunning w_a0 = false) as H by (vm_compute; reflexivity). exact H.
Qed.

(** Asking again changes nothing: the answers, and the state after them. *)
Definition same_answer {A} (ok : A → bool) (d : wdb) (o : outcome (wc * option A)) : bool :=
  match o with Ret (c, Some b) => bool_decide (c.2 = d) && ok b | _ => false end.

Lemma w_best_same : same_answer (λ _ : block MptWorldState, true) w_asked.2 (en_BestBlock w_asked) = true.
Proof. vm_compute. reflexivity. Qed.
Lemma w_candidate_same : same_answer (λ b : block MptWorldState, bool_decide (Uncles b = [])) w_asked.2 (en_NewCandidateBlock (e_now w_env) w_asked) = true.
Proof. vm_compute. reflexivity. Qed.

Lemma same_answer_eq {A} (ok : A → bool) (f : wdb → outcome (wdb * option A)) c :
  same_answer ok c.2 (on_db f c) = true → ∃ b, on_db f c = Ret (c, Some b) ∧ ok b = true.
Proof.
  unfold same_answer, on_db. destruct c as [c d]. cbn [fst snd]. destruct (f d) as [[d' [b|]]| |]; cbn [outcome_bind snd]; try done.
  intros [->%bool_decide_eq_true_1 Hok]%andb_true_iff. by exists b.
Qed.

Lemma best_same (c : wc) ok : same_answer ok c.2 (en_BestBlock c) = true → ∃ b, en_BestBlock c = Ret (c, Some b) ∧ ok b = true.
Proof. apply (same_answer_eq ok (BestBlock c.1) c). Qed.
Lemma candidate_same (c : wc) now ok :
  same_answer ok c.2 (en_NewCandidateBlock now c) = true → ∃ b, en_NewCandidateBlock now c = Ret (c, Some b) ∧ ok b = true.
Proof. apply (same_answer_eq ok (NewCandidateBlock now c.1) c). Qed.

Lemma same_answers (e : env) (c : wc) :
  same_answer (λ _ : block MptWorldState, true) c.2 (en_BestBlock c) = true →
  same_answer (λ b : block MptWorldState, bool_decide (Uncles b = [])) c.2 (en_NewCandidateBlock (e_now e) c) = true →
  answers e (λ c', c' = c).
Proof.
  intros (b1 & H1 & _)%best_same (b2 & H2 & Hu%bool_decide_eq_true_1)%candidate_same. split.
  - intros c' ->. by exists c, b1.
  - intros c' ->. exists c, b2. split; [exact H2|]. split; [done|]. rewrite Hu. by intros u c2 Hin%not_elem_of_nil.
Qed.
Lemma w_answers : answers w_env (λ c : wc, c = w_asked).
Proof. apply same_answers; [exact w_best_same | exact w_candidate_same]. Qed.

Lemma w_gone_peer q : sync_peer (w_gone q).
Proof. split; by eexists. Qed.

(** Other goroutines leave the manager alone, apart from starting production. *)
Definition w_others (i : nat) (m : wmgr) : wmgr := match blockProducer m with Some _ => m | None => set_blockProducer (Some newProducer) true m end.
Lemma w_others_spare P node i : spares_sync P node (w_others i).
Proof.
  split; unfold w_others; intros m; destruct (blockProducer m) eqn:E; try done.
  - intros [H1 H2 H3 H4 H5 H6]. split; cbn; [exact H1 | exact H2 | split; [by eexists | done] | by intros p [= <-] | exact H5 | exact H6].
  - intros nd H. by exists nd.
  - intros nd H. exists nd. split; [by destruct H; split | done].
Qed.

Lemma w_gone_closed q : closed_peer (w_gone_mgr q) 1%positive (w_gone q).
Proof. split; [apply lookup_insert_eq | apply w_gone_peer | done]. Qed.

Lemma sync_ends_after_disconnect_witness :
  ∃ m' err, syncRun w_net 1 w_others w_env 1%positive (w_gone_mgr [CHAN_NEXT]) = Ret (m', SyncReturned err).
Proof.
  destruct (sync_ends_after_disconnect (D:=wdb) w_net w_env (λ c, c = w_asked) w_others 1%positive (w_gone [CHAN_NEXT]) (w_gone_mgr [CHAN_NEXT]) 1 w_env_ok
    w_answers (w_others_spare _ _) (w_gone_inv _) eq_refl (w_gone_closed _) (le_n 1)) as (m' & err & H & _).
  exists m', err. exact H.
Defined.

Lemma failed_sync_leaves_production_suspended_witness :
  ∃ m' err, syncResume w_net w_env 1%positive (w_gone_mgr [CHAN_ERROR]) = Ret (m', SyncReturned (Some err)) ∧
    isRunning m' = false ∧ blockProducer m' = None.
Proof.
  destruct (failed_sync_leaves_production_suspended (D:=wdb) w_net w_env w_block 1%positive (w_gone_mgr [CHAN_ERROR]) w_env_ok (w_gone_inv _)) as [_ H].
  specialize (H (w_gone_suspended _) (w_gone [CHAN_ERROR]) CHAN_ERROR (Channel [] true) (lookup_insert_eq _ _ _) eq_refl).
  assert (∃ m', syncResume w_net w_env 1%positive (w_gone_mgr [CHAN_ERROR]) =
    Ret (m', SyncReturned (Some (CoreError ErrorSyncFailed "error processing sync protocol")))) as [m' Hrun].
  { unfold syncResume. rewrite (run_bind _ _ (w_gone_mgr [CHAN_ERROR]) (w_gone_mgr [CHAN_ERROR]) (w_gone [CHAN_ERROR])) by done. by eexists. }
  exists m', (CoreError ErrorSyncFailed "error processing sync protocol"). split; [exact Hrun | exact (H _ _ Hrun)].
Defined.

(** *** The producer and control *)

Lemma w_a4_inv : plat_inv w_a4.
Proof. exact (reachable_inv (D:=wdb) w_net _ _ w_a0_inv w_a4_reachable). Qed.

Lemma w_a4_block :
  ∃ p b, blockProducer w_a4 = Some p ∧ pr_newBlock p = Some b ∧ (1 < length (Transactions b))%nat.
Proof.
  assert (match blockProducer w_a4 with
          | Some p => match pr_newBlock p with Some b => bool_decide (1 < length (Transactions b))%nat | None => false end
          | None => false end = true) as H by (vm_compute; reflexivity).
  destruct (blockProducer w_a4) as [p|]; [|done]. exists p. destruct (pr_newBlock p) as [b|] eqn:Eb; [|done].
  exists b. apply bool_decide_eq_true_1 in H. by split.
Qed.

(** Mining the block of the producer returns. *)
Lemma w_a4_mined p b :
  blockProducer w_a4 = Some p → pr_newBlock p = Some b →
  ∃ c' b' res, en_MineCandidateBlockPoW b (sc_PowApprover (cf_Service (config w_a4))) (engine w_a4) = Ret (c', b', res).
Proof.
  assert (match blockProducer w_a4 with
          | Some p => match pr_newBlock p with
                      | Some b => match en_MineCandidateBlockPoW b (sc_PowApprover (cf_Service (config w_a4))) (engine w_a4) with
                                  | Ret _ => true | _ => false end
                      | None => false end
          | None => false end = true) as H by (vm_compute; reflexivity).
  revert H. generalize (sc_PowApprover (cf_Service (config w_a4))) (engine w_a4) (blockProducer w_a4). intros pw c bp H -> Hb.
  rewrite Hb in H. revert H. generalize (en_MineCandidateBlockPoW b pw c). intros [[[c' b'] res]| |] H; [by do 3 eexists|done..].
Qed.

Lemma pending_block_is_mined_or_buried_witness :
  ∃ m', produce w_net w_env true w_a4 = Ret (m', true) ∧ blockProducer m' = Some newProducer ∧ isRunning m' = true.
Proof.
  destruct w_a4_block as (p & b & Hp & Hb & Hlen). destruct (w_a4_mined p b Hp Hb) as (c' & b' & res & Hmine).
  destruct (pending_block_is_mined_or_buried (D:=wdb) w_net w_env w_a4 p b c' b' res w_env_ok w_a4_inv Hp Hb Hlen Hmine)
    as (m' & Hrun & _ & H1 & H2).
  exists m'. split; [exact Hrun|]. split; [exact H1 | exact H2].
Defined.

Lemma stop_blocks_when_suspended_witness : Stop None (w_gone_mgr []) = Ret (w_gone_mgr [], Blocked).
Proof.
  destruct (stop_blocks_when_suspended None (w_gone_mgr []) (w_gone_inv [])) as [H _].
  destruct (H (w_gone_suspended [])) as [H1 _]. exact H1.
Defined.

Definition w_listed : AppConfig := MkApp (BytesToByte16 [x07]) (x04 :: w_self x06) [x70] (BytesToByte16 [x08]).
Definition w_registered : wmgr := set_peerDb (PeerSetDb {[bytesToHexString (w_self x06) := 1%positive]} ∅) w_a0.

Lemma admitted_peer_cannot_be_disconnected_witness :
  Disconnect w_listed w_registered = Ret (w_registered, Some (CoreError ErrorNotFound "peer not found")).
Proof.
  apply (admitted_peer_cannot_be_disconnected w_registered w_listed (w_self x06)).
  - intros id r Hid. change (({[bytesToHexString (w_self x06) := 1%positive]} : gmap bytes ref) !! id = Some r) in Hid.
    apply lookup_singleton_Some in Hid as [<- _]. exists (w_self x06). split; reflexivity.
  - reflexivity.
  - reflexivity.
Defined.

Definition w_huge : GetBlockHashesRequestMsg := MkHashesRequest null (Uint64ToByte8 (2 ^ 64 - 1)).
Definition w_huge_msg : Msg := MkMsg GetBlockHashesRequest (enc w_huge).

Lemma w_huge_eq : Decode (A:=GetBlockHashesRequestMsg) (msg_Payload w_huge_msg) = Ok w_huge.
Proof. apply (decode_encode (A:=GetBlockHashesRequestMsg)). reflexivity. Qed.

Lemma huge_hashes_request_panics_witness : handleGetBlockHashesRequestMsg w_net w_huge_msg 1%positive w_a0 = Panic.
Proof.
  apply (huge_hashes_request_panics w_net 10 3 w_range 0 w_a0 w_huge_msg 1%positive w_huge w_huge_eq).
  apply (bool_decide_eq_true_1 (_ ≤ _)). vm_compute. reflexivity.
Defined.

(** *** A produced block at a peer *)

Definition w_mgr_on (key : Z) (t : trusteeImpl) : wmgr :=
  Mgr _ _ _ (MkConfig _ w_app (w_service key) None []) t (w_dead_chain, w_db) [] None NewPeerSetDbInMemory ∅ ∅ 0 false ∅ [] 0%N.
Definition w_pm : wmgr := w_mgr_on 5 w_trustee.
Definition w_pm' : wmgr := w_mgr_on 6 (MkTrustee 6 [] (MkOp [] ∅)).
Definition w_open : block MptWorldState := newBlock 0 null 1 1 9 7 (myAddress w_trustee) (Some w_ws).

#[local] Instance w_tx_eq_dec : EqDecision Transaction.
Proof. solve_decision. Defined.

(** Opening, filling and mining the block *)
Definition w_opened : option (block MptWorldState * Transaction) :=
  match NewMiningRewardTx w_order 41 11 w_trustee w_open w_db with Ret (b, Some tx) => Some (b, tx) | _ => None end.
Definition w_fill (b : block MptWorldState) : option (block MptWorldState * block MptWorldState) :=
  match runApp (w_proc w_tx) (MkNetTx _ w_tx b) w_db with
  | Ret (t, true) => match AddTransaction w_tx (nt_block t) w_db with Ret (b', None) => Some (nt_block t, b') | _ => None end
  | _ => None
  end.
(** The same transaction once more: the application rejects it, as the key is set. *)
Definition w_refill (b : block MptWorldState) : option (block MptWorldState) :=
  match runApp (w_proc w_tx) (MkNetTx _ w_tx b) w_db with Ret (t, false) => Some (nt_block t) | _ => None end.
Definition w_fillup (b : block MptWorldState) : option (block MptWorldState * block MptWorldState * block MptWorldState) :=
  match w_fill b with Some (b', b'') => match w_refill b'' with Some b3 => Some (b', b'', b3) | None => None end | None => None end.
Definition w_filled : block MptWorldState :=
  match w_opened with Some (b, _) => match w_fillup b with Some (_, _, b') => b' | None => w_dead end | None => w_dead end.
Lemma opened_eq (o : option (block MptWorldState * Transaction)) :
  match o with Some (b, tx) => bool_decide (Transactions b = [tx]) && bool_decide (is_Some (w_fillup b)) | None => false end = true →
  ∃ b1 rtx b2 b3 b4, o = Some (b1, rtx) ∧ Transactions b1 = [rtx] ∧ w_fillup b1 = Some (b2, b3, b4).
Proof.
  destruct o as [[b1 rtx]|]; [|done]. intros [Htx%bool_decide_eq_true_1 [[[b2 b3] b4] Hf]%bool_decide_eq_true_1]%andb_true_iff.
  by exists b1, rtx, b2, b3, b4.
Qed.

Lemma w_process_eq b t ok : runApp (w_proc w_tx) (MkNetTx _ w_tx b) w_db = Ret (t, ok) → processTx w_tx b w_pm = Ret (w_pm, (nt_block t, ok)).
Proof.
  intros Er. unfold processTx, M_bind, M_gets, M_lift. cbn [outcome_bind].
  change (sc_TxProcessor (cf_Service (config w_pm))) with (Some w_proc). cbn [deref outcome_bind].
  change (en_db (engine w_pm)) with w_db. by rewrite Er.
Qed.

Lemma fill_eq b b2 b3 b4 : w_fillup b = Some (b2, b3, b4) → fills w_pm b [w_tx] [(false, w_tx)] b4.
Proof.
  unfold w_fillup, w_fill, w_refill. destruct (runApp (w_proc w_tx) (MkNetTx _ w_tx b) w_db) as [[t [|]]| |] eqn:Er; try done.
  destruct (AddTransaction w_tx (nt_block t) w_db) as [[b' [e|]]| |] eqn:Ea; try done.
  destruct (runApp (w_proc w_tx) (MkNetTx _ w_tx b') w_db) as [[t' [|]]| |] eqn:Er'; try done. intros [= <- <- <-].
  eapply fills_accept; [by apply w_process_eq | exact Ea|]. eapply fills_reject; [by apply w_process_eq | constructor].
Qed.

Lemma reward_eq (o : outcome (block MptWorldState * option Transaction)) b tx :
  match o with Ret (b, Some tx) => Some (b, tx) | _ => None end = Some (b, tx) → o = Ret (b, Some tx).
Proof. destruct o as [[b' [tx'|]]| |]; intros [=]; by subst. Qed.

Lemma w_opened_eq :
  ∃ b1 rtx, NewMiningRewardTx w_order 41 11 w_trustee w_open w_db = Ret (b1, Some rtx) ∧ Transactions b1 = [rtx] ∧ fills w_pm b1 [w_tx] [(false, w_tx)] w_filled.
Proof.
  destruct (opened_eq w_opened) as (b1 & rtx & b2 & b3 & b4 & Ho & Htx & Hf); [vm_compute; reflexivity|].
  exists b1, rtx. split; [by apply reward_eq|]. split; [exact Htx|].
  unfold w_filled. rewrite Ho, Hf. by apply (fill_eq b1 b2 b3).
Qed.

Lemma sealed_eq (o : outcome (wdb * block MptWorldState * option Byte64)) :
  match o with Ret (_, _, Some _) => true | _ => false end = true → ∃ d b h, o = Ret (d, b, Some h).
Proof. destruct o as [[[d b] [h|]]| |]; [by eexists _, _, _ | done..]. Qed.

Lemma w_sealed_eq : ∃ d1 b3 h, computeHash 3 w_range (set_pow None w_filled) w_db = Ret (d1, b3, Some h).
Proof. apply sealed_eq. vm_compute. reflexivity. Qed.

Definition wp_trees : list tree := trees t_empty (w_range (variables w_filled)).
Definition wp_U : content → Prop := U_of wp_trees.

Lemma wp_universe : universe wp_U.
Proof. apply universe_b_sound. vm_compute. reflexivity. Qed.

Lemma wp_start : db_ok wp_U w_db ∧ repr w_db w_ws t_empty.
Proof.
  destruct (NewMptWorldState_refines wp_U ∅ wp_universe (db_ok_empty _)) as (d & ws & Heq & Hr & Hd & _).
  { apply (U_of_covered wp_trees t_empty) with []; [apply trees_head | done]. }
  unfold w_db, w_ws. by rewrite Heq.
Qed.

Lemma wp_covers : covers wp_U t_empty (w_range (variables w_filled)).
Proof. apply covers_trees. by intros x Hx. Qed.

(** The block as a peer decodes it *)
Definition w_incoming (b : block MptWorldState) : block MptWorldState :=
  Block MptWorldState (Spec b) [] None (Some w_ws) None true ∅ ∅.

Lemma w_dropped_clean : cleanly_dropped (content_answers ∅) w_proc [(false, w_tx)].
Proof. constructor; [apply (w_proc_clean w_tx) | constructor]. Qed.

Lemma produced_block_passes_peer_witness :
  ∃ b3 nb1 nb2, VerifyMiningRewardTx w_order' (w_incoming b3) w_db = Ret (nb1, true) ∧
    processTxs (tail (Transactions (w_incoming b3))) nb1 w_pm' = Ret (w_pm', (nb2, true)).
Proof.
  destruct w_opened_eq as (b1 & rtx & Hopen & Htx & Hfill). destruct w_sealed_eq as (d1 & b3 & h & Hmine). exists b3.
  assert (produced 0 w_pm None w_ws w_range w_open w_filled [w_tx] [(false, w_tx)] b3 h) as Hprod.
  { split; [by repeat split; [..|eexists] | done | done | done | constructor | | by exists 3%nat, d1].
    exists w_order, 41, 11, b1, rtx. split; [exact w_order_ok|]. split; [exact Hopen|]. by split. }
  assert (received (D:=wdb) 0 w_open b3 w_ws (w_incoming b3)) as Hrec by by split.
  destruct (produced_block_passes_peer (C:=wc) (ec:=sample_ecdsa) (eng:=w_engine) 0 wp_U t_empty ∅ w_pm w_pm' w_proc 5 None w_ws w_ws w_range w_range' w_order'
    w_open w_filled [w_tx] [(false, w_tx)] b3 h (w_incoming b3) 0 wp_universe (proj1 wp_start) (proj1 wp_start) (proj2 wp_start) (proj2 wp_start) models_empty
    w_range_ok w_range_ok' w_order_ok' eq_refl eq_refl eq_refl w_dropped_clean Hprod wp_covers Hrec) as (nb1 & nb2 & H1 & H2 & _).
  exists nb1, nb2. split; [exact H1 | exact H2].
Defined.
(** *** A rejected transaction *)

(** An application that writes before it rejects. *)
Definition w_rej_proc : TxProcessor := λ tx, AppUpdate [x61] [x62] (λ _, AppReturn false).
Definition w_rej_service : ServiceConfig (H:=sample_ecdsa) := MkService sample_ecdsa 5 (Some w_rej_proc) None (Some (λ _, None)).
Definition w_rej0 : wmgr :=
  match NewPlatformManager (Some w_app) (Some w_rej_service) (Some ∅) (Ok (w_self x05)) with Ret (Ok m) => m | _ => w_none end.
Definition w_rej1 : wmgr := after (produce w_net w_env false) (after (Submit w_env [x31] [] [x32]) (after Start w_rej0)).
Definition w_rej2 : wmgr := after (Submit w_env [x33] [] [x32]) w_rej1.

Lemma w_rej2_shape :
  match blockProducer w_rej2, txQ w_rej2 with Some p, [_] => bool_decide (is_Some (pr_newBlock p)) | _, _ => false end = true.
Proof. vm_compute. reflexivity. Qed.
Lemma w_rej2_proc : sc_TxProcessor (cf_Service (config w_rej2)) = Some w_rej_proc.
Proof. vm_compute. reflexivity. Qed.

Lemma rejected_transaction_leaves_writes_witness :
  ∃ m' p' b', produce w_net w_env false w_rej2 = Ret (m', true) ∧ blockProducer m' = Some p' ∧ pr_newBlock p' = Some b' ∧
    variables b' !! [x61] = Some (Some [x62]).
Proof.
  pose proof w_rej2_shape as H. destruct (blockProducer w_rej2) as [p|] eqn:Hp; [|done].
  destruct (txQ w_rej2) as [|tx [|]] eqn:Hq; [done| |done]. apply bool_decide_eq_true_1 in H as [b Hb].
  destruct (rejected_transaction_leaves_writes (D:=wdb) (eng:=w_engine) w_net w_env w_rej2 p b tx [] w_rej_proc [x61] [x62]
    Hp Hb Hq w_rej2_proc eq_refl) as (m' & p' & b' & Hrun & Hp' & Hb' & Hv & _).
  exists m', p', b'. split; [exact Hrun|]. split; [exact Hp'|]. split; [exact Hb'|]. rewrite Hv. apply lookup_insert_eq.
Defined.
End witnesses.
