(* ===== verification/SyncTheorems.v ===== *)
(** * A round of synchronization between two nodes

    The handlers of both nodes composed over the block-chain consensus: what a
    node that is behind receives for its request are the blocks of the other
    node's main list after the block it asked for, uncles before the block that
    has them, as many as fit the limit. *)

From Stdlib Require Import Strings.Byte.
From S2P Require Import Prelude Bytes Db StoreTheorems TrieTheorems WorldStateI Block BlockTheorems MainList Consensus ConsensusFacts ConsensusTheorems HistoryFacts HistoryTheorems.
From S2P Require Import Trustee TrusteeTheorems Peers PeersTheorems Platform PlatformFacts PlatformTheorems PlatformWitnesses Concrete Trie.

(** ** As many chunks as fit *)

Lemma greedy_prefix {A} max (chunks : list (list A)) : ∀ acc, ∃ k, (k ≤ length chunks)%nat ∧
  greedy max acc chunks = acc ++ concat (take k chunks) ∧
  (Z.of_nat (length acc) ≤ max → Z.of_nat (length (greedy max acc chunks)) ≤ max) ∧
  ∀ c, chunks !! k = Some c → max < Z.of_nat (length (greedy max acc chunks) + length c).
Proof.
  induction chunks as [|c chunks IH]; intros acc; cbn [greedy].
  - exists 0%nat. rewrite app_nil_r. by split_and!.
  - case_decide as Hfit.
    + destruct (IH (acc ++ c)) as (k & Hk & Heq & Hle & Hmax). exists (S k). cbn [take concat length].
      split_and!; [lia | by rewrite Heq, <- app_assoc | intros _; apply Hle; rewrite length_app; lia | done].
    + exists 0%nat. rewrite app_nil_r. split_and!; [simpl; lia | done..|]. intros c' [= <-]. lia.
Qed.

Section round.
Context {D W : Type} {dbo : Database D} {dbl : DatabaseLaws D}.
Context {wso : WorldState W D} {wsl : WorldStateLaws W D} {sep : ChainSeparate W D} {sha : Sha512} {ec : Ecdsa}.
Context {cdn : Codec chainNode} {cdnl : CodecLaws chainNode} {cds : Codec BlockSpec} {cdsl : CodecLaws BlockSpec}.
Context {cop : Codec (list Op)} {csg : Codec signature}.
Context {rls : Rlp BlockSpec} {rlss : Rlp (list BlockSpec)} {rlh : Rlp Byte64} {rlhs : Rlp (list Byte64)}.
Context {rlhm : Rlp HandshakeMsg} {rlrq : Rlp GetBlockHashesRequestMsg}.
Context {rlssl : RlpLaws (list BlockSpec)} {rlhsl : RlpLaws (list Byte64)} {rlrql : RlpLaws GetBlockHashesRequestMsg}.
Context (fuel attempts : nat) (range : ranger) (now : Z).
#[local] Instance engine_of_chain : Engine (BlockChainConsensus W * D) D W := chain_engine fuel attempts range now.
Abbreviation mgr := (platformManager (BlockChainConsensus W * D) W).
Implicit Types (d : D) (c : BlockChainConsensus W) (m : mgr) (b : block W).

(** ** Blocks that can be served *)

(** A hash with its stored block *)
Definition stored_as d (y : Byte64) b : Prop := hash b = Some y ∧ getBlock y d = Ok b.

(** Its world state is stored as well. *)
Definition state_known d b : Prop := ws_known (W:=W) (STATE (spec b)) d.
Definition serves d (y : Byte64) b : Prop := stored_as d y b ∧ state_known d b.

Lemma stored_serves d hs bs : Forall2 (stored_as d) hs bs → Forall (state_known d) bs → Forall2 (serves d) hs bs.
Proof. intros H1. induction H1 as [|y b hs bs Hb _ IH]; intros Hk; inversion Hk; subst; constructor; [done | by apply IH]. Qed.

Lemma chain_Block_serves y b d : serves d y b →
  ∃ d', chain_Block y d = Ret (d', Ok b) ∧ ∀ y' b', serves d y' b' → serves d' y' b'.
Proof.
  intros [[_ Hget] Hk]. unfold chain_Block. rewrite Hget.
  destruct (ws_new_ok d) as [w Hw]. destruct (ws_New d) as [d1 o] eqn:Hnew. simpl in Hw. subst o. cbn [deref outcome_bind].
  assert (∀ h, ws_known (W:=W) h d → ws_known (W:=W) h d1) as Hk1.
  { intros h Hh. pose proof (ws_new_known h d Hh) as H1. by rewrite Hnew in H1. }
  destruct (ws_rebase_known w (STATE (spec b)) d1 (Hk1 _ Hk)) as [Hok _].
  pose proof (λ h H, ws_rebase_keeps h w (STATE (spec b)) d1 H) as Hk2.
  destruct (ws_Rebase w (STATE (spec b)) d1) as [[d2 w2] e] eqn:Hreb. simpl in Hok, Hk2. subst e.
  exists d2. split; [done|]. intros y' b' [[H1 H2] H3]. split; [|by apply Hk2, Hk1]. split; [done|].
  eapply getBlock_contents; [|done]. apply same_chain_blocks. by eapply new_rebase_frame.
Qed.

Lemma collectBlocks_serves hs bs : ∀ m c d, engine m = (c, d) → Forall2 (serves d) hs bs →
  ∃ d', collectBlocks hs m = Ret (set_engine (c, d') m, map Spec bs).
Proof.
  revert bs. induction hs as [|y hs IH]; intros bs m c d Hm Hall; inversion Hall as [|? b ? bs' Hb Hrest]; subst; cbn [collectBlocks].
  - exists d. rewrite <- Hm. by destruct m.
  - destruct (chain_Block_serves y b d Hb) as (d1 & Hblk & Hkeep).
    assert (M_engine (en_Block y) m = Ret (set_engine (c, d1) m, Ok b)) as Heng.
    { unfold M_engine. rewrite Hm. unfold en_Block. simpl. unfold on_db. cbn [fst snd]. by rewrite Hblk. }
    rewrite (run_bind _ _ _ _ _ Heng).
    destruct (IH bs' (set_engine (c, d1) m) c d1 eq_refl) as (d' & Hrun); [by eapply Forall2_impl; [apply Hkeep|]|].
    rewrite (run_bind _ _ _ _ _ Hrun). by exists d'.
Qed.

Lemma blockHashes_stored d hs bs : Forall2 (stored_as d) hs bs → blockHashes bs = Ret hs.
Proof.
  induction 1 as [|y b hs bs [Hh _] _ IH]; [done|]. cbn [blockHashes]. unfold block_Hash. rewrite Hh. cbn [deref outcome_bind].
  by rewrite IH.
Qed.

(** ** What is served *)

Section served.
Context (g : Byte64) (d : D) (Hl : ledger (W:=W) g d).

Lemma readAll_stored us : (∀ u, u ∈ us → is_Some (nodes d u)) → Forall2 (stored_as d) us (readAll us d).
Proof.
  induction us as [|u us IH]; intros Hu; cbn [readAll omap list_omap]; [constructor|].
  destruct (Hu u ltac:(by left)) as [n Hn]. destruct (Hl u n Hn) as [b [Hb Hh _ _ _]]. rewrite Hb. cbn [result_opt].
  constructor; [done | apply IH; intros v Hv; apply Hu; by right].
Qed.

(** The hashes that are sent for a block of the main list *)
Definition hashesWithUncles (y : Byte64) : list Byte64 :=
  match getBlock (W:=W) y d with Ok b => Uncles b ++ [y] | Err _ => [] end.

Lemma withUncles_stored y : is_Some (nodes d y) → Forall2 (stored_as d) (hashesWithUncles y) (withUncles d y).
Proof.
  intros [n Hn]. destruct (Hl y n Hn) as [b [Hb Hh _ Hu _]]. unfold hashesWithUncles, withUncles. rewrite Hb.
  apply Forall2_app; [by apply readAll_stored|]. by constructor.
Qed.

Lemma chunks_stored ys : Forall (λ y, is_Some (nodes d y)) ys →
  Forall2 (stored_as d) (concat (map hashesWithUncles ys)) (concat (map (withUncles d) ys)).
Proof.
  induction 1 as [|y ys Hy _ IH]; cbn [map concat]; [constructor|]. apply Forall2_app; [by apply withUncles_stored | done].
Qed.
End served.

(** ** The round *)

Context (net : list (ref * Msg) → ref → Msg → option error).

Lemma Send_ok {A} `{Rlp A} to code (x : A) p m : net (sent m) to (MkMsg code p) = None → Encode x = Ok p →
  Send net to code x m = Ret (set_sent (sent m ++ [(to, MkMsg code p)]) m, None).
Proof. intros Hnet Henc. unfold Send. by rewrite Henc, Hnet. Qed.

(** What is sent for a request about a block [b] with [l2] after it on the main
    list: the uncles of [b], and the first [k] blocks of [l2] with theirs *)
Definition batch d b (l2 : list Byte64) (k : nat) : list (block W) :=
  readAll (Uncles b) d ++ concat (map (withUncles d) (take k l2)).

Lemma descendants_batch d b l2 max : Z.of_nat (length (Uncles b)) < max → length (readAll (W:=W) (Uncles b) d) = length (Uncles b) →
  ∃ k, (k ≤ length l2)%nat ∧ descendants_ref d l2 max b = batch d b l2 k ∧ Z.of_nat (length (batch d b l2 k)) ≤ max ∧
    ∀ z, l2 !! k = Some z → max < Z.of_nat (length (batch d b l2 k) + length (withUncles (W:=W) d z)).
Proof.
  intros Hfit Hlen. unfold descendants_ref. rewrite decide_True by done.
  destruct (greedy_prefix max (map (withUncles (W:=W) d) l2) (readAll (W:=W) (Uncles b) d)) as (k & Hk & Heq & Hle & Hmax). rewrite length_map in Hk.
  exists k. split; [done|]. unfold batch.
  assert (take k (map (withUncles (W:=W) d) l2) = map (withUncles (W:=W) d) (take k l2)) as Htake by (symmetry; apply fmap_take).
  rewrite Htake in Heq. split; [done|]. split; [rewrite <- Heq; apply Hle; lia|]. intros z Hz. rewrite <- Heq. apply Hmax. by rewrite (list_lookup_fmap (withUncles (W:=W) d) l2 k), Hz.
Qed.

Lemma hashes_request_served e g c d tip L l1 x l2 n payload b m peer :
  engine m = (c, d) → chain_inv g d c → ledger (W:=W) g d → hash (c_tip c) = Some tip → path (nodes d) g tip L →
  L = l1 ++ x :: l2 → (length l2 + 2 ≤ fuel)%nat → getBlock x d = Ok b →
  Encode (MkHashesRequest x n) = Ok payload → Uint64 n < 2 ^ 63 → Z.of_nat (length (Uncles b)) < Z.min (Uint64 n) maxBlocks →
  ∃ k hs, (k ≤ length l2)%nat ∧ descendants_ref d l2 (Z.min (Uint64 n) maxBlocks) b = batch d b l2 k ∧ Forall2 (stored_as d) hs (batch d b l2 k) ∧ length (readAll (W:=W) (Uncles b) d) = length (Uncles b) ∧
    Z.of_nat (length (batch d b l2 k)) ≤ Z.min (Uint64 n) maxBlocks ∧
    (∀ z, l2 !! k = Some z → Z.min (Uint64 n) maxBlocks < Z.of_nat (length (batch d b l2 k) + length (withUncles (W:=W) d z))) ∧
    listen net e (Ok (MkMsg GetBlockHashesRequest payload)) peer m =
      if decide (hs = []) then Send net peer GetBlockHashesRewind (BytesToByte64 []) m else Send net peer GetBlockHashesResponse hs m.
Proof.
  intros Hm [_ HF (tip' & L' & nt & Ht' & Hp' & Hfl & _) _ _] Hl Ht Hp HL Hfuel Hb Henc Hn Hfit.
  assert (tip' = tip) as -> by congruence. assert (L' = L) as -> by (by eapply path_unique).
  pose proof (Uint64_range n) as Hr. unfold is_u64 in Hr.
  destruct (Descendents_greedy g d tip L HF Hl Hp Hfl fuel (Uint64 n) l1 x l2 HL ltac:(lia) Hfuel) as (b' & Hb' & Hdesc).
  assert (b' = b) as -> by congruence.
  assert (Hsome : ∀ y, y ∈ L → is_Some (nodes d y)) by (intros y Hy; eapply path_some; [apply (f_root _ _ HF) | exact Hp | done]).
  assert (is_Some (nodes d x)) as [nx Hnx] by (apply Hsome; rewrite HL; apply elem_of_app; right; left).
  destruct (Hl x nx Hnx) as [b0 [Hb0 _ _ Hu _]]. assert (b0 = b) as -> by congruence.
  pose proof (readAll_stored g d Hl (Uncles b) Hu) as Hus. pose proof (Forall2_length Hus) as Hlen.
  destruct (descendants_batch d b l2 (Z.min (Uint64 n) maxBlocks) Hfit (eq_sym Hlen)) as (k & Hk & Heq & Hle & Hmax).
  exists k, (Uncles b ++ concat (map (hashesWithUncles d) (take k l2))).
  assert (Forall2 (stored_as d) (Uncles b ++ concat (map (hashesWithUncles d) (take k l2))) (batch d b l2 k)) as Hall.
  { apply Forall2_app; [done|]. apply (chunks_stored g d Hl). apply Forall_forall. intros y Hy%list_elem_of_In%elem_of_take.
    apply Hsome. rewrite HL. apply elem_of_app. right. right. destruct Hy as (i & Hi & _). by eapply list_elem_of_lookup_2. }
  set (hs := Uncles b ++ _) in *. do 6 (split; [done|]).
  unfold listen. rewrite decide_True by done. unfold handleGetBlockHashesRequestMsg. cbn [msg_Payload].
  rewrite (decode_encode _ _ Henc). cbn [rq_ParentHash rq_MaxBlocks]. unfold to_int. rewrite decide_True by done.
  assert (M_query (en_Descendents x (Uint64 n)) m = Ret (m, (batch d b l2 k, None))) as Hq.
  { unfold M_query. rewrite Hm. unfold en_Descendents. simpl. by rewrite Hdesc, Heq. }
  rewrite (run_bind _ _ _ _ _ Hq). pose proof (Forall2_length Hall) as Hlen2. destruct (decide (hs = [])) as [E|E].
  - rewrite decide_True; [done|]. rewrite E in Hlen2. simpl in Hlen2. lia.
  - rewrite decide_False by (destruct hs; [done|]; simpl in Hlen2; lia).
    assert (M_lift (blockHashes (batch d b l2 k)) m = Ret (m, hs)) as Hh by (unfold M_lift; by rewrite (blockHashes_stored d hs _ Hall)).
    by rewrite (run_bind _ _ _ _ _ Hh).
Qed.

(** C16: A round of synchronization over the handlers of both nodes: a request, with a limit
    below 2^63, for the blocks after a block of the main list, not its last, of a well-formed
    chain leads, through the hashes and the request for blocks, to an answer that decodes to
    exactly the uncles of that block and the next blocks of the main list, each after its
    uncles, at least one and as many as fit the limit; provided the uncles of that block and the
    next block with its uncles fit the limit together, the states of the delivered blocks are
    known, messages encode and are delivered, and the fuel is at least the length of the rest of
    the list plus two. *)
Theorem sync_round_delivers_main_list e e' g c d tip L l1 x z l2 n payload b ms mc peer peer' :
  engine ms = (c, d) → chain_inv g d c → ledger (W:=W) g d → hash (c_tip c) = Some tip → path (nodes d) g tip L →
  L = l1 ++ x :: z :: l2 → (length l2 + 3 ≤ fuel)%nat → getBlock x d = Ok b →
  Encode (MkHashesRequest x n) = Ok payload → Uint64 n < 2 ^ 63 →
  Z.of_nat (length (Uncles b) + length (withUncles (W:=W) d z)) ≤ Z.min (Uint64 n) maxBlocks →
  Forall (state_known d) (descendants_ref d (z :: l2) (Z.min (Uint64 n) maxBlocks) b) →
  (∀ log to msg, net log to msg = None) → (∀ hs : list Byte64, is_ok (Encode hs)) → (∀ specs : list BlockSpec, is_ok (Encode specs)) →
  ∃ k p1 p2 p3 ms1 mc1 ms2, let bs := batch d b (z :: l2) k in
    listen net e (Ok (MkMsg GetBlockHashesRequest payload)) peer ms = Ret (ms1, None) ∧
      sent ms1 = sent ms ++ [(peer, MkMsg GetBlockHashesResponse p1)] ∧
    listen net e' (Ok (MkMsg GetBlockHashesResponse p1)) peer' mc = Ret (mc1, None) ∧
      sent mc1 = sent mc ++ [(peer', MkMsg GetBlocksRequest p2)] ∧
    listen net e (Ok (MkMsg GetBlocksRequest p2)) peer ms1 = Ret (ms2, None) ∧
      sent ms2 = sent ms1 ++ [(peer, MkMsg GetBlocksResponse p3)] ∧
    Decode p3 = Ok (map Spec bs) ∧ (0 < k ≤ length (z :: l2))%nat ∧ Z.of_nat (length bs) ≤ Z.min (Uint64 n) maxBlocks ∧
    ∀ y, (z :: l2) !! k = Some y → Z.min (Uint64 n) maxBlocks < Z.of_nat (length bs + length (withUncles (W:=W) d y)).
Proof.
  intros Hm Hinv Hl Ht Hp HL Hfuel Hb Henc Hn Hfit Hst Hnet Hok1 Hok2.
  assert (Hwz : (0 < length (withUncles (W:=W) d z))%nat).
  { pose proof Hinv as [_ HF _ _ _]. assert (is_Some (nodes d z)) as [nz Hz].
    { eapply path_some; [apply (f_root _ _ HF) | exact Hp|]. rewrite HL. apply elem_of_app. right. right. left. }
    destruct (Hl z nz Hz) as [bz [Hbz _ _ _ _]]. unfold withUncles. rewrite Hbz, length_app. simpl. lia. }
  destruct (hashes_request_served e g c d tip L l1 x (z :: l2) n payload b ms peer Hm Hinv Hl Ht Hp HL ltac:(simpl; lia) Hb Henc Hn ltac:(lia))
    as (k & hs & Hk & Hbatch & Hall & Hus & Hle & Hmax & Hreq). rewrite Hbatch in Hst.
  assert (Hlen : length hs = length (batch d b (z :: l2) k)) by (by eapply Forall2_length).
  assert (Hk0 : (0 < k)%nat).
  { destruct k; [|lia]. specialize (Hmax z eq_refl). unfold batch in Hmax. cbn [take map concat] in Hmax. rewrite app_nil_r in Hmax.
    lia. }
  assert (Hne : hs ≠ []).
  { intros E. rewrite E in Hlen. unfold batch in Hlen. destruct k as [|k]; [lia|]. cbn [take map concat length] in Hlen. rewrite !length_app in Hlen. lia. }
  rewrite decide_False in Hreq by done.
  destruct (Encode hs) as [p|] eqn:Ep; [|specialize (Hok1 hs); by rewrite Ep in Hok1].
  destruct (Encode (map Spec (batch d b (z :: l2) k))) as [p3|] eqn:Ep3; [|specialize (Hok2 (map Spec (batch d b (z :: l2) k))); by rewrite Ep3 in Hok2].
  rewrite (Send_ok peer GetBlockHashesResponse hs p ms (Hnet _ _ _) Ep) in Hreq.
  set (ms1 := set_sent _ ms) in Hreq. destruct (collectBlocks_serves hs _ ms1 c d Hm (stored_serves _ _ _ Hall Hst)) as (d' & Hcol).
  exists k, p, p, p3, ms1, (set_sent (sent mc ++ [(peer', MkMsg GetBlocksRequest p)]) mc),
    (set_sent (sent ms1 ++ [(peer, MkMsg GetBlocksResponse p3)]) (set_engine (c, d') ms1)).
  split; [exact Hreq|]. split; [done|]. split.
  { unfold listen. rewrite decide_False, decide_True by done. unfold handleGetBlockHashesResponseMsg. cbn [msg_Payload].
    rewrite (decode_encode _ _ Ep), decide_False by (destruct hs; [done | simpl; lia]).
    by rewrite (run_bind _ _ _ _ _ (Send_ok peer' GetBlocksRequest hs p mc (Hnet _ _ _) Ep)). }
  split; [done|]. split.
  { unfold listen. do 3 rewrite decide_False by done. rewrite decide_True by done. unfold handleGetBlocksRequestMsg. cbn [msg_Payload].
    rewrite (decode_encode _ _ Ep), decide_False by (destruct hs; [done | simpl; lia]). rewrite (run_bind _ _ _ _ _ Hcol).
    rewrite decide_False by (rewrite length_map, <- Hlen; destruct hs; [done | simpl; lia]).
    by rewrite (Send_ok peer GetBlocksResponse _ p3 _ (Hnet _ _ _) Ep3). }
  split; [done|]. split; [by apply decode_encode|]. by split.
Qed.

(** When a block and the next one have too many uncles together, the answer to a request for the
    blocks after it holds uncles that the asking node has already, and no block of the main
    list. *)
Theorem sync_batch_can_stall e g c d tip L l1 x z l2 n payload b m peer :
  engine m = (c, d) → chain_inv g d c → ledger (W:=W) g d → hash (c_tip c) = Some tip → path (nodes d) g tip L →
  L = l1 ++ x :: z :: l2 → (length l2 + 3 ≤ fuel)%nat → getBlock x d = Ok b →
  Encode (MkHashesRequest x n) = Ok payload → Uint64 n < 2 ^ 63 →
  Z.of_nat (length (Uncles b)) < Z.min (Uint64 n) maxBlocks < Z.of_nat (length (Uncles b) + length (withUncles (W:=W) d z)) →
  ∃ hs, Forall2 (stored_as d) hs (readAll (Uncles b) d) ∧
    listen net e (Ok (MkMsg GetBlockHashesRequest payload)) peer m =
      if decide (hs = []) then Send net peer GetBlockHashesRewind (BytesToByte64 []) m else Send net peer GetBlockHashesResponse hs m.
Proof.
  intros Hm Hinv Hl Ht Hp HL Hfuel Hb Henc Hn [Hfit Hno].
  destruct (hashes_request_served e g c d tip L l1 x (z :: l2) n payload b m peer Hm Hinv Hl Ht Hp HL ltac:(simpl; lia) Hb Henc Hn Hfit)
    as (k & hs & Hk & _ & Hall & Hus & Hle & _ & Hreq).
  destruct k as [|k]; [|unfold batch in Hle; cbn [take map concat] in Hle; rewrite !length_app, Hus in Hle; lia].
  exists hs. split; [|done]. unfold batch in Hall. cbn [take map concat] in Hall. by rewrite app_nil_r in Hall.
Qed.
End round.

(** ** Witness *)

Section witnesses.
#[local] Existing Instances w_hash w_codec w_laws w_ops w_spec_codec w_cn_codec w_cn_laws w_spec_laws w_ws_laws w_separate w_ops_codec w_sig_codec.
#[local] Existing Instances w_rlp_spec w_rlp_specs w_rlp_hash w_rlp_hashes w_rlp_handshake w_rlp_request w_rlp_specs_laws w_rlp_hashes_laws w_rlp_request_laws.
Abbreviation wdb := (gmap bytes bytes).
Abbreviation wc := (BlockChainConsensus MptWorldState * wdb)%type.
Abbreviation wmgr := (platformManager (H:=sample_ecdsa) wc MptWorldState).

Definition ws_d : wdb := wc_m1.1.1.
Definition ws_c : BlockChainConsensus MptWorldState := wc_m1.1.2.
Definition ws_server : wmgr := set_engine (ws_c, ws_d) w_a0.
Definition ws_b : block MptWorldState := match getBlock w_gen ws_d with Ok b => b | Err _ => wc_b1 end.
Definition ws_max : Byte8 := Uint64ToByte8 10.
Definition ws_payload : bytes := enc (MkHashesRequest w_gen ws_max).

Lemma ws_genesis : bool_decide (Genesis ws_c = Some w_gen) = true.
Proof. vm_compute. reflexivity. Qed.
Lemma ws_tip : bool_decide (hash (c_tip ws_c) = Some w_h1) = true.
Proof. vm_compute. reflexivity. Qed.
Lemma ws_block : is_ok (getBlock (W:=MptWorldState) w_gen ws_d) = true.
Proof. vm_compute. reflexivity. Qed.
Lemma ws_fits : bool_decide (Z.of_nat (length (Uncles ws_b) + length (withUncles (W:=MptWorldState) ws_d w_h1)) ≤ Z.min (Uint64 ws_max) maxBlocks) = true.
Proof. vm_compute. reflexivity. Qed.
Lemma ws_small : bool_decide (Uint64 ws_max < 2 ^ 63) = true.
Proof. vm_compute. reflexivity. Qed.
Lemma ws_states : forallb (λ b : block MptWorldState, known_b (STATE (spec b)) ws_d)
  (descendants_ref ws_d [w_h1] (Z.min (Uint64 ws_max) maxBlocks) ws_b) = true.
Proof. vm_compute. reflexivity. Qed.

Lemma states_sound (d : wdb) (bs : list (block MptWorldState)) :
  forallb (λ b : block MptWorldState, known_b (STATE (spec b)) d) bs = true → Forall (state_known d) bs.
Proof.
  induction bs as [|b bs IH]; simpl; [constructor|]. intros [Hb Hbs]%andb_true_iff. constructor; [by apply known_b_sound | by apply IH].
Qed.

Lemma block_eq (r : result (block MptWorldState)) dflt : is_ok r = true → r = Ok (match r with Ok b => b | Err _ => dflt end).
Proof. by destruct r. Qed.

Lemma ws_block_eq : getBlock w_gen ws_d = Ok ws_b.
Proof. exact (block_eq (getBlock w_gen ws_d) wc_b1 ws_block). Qed.
Lemma ws_encode : Encode (MkHashesRequest w_gen ws_max) = Ok ws_payload.
Proof. exact eq_refl. Qed.
Lemma ws_fuel : (length (@nil Byte64) + 3 ≤ 10)%nat.
Proof. simpl. lia. Qed.
Lemma ws_engine : engine ws_server = (ws_c, ws_d).
Proof. exact eq_refl. Qed.
Lemma ws_tip_eq : hash (c_tip ws_c) = Some w_h1.
Proof. exact (bool_decide_eq_true_1 (hash (c_tip ws_c) = Some w_h1) ws_tip). Qed.
Lemma ws_states_known : Forall (state_known ws_d) (descendants_ref ws_d [w_h1] (Z.min (Uint64 ws_max) maxBlocks) ws_b).
Proof. exact (states_sound ws_d (descendants_ref ws_d [w_h1] (Z.min (Uint64 ws_max) maxBlocks) ws_b) ws_states). Qed.

Lemma ws_hashes_ok (hs : list Byte64) : is_ok (Encode hs).
Proof. done. Qed.
Lemma ws_specs_ok (specs : list BlockSpec) : is_ok (Encode specs).
Proof. done. Qed.

Lemma same_some (o : option Byte64) a b : o = Some a → o = Some b → a = b.
Proof. congruence. Qed.

Lemma ws_ledger : chain_inv w_gen ws_d ws_c ∧ ledger (W:=MptWorldState) w_gen ws_d ∧ path (nodes ws_d) w_gen w_h1 [w_gen; w_h1].
Proof.
  destruct wc_m1_ledger as (g & Hinv & Hl). pose proof (ci_genesis _ _ _ Hinv) as Hg.
  pose proof (same_some (Genesis ws_c) g w_gen Hg (bool_decide_eq_true_1 (Genesis ws_c = Some w_gen) ws_genesis)) as E. subst g.
  split; [exact Hinv|]. split; [exact Hl|].
  exact (proj2 (child_path wc_m1.1.1 wc_m1.1.2 w_gen w_h1 w_n1 Hg w_n1_eq wc_h1_child)).
Qed.

Lemma sync_round_delivers_main_list_witness :
  ∃ k p1 p2 p3 ms1 mc1 ms2,
    listen (eng:=engine_of_chain 10 3 w_range 0) w_net w_env (Ok (MkMsg GetBlockHashesRequest ws_payload)) 1%positive ws_server = Ret (ms1, None) ∧
    listen (eng:=engine_of_chain 10 3 w_range 0) w_net w_env (Ok (MkMsg GetBlockHashesResponse p1)) 1%positive w_b0 = Ret (mc1, None) ∧
    listen (eng:=engine_of_chain 10 3 w_range 0) w_net w_env (Ok (MkMsg GetBlocksRequest p2)) 1%positive ms1 = Ret (ms2, None) ∧
    Decode p3 = Ok (map Spec (batch ws_d ws_b [w_h1] k)) ∧ (0 < k)%nat.
Proof.
  destruct ws_ledger as (Hinv & Hl & Hp).
  destruct (sync_round_delivers_main_list 10 3 w_range 0 w_net w_env w_env w_gen ws_c ws_d w_h1 [w_gen; w_h1] [] w_gen w_h1 [] ws_max ws_payload ws_b
    ws_server w_b0 1%positive 1%positive ws_engine Hinv Hl ws_tip_eq Hp eq_refl ws_fuel ws_block_eq ws_encode
    (bool_decide_eq_true_1 (Uint64 ws_max < 2 ^ 63) ws_small) (bool_decide_eq_true_1 _ ws_fits) ws_states_known (λ _ _ _, eq_refl) ws_hashes_ok ws_specs_ok)
    as (k & p1 & p2 & p3 & ms1 & mc1 & ms2 & H1 & _ & H2 & _ & H3 & _ & H4 & H5 & _).
  exists k, p1, p2, p3, ms1, mc1, ms2. split; [exact H1|]. split; [exact H2|]. split; [exact H3|]. split; [exact H4 | exact (proj1 H5)].
Defined.
End witnesses.
