(* ===== verification/SyncAccept.v ===== *)
(** * What a node does with the blocks of a synchronization

    The client's side of a round: after an answer with blocks was handled
    without an error, the chain of the node holds every block of the answer,
    and nothing else was added. *)

From Stdlib Require Import Strings.Byte.
From S2P Require Import Prelude Bytes Db StoreTheorems WorldStateI Block BlockFacts MainList Consensus ConsensusFacts HistoryFacts.
From S2P Require Import Trie Trustee TrusteeFacts Peers Platform PlatformFacts PlatformTheorems Concrete TrieTheorems BlockTheorems ConsensusTheorems HistoryTheorems TrusteeTheorems PeersTheorems PlatformWitnesses SyncTheorems.

(** ** Accepting a block *)

Section accept.
Context {D W : Type} {dbo : Database D} {dbl : DatabaseLaws D}.
Context {wso : WorldState W D} {wsl : WorldStateLaws W D} {sep : ChainSeparate W D} {sha : Sha512}.
Context {cdn : Codec chainNode} {cdnl : CodecLaws chainNode} {cds : Codec BlockSpec} {cdsl : CodecLaws BlockSpec}.
Implicit Types (d : D) (c : BlockChainConsensus W) (b : block W).

Abbreviation same_chain := (same_inside chain_key).

Definition is_duplicate (err : option error) : Prop := err ≫= error_code = Some ERR_DUPLICATE_BLOCK.

(** A tip that was moved has a known state; the code of duplicate blocks is
    returned only for blocks that are stored. *)
Lemma addValidatedBlock_outcome g fuel child parent c d d' c' err :
  chain_inv g d c → hash parent = Some (ParentHash child) → addValidatedBlock fuel child parent c d = Ret (d', c', err) →
  (err = None → better c child → ws_known (W:=W) (STATE (spec child)) d) ∧
  (is_duplicate err → d' = d ∧ c' = c ∧ ∃ h, hash child = Some h ∧ is_Some (nodes d h)).
Proof.
  intros Hinv Hhp Hadd. pose proof Hinv as [_ HF _ _ Hst]. unfold is_duplicate.
  unfold addValidatedBlock, block_Hash in Hadd. destruct (hash child) as [h|] eqn:Hh; [|done]. cbn [deref outcome_bind] in Hadd.
  destruct (getChainNode_nodes h d) as [(n & Hget & Hn)|(e & Hget & Hnew)]; rewrite Hget in Hadd.
  { injection Hadd as <- <- <-. split; [done|]. intros _. split; [done|]. split; [done|]. exists h. by rewrite Hn. }
  destruct (anyDuplicateTx_ret child (Transactions child) c d Hst) as [[] Hdup]; rewrite Hdup in Hadd; cbn [outcome_bind] in Hadd.
  { injection Hadd as <- <- <-. by split. }
  rewrite Hhp in Hadd. destruct (nodes d (ParentHash child)) as [pn|] eqn:Hpn.
  2: { destruct (putBlock_spec child d h Hh) as (d1 & e1 & Hput & Hk1). rewrite Hput in Hadd. cbn [deref outcome_bind] in Hadd.
    destruct (getChainNode_nodes (ParentHash child) d1) as [(n & _ & Hn)|(e2 & Hg2 & _)].
    - exfalso. rewrite (nodes_frame d d1) in Hn by (apply Hk1, nodekey_block). congruence.
    - rewrite Hg2 in Hadd. injection Hadd as <- <- <-. by split. }
  destruct (link_parent_spec d child parent h pn Hnew Hpn Hh (f_hash _ _ HF _ _ Hpn))
    as (d1 & e1 & d2 & Hput & Hg & Hput2 & _ & Hout2 & _). rewrite Hput in Hadd. cbn [deref outcome_bind] in Hadd.
  rewrite Hg, Hput2 in Hadd. cbn [outcome_bind] in Hadd. case_decide as Hbet.
  - unfold moveTip, block_Hash in Hadd. rewrite Hh in Hadd. cbn [deref outcome_bind] in Hadd. rewrite put_eq in Hadd. cbn [c_state] in Hadd.
    destruct Hst as [w Hw]. rewrite Hw in Hadd. cbn [deref outcome_bind] in Hadd.
    set (d3 := (Put dagTip (Bytes h) d2).1) in Hadd.
    assert (same_outside chain_key d3 d) as Hback.
    { trans d2; [|intros k Hk; symmetry; by apply Hout2]. intros k Hk. unfold d3. rewrite put_contents, lookup_insert_ne; [done|]. intros <-. apply Hk. by right. }
    pose proof (ws_rebase_error w (STATE (spec child)) d3) as Herr. pose proof (ws_rebase_ok w (STATE (spec child)) d3) as Hok.
    destruct (ws_Rebase w (STATE (spec child)) d3) as [[d4 w4] [e4|]]; cbn [snd] in *.
    + injection Hadd as <- <- <-. split; [done|]. cbn [mbind option_bind]. by rewrite (Herr e4 eq_refl).
    + split; [intros _ _; eapply chain_writes_known; [exact Hback | by apply Hok]|]. intros Hd. exfalso. revert Hadd Hd.
      rewrite outcome_bind_ret. intros ([d5 [e5|]] & _ & Hadd); [by injection Hadd as _ _ <-|].
      apply outcome_bind_ret in Hadd as ([[d6 pn6] m6] & _ & Hadd). apply outcome_bind_ret in Hadd as ([d7 e7] & _ & Hadd).
      apply outcome_bind_ret in Hadd as (old & _ & Hadd). apply outcome_bind_ret in Hadd as (d8 & _ & Hadd). by injection Hadd as _ _ <-.
  - apply outcome_bind_ret in Hadd as ([d3 e3] & _ & [= <- <- <-]). split; [|done]. intros _ Hb. by destruct Hbet.
Qed.

(** What processing blocks does to the chain: stored nodes keep their headers,
    and new ones are those of the blocks [ss]. *)
Record extended (ss : list BlockSpec) d d' : Prop := {
  ex_old x n : nodes d x = Some n → ∃ n', nodes d' x = Some n' ∧ same_header n n';
  ex_new x n : nodes d' x = Some n → nodes d x = None →
    ∃ s, s ∈ ss ∧ cn_Parent n = PHASH s ∧ cn_Weight n = Uint64 (WT s) ∧ cn_Depth n = Uint64 (DEPTH s);
}.

Lemma extended_refl ss d d' : same_chain d d' → extended ss d d'.
Proof.
  intros Hs. split; intros x n Hn; rewrite (nodes_same d d' x Hs) in *; [by exists n | congruence].
Qed.

Lemma extended_trans ss ss' d d1 d2 : extended ss d d1 → extended ss' d1 d2 → extended (ss ++ ss') d d2.
Proof.
  intros [Ho1 Hn1] [Ho2 Hn2]. split.
  - intros x n Hn. destruct (Ho1 x n Hn) as (n1 & H1 & E1). destruct (Ho2 x n1 H1) as (n2 & H2 & E2). exists n2. split; [done | by etrans].
  - intros x n Hn Hnone. destruct (nodes d1 x) as [n1|] eqn:E1.
    + destruct (Ho2 x n1 E1) as (n2 & H2 & (_ & Hp & Hd & Hw)). assert (n2 = n) as -> by congruence.
      destruct (Hn1 x n1 E1 Hnone) as (s & Hin & Hs). exists s. rewrite elem_of_app, Hp, Hd, Hw. tauto.
    + destruct (Hn2 x n Hn E1) as (s & Hin & Hs). exists s. rewrite elem_of_app. tauto.
Qed.

(** The hash of a block with a given specification, over some state *)
Definition spec_hash (s : BlockSpec) (h : Byte64) : Prop := ∃ st, h = tryHash (hashData s st) (Uint64 (NONCE s)).

(** A block from the network that has been hashed, if at all, with its own
    specification *)
Definition from_network (s : BlockSpec) b : Prop :=
  isNetworkBlock b = true ∧ spec b = s ∧ ∀ h, hash b = Some h → spec_hash s h.

Lemma computeHash_network s attempts range b d d' b' r :
  from_network s b → computeHash attempts range b d = Ret (d', b', r) → from_network s b'.
Proof.
  intros (Hnet & Hspec & Hhash). unfold computeHash. rewrite outcome_bind_ret. intros ([[d1 b1] st] & Hst & Hrest).
  assert (isNetworkBlock b1 = true ∧ spec b1 = s ∧ hash b1 = hash b) as (Hn1 & Hs1 & Hh1).
  { destruct (worldState b) as [w|] eqn:Ew; [|by injection Hst as _ <- _]. unfold persistState in Hst. rewrite Ew in Hst. cbn [deref outcome_bind] in Hst.
    destruct (persistLoop false (range (variables b)) w d) as [[d2 w2]| |]; [|done..]. cbn in Hst. rewrite Hnet in Hst. by injection Hst as _ <- _. }
  rewrite Hn1, Hs1 in Hrest. assert (∀ x, NONCE s = x → spec (set_spec (set_NONCE x s) b1) = s) as Hsame by (intros x <-; by destruct s).
  destruct attempts as [|n]; [cbn [powLoop] in Hrest; injection Hrest as _ <- _; rewrite <- Hh1 in Hhash; split; [done|]; split; [by apply Hsame | done]|].
  rewrite powLoop_network, Uint64ToByte8_Uint64 in Hrest. destruct (approves _ _ _ _); injection Hrest as _ <- _.
  - split; [done|]. split; [by apply Hsame|]. cbn. intros h [= <-]. exists st. unfold BytesToByte64. apply BytesToArr_Bytes.
  - rewrite <- Hh1 in Hhash. split; [done|]. split; [by apply Hsame | done].
Qed.

Lemma validateBlock_error fuel b d b' e : validateBlock fuel b d = Ret (b', Err e) → error_code e ≠ Some ERR_DUPLICATE_BLOCK.
Proof.
  unfold validateBlock. destruct (getBlock (ParentHash b) d) as [p|]; [|by intros [= _ <-]]. case_decide; [by intros [= _ <-]|].
  rewrite outcome_bind_ret. intros ([b1 [wt|]] & _ & Hr); [case_decide|]; by inversion Hr; subst.
Qed.

(** A block that [AcceptNetworkBlock] accepts, or refuses as a duplicate, is
    stored. *)
Lemma accept_stored g s fuel attempts range b c d d' c' b' err :
  chain_inv g d c → from_network s b → AcceptNetworkBlock fuel attempts range b c d = Ret (d', c', b', err) → err = None ∨ is_duplicate err →
  chain_inv g d' c' ∧ extended [s] d d' ∧ ∃ h, hash b' = Some h ∧ spec_hash s h ∧ is_Some (nodes d' h).
Proof.
  intros Hinv Hb Hacc Herr. unfold AcceptNetworkBlock in Hacc. apply outcome_bind_ret in Hacc as ([b0 p] & Hval & Hacc).
  destruct p as [p|e].
  2: { injection Hacc as _ _ _ <-. destruct Herr as [|Herr]; [done|]. by apply validateBlock_error in Hval. }
  destruct (validateBlock_ok _ _ _ _ _ Hval) as (Hph & _). destruct (validateBlock_fields _ _ _ _ _ Hval) as [[m ->] _].
  apply outcome_bind_ret in Hacc as ([[d1 b1] r] & Hc & Hacc). apply outcome_bind_ret in Hacc as (w1 & _ & Hacc).
  destruct (computeHash_frame _ _ _ _ _ _ _ Hc) as (Hs & (Hpar & Hdep & Hwt & _) & _).
  assert (from_network s b1) as (_ & Hsp & Hhash) by (eapply (computeHash_network s); [|exact Hc]; exact Hb).
  case_decide; [injection Hacc as _ _ _ <-; by destruct Herr|]. apply outcome_bind_ret in Hacc as ([[d2 c2] e2] & Hadd & [= <- <- <- <-]).
  assert (chain_inv g d1 c) as Hinv1 by (by eapply chain_inv_same).
  assert (hash p = Some (ParentHash b1)) as Hp1 by (rewrite Hpar; exact Hph).
  destruct (addValidatedBlock_outcome g _ _ _ _ _ _ _ _ Hinv1 Hp1 Hadd) as [Hknown Hdup].
  pose proof (extended_refl [s] d d1 Hs) as Hext. destruct e2 as [e2|].
  - destruct Herr as [|Herr]; [done|]. destruct (Hdup Herr) as (-> & -> & h & Hh & Hn). split; [done|]. split; [done|]. exists h. by split; [|split; [apply Hhash|]].
  - destruct (addValidatedBlock_returned g _ _ _ _ _ _ _ _ Hinv1 Hp1 (Hknown eq_refl) Hadd) as (h & Hh & [Hi _ (n & Hn & Hnp & Hnw & Hnd) _ Honly Hold]).
    split; [done|]. split; [|exists h; split; [done|]; split; [by apply Hhash | by eexists]].
    split.
    + intros x n0 Hn0. rewrite <- (nodes_same d d1 x Hs) in Hn0. by apply Hold.
    + intros x n0 Hn0 Hnone. rewrite <- (nodes_same d d1 x Hs) in Hnone. destruct (decide (x = h)) as [->|Hne].
      * assert (n0 = n) as -> by congruence. exists s. unfold ParentHash, Weight, Depth in *. rewrite Hsp in *. split; [by left | done].
      * destruct (Honly x Hne) as [? ?]; [by eexists | congruence].
Qed.

(** ** Decoding *)

Lemma decode_network s fuel d d' b : DecodeNetworkBlockSpec fuel s d = Ret (d', Ok b) → same_chain d d' ∧ from_network s b.
Proof.
  unfold DecodeNetworkBlockSpec. intros Hr. split; [by eapply processNetworkBlock_frame|]. revert Hr.
  unfold processNetworkBlock. rewrite outcome_bind_ret. intros ([b1 [p|e]] & Hval & Hr); [|done].
  destruct (validateBlock_fields _ _ _ _ _ Hval) as [[m ->] _]. destruct (ws_New d) as [d1 o]. apply outcome_bind_ret in Hr as (w & _ & Hr).
  destruct (ws_Rebase w _ d1) as [[d2 w2] [e|]]; [done|]. injection Hr as _ <-. by split; [|split].
Qed.
End accept.

(** ** The handler *)

Section client.
Context {D W : Type} {dbo : Database D} {dbl : DatabaseLaws D}.
Context {wso : WorldState W D} {wsl : WorldStateLaws W D} {sep : ChainSeparate W D} {sha : Sha512} {ec : Ecdsa}.
Context {cdn : Codec chainNode} {cdnl : CodecLaws chainNode} {cds : Codec BlockSpec} {cdsl : CodecLaws BlockSpec}.
Context {cop : Codec (list Op)} {csg : Codec signature}.
Context {rls : Rlp BlockSpec} {rlss : Rlp (list BlockSpec)} {rlh : Rlp Byte64} {rlhs : Rlp (list Byte64)}.
Context {rlhm : Rlp HandshakeMsg} {rlrq : Rlp GetBlockHashesRequestMsg}.
Context (fuel attempts : nat) (range : ranger) (now : Z).
Context (net : list (ref * Msg) → ref → Msg → option error) (g : Byte64).
#[local] Instance client_engine : Engine (BlockChainConsensus W * D) D W := chain_engine fuel attempts range now.
Abbreviation mgr := (platformManager (BlockChainConsensus W * D) W).
Implicit Types (d : D) (c : BlockChainConsensus W) (m : mgr) (b : block W).

(** *** Calls that leave the chain alone *)

Definition chain_is x m : Prop := engine m = x.

Lemma idle_Send {A} `{Rlp A} x to code (data : A) : keeps (chain_is x) (Send net to code data).
Proof. intros m Hm. by apply wp_Send. Qed.

Lemma idle_markKnown x e r p : keeps (chain_is x) (markKnown e r p).
Proof. intros m Hm. unfold markKnown. by repeat wp_step. Qed.

Lemma idle_broadcast x e p b : keeps (chain_is x) (broadcast net e p b).
Proof.
  unfold broadcast. apply keeps_bind; [apply keeps_gets|]. intros ps. apply keeps_bind; [apply keeps_gets|]. intros h.
  apply keeps_bind; [apply keeps_lift|]. intros nodes. induction nodes as [|r nodes IH]; cbn [broadcastLoop]; [apply keeps_ret|].
  apply keeps_bind; [apply idle_markKnown|]. intros _. apply keeps_bind; [apply idle_Send|]. intros _.
  apply keeps_bind; [exact IH|]. intros n. apply keeps_ret.
Qed.

(** *** Processing a block *)

Lemma network_same s b b' : from_network s b → same_block b b' → from_network s b'.
Proof. by intros Hb [v ->]. Qed.

Lemma wp_network_txs s txs : ∀ b m, from_network s b → wp (processTxs txs b) (λ r m', m' = m ∧ from_network s r.1) m.
Proof.
  induction txs as [|tx txs IH]; intros b m Hb; cbn [processTxs]; [by wp_step|]. unfold processTx. repeat wp_step.
  all: match goal with H : runApp _ _ _ = Ret _ |- _ => apply runApp_same, (network_same s b) in H; [|exact Hb] end; simplify_eq; auto.
Qed.

Lemma check_network s b p d d' b' err : from_network s b → CheckNetworkBlockPoW attempts range b p d = Ret (d', b', err) →
  same_inside chain_key d d' ∧ from_network s b' ∧ ¬ is_duplicate err.
Proof.
  intros Hb. unfold CheckNetworkBlockPoW. destruct Hb as (Hn & Hs & Hh). rewrite Hn. cbn [negb]. rewrite outcome_bind_ret.
  intros ([[d1 b1] h] & Hc & Hr). pose proof (computeHash_frame _ _ _ _ _ _ _ Hc) as (Hsame & _).
  assert (from_network s b1) as Hb1 by (eapply (computeHash_network s); [|exact Hc]; done).
  destruct h; injection Hr as <- <- <-; by split_and!.
Qed.

Lemma not_real err : isRealError err = Ret false → err = None ∨ is_duplicate err.
Proof.
  unfold isRealError, is_duplicate. destruct err as [e|]; [|by left]. simpl. destruct (error_code e) as [x|]; [|done].
  cbn [deref outcome_bind]. intros [= Hx%bool_decide_eq_false_1]. right. destruct (decide (x = ERR_DUPLICATE_BLOCK)) as [->|]; [done | by destruct Hx].
Qed.

(** What is known after a block was processed without an error that counts *)
Definition taken s d (h : Byte64) m : Prop :=
  ∃ c' d', engine m = (c', d') ∧ chain_inv g d' c' ∧ extended [s] d d' ∧ spec_hash s h ∧ is_Some (nodes d' h).

Lemma taken_idle s d h m m' : engine m' = engine m → taken s d h m → taken s d h m'.
Proof. unfold taken. by intros ->. Qed.

(** The end of [processBlock], from a block that the engine has accepted *)
Lemma wp_idle_relay e b from x m : chain_is x m →
  wp (M_bind (λ p, M_bind (λ _, M_bind (λ h, M_bind (λ ps, let '(ps, seen) := HaveISeenIt (ItemHash h) ps in
        M_bind (λ _, if seen : bool then M_ret (b, Some (CoreError ERR_DUPLICATE_BLOCK "repeated block"))
          else M_bind (λ _, M_ret (b, None)) (broadcast net e p b)) (M_modify (set_peerDb ps)))
      (M_gets peerDb)) (M_lift (deref (block_Hash b)))) (markKnown e from p)) M_alloc)
    (λ r m', r.1 = b ∧ chain_is x m') m.
Proof.
  intros Hm. apply wp_bind. intros m1 p [= <- <-]. apply wp_bind. eapply wp_mono; [by apply (idle_markKnown x)|]. intros ? m1 Hm1.
  apply wp_bind, wp_lift. intros h _. apply wp_bind, wp_gets. destruct (HaveISeenIt _ _) as [ps seen]. apply wp_bind, wp_modify.
  destruct seen; [by apply wp_ret|]. apply wp_bind. eapply wp_mono; [by apply (idle_broadcast x)|]. intros n m2 Hm2. by apply wp_ret.
Qed.

Lemma verify_network s order b d b' ok : from_network s b → VerifyMiningRewardTx order b d = Ret (b', ok) → from_network s b'.
Proof.
  intros Hb Hv. unfold VerifyMiningRewardTx in Hv. apply outcome_bind_ret in Hv as (tx & _ & Hv). apply outcome_bind_ret in Hv as ([] & _ & Hv); simpl in Hv; [|by injection Hv as <- _].
  case_decide; [by injection Hv as <- _|]. apply process_same in Hv. by eapply network_same.
Qed.

Lemma wp_processBlock s e b from c d m : engine m = (c, d) → chain_inv g d c → from_network s b →
  wp (processBlock net e b from) (λ r m', isRealError r.2 = Ret false → ∃ h, hash r.1 = Some h ∧ taken s d h m') m.
Proof.
  intros Hm Hinv Hb. unfold processBlock. apply wp_decide; intros Hlen; [by apply wp_ret|]. apply wp_bind, wp_gets, wp_bind, wp_lift.
  intros [b1 valid] Hb1%(verify_network s); [|exact Hb].
  apply wp_if; intros _; [by apply wp_ret|]. apply wp_bind. eapply wp_mono; [by apply (wp_network_txs s)|]. intros [b2 ok] m1 [-> Hb2].
  apply wp_if; intros _; [by apply wp_ret|]. apply wp_bind, wp_gets, wp_bind, wp_engine. rewrite Hm. simpl.
  intros x [b3 err] ([[x' b3'] err'] & Hc & [= <- <- <-])%outcome_bind_ret. apply outcome_bind_ret in Hc as ([[d1 b3] err] & Hcheck & [= <- <- <-]).
  destruct (check_network s _ _ _ _ _ _ Hb2 Hcheck) as (Hsame & Hb3 & Hdup).
  destruct err as [err|]; [apply wp_ret; intros Hnr; apply not_real in Hnr as [|]; [done | by destruct Hdup]|].
  apply wp_bind, wp_engine. simpl.
  intros x [b4 err] ([[x' b4'] err'] & Ha & [= <- <- <-])%outcome_bind_ret. apply outcome_bind_ret in Ha as ([[[d2 c2] b4] err] & Hacc & [= <- <- <-]).
  assert (chain_inv g d1 c) as Hinv1 by (by eapply chain_inv_same).
  pose proof (accept_stored g s _ _ _ _ _ _ _ _ _ _ Hinv1 Hb3 Hacc) as Hst.
  assert (err = None ∨ is_duplicate err → ∃ h, hash b4 = Some h ∧ ∀ m', chain_is (c2, d2) m' → taken s d h m') as Htaken.
  { intros He. destruct (Hst He) as (Hinv2 & Hext & h & Hh & Hsh & Hn). exists h. split; [done|]. intros m' Hm'. exists c2, d2. split_and!; try done.
    exact (extended_trans [] [s] _ _ _ (extended_refl [] _ _ Hsame) Hext). }
  destruct err as [err|]; [apply wp_ret; intros Hnr; apply not_real in Hnr; destruct (Htaken Hnr) as (h & Hh & Ht); exists h; split; [done | by apply Ht]|].
  destruct (Htaken (or_introl eq_refl)) as (h & Hh & Ht).
  eapply wp_mono; [exact (wp_idle_relay e b4 from (c2, d2) (set_engine (c2, d2) (set_engine (c, d1) m)) eq_refl)|].
  intros r m' [-> Hm'] _. exists h. split; [done | by apply Ht].
Qed.

(** *** The blocks of an answer *)

(** Every block is stored under a hash of its own, and the last is remembered
    for the peer. *)
Definition delivered from specs d m : Prop :=
  ∃ c' d' hs, engine m = (c', d') ∧ chain_inv g d' c' ∧ extended specs d d' ∧
    Forall2 (λ s h, spec_hash s h ∧ is_Some (nodes d' h)) specs hs ∧
    ∀ h, list.last hs = Some h → ∃ n, heap m !! from = Some n ∧ pn_LastHash n = Some h.

Lemma wp_syncBlocks e specs from : ∀ c d m, engine m = (c, d) → chain_inv g d c →
  wp (syncBlocks net e specs from) (λ err m', err = None → delivered from specs d m' ∧ (specs = [] → m' = m)) m.
Proof.
  induction specs as [|s specs IH]; intros c d m Hm Hinv; cbn [syncBlocks].
  { apply wp_ret. intros _. split; [|done]. exists c, d, []. split_and!; [done..| |constructor | done]. by apply extended_refl. }
  apply wp_bind, wp_engine. rewrite Hm. simpl. intros x r0 ([d1 r] & Hdec & [= <- <-])%outcome_bind_ret. destruct r as [b|err]; [|by apply wp_ret].
  destruct (decode_network s _ _ _ _ Hdec) as [Hsame Hb].
  assert (chain_inv g d1 c) as Hinv1 by (by eapply chain_inv_same).
  apply wp_bind. eapply wp_mono; [by apply (wp_processBlock s _ _ _ c d1)|]. intros [b2 err] m2 Hp. cbn [fst snd] in Hp.
  apply wp_bind, wp_lift. intros real Hreal. apply wp_if; intros ->.
  { apply wp_bind. intros m3 u _. apply wp_ret. by destruct err. }
  destruct (Hp Hreal) as (h & Hh & c2 & d2 & Hm2 & Hinv2 & Hext & Hsh & Hn).
  apply wp_bind. unfold setLastHash. apply wp_bind, wp_peer. intros n Hpeer. apply wp_modify.
  match goal with |- wp _ _ ?x => set (m3 := x) end. eapply wp_mono; [by apply (IH c2 d2 m3)|].
  intros err' m4 H4 He. destruct (H4 He) as [(c' & d' & hs & Hm' & Hinv' & Hext' & Hall & Hlast) Hnone]. split; [|done]. exists c', d', (h :: hs).
  split_and!; [done..| | |].
  - exact (extended_trans [] (s :: specs) _ _ _ (extended_refl [] _ _ Hsame) (extended_trans [s] specs _ _ _ Hext Hext')).
  - constructor; [|done]. split; [done|]. destruct Hn as [nn Hn]. destruct (ex_old _ _ _ Hext' _ _ Hn) as (n' & -> & _). by eexists.
  - destruct hs as [|h' hs]; [|exact Hlast]. inversion Hall; subst specs. rewrite (Hnone eq_refl). intros h' [= <-].
    exists (set_pn_LastHash (hash b2) n). unfold m3. cbn [heap set_heap]. rewrite lookup_insert_eq. by split.
Qed.
(** A new manager over a store that has no chain starts one. *)
Lemma NewPlatformManager_chain k app srv d p2p d1 w m :
  attempts = S k → no_chain d → (∀ v, range v ≡ₚ map_to_list v) → ws_New d = (d1, Some w) → ws_Hash w ≠ BytesToByte64 [] →
  NewPlatformManager (Some app) (Some srv) (Some d) p2p = Ret (Ok m) → ∃ g', chain_inv g' (engine m).2 (engine m).1.
Proof.
  intros Hk Hno Hr Hnew Hnz. unfold NewPlatformManager.
  destruct (sc_TxProcessor srv), (sc_PeerValidator srv), p2p as [self|]; try done. rewrite outcome_bind_ret. intros (r & Hc & Hr').
  destruct (NewBlockChainConsensus_fresh k range now genesisTimeStamp (FromECDSAPub (publicKey (sc_IdentityKey srv))) d d1 w Hno Hr Hnew Hnz)
    as (d' & c & g' & Heq & [Hinv _ _ _ _ _ _ _ _]).
  unfold en_New, client_engine, chain_engine in Hc. rewrite Hk, Heq in Hc. injection Hc as <-.
  apply outcome_bind_ret in Hr' as (tr & _ & [= <-]). by exists g'.
Qed.

(** C17: The client side of a round of synchronization: when a node handles an answer with
    blocks without an error, its chain satisfies the chain invariant as before, every block of
    the answer is stored under a hash of its specification, the nodes that were there keep their
    headers and every new one has the parent, weight and depth of a block of the answer, the
    last block is the one remembered for the peer, and the waiting synchronization is told to go
    on. *)
Theorem sync_response_extends_chain e c d m payload specs from m' :
  engine m = (c, d) → chain_inv g d c → Decode payload = Ok specs →
  listen net e (Ok (MkMsg GetBlocksResponse payload)) from m = Ret (m', None) →
  ∃ c' d' hs h n, engine m' = (c', d') ∧ chain_inv g d' c' ∧ extended specs d d' ∧
    Forall2 (λ s h, spec_hash s h ∧ is_Some (nodes d' h)) specs hs ∧ list.last hs = Some h ∧
    heap m' !! from = Some n ∧ pn_LastHash n = Some h ∧ list.last (ch_queue (pn_GetBlockHashesChan n)) = Some CHAN_NEXT.
Proof.
  intros Hm Hinv Hdec. unfold listen. do 4 rewrite decide_False by done. rewrite decide_True by done.
  unfold handleGetBlocksResponseMsg. cbn [msg_Payload]. rewrite Hdec. case_decide as Hlen; [done|].
  intros Hrun. revert Hrun. unfold M_bind at 1. rewrite outcome_bind_ret. intros ([m1 err] & Hsync & Hrun).
  pose proof (wp_syncBlocks e specs from c d m Hm Hinv m1 err Hsync) as Hpost. destruct err as [err|]; [done|].
  destruct (Hpost eq_refl) as [(c' & d' & hs & Hm1 & Hinv' & Hext & Hall & Hlast) _].
  destruct (list.last hs) as [h|] eqn:El; [|apply last_None in El as ->; apply Forall2_length in Hall; simpl in Hall; lia].
  destruct (Hlast h eq_refl) as (n & Hn & Hh).
  revert Hrun. unfold signal, M_bind, M_peer, M_lift, M_setPeer. rewrite Hn. cbn [deref outcome_bind].
  unfold chan_send. destruct (ch_closed _); [done|]. cbn. intros [= <-].
  exists c', d', hs, h, (set_pn_chans (Channel (ch_queue (pn_GetBlockHashesChan n) ++ [CHAN_NEXT]) false) (pn_GetBlocksChan n) n).
  cbn [engine heap set_heap]. rewrite lookup_insert_eq. split_and!; try done. apply last_snoc.
Qed.
End client.

(** ** Witness *)

Section witnesses.
#[local] Existing Instances w_hash w_codec w_laws w_ops w_spec_codec w_cn_codec w_cn_laws w_spec_laws w_ws_laws w_separate w_ops_codec w_sig_codec.
#[local] Existing Instances w_rlp_spec w_rlp_specs w_rlp_hash w_rlp_hashes w_rlp_handshake w_rlp_request w_rlp_specs_laws w_rlp_hashes_laws w_rlp_request_laws.
Abbreviation wdb := (gmap bytes bytes).
Abbreviation wc := (BlockChainConsensus MptWorldState * wdb)%type.
Abbreviation wmgr := (platformManager (H:=sample_ecdsa) wc MptWorldState).

(** The second node with its first chain, and the block that the first has
    announced *)
Definition wy_client : wmgr := set_engine (engine w_b0) w_b1.
Definition wy_specs : list BlockSpec := match Decode (A:=BlockSpec) (msg_Payload w_announced) with Ok s => [s] | Err _ => [] end.
Definition wy_payload : bytes := match Encode wy_specs with Ok p => p | Err _ => [] end.
Definition ran (o : outcome (wmgr * option error)) (m0 : wmgr) : wmgr := match o with Ret (m, _) => m | _ => m0 end.
Definition ran_ok (o : outcome (wmgr * option error)) : bool := match o with Ret (_, None) => true | _ => false end.
Lemma ran_eq o m0 : ran_ok o = true → o = Ret (ran o m0, None).
Proof. by destruct o as [[m [e|]]| |]. Qed.
Definition wy_after : wmgr := ran (listen (eng:=client_engine 10 3 w_range 0) w_net w_env (Ok (MkMsg GetBlocksResponse wy_payload)) 1%positive wy_client) wy_client.

Lemma wy_one : length wy_specs = 1%nat.
Proof. vm_compute. reflexivity. Qed.
Lemma wy_run_ok : ran_ok (listen (eng:=client_engine 10 3 w_range 0) w_net w_env (Ok (MkMsg GetBlocksResponse wy_payload)) 1%positive wy_client) = true.
Proof. vm_compute. reflexivity. Qed.
Lemma wy_ran : listen (eng:=client_engine 10 3 w_range 0) w_net w_env (Ok (MkMsg GetBlocksResponse wy_payload)) 1%positive wy_client = Ret (wy_after, None).
Proof. exact (ran_eq (listen (eng:=client_engine 10 3 w_range 0) w_net w_env (Ok (MkMsg GetBlocksResponse wy_payload)) 1%positive wy_client) wy_client wy_run_ok). Qed.
Lemma wy_decode : Decode (A:=list BlockSpec) wy_payload = Ok wy_specs.
Proof. apply decode_encode. exact eq_refl. Qed.

Lemma wy_b0_eq : NewPlatformManager (eng:=client_engine 10 3 w_range 0) (Some w_app) (Some (w_service 6)) (Some ∅) (Ok (w_self x06)) = Ret (Ok w_b0).
Proof. pose proof w_b0_eq as H. unfold w_manager in H. exact H. Qed.

Lemma wy_nonzero : ws_Hash w_ws ≠ BytesToByte64 [].
Proof. exact (bool_decide_eq_false_1 _ w_state_nonzero). Qed.

Lemma wy_chain : ∃ g, chain_inv g (engine w_b0).2 (engine w_b0).1.
Proof.
  exact (NewPlatformManager_chain 10 3 w_range 0 2 w_app (w_service 6) ∅ (Ok (w_self x06)) w_db w_ws w_b0
    eq_refl w_no_chain w_range_ok w_new_eq wy_nonzero wy_b0_eq).
Qed.

Lemma wy_engine : engine wy_client = ((engine w_b0).1, (engine w_b0).2).
Proof. unfold wy_client, set_engine. cbn [engine]. apply surjective_pairing. Qed.

Lemma sync_response_extends_chain_witness :
  length wy_specs = 1%nat ∧ ∃ g c' d' hs, engine wy_after = (c', d') ∧ chain_inv g d' c' ∧
    Forall2 (λ s h, spec_hash s h ∧ is_Some (nodes d' h)) wy_specs hs.
Proof.
  split; [exact wy_one|]. destruct wy_chain as [g Hinv].
  destruct (sync_response_extends_chain 10 3 w_range 0 w_net g w_env (engine w_b0).1 (engine w_b0).2 wy_client wy_payload wy_specs 1%positive wy_after
    wy_engine Hinv wy_decode wy_ran) as (c' & d' & hs & h & n & H1 & H2 & _ & H3 & _).
  exists g, c', d', hs. split; [exact H1|]. split; [exact H2 | exact H3].
Defined.
End witnesses.
