(* ===== verification/Pager.v ===== *)
(** * The pager protocol ([src/protocol/manager.go], [node.go], [types.go],
      [messages.go], [src/protocol/pager/manager.go], [messages.go])

    Definitions only: the base of protocol managers with its handshake, and
    the pager, which floods text messages to all peers.  [Proto] holds the
    package [protocol].  Peers are references into a heap, as in [Peers]. *)

From Stdlib Require Import Strings.Byte.
From stdpp Require Import pretty.
From S2P Require Import Prelude Bytes Db Consensus Trustee Peers.

(** ** Package [protocol] *)

Module Proto.

(** [fmt.Sprintf] of [%03d] on a number that is not negative *)
Definition fmt_03d (n : Z) : string :=
  let s := pretty (Z.to_N n) in
  ((if (String.length s <? 3)%nat then String.concat "" (replicate (3 - String.length s) "0") else "") +:+ s)%string.

(** [NewProtocolError]; a [*ProtocolError] is known by what its [Error] prints. *)
Definition NewProtocolError (code : Z) (msg : string) : error :=
  StdError ("Error [" +:+ fmt_03d code +:+ "] : " +:+ msg)%string.

Definition ErrorHandshakeFailed : Z := 0x01.
Definition ErrorMaxPeersReached : Z := 0x02.
Definition ErrorUnknownMessageType : Z := 0x03.
Definition ErrorNotImplemented : Z := 0x04.
Definition ErrorSyncFailed : Z := 0x05.
Definition ErrorInvalidRequest : Z := 0x06.
Definition ErrorInvalidResponse : Z := 0x07.
Definition ErrorNotFound : Z := 0x08.
Definition ErrorBadBlock : Z := 0x09.

Definition Handshake : Z := 0x00.

(** [type HandshakeMsg struct] *)
Record HandshakeMsg := MkHandshake {
  NetworkId : Byte16;
  ShardId : Byte16;
  TotalWeight : Byte8;
  Genesis : Byte64;
  TipNumeric : Byte8;
}.

Definition maxKnownTxs : Z := 1024.
Definition maxKnownBlocks : Z := 1024.

Definition CHAN_ERROR : Z := 0.
Definition CHAN_NEXT : Z := 1.
Definition CHAN_ABORT : Z := 2.
Definition CHAN_RETRY : Z := 3.
Definition CHAN_DONE : Z := 4.

(** [type Node struct], without the connection and the lock *)
Record Node := MkNode {
  nd_Id : bytes;
  nd_Name : bytes;
  status : option HandshakeMsg;
  knownTxs : gset item;
  knownBlocks : gset item;
  GetBlockHashesChan : channel;
  GetBlocksChan : channel;
  LastHash : option Byte64;
}.

Definition NewNode (id name : bytes) : Node :=
  MkNode id name None NewSet NewSet (Channel [] false) (Channel [] false) None.
Definition SetStatus (s : HandshakeMsg) (n : Node) : Node :=
  MkNode (nd_Id n) (nd_Name n) (Some s) (knownTxs n) (knownBlocks n)
    (GetBlockHashesChan n) (GetBlocksChan n) (LastHash n).
Definition set_chans (x y : channel) (n : Node) : Node :=
  MkNode (nd_Id n) (nd_Name n) (status n) (knownTxs n) (knownBlocks n) x y (LastHash n).
Definition set_LastHash (x : option Byte64) (n : Node) : Node :=
  MkNode (nd_Id n) (nd_Name n) (status n) (knownTxs n) (knownBlocks n)
    (GetBlockHashesChan n) (GetBlocksChan n) x.
Definition AddTx (pick : picker item) (tx : item) (n : Node) : Node :=
  MkNode (nd_Id n) (nd_Name n) (status n) (set_Add [tx] (makeRoom pick maxKnownTxs (knownTxs n))) (knownBlocks n)
    (GetBlockHashesChan n) (GetBlocksChan n) (LastHash n).
Definition HasTx (tx : item) (n : Node) : bool := set_Has tx (knownTxs n).
Definition AddBlock (pick : picker item) (blk : item) (n : Node) : Node :=
  MkNode (nd_Id n) (nd_Name n) (status n) (knownTxs n) (set_Add [blk] (makeRoom pick maxKnownBlocks (knownBlocks n)))
    (GetBlockHashesChan n) (GetBlocksChan n) (LastHash n).
Definition HasBlock (blk : item) (n : Node) : bool := set_Has blk (knownBlocks n).

#[global] Instance Node_db : DbPeerNode Node := {|
  node_AddTx := AddTx;
  node_HasTx := HasTx;
  node_Id := nd_Id;
|}.

(** [type ManagerBase struct], with the nodes and what was sent to them *)
Record ManagerBase := Base {
  db : PeerSetDbInMemory;
  peerCount : Z;
  heap : gmap ref Node;
  sent : list (ref * Msg);
}.

Definition set_heap (h : gmap ref Node) (m : ManagerBase) : ManagerBase := Base (db m) (peerCount m) h (sent m).

Section base.
Context {rlh : Rlp HandshakeMsg} (net : list (ref * Msg) → ref → Msg → option error).

(** [p2p.Send] *)
Definition Send {A} `{Rlp A} (to : ref) (code : Z) (data : A) (m : ManagerBase) : ManagerBase * option error :=
  match Encode data with
  | Err e => (m, Some e)
  | Ok payload =>
      let msg := MkMsg code payload in
      match net (sent m) to msg with
      | Some e => (m, Some e)
      | None => (Base (db m) (peerCount m) (heap m) (sent m ++ [(to, msg)]), None)
      end
  end.

Definition PeerCount (m : ManagerBase) : Z := peerCount m.
Definition DecrPeer (m : ManagerBase) : ManagerBase := Base (db m) (peerCount m - 1) (heap m) (sent m).
Definition UnregisterPeer (node : ref) (m : ManagerBase) : outcome ManagerBase :=
  let! n := deref (heap m !! node) in
  Ret (DecrPeer (Base (UnRegisterPeerNodeForId (nd_Id n) (db m)).1 (peerCount m) (heap m) (sent m))).
Definition AddPeer (m : ManagerBase) : option error :=
  Some (NewProtocolError ErrorNotImplemented "protocol manager cannot add peer").

(** [func (mgr *ManagerBase) Handshake(status *HandshakeMsg, peer *Node) error];
    [read] is what reading gives within the time limit. *)
Definition handshake (st : HandshakeMsg) (read : result Msg) (peer : ref) (m : ManagerBase)
    : outcome (ManagerBase * option error) :=
  let '(m, err) := Send peer Handshake st m in
  match err with
  | Some e => Ret (m, Some (NewProtocolError ErrorHandshakeFailed (Error_string e)))
  | None =>
      match read with
      | Err e => Ret (m, Some e)
      | Ok msg =>
          if decide (msg_Code msg ≠ Handshake) then
            Ret (m, Some (NewProtocolError ErrorHandshakeFailed "first message needs to be handshake status"))
          else
            match Decode (A:=HandshakeMsg) (msg_Payload msg) with
            | Err e => Ret (m, Some (NewProtocolError ErrorHandshakeFailed (Error_string e)))
            | Ok hs =>
                if decide (NetworkId hs ≠ NetworkId st) then
                  Ret (m, Some (NewProtocolError ErrorHandshakeFailed "network ID does not match"))
                else if decide (ShardId hs ≠ ShardId st) then
                  Ret (m, Some (NewProtocolError ErrorHandshakeFailed "shard ID does not match"))
                else if decide (Genesis hs ≠ Genesis st) then
                  Ret (m, Some (NewProtocolError ErrorHandshakeFailed "genesis does not match"))
                else
                  let! (ps, err) := RegisterPeerNode (heap m) peer (db m) in
                  match err with
                  | Some e => Ret (m, Some e)
                  | None =>
                      let! n := deref (heap m !! peer) in
                      Ret (Base ps (peerCount m + 1) (<[peer := SetStatus hs n]> (heap m)) (sent m), None)
                  end
            end
      end
  end.
End base.
End Proto.

(** ** Package [pager] *)

Definition maxPeers : Z := 10.
Definition BroadcastText : Z := Proto.Handshake + 1.

(** [type BroadcastTextMsg struct] *)
Record BroadcastTextMsg := MkText {
  MsgId : Byte16;
  MsgText : bytes;
}.

Definition defaultHandshake : Proto.HandshakeMsg :=
  Proto.MkHandshake (BytesToByte16 [x01; x02; x03; x04]) (BytesToByte16 []) (Uint64ToByte8 0) (BytesToByte64 []) (Uint64ToByte8 0).

(** [type PagerProtocolManager struct]; [pages] are the calls of the callback:
    the sender's name and the text. *)
Record PagerProtocolManager := Pager {
  base : Proto.ManagerBase;
  pages : list (bytes * bytes);
}.

Definition NewPagerProtocolManager : PagerProtocolManager :=
  Pager (Proto.Base NewPeerSetDbInMemory 0 ∅ []) [].

Section pager.
Context {rlh : Rlp Proto.HandshakeMsg} {rlt : Rlp BroadcastTextMsg}.
Context (net : list (ref * Msg) → ref → Msg → option error) (pick : picker item) (order : nodeOrder).
Implicit Types (m : PagerProtocolManager).

(** The loop of [Broadcast] *)
Fixpoint broadcastText (msg : BroadcastTextMsg) (nodes : list ref) (m : Proto.ManagerBase)
    : outcome (Proto.ManagerBase * Z) :=
  match nodes with
  | [] => Ret (m, 0)
  | node :: nodes =>
      let! n := deref (Proto.heap m !! node) in
      let m := Proto.set_heap (<[node := Proto.AddTx pick (ItemId (MsgId msg)) n]> (Proto.heap m)) m in
      let '(m, _) := Proto.Send net node BroadcastText msg m in
      let! (m, count) := broadcastText msg nodes m in
      Ret (m, 1 + count)
  end.

(** [func (mgr *PagerProtocolManager) Broadcast(msg BroadcastTextMsg) int] *)
Definition Broadcast (msg : BroadcastTextMsg) m : outcome (PagerProtocolManager * Z) :=
  let! nodes := PeerNodesWithMsgNotSeen order (Proto.heap (base m)) (ItemId (MsgId msg)) (Proto.db (base m)) in
  let! (b, count) := broadcastText msg nodes (base m) in
  Ret (Pager b (pages m), count).

(** [func (mgr *PagerProtocolManager) handleBroadcastMsg(msg p2p.Msg, from *p2p.Peer) error];
    [id] and [name] are those of [from]. *)
Definition handleBroadcastMsg (msg : Msg) (id name : bytes) m : outcome (PagerProtocolManager * option error) :=
  match Decode (A:=BroadcastTextMsg) (msg_Payload msg) with
  | Err e => Ret (m, Some e)
  | Ok text =>
      let '(ps, seen) := HaveISeenIt (ItemId (MsgId text)) (Proto.db (base m)) in
      let b := Proto.Base ps (Proto.peerCount (base m)) (Proto.heap (base m)) (Proto.sent (base m)) in
      if negb seen then
        let! r := deref (PeerNodeForId id ps) in
        let! n := deref (Proto.heap b !! r) in
        let b := Proto.set_heap (<[r := Proto.AddTx pick (ItemId (MsgId text)) n]> (Proto.heap b)) b in
        let! (m, _) := Broadcast text (Pager b (pages m ++ [(name, MsgText text)])) in
        Ret (m, None)
      else Ret (Pager b (pages m), None)
  end.

(** The beginning of [Run] of [Protocol], up to the handshake; [peer] is the
    address of the new node. *)
Definition pager_connect (peer : ref) (id name : bytes) (read : result Msg) m
    : outcome (PagerProtocolManager * option error) :=
  let b := Proto.set_heap (<[peer := Proto.NewNode id name]> (Proto.heap (base m))) (base m) in
  if decide (maxPeers ≤ Proto.PeerCount b) then
    Ret (Pager b (pages m), Some (Proto.NewProtocolError Proto.ErrorMaxPeersReached "already connected to maximum peer capacity"))
  else
    let! (b, err) := Proto.handshake net defaultHandshake read peer b in
    Ret (Pager b (pages m), err).

(** One round of the listener of [Run]: [Some] error ends it. *)
Definition pager_listen (read : result Msg) (id name : bytes) m : outcome (PagerProtocolManager * option error) :=
  match read with
  | Err e => Ret (m, Some e)
  | Ok msg =>
      if decide (msg_Code msg = BroadcastText) then handleBroadcastMsg msg id name m
      else Ret (m, Some (Proto.NewProtocolError Proto.ErrorUnknownMessageType "unknown protocol message recieved"))
  end.

(** The deferred function of [Run] *)
Definition pager_disconnected (peer : ref) m : outcome PagerProtocolManager :=
  let! b := Proto.UnregisterPeer peer (base m) in Ret (Pager b (pages m)).
End pager.
