(* ===== verification/PagerTheorems.v ===== *)
(** * Theorems about the pager

    A page is shown once and flooded to the peers that have not seen it. *)

From Stdlib Require Import Strings.Byte.
From S2P Require Import Prelude Bytes Db Concrete Consensus Peers PeersTheorems Pager.

(** The registered references are nodes, each under its own id. *)
Definition base_ok (b : Proto.ManagerBase) : Prop :=
  map_Forall (λ id r, ∃ n, Proto.heap b !! r = Some n ∧ Proto.nd_Id n = id) (ps_nodes (Proto.db b)).

(** A registered peer that is known to have an item *)
Definition knows (it : item) (b : Proto.ManagerBase) (r : ref) : Prop :=
  Proto.HasTx it <$> Proto.heap b !! r = Some true.

(** The peers visited by ranging over the registered nodes *)
Definition registered (order : nodeOrder) (b : Proto.ManagerBase) : list ref := order (ps_nodes (Proto.db b)).

(** Only what peers are known to have, and what was sent, changed. *)
Definition same_peers (b b' : Proto.ManagerBase) : Prop :=
  Proto.db b' = Proto.db b ∧ Proto.peerCount b' = Proto.peerCount b ∧
  ∀ r, Proto.nd_Id <$> Proto.heap b' !! r = Proto.nd_Id <$> Proto.heap b !! r.

#[global] Instance same_peers_preorder : PreOrder same_peers.
Proof.
  split; [by intros b|]. intros b1 b2 b3 (H1 & H2 & H3) (H4 & H5 & H6).
  split; [by etrans|]. split; [by etrans|]. intros r. by rewrite H6.
Qed.

Lemma same_peers_ok b b' : same_peers b b' → base_ok b → base_ok b'.
Proof.
  intros (Hd & _ & Hh) Hb id r Hr. rewrite Hd in Hr. destruct (Hb id r Hr) as (n & Hn & <-).
  specialize (Hh r). rewrite Hn in Hh. destruct (Proto.heap b' !! r) as [n'|]; [|done].
  injection Hh as Hh. by exists n'.
Qed.

Lemma AddTx_knows pick it n : Proto.HasTx it (Proto.AddTx pick it n) = true.
Proof. apply bool_decide_eq_true_2. cbn [Proto.knownTxs Proto.AddTx]. rewrite set_Add_spec. set_solver. Qed.

(** Marking a peer. *)
Definition mark (pick : picker item) (it : item) (r : ref) (n : Proto.Node) (b : Proto.ManagerBase) : Proto.ManagerBase :=
  Proto.set_heap (<[r := Proto.AddTx pick it n]> (Proto.heap b)) b.

Lemma mark_spec pick it r n b :
  Proto.heap b !! r = Some n →
  let b' := mark pick it r n b in
  same_peers b b' ∧ knows it b' r ∧ Proto.sent b' = Proto.sent b ∧ ∀ r', r' ≠ r → Proto.heap b' !! r' = Proto.heap b !! r'.
Proof.
  intros Hn. unfold mark, knows, same_peers. cbn. split.
  - split; [done|]. split; [done|]. intros r'. destruct (decide (r = r')) as [<-|Hne]; [by rewrite lookup_insert_eq, Hn | by rewrite lookup_insert_ne].
  - split; [simplify_map_eq; by rewrite AddTx_knows|]. split; [done|]. intros r' Hne. by rewrite lookup_insert_ne.
Qed.

(** ** Flooding *)

Section flood.
Context (net : list (ref * Msg) → ref → Msg → option error) (pick : picker item).
Context {A : Type} {rla : Rlp A} (it : item) (code : Z) (data : A).
Implicit Types (b : Proto.ManagerBase).

(** What sending a message to a list of peers sends *)
Definition sends (log : list (ref * Msg)) (tos : list ref) : list (ref * Msg) :=
  match Encode data with Ok payload => deliver net log tos (MkMsg code payload) | Err _ => log end.

Lemma Send_sends r b :
  ∃ log err, Proto.Send net r code data b = (Proto.Base (Proto.db b) (Proto.peerCount b) (Proto.heap b) log, err) ∧
    ∀ tos, sends (Proto.sent b) (r :: tos) = sends log tos.
Proof.
  unfold Proto.Send, sends. destruct b as [d c h log]. cbn. destruct (Encode data) as [payload|e]; [|by do 2 eexists].
  destruct (net log r (MkMsg code payload)); by do 2 eexists.
Qed.

(** The loop of protocols that relay a message: each peer is marked as having
    the item, then the message is sent to it. *)
Fixpoint flood (nodes : list ref) b : outcome (Proto.ManagerBase * Z) :=
  match nodes with
  | [] => Ret (b, 0)
  | r :: nodes =>
      let! n := deref (Proto.heap b !! r) in
      let '(b, _) := Proto.Send net r code data (mark pick it r n b) in
      let! (b, count) := flood nodes b in
      Ret (b, 1 + count)
  end.

Lemma flood_spec nodes : ∀ b,
  Forall (λ r, is_Some (Proto.heap b !! r)) nodes →
  ∃ b', flood nodes b = Ret (b', Z.of_nat (length nodes)) ∧ same_peers b b' ∧
    Proto.sent b' = sends (Proto.sent b) nodes ∧
    (∀ r, r ∈ nodes → knows it b' r) ∧
    (∀ r, r ∉ nodes → Proto.heap b' !! r = Proto.heap b !! r).
Proof.
  induction nodes as [|r nodes IH]; intros b Hall; cbn [flood].
  - exists b. split; [done|]. split; [done|]. split; [unfold sends; by destruct (Encode data)|]. split; [set_solver | done].
  - inversion Hall as [|? ? [n Hn] Hrest]; subst. rewrite Hn. cbn [deref outcome_bind].
    destruct (mark_spec pick it r n b Hn) as (Hs & Hk & Hsent & Hheap).
    set (b1 := mark _ _ _ _ _) in *. destruct (Send_sends r b1) as (log & err & -> & Hlog).
    set (b2 := Proto.Base _ _ _ log). destruct (IH b2) as (b' & -> & Hs' & Hsent' & Hk' & Hheap').
    { eapply Forall_impl; [|exact Hrest]. intros r' [n' Hn']. change (is_Some (Proto.heap b1 !! r')).
      destruct Hs as (_ & _ & Hids). specialize (Hids r'). rewrite Hn' in Hids. by destruct (Proto.heap b1 !! r'). }
    cbn [outcome_bind]. exists b'. split; [f_equal; f_equal; cbn [length]; lia|].
    split; [etrans; [exact Hs|]; exact Hs'|]. split; [rewrite Hsent', <- Hsent; symmetry; apply Hlog|]. split.
    + intros r' [->|Hin]%elem_of_cons; [|by apply Hk']. destruct (decide (r ∈ nodes)) as [Hin|Hin]; [by apply Hk'|].
      unfold knows. by rewrite (Hheap' r Hin).
    + intros r' [Hne Hnin]%not_elem_of_cons. rewrite (Hheap' r' Hnin). by apply Hheap.
Qed.
End flood.

Section pager.
Context {rlh : Rlp Proto.HandshakeMsg} {rlt : Rlp BroadcastTextMsg}.
Context (net : list (ref * Msg) → ref → Msg → option error) (pick : picker item) (order : nodeOrder).
Implicit Types (m : PagerProtocolManager) (b : Proto.ManagerBase).

(** The loop of [Broadcast] *)
Lemma broadcastText_flood text nodes : ∀ b,
  broadcastText net pick text nodes b = flood net pick (ItemId (MsgId text)) BroadcastText text nodes b.
Proof.
  induction nodes as [|r nodes IH]; intros b; [done|]. cbn [broadcastText flood].
  destruct (Proto.heap b !! r) as [n|]; [|done]. cbn [deref outcome_bind]. change (Proto.set_heap _ b) with (mark pick (ItemId (MsgId text)) r n b).
  destruct (Proto.Send net r BroadcastText text _) as [b1 e]. by rewrite IH.
Qed.

Lemma registered_nodes b r : is_node_order order → base_ok b → r ∈ registered order b → is_Some (Proto.heap b !! r).
Proof. intros Ho Hb [id Hid]%(node_order_elem _ _ _ Ho). destruct (Hb id r Hid) as (n & -> & _). by eexists. Qed.

#[global] Instance knows_dec it b r : Decision (knows it b r).
Proof. unfold knows. apply _. Defined.

(** A broadcast reaches exactly the registered peers not known to have the page. *)
Lemma Broadcast_spec text m :
  is_node_order order → base_ok (base m) →
  let it := ItemId (MsgId text) in
  let targets := filter (λ r, ¬ knows it (base m) r) (registered order (base m)) in
  ∃ b', Broadcast net pick order text m = Ret (Pager b' (pages m), Z.of_nat (length targets)) ∧ same_peers (base m) b' ∧
    Proto.sent b' = sends net BroadcastText text (Proto.sent (base m)) targets ∧ Forall (knows it b') (registered order (base m)).
Proof.
  intros Ho Hb it targets. unfold Broadcast, PeerNodesWithMsgNotSeen.
  assert (Forall (λ r, is_Some (Proto.heap (base m) !! r)) (registered order (base m))) as Hreg.
  { apply list.Forall_forall. intros r Hr. by apply registered_nodes. }
  unfold registered in *. rewrite (notSeenLoop_spec _ it _ Hreg). cbn [outcome_bind].
  change (filter _ _) with targets. rewrite broadcastText_flood.
  destruct (flood_spec net pick (ItemId (MsgId text)) BroadcastText text targets (base m)) as (b' & -> & Hs & Hsent & Hk & Hh).
  { rewrite list.Forall_forall in *. intros r [_ Hr]%list_elem_of_filter. by apply Hreg. }
  cbn [outcome_bind]. exists b'. split; [done|]. split; [done|]. split; [done|].
  apply list.Forall_forall. intros r Hr. destruct (decide (knows it (base m) r)) as [Hkn|Hkn].
  - unfold knows. rewrite Hh; [done|]. by intros [? _]%list_elem_of_filter.
  - apply Hk. by apply list_elem_of_filter.
Qed.

(** What the handling of a page does *)
Record paged (text : BroadcastTextMsg) (from : ref) (name : bytes) m m' : Prop := {
  pg_ok : base_ok (base m');
  pg_nodes : ps_nodes (Proto.db (base m')) = ps_nodes (Proto.db (base m));
  pg_history : ps_myHistory (Proto.db (base m')) = {[ItemId (MsgId text)]} ∪ ps_myHistory (Proto.db (base m));
  pg_count : Proto.peerCount (base m') = Proto.peerCount (base m);
  pg_seen : ItemId (MsgId text) ∈ ps_myHistory (Proto.db (base m)) → m' = m;
  pg_new : ItemId (MsgId text) ∉ ps_myHistory (Proto.db (base m)) →
    pages m' = pages m ++ [(name, MsgText text)] ∧
    Proto.sent (base m') = sends net BroadcastText text (Proto.sent (base m))
      (filter (λ r, r ≠ from ∧ ¬ knows (ItemId (MsgId text)) (base m) r) (registered order (base m))) ∧
    Forall (knows (ItemId (MsgId text)) (base m')) (registered order (base m'));
}.

Lemma page_seen text payload id name m :
  Decode payload = Ok text → ItemId (MsgId text) ∈ ps_myHistory (Proto.db (base m)) →
  handleBroadcastMsg net pick order (MkMsg BroadcastText payload) id name m = Ret (m, None).
Proof.
  intros Hdec Hin. unfold handleBroadcastMsg, HaveISeenIt. cbn [msg_Payload]. rewrite Hdec.
  rewrite bool_decide_eq_true_2 by done. by destruct m as [[] ?].
Qed.

Lemma handle_page text payload id from name m :
  is_node_order order → base_ok (base m) → PeerNodeForId id (Proto.db (base m)) = Some from →
  Decode payload = Ok text →
  ∃ m', handleBroadcastMsg net pick order (MkMsg BroadcastText payload) id name m = Ret (m', None) ∧ paged text from name m m'.
Proof.
  intros Ho Hb Hfrom Hdec. destruct (HaveISeenIt_spec (ItemId (MsgId text)) (Proto.db (base m))) as (Hseen & Hhist & Hnodes).
  destruct (decide (ItemId (MsgId text) ∈ ps_myHistory (Proto.db (base m)))) as [Hin|Hin].
  - exists m. split; [by apply (page_seen text)|]. split; [done..| set_solver | done | done | done].
  - unfold handleBroadcastMsg. cbn [msg_Payload]. rewrite Hdec. destruct (HaveISeenIt _ _) as [ps seen]. cbn [fst snd] in *. subst seen.
    rewrite bool_decide_eq_false_2 by done. cbn [negb].
    unfold PeerNodeForId in *. rewrite Hnodes, Hfrom. cbn [deref outcome_bind].
    destruct (Hb id from Hfrom) as (n & Hn & Hid). set (b0 := Proto.Base ps _ _ _).
    change (Proto.heap b0) with (Proto.heap (base m)). rewrite Hn. cbn [deref outcome_bind].
    change (Proto.set_heap _ b0) with (mark pick (ItemId (MsgId text)) from n b0).
    destruct (mark_spec pick (ItemId (MsgId text)) from n b0 Hn) as (Hs & Hk & Hsent & Hheap). set (b1 := mark _ _ _ _ _) in *.
    assert (base_ok b1) as Hb1. { apply (same_peers_ok b0); [done|]. intros i r. unfold b0. cbn. rewrite Hnodes. apply Hb. }
    destruct (Broadcast_spec text (Pager b1 (pages m ++ [(name, MsgText text)])) Ho Hb1) as (b' & -> & Hs' & Hsent' & Hknow).
    cbn [base pages] in *. cbn [outcome_bind]. eexists. split; [done|].
    assert (Proto.db b' = ps) as Hdb by (rewrite (proj1 Hs'); apply Hs).
    split; cbn [base pages]; [by apply (same_peers_ok b1)|by rewrite Hdb|by rewrite Hdb|by rewrite (proj1 (proj2 Hs'))|done|].
    intros _. split; [done|]. unfold registered in *. rewrite (proj1 Hs) in Hsent', Hknow. change (Proto.db b0) with ps in Hsent', Hknow.
    split; [|by rewrite Hdb]. rewrite Hsent', Hsent. change (Proto.sent b0) with (Proto.sent (base m)). f_equal. rewrite Hnodes.
    apply list_filter_iff. intros r. destruct (decide (r = from)) as [->|Hne]; [tauto|]. unfold knows. rewrite (Hheap r Hne).
    change (Proto.heap b0) with (Proto.heap (base m)). tauto.
Qed.

(** C33: A page from a registered peer is handled without error: a page seen before changes
    nothing; a new one is shown once, recorded in the history and sent to exactly the registered
    peers other than the sender that are not known to have it, after which every registered peer
    is known to have it. *)
Theorem page_flooded_once text payload id from name m :
  is_node_order order → base_ok (base m) → PeerNodeForId id (Proto.db (base m)) = Some from →
  Decode payload = Ok text →
  ∃ m', handleBroadcastMsg net pick order (MkMsg BroadcastText payload) id name m = Ret (m', None) ∧ paged text from name m m'.
Proof. apply handle_page. Qed.

(** A page that arrives from a registered peer *)
Record arrival := Arrival { ar_payload : bytes; ar_text : BroadcastTextMsg; ar_id : bytes; ar_name : bytes }.

Definition arrives m (a : arrival) : Prop :=
  Decode (ar_payload a) = Ok (ar_text a) ∧ is_Some (PeerNodeForId (ar_id a) (Proto.db (base m))).

(** The listeners handle pages one after another. *)
Fixpoint listens (arrivals : list arrival) m : outcome PagerProtocolManager :=
  match arrivals with
  | [] => Ret m
  | a :: arrivals =>
      let! (m, err) := pager_listen net pick order (Ok (MkMsg BroadcastText (ar_payload a))) (ar_id a) (ar_name a) m in
      match err with Some _ => Panic | None => listens arrivals m end
  end.

(** The first arrivals of each page, given the pages that were seen *)
Fixpoint firstArrivals (seen : gset item) (arrivals : list arrival) : list (bytes * bytes) :=
  match arrivals with
  | [] => []
  | a :: arrivals =>
      let it := ItemId (MsgId (ar_text a)) in
      (if decide (it ∈ seen) then [] else [(ar_name a, MsgText (ar_text a))]) ++ firstArrivals ({[it]} ∪ seen) arrivals
  end.

(** Whatever pages arrive from registered peers, in whatever order and however often, the pager
    shows exactly the first arrival of each page id, in order of arrival. *)
Theorem pages_are_first_arrivals arrivals m :
  is_node_order order → base_ok (base m) → Forall (arrives m) arrivals →
  ∃ m', listens arrivals m = Ret m' ∧ pages m' = pages m ++ firstArrivals (ps_myHistory (Proto.db (base m))) arrivals ∧
    base_ok (base m') ∧ ps_nodes (Proto.db (base m')) = ps_nodes (Proto.db (base m)).
Proof.
  intros Ho. revert m. induction arrivals as [|a arrivals IH]; intros m Hb Hall; cbn [listens firstArrivals].
  - exists m. by rewrite app_nil_r.
  - inversion Hall as [|? ? [Hdec [from Hfrom]] Hrest]; subst. unfold pager_listen. rewrite decide_True by done.
    destruct (handle_page (ar_text a) (ar_payload a) (ar_id a) from (ar_name a) m Ho Hb Hfrom Hdec) as (m1 & -> & [Hok Hn Hh _ Hold Hnew]).
    cbn [outcome_bind]. destruct (IH m1 Hok) as (m' & Hrun & Hp & Hok' & Hn').
    { eapply Forall_impl; [|exact Hrest]. intros a' [Hd Hr]. split; [done|]. unfold PeerNodeForId in *. by rewrite Hn. }
    exists m'. split; [done|]. split; [|by rewrite Hn', Hn]. rewrite Hp, Hh. case_decide as Hin; [by rewrite (Hold Hin)|].
    destruct (Hnew Hin) as (-> & _). by rewrite <- app_assoc.
Qed.

(** ** Reachable pagers *)

(** A call of the pager: a connection up to its handshake, a message that a
    listener reads, a page of the node's own, the end of a connection *)
Inductive pager_step : PagerProtocolManager → PagerProtocolManager → Prop :=
  | step_connect peer id name read m m' err :
      Proto.heap (base m) !! peer = None → pager_connect net peer id name read m = Ret (m', err) → pager_step m m'
  | step_listen read id name m m' err : pager_listen net pick order read id name m = Ret (m', err) → pager_step m m'
  | step_broadcast text m m' n : Broadcast net pick order text m = Ret (m', n) → pager_step m m'
  | step_disconnected peer m m' : pager_disconnected peer m = Ret m' → pager_step m m'.

Record pager_inv m : Prop := {
  pv_ok : base_ok (base m);
  pv_count : Proto.peerCount (base m) ≤ maxPeers;
  pv_pages : length (pages m) = size (ps_myHistory (Proto.db (base m)));
}.

(** A new node at a fresh address changes nothing for the registered ones. *)
Lemma fresh_ok peer n b :
  Proto.heap b !! peer = None → base_ok b → base_ok (Proto.set_heap (<[peer := n]> (Proto.heap b)) b).
Proof.
  intros Hf Hb id r Hr. destruct (Hb id r Hr) as (n' & Hn & Hid). exists n'. split; [|done].
  cbn [Proto.heap Proto.set_heap]. rewrite lookup_insert_ne; [done|]. by intros ->; rewrite Hf in Hn.
Qed.

Lemma Send_same {A} `{Rlp A} to code (x : A) b :
  ∃ log err, Proto.Send net to code x b = (Proto.Base (Proto.db b) (Proto.peerCount b) (Proto.heap b) log, err).
Proof.
  unfold Proto.Send. destruct b as [d c h log]. cbn. destruct (Encode x) as [payload|e]; [|by do 2 eexists].
  destruct (net log to (MkMsg code payload)); by do 2 eexists.
Qed.

(** A handshake either registers the peer or changes no registration. *)
Lemma handshake_spec st read peer b b' err :
  base_ok b → Proto.handshake net st read peer b = Ret (b', err) →
  base_ok b' ∧ ps_myHistory (Proto.db b') = ps_myHistory (Proto.db b) ∧ Proto.peerCount b' ≤ Proto.peerCount b + 1.
Proof.
  intros Hb. unfold Proto.handshake. destruct (Send_same peer Proto.Handshake st b) as (log & e & ->).
  set (b0 := Proto.Base _ _ _ log).
  assert (base_ok b0 ∧ ps_myHistory (Proto.db b0) = ps_myHistory (Proto.db b) ∧ Proto.peerCount b0 ≤ Proto.peerCount b + 1) as Hb0.
  { split; [exact Hb|]. split; [done|]. cbn. lia. }
  destruct e; [by intros [= <- _]|]. destruct read as [msg|]; [|by intros [= <- _]].
  case_decide; [by intros [= <- _]|]. destruct (Decode _) as [hs|]; [|by intros [= <- _]].
  do 3 (case_decide; [by intros [= <- _]|]). unfold RegisterPeerNode.
  destruct (Proto.heap b0 !! peer) as [n|] eqn:Hn; [|done]. cbn [deref outcome_bind]. intros [= <- _].
  split; [|split; [done | cbn; lia]]. intros id r. cbn [Proto.db Proto.heap ps_nodes].
  intros [[<- <-]|[Hne Hr]]%lookup_insert_Some; [by eexists; rewrite lookup_insert_eq|].
  destruct (Hb id r Hr) as (n' & Hn' & Hid). destruct (decide (peer = r)) as [->|Hpr].
  - eexists. rewrite lookup_insert_eq. split; [done|]. change (Proto.heap b !! r = Some n) in Hn. rewrite Hn in Hn'. by simplify_eq.
  - exists n'. by rewrite lookup_insert_ne.
Qed.

Lemma pager_step_inv m m' : is_node_order order → pager_inv m → pager_step m m' → pager_inv m'.
Proof.
  intros Ho [Hok Hcount Hpages] Hstep. destruct Hstep as [peer id name read m m' err Hf Hrun|read id name m m' err Hrun|text m m' n Hrun|peer m m' Hrun].
  - unfold pager_connect in Hrun. pose proof (fresh_ok peer (Proto.NewNode id name) (base m) Hf Hok) as Hok'. set (b := Proto.set_heap _ _) in *.
    case_decide as Hmax; [by injection Hrun as <- _|].
    destruct (Proto.handshake net defaultHandshake read peer b) as [[b' e]| |] eqn:Eh; [|done..]. injection Hrun as <- _.
    destruct (handshake_spec _ _ _ _ _ _ Hok' Eh) as (? & Hh & Hc). change (Proto.peerCount b) with (Proto.peerCount (base m)) in Hc.
    change (¬ maxPeers ≤ Proto.peerCount (base m)) in Hmax. split; cbn [base pages]; [done | lia | by rewrite Hh].
  - unfold pager_listen in Hrun. destruct read as [msg|]; [|by injection Hrun as <- _]. case_decide; [|by injection Hrun as <- _].
    destruct (Decode (A:=BroadcastTextMsg) (msg_Payload msg)) as [text|e] eqn:Ed.
    2: { unfold handleBroadcastMsg in Hrun. rewrite Ed in Hrun. by injection Hrun as <- _. }
    assert (msg = MkMsg BroadcastText (msg_Payload msg)) as Hmsg by (by destruct msg; cbn in *; subst).
    destruct (decide (ItemId (MsgId text) ∈ ps_myHistory (Proto.db (base m)))) as [Hin|Hin].
    { rewrite Hmsg, (page_seen text) in Hrun by done. by injection Hrun as <- _. }
    destruct (PeerNodeForId id (Proto.db (base m))) as [from|] eqn:Hfrom.
    + destruct (handle_page text (msg_Payload msg) id from name m Ho Hok Hfrom Ed) as (m1 & Heq & [Hok' _ Hh Hc _ Hnew]).
      rewrite Hmsg, Heq in Hrun. injection Hrun as <- _. split; [done | by rewrite Hc|].
      destruct (Hnew Hin) as (-> & _). rewrite Hh, size_union, size_singleton, length_app, Hpages by set_solver. simpl. lia.
    + unfold handleBroadcastMsg, HaveISeenIt, PeerNodeForId in *. rewrite Ed, bool_decide_eq_false_2 in Hrun by done.
      cbn [negb ps_nodes] in Hrun. by rewrite Hfrom in Hrun.
  - destruct (Broadcast_spec text m Ho Hok) as (b' & Heq & Hs & _). rewrite Heq in Hrun. injection Hrun as <- _.
    split; cbn [base pages]; [by apply (same_peers_ok (base m))| |]; destruct Hs as (Hd & Hc & _); [by rewrite Hc | by rewrite Hd].
  - unfold pager_disconnected, Proto.UnregisterPeer in Hrun. destruct (Proto.heap (base m) !! peer) as [n|]; [|done]. injection Hrun as <-.
    split; [|cbn; lia | done]. intros id r Hr. change (delete (Proto.nd_Id n) (ps_nodes (Proto.db (base m))) !! id = Some r) in Hr.
    apply lookup_delete_Some in Hr as [_ Hr]. exact (Hok id r Hr).
Qed.

(** In every state that a new pager reaches by connections, messages, broadcasts and
    disconnections, registered peers are live nodes under their own ids, there are at most ten
    peers, and the pages shown are as many as the ids in the history. *)
Theorem pager_invariant m :
  is_node_order order → rtc pager_step NewPagerProtocolManager m → pager_inv m.
Proof.
  intros Ho. apply (rtc_ind_r (λ m, pager_inv m)).
  - split; [by intros ? ?|done|done].
  - intros m1 m2 _ Hstep Hm. by eapply pager_step_inv.
Qed.
End pager.

(** ** Witnesses *)

#[global] Instance wire_proto_handshake : Wire Proto.HandshakeMsg :=
  wire_iso (λ h, (Proto.NetworkId h, Proto.ShardId h, Proto.TotalWeight h, Proto.Genesis h, Proto.TipNumeric h))
    (λ '(n, s, w, g, t), Proto.MkHandshake n s w g t) (λ h, match h with Proto.MkHandshake _ _ _ _ _ => eq_refl end).
#[global] Instance wire_text : Wire BroadcastTextMsg :=
  wire_iso (λ t, (MsgId t, MsgText t)) (λ '(i, t), MkText i t) (λ t, match t with MkText _ _ => eq_refl end).

Section witnesses.
#[local] Instance w_rlp_proto : Rlp Proto.HandshakeMsg := rlp_of_wire.
#[local] Instance w_rlp_text : Rlp BroadcastTextMsg := rlp_of_wire.

(** Three peers that connected. *)
Definition w_hello : result Msg := Ok (MkMsg Proto.Handshake (enc defaultHandshake)).
Definition w_connect (peer : ref) (id : byte) (m : PagerProtocolManager) : PagerProtocolManager :=
  match pager_connect w_net peer [id] [id; id] w_hello m with Ret (m, None) => m | _ => m end.
Definition w_pager : PagerProtocolManager := w_connect 3 x63 (w_connect 2 x62 (w_connect 1 x61 NewPagerProtocolManager)).

Lemma w_pager_ok : base_ok (base w_pager).
Proof.
  assert (Forall (λ p, ∃ n, Proto.heap (base w_pager) !! p.2 = Some n ∧ Proto.nd_Id n = p.1) (map_to_list (ps_nodes (Proto.db (base w_pager))))) as H.
  { vm_compute map_to_list. repeat constructor; eexists; split; vm_compute; reflexivity. }
  intros id r Hr%elem_of_map_to_list. rewrite list.Forall_forall in H. exact (H _ Hr).
Qed.

Definition w_text (i : byte) : BroadcastTextMsg := MkText (BytesToByte16 [i]) [i; i].

Lemma page_flooded_once_witness :
  ∃ m', handleBroadcastMsg w_net w_pick w_nodes (MkMsg BroadcastText (enc (w_text x07))) [x61] [x61; x61] w_pager = Ret (m', None) ∧
    paged w_net w_nodes (w_text x07) 1 [x61; x61] w_pager m'.
Proof.
  apply (page_flooded_once w_net w_pick w_nodes (w_text x07)).
  - exact w_nodes_ok.
  - exact w_pager_ok.
  - vm_compute. reflexivity.
  - vm_compute. reflexivity.
Defined.

Definition w_arrivals : list arrival :=
  [Arrival (enc (w_text x07)) (w_text x07) [x61] [x61; x61]; Arrival (enc (w_text x07)) (w_text x07) [x62] [x62; x62];
   Arrival (enc (w_text x08)) (w_text x08) [x63] [x63; x63]].

Example w_first_arrivals : firstArrivals ∅ w_arrivals = [([x61; x61], [x07; x07]); ([x63; x63], [x08; x08])].
Proof. vm_compute. reflexivity. Qed.

Lemma pages_are_first_arrivals_witness :
  ∃ m', listens w_net w_pick w_nodes w_arrivals w_pager = Ret m' ∧
    pages m' = pages w_pager ++ firstArrivals (ps_myHistory (Proto.db (base w_pager))) w_arrivals ∧
    base_ok (base m') ∧ ps_nodes (Proto.db (base m')) = ps_nodes (Proto.db (base w_pager)).
Proof.
  apply pages_are_first_arrivals.
  - exact w_nodes_ok.
  - exact w_pager_ok.
  - repeat constructor; vm_compute; eauto.
Defined.

Lemma pager_invariant_witness : pager_inv (w_connect 1 x61 NewPagerProtocolManager).
Proof.
  apply (pager_invariant w_net w_pick w_nodes); [exact w_nodes_ok|].
  eapply rtc_once, (step_connect _ _ _ 1 [x61] [x61; x61] w_hello _ _ None).
  - reflexivity.
  - vm_compute. reflexivity.
Defined.
End witnesses.
