(* ===== verification/CounterProto.v ===== *)
(** * The counter protocol ([src/protocol/counter/manager.go], [messages.go])

    Definitions only: an older protocol of named counters over the base of
    [Pager] and the interface [Engine] of the consensus layer.  A block of
    this protocol carries increments and decrements; a peer replays them on
    the block before it asks the engine to accept it.  As in [Platform], a
    handler runs to its end in one step and what waits on a channel is cut
    into the steps between two waits.

    A manager here is any value of the record, over any engine; its
    constructor, [delta], [Increment] and [Decrement] are in [CounterOps]. *)

From Stdlib Require Import Strings.Byte.
From S2P Require Import Prelude Bytes Db WorldStateI Block Consensus Trustee Peers Platform Pager.

Module Counter.

(** ** Messages ([messages.go]) *)

Definition GetBlockHashesRequest : Z := Proto.Handshake + 1.
Definition GetBlockHashesResponse : Z := GetBlockHashesRequest + 1.
Definition GetBlockHashesRewind : Z := GetBlockHashesResponse + 1.
Definition GetBlocksRequest : Z := GetBlockHashesRewind + 1.
Definition GetBlocksResponse : Z := GetBlocksRequest + 1.
Definition NewBlock : Z := GetBlocksResponse + 1.
Definition msgCount : Z := NewBlock + 1.

Definition opIncrement : Z := 1.
Definition opDecrement : Z := 2.
Definition OpIncrement : Byte8 := Uint64ToByte8 opIncrement.
Definition OpDecrement : Byte8 := Uint64ToByte8 opDecrement.

Definition ProtocolMsgCount : Z := msgCount.

(** [type GetBlockHashesRequestMsg struct] *)
Record GetBlockHashesRequestMsg := MkHashesRequest {
  ParentHash : Byte64;
  MaxBlocks : Byte8;
}.

Definition maxBlocks : Z := 10.

(** The variable [handshakeMsg] before a manager sets the genesis hash *)
Definition handshakeMsg0 : Proto.HandshakeMsg :=
  Proto.MkHandshake (BytesToByte16 [x01; x02; x03; x04]) (BytesToByte16 []) (Uint64ToByte8 0) (BytesToByte64 []) (Uint64ToByte8 0).

(** ** Payloads *)

(** [func makeTransactionPayload(name string, opCode *core.Byte8) []byte] *)
Definition makeTransactionPayload (name : bytes) (opCode : Byte8) : bytes := (Bytes opCode ++ name).

(** [func getTransactionFromPayload(data []byte) (string, *core.Byte8)] *)
Definition getTransactionFromPayload (data : bytes) : bytes * option Byte8 :=
  if decide (length data < 9)%nat then ([], None)
  else (drop 8 data, Some (BytesToByte8 (take 8 data))).

(** ** The manager *)

(** [type CountrProtocolManager struct], without the logger; [handshakeMsg] is
    the variable of the package, [stateDbClosed] says whether [stateDb], which
    is the engine's database, was closed, and [nextPtr] is the address of the
    next hash, as in [Platform]. *)
Record CountrProtocolManager {C : Type} := Mgr {
  base : Proto.ManagerBase;
  engine : C;
  miner : Byte64;
  isInShutdown : bool;
  stateDbClosed : bool;
  handshakeMsg : Proto.HandshakeMsg;
  nextPtr : N;
}.
Arguments CountrProtocolManager : clear implicits.

Section manager.
Context {C D W : Type} {wso : WorldState W D} {eng : Engine C D W}.
Context {rls : Rlp BlockSpec} {rlss : Rlp (list BlockSpec)} {rlh : Rlp Byte64} {rlhs : Rlp (list Byte64)}.
Context {rlhm : Rlp Proto.HandshakeMsg} {rlrq : Rlp GetBlockHashesRequestMsg}.
Context (net : list (ref * Msg) → ref → Msg → option error) (pick : picker item) (order : nodeOrder).
Abbreviation mgr := (CountrProtocolManager C).

Definition set_base (x : Proto.ManagerBase) (m : mgr) : mgr :=
  Mgr C x (engine m) (miner m) (isInShutdown m) (stateDbClosed m) (handshakeMsg m) (nextPtr m).
Definition set_engine (x : C) (m : mgr) : mgr :=
  Mgr C (base m) x (miner m) (isInShutdown m) (stateDbClosed m) (handshakeMsg m) (nextPtr m).
Definition set_handshakeMsg (x : Proto.HandshakeMsg) (m : mgr) : mgr :=
  Mgr C (base m) (engine m) (miner m) (isInShutdown m) (stateDbClosed m) x (nextPtr m).
Definition set_nextPtr (x : N) (m : mgr) : mgr :=
  Mgr C (base m) (engine m) (miner m) (isInShutdown m) (stateDbClosed m) (handshakeMsg m) x.

(** *** Running with the manager as state *)

Definition K (A : Type) : Type := mgr → outcome (mgr * A).
Definition K_ret {A} (a : A) : K A := λ m, Ret (m, a).
Definition K_bind {A B} (f : A → K B) (x : K A) : K B := λ m, let! (m, a) := x m in f a m.
Definition K_lift {A} (o : outcome A) : K A := λ m, let! a := o in Ret (m, a).
Definition K_gets {A} (f : mgr → A) : K A := λ m, Ret (m, f m).
Definition K_modify (f : mgr → mgr) : K unit := λ m, Ret (f m, tt).

Notation "'do!' x ':=' e 'in' k" := (K_bind (λ x, k) e)
  (at level 10, x pattern, e at level 100, k at level 200).
Notation "'run!' e 'in' k" := (K_bind (λ _, k) e) (at level 10, e at level 100, k at level 200).

(** A call of the base of the manager, or of the engine *)
Definition K_base {A} (f : Proto.ManagerBase → outcome (Proto.ManagerBase * A)) : K A := λ m,
  let! (b, a) := f (base m) in Ret (set_base b m, a).
Definition K_engine {A} (f : C → outcome (C * A)) : K A := λ m,
  let! (c, a) := f (engine m) in Ret (set_engine c m, a).
Definition K_query {A} (f : C → outcome A) : K A := λ m,
  let! a := f (engine m) in Ret (m, a).
(** A read or change of a peer *)
Definition K_peer (r : ref) : K Proto.Node := λ m, let! n := deref (Proto.heap (base m) !! r) in Ret (m, n).
Definition K_setPeer (r : ref) (n : Proto.Node) : K unit :=
  K_modify (λ m, set_base (Proto.set_heap (<[r := n]> (Proto.heap (base m))) (base m)) m).
(** The address of a hash that was just computed *)
Definition K_alloc : K N := λ m, Ret (set_nextPtr (N.succ (nextPtr m)) m, nextPtr m).

(** [node.Send] *)
Definition K_Send {A} `{Rlp A} (to : ref) (code : Z) (data : A) : K (option error) :=
  K_base (λ b, Ret (Proto.Send net to code data b)).

(** [node.AddTx] of the hash at address [p] *)
Definition markKnown (r : ref) (p : N) : K unit :=
  do! n := K_peer r in K_setPeer r (Proto.AddTx pick (ItemPtr p) n).

(** [node.GetBlockHashesChan <- x] *)
Definition signal (r : ref) (x : Z) : K unit :=
  do! n := K_peer r in
  do! ch := K_lift (chan_send x (Proto.GetBlockHashesChan n)) in
  K_setPeer r (Proto.set_chans ch (Proto.GetBlocksChan n) n).

Definition setLastHash (r : ref) (h : option Byte64) : K unit :=
  do! n := K_peer r in K_setPeer r (Proto.set_LastHash h n).

(** *** Queries and control *)

(** [func (mgr *CountrProtocolManager) countr(name string, block consensus.Block) (uint64, error)] *)
Definition countr (name : bytes) (b : block W) (d : D) : outcome (block W * (Z * option error)) :=
  let! (b, r) := block_Lookup name b d in
  Ret (b, match r with
          | Err err => (0, Some err)
          | Ok value => (Uint64 (BytesToByte8 value), None)
          end).

(** [func (mgr *CountrProtocolManager) Countr(name string) uint64] *)
Definition Countr (name : bytes) : K Z :=
  do! best := K_engine en_BestBlock in
  do! best := K_lift (deref best) in
  do! d := K_gets (λ m, en_db (engine m)) in
  do! (_, (value, _)) := K_lift (countr name best d) in
  K_ret value.

(** [func (mgr *CountrProtocolManager) Tip() (uint64, uint64, *core.Byte64)] *)
Definition Tip : K (Z * Z * option Byte64) :=
  do! bb := K_engine en_BestBlock in
  do! bb := K_lift (deref bb) in
  do! _ := K_lift (deref (block_Hash bb)) in
  K_ret (Uint64 (Depth bb), Uint64 (Weight bb), block_Hash bb).

(** [func (mgr *CountrProtocolManager) Shutdown()] *)
Definition Shutdown : K unit :=
  K_modify (λ m, Mgr C (base m) (engine m) (miner m) true true (handshakeMsg m) (nextPtr m)).

(** *** Blocks and peers *)

(** The loop of [broadCast] *)
Fixpoint broadCastLoop (p : N) (b : block W) (nodes : list ref) : K Z :=
  match nodes with
  | [] => K_ret 0
  | node :: nodes =>
      run! markKnown node p in
      do! _ := K_Send node NewBlock (Spec b) in
      do! count := broadCastLoop p b nodes in
      K_ret (1 + count)
  end.

(** [func (mgr *CountrProtocolManager) broadCast(block consensus.Block) int];
    [p] is the address [block.Hash()]. *)
Definition broadCast (p : N) (b : block W) : K Z :=
  do! nodes := (λ m, let! nodes := PeerNodesWithMsgNotSeen order (Proto.heap (base m)) (ItemPtr p) (Proto.db (base m)) in
                     Ret (m, nodes)) in
  broadCastLoop p b nodes.

(** The body of the loop of [processBlock]: a transaction's effect on the
    block, and the error that ends the processing *)
Definition processTransaction (tx : Transaction) (b : block W) (d : D) : outcome (block W * option error) :=
  let '(name, opCode) := getTransactionFromPayload (Payload tx) in
  match opCode with
  | None => Ret (b, Some (CoreError ERR_INVALID_TX "transaction error"))
  | Some opCode =>
      let! (b, (current, _)) := countr name b d in
      let '(b, result) :=
        if decide (opCode = OpIncrement) then block_Update name (Bytes (Uint64ToByte8 (u64 (current + 1)))) b
        else if decide (opCode = OpDecrement) then block_Update name (Bytes (Uint64ToByte8 (u64 (current - 1)))) b
        else (b, false) in
      if negb result then Ret (b, Some (CoreError ERR_INVALID_TX "transaction error")) else Ret (b, None)
  end.

(** The loop of [processBlock] *)
Fixpoint processTransactions (txs : list Transaction) (b : block W) (d : D) : outcome (block W * option error) :=
  match txs with
  | [] => Ret (b, None)
  | tx :: txs =>
      let! (b, err) := processTransaction tx b d in
      match err with Some err => Ret (b, Some err) | None => processTransactions txs b d end
  end.

(** [func (mgr *CountrProtocolManager) processBlock(block consensus.Block, from *protocol.Node) error] *)
Definition processBlock (b : block W) (from : ref) : K (block W * option error) :=
  do! d := K_gets (λ m, en_db (engine m)) in
  do! (b, err) := K_lift (processTransactions (Transactions b) b d) in
  match err with
  | Some err => K_ret (b, Some err)
  | None =>
      do! (b, err) := K_engine (λ c, let! (c, b, err) := en_AcceptNetworkBlock b c in Ret (c, (b, err))) in
      match err with
      | Some err => K_ret (b, Some err)
      | None =>
          do! p := K_alloc in
          run! markKnown from p in
          do! _ := broadCast p b in
          K_ret (b, None)
      end
  end.

(** *** Message handlers *)

(** [handleGetBlockHashesRewindMsg] *)
Definition handleGetBlockHashesRewindMsg (msg : Msg) (from : ref) : K (option error) :=
  do! n := K_peer from in
  run! match Proto.LastHash n with
       | Some _ => K_ret tt
       | None =>
           do! best := K_engine en_BestBlock in
           do! best := K_lift (deref best) in
           setLastHash from (block_Hash best)
       end in
  do! n := K_peer from in
  do! last := K_lift (deref (Proto.LastHash n)) in
  do! (ancestor, err) := K_query (en_Ancestor last 10) in
  match err with
  | Some err => K_ret (Some err)
  | None =>
      do! ancestor := K_lift (deref ancestor) in
      run! setLastHash from (block_Hash ancestor) in
      do! _ := K_lift (deref (block_Hash ancestor)) in
      run! signal from Proto.CHAN_RETRY in
      K_ret None
  end.

(** [handleNewBlockMsg] *)
Definition handleNewBlockMsg (msg : Msg) (from : ref) : K (option error) :=
  do! r := K_engine (en_DecodeNetworkBlock msg) in
  match r with
  | Err err => K_ret (Some (Proto.NewProtocolError Proto.ErrorBadBlock (Error_string err)))
  | Ok b =>
      do! (_, err) := processBlock b from in
      do! real := K_lift (isRealError err) in
      if real : bool then
        run! signal from Proto.CHAN_ERROR in
        K_ret err
      else K_ret None
  end.

(** The loop of [handleGetBlocksRequestMsg] *)
Fixpoint collectBlocks (hashes : list Byte64) : K (list BlockSpec) :=
  match hashes with
  | [] => K_ret []
  | h :: hashes =>
      do! r := K_engine (en_Block h) in
      do! specs := collectBlocks hashes in
      K_ret (match r with Ok b => Spec b :: specs | Err _ => specs end)
  end.

(** [handleGetBlocksRequestMsg] *)
Definition handleGetBlocksRequestMsg (msg : Msg) (to : ref) : K (option error) :=
  match Decode (A:=list Byte64) (msg_Payload msg) with
  | Err err => K_ret (Some (Proto.NewProtocolError Proto.ErrorSyncFailed (Error_string err)))
  | Ok hashes =>
      if decide (length hashes < 1)%nat then
        K_ret (Some (Proto.NewProtocolError Proto.ErrorInvalidRequest "GetBlocksRequestMsg does not have any hashes"))
      else
        do! blocks := collectBlocks hashes in
        if decide (length blocks < 1)%nat then
          K_ret (Some (Proto.NewProtocolError Proto.ErrorNotFound "GetBlocksRequestMsg did not find any blocks"))
        else K_Send to GetBlocksResponse blocks
  end.

(** The loop of [handleGetBlocksResponseMsg]: the error to return, if any *)
Fixpoint syncBlocks (specs : list BlockSpec) (from : ref) : K (option error) :=
  match specs with
  | [] => K_ret None
  | s :: specs =>
      do! r := K_engine (en_DecodeNetworkBlockSpec s) in
      match r with
      | Err err => K_ret (Some err)
      | Ok b =>
          do! (b, err) := processBlock b from in
          do! real := K_lift (isRealError err) in
          if real : bool then
            run! signal from Proto.CHAN_ERROR in
            K_ret err
          else
            run! setLastHash from (block_Hash b) in
            syncBlocks specs from
      end
  end.

(** [handleGetBlocksResponseMsg] *)
Definition handleGetBlocksResponseMsg (msg : Msg) (from : ref) : K (option error) :=
  match Decode (A:=list BlockSpec) (msg_Payload msg) with
  | Err err =>
      run! signal from Proto.CHAN_ERROR in
      K_ret (Some (Proto.NewProtocolError Proto.ErrorSyncFailed (Error_string err)))
  | Ok specs =>
      if decide (length specs < 1)%nat then
        K_ret (Some (Proto.NewProtocolError Proto.ErrorInvalidRequest "GetBlocksResponseMsg does not have any blocks"))
      else
        do! err := syncBlocks specs from in
        match err with
        | Some err => K_ret (Some err)
        | None =>
            run! signal from Proto.CHAN_NEXT in
            K_ret None
        end
  end.

(** [handleGetBlockHashesRequestMsg] *)
Definition handleGetBlockHashesRequestMsg (msg : Msg) (from : ref) : K (option error) :=
  match Decode (A:=GetBlockHashesRequestMsg) (msg_Payload msg) with
  | Err err => K_ret (Some (Proto.NewProtocolError Proto.ErrorSyncFailed (Error_string err)))
  | Ok request =>
      do! (blocks, _) := K_query (en_Descendents (ParentHash request) (to_int (Uint64 (MaxBlocks request)))) in
      if decide (length blocks < 1)%nat then K_Send from GetBlockHashesRewind (BytesToByte64 [])
      else
        do! hashes := K_lift (blockHashes blocks) in
        K_Send from GetBlockHashesResponse hashes
  end.

(** [handleGetBlockHashesResponseMsg] *)
Definition handleGetBlockHashesResponseMsg (msg : Msg) (from : ref) : K (option error) :=
  match Decode (A:=list Byte64) (msg_Payload msg) with
  | Err err =>
      run! signal from Proto.CHAN_ERROR in
      K_ret (Some (Proto.NewProtocolError Proto.ErrorSyncFailed (Error_string err)))
  | Ok hashes =>
      if decide (length hashes < 1)%nat then
        run! signal from Proto.CHAN_DONE in
        K_ret None
      else
        do! err := K_Send from GetBlocksRequest hashes in
        match err with
        | Some err =>
            run! signal from Proto.CHAN_ABORT in
            K_ret (Some (Proto.NewProtocolError Proto.ErrorSyncFailed (Error_string err)))
        | None => K_ret None
        end
  end.

(** One round of [func (mgr *CountrProtocolManager) listen(peer *protocol.Node) error]:
    [Some] error ends the loop; [read] is what reading gives. *)
Definition listen (read : result Msg) (peer : ref) : K (option error) :=
  match read with
  | Err err => K_ret (Some err)
  | Ok msg =>
      if decide (msg_Code msg = GetBlockHashesRequest) then handleGetBlockHashesRequestMsg msg peer
      else if decide (msg_Code msg = GetBlockHashesResponse) then handleGetBlockHashesResponseMsg msg peer
      else if decide (msg_Code msg = GetBlockHashesRewind) then handleGetBlockHashesRewindMsg msg peer
      else if decide (msg_Code msg = GetBlocksRequest) then handleGetBlocksRequestMsg msg peer
      else if decide (msg_Code msg = GetBlocksResponse) then handleGetBlocksResponseMsg msg peer
      else if decide (msg_Code msg = NewBlock) then handleNewBlockMsg msg peer
      else K_ret (Some (Proto.NewProtocolError Proto.ErrorUnknownMessageType "unknown protocol message recieved"))
  end.

(** *** Connecting *)

(** [func (mgr *CountrProtocolManager) getHandshakeMsg(best consensus.Block) *protocol.HandshakeMsg] *)
Definition getHandshakeMsg (best : block W) : K Proto.HandshakeMsg :=
  do! h := K_gets handshakeMsg in
  let h := Proto.MkHandshake (Proto.NetworkId h) (Proto.ShardId h) (Weight best) (Proto.Genesis h) (Uint64ToByte8 (Numeric best)) in
  run! K_modify (set_handshakeMsg h) in
  K_ret h.

(** The beginning of [Run] of [Protocol], up to the handshake: our best block,
    and the error that ends it.  [peer] is the address of the new node. *)
Definition connect (peer : ref) (id name : bytes) (read : result Msg) : K (block W * option error) :=
  run! K_setPeer peer (Proto.NewNode id name) in
  do! myBest := K_engine en_BestBlock in
  do! myBest := K_lift (deref myBest) in
  do! status := getHandshakeMsg myBest in
  do! err := K_base (Proto.handshake net status read peer) in
  K_ret (myBest, err).

(** The deferred function of [Run], when [listen] has returned *)
Definition disconnected (peer : ref) : K unit :=
  run! K_base (λ b, let! b := Proto.UnregisterPeer peer b in Ret (b, tt)) in
  do! n := K_peer peer in
  do! c1 := K_lift (chan_close (Proto.GetBlockHashesChan n)) in
  do! c2 := K_lift (chan_close (Proto.GetBlocksChan n)) in
  K_setPeer peer (Proto.set_chans c1 c2 n).

(** *** Synchronization *)

(** [func isSyncNeeded(best consensus.Block, node *protocol.Node) bool] *)
Definition isSyncNeeded (best : block W) (node : Proto.Node) : outcome bool :=
  let! status := deref (Proto.status node) in
  Ret (bool_decide (Uint64 (Proto.TotalWeight status) > Uint64 (Weight best)) ||
       (bool_decide (Uint64 (Proto.TotalWeight status) = Uint64 (Weight best)) &&
        bool_decide (Uint64 (Proto.TipNumeric status) < Numeric best))).

(** The loop of [syncNode], up to where it waits or ends *)
Definition syncLoop (best : block W) (node : ref) : K syncState :=
  do! stop := K_gets isInShutdown in
  if stop : bool then K_ret (SyncReturned None)
  else
    do! n := K_peer node in
    do! needed := K_lift (isSyncNeeded best n) in
    if negb needed then K_ret (SyncReturned None)
    else
      do! last := K_lift (deref (Proto.LastHash n)) in
      do! err := K_Send node GetBlockHashesRequest (MkHashesRequest last (Uint64ToByte8 maxBlocks)) in
      match err with
      | Some err => K_ret (SyncReturned (Some (Proto.NewProtocolError Proto.ErrorSyncFailed (Error_string err))))
      | None => K_ret SyncWaiting
      end.

(** [func (mgr *CountrProtocolManager) syncNode(best consensus.Block, node *protocol.Node) error],
    up to where it first waits *)
Definition syncNode (best : block W) (node : ref) : K syncState :=
  do! n := K_peer node in
  do! needed := K_lift (isSyncNeeded best n) in
  if negb needed then K_ret (SyncReturned None)
  else
    run! setLastHash node (block_Hash best) in
    syncLoop best node.

(** [syncNode] from where it waits for an answer to where it waits again *)
Definition syncResume (best : block W) (node : ref) : K (block W * syncState) :=
  do! n := K_peer node in
  match chan_recv (Proto.GetBlockHashesChan n) with
  | None => K_ret (best, SyncWaiting)
  | Some (x, ch) =>
      run! K_setPeer node (Proto.set_chans ch (Proto.GetBlocksChan n) n) in
      if decide (x = Proto.CHAN_ERROR) then
        K_ret (best, SyncReturned (Some (Proto.NewProtocolError Proto.ErrorSyncFailed "error processing sync protocol")))
      else if decide (x = Proto.CHAN_ABORT) then
        K_ret (best, SyncReturned (Some (Proto.NewProtocolError Proto.ErrorSyncFailed "sync protocol aborted")))
      else if decide (x = Proto.CHAN_DONE) then K_ret (best, SyncReturned None)
      else
        do! stop := K_gets isInShutdown in
        do! best := (if negb stop then
                       do! b := K_engine en_BestBlock in
                       K_lift (deref b)
                     else K_ret best) in
        do! s := syncLoop best node in
        K_ret (best, s)
  end.
End manager.
End Counter.
