(* ===== verification/CounterTheorems.v ===== *)
(** * Theorems about the counter protocol

    What a block from a peer does to the counters and to the network, the
    invariant of the manager along all its calls, the end of a
    synchronization, and the payloads of transactions. *)

From Stdlib Require Import Strings.Byte.
From S2P Require Import Prelude Bytes Db Trie TrieSpec TrieFacts WorldState Concrete TrieTheorems WorldStateI Block BlockFacts BlockTheorems.
From S2P Require Import Consensus ConsensusFacts ConsensusTheorems Trustee TrusteeFacts TrusteeTheorems Peers PeersTheorems Platform PlatformFacts PlatformWitnesses.
From S2P Require Import Pager PagerTheorems CounterProto.
Import Counter.

(** ** Payloads *)

Lemma op_differ : OpDecrement ≠ OpIncrement.
Proof. intros H. apply (f_equal Bytes) in H. vm_compute in H. done. Qed.

Lemma payload_read name op : name ≠ [] → getTransactionFromPayload (makeTransactionPayload name op) = (name, Some op).
Proof.
  intros Hne. unfold getTransactionFromPayload, makeTransactionPayload. pose proof (arr_length op) as Hl. unfold Bytes.
  destruct name as [|x name]; [done|]. rewrite decide_False by (rewrite length_app, Hl; cbn [length]; lia).
  rewrite drop_app_length', take_app_length' by lia. do 2 f_equal. apply BytesToArr_Bytes.
Qed.

Lemma payload_made data name op : getTransactionFromPayload data = (name, Some op) → name ≠ [] ∧ data = makeTransactionPayload name op.
Proof.
  unfold getTransactionFromPayload, makeTransactionPayload. case_decide as Hl; [done|]. intros [= <- <-].
  split; [intros H; apply (f_equal length) in H; rewrite length_drop in H; cbn [length] in H; lia|].
  unfold BytesToByte8. rewrite Bytes_BytesToArr, take_app_length' by (rewrite length_take; lia). by rewrite take_drop.
Qed.

(** ** Transactions *)

(** What a transaction adds to which counter *)
Inductive counts (tx : Transaction) : bytes * Z → Prop :=
  | counts_up name : name ≠ [] → Payload tx = makeTransactionPayload name OpIncrement → counts tx (name, 1)
  | counts_down name : name ≠ [] → Payload tx = makeTransactionPayload name OpDecrement → counts tx (name, -1).

Definition invalid_tx : error := CoreError ERR_INVALID_TX "transaction error".

Lemma counts_payload tx change :
  counts tx change → ∃ op, getTransactionFromPayload (Payload tx) = (change.1, Some op) ∧
    (op = OpIncrement ∧ change.2 = 1 ∨ op = OpDecrement ∧ change.2 = -1).
Proof. intros [name Hne Hp|name Hne Hp]; rewrite Hp, payload_read by done; eexists; (split; [done|]); tauto. Qed.

Section transactions.
Context {D W : Type} {wso : WorldState W D}.
Implicit Types (b : block W) (d : D).

(** Reading a counter gives the number stored and leaves the view. *)
Lemma countr_spec name b d :
  is_Some (worldState b) →
  ∃ b' err, countr name b d = Ret (b', (balance b d name, err)) ∧ same_block b b' ∧ ∀ k, bview b' d k = bview b d k.
Proof.
  intros Hw. destruct (lookupBytes_spec name b d Hw) as (b' & Heq & Hs & Hv). unfold lookupBytes in Heq. unfold countr.
  destruct (block_Lookup name b d) as [[b1 r]| |]; [|done..]. cbn [outcome_bind] in *. injection Heq as -> Hr.
  unfold balance, BytesToRtu, Uint64ToRtu. rewrite <- Hr. destruct r; by do 2 eexists.
Qed.

Lemma countr_update name x b b1 d :
  same_block b b1 → (∀ k, bview b1 d k = bview b d k) →
  paid name (u64 x) b d (block_Update name (Bytes (Uint64ToByte8 (u64 x))) b1).1.
Proof.
  intros Hs Hv. split; [etrans; [exact Hs | by eexists]|]. intros k. rewrite bview_update, Hv. by case_decide.
Qed.

(** A transaction of a block is counted, or refused when it counts nothing. *)
Lemma processTransaction_spec tx b d :
  is_Some (worldState b) →
  ∃ b' err, processTransaction tx b d = Ret (b', err) ∧ same_block b b' ∧
    match err with
    | None => ∃ name x, counts tx (name, x) ∧ paid name (u64 (balance b d name + x)) b d b'
    | Some e => e = invalid_tx ∧ (∀ change, ¬ counts tx change) ∧ ∀ k, bview b' d k = bview b d k
    end.
Proof.
  intros Hw. unfold processTransaction. destruct (getTransactionFromPayload (Payload tx)) as [name op] eqn:Eg.
  destruct op as [op|].
  2: { exists b, (Some invalid_tx). split; [done|]. split; [reflexivity|]. split; [done|]. split; [|done].
    intros change (op & Hop & _)%counts_payload. congruence. }
  destruct (countr_spec name b d Hw) as (b1 & err & -> & Hs & Hv). cbn [outcome_bind].
  destruct (payload_made _ _ _ Eg) as [Hne Hp].
  destruct (decide (op = OpIncrement)) as [->|Hi]; [|destruct (decide (op = OpDecrement)) as [->|Hd]]; cbn [block_Update negb].
  1, 2: eexists _, None; (split; [done|]); (split; [etrans; [exact Hs | by eexists]|]).
  - exists name, 1. split; [by constructor | by apply countr_update].
  - exists name, (-1). split; [by constructor|]. exact (countr_update name (balance b d name - 1) b b1 d Hs Hv).
  - exists b1, (Some invalid_tx). split; [done|]. split; [done|]. split; [done|]. split; [|done].
    intros change (op' & Hop & [[-> _]|[-> _]])%counts_payload; congruence.
Qed.

(** The transactions of a block are all counted, or the block is refused at
    the first that counts nothing. *)
Lemma processTransactions_spec txs : ∀ b d,
  is_Some (worldState b) →
  ∃ b' err, processTransactions txs b d = Ret (b', err) ∧ same_block b b' ∧
    match err with
    | None => ∃ changes, Forall2 counts txs changes ∧ rewarded changes b d b'
    | Some e => e = invalid_tx ∧ ∃ tx, tx ∈ txs ∧ ∀ change, ¬ counts tx change
    end.
Proof.
  induction txs as [|tx txs IH]; intros b d Hw; cbn [processTransactions].
  - exists b, None. split; [done|]. split; [reflexivity|]. exists []. split; [done | apply rewarded_nil].
  - destruct (processTransaction_spec tx b d Hw) as (b1 & [e|] & -> & Hs & Hcase); cbn [outcome_bind].
    { destruct Hcase as (-> & Hno & _). exists b1, (Some invalid_tx). split; [done|]. split; [done|]. split; [done|].
      exists tx. split; [by left | done]. }
    destruct Hcase as (name & x & Hc & Hp).
    destruct (IH b1 d) as (b2 & err & -> & Hs2 & Hcase); [by rewrite (same_block_state _ _ Hs)|].
    exists b2, err. split; [done|]. split; [by etrans|]. destruct err as [e|].
    + destruct Hcase as (-> & tx' & Hin & Hno). split; [done|]. exists tx'. split; [by right | done].
    + destruct Hcase as (changes & Hall & Hr). exists ((name, x) :: changes). split; [by constructor|].
      by eapply rewarded_cons.
Qed.
End transactions.

(** ** Calls of the manager *)

Section logic.
Context {C : Type} (net : list (ref * Msg) → ref → Msg → option error).
Abbreviation mgr := (CountrProtocolManager C).
Implicit Types (m : mgr) (I : mgr → Prop).

(** [Q] holds of every value and state that [x] returns from [m]. *)
Definition kwp {A} (x : K (C:=C) A) (Q : A → mgr → Prop) m : Prop := ∀ m' a, x m = Ret (m', a) → Q a m'.
Definition kkeeps {A} I (x : K (C:=C) A) : Prop := ∀ m, I m → kwp x (λ _, I) m.

Lemma krun_bind {A B} (x : K A) (f : A → K B) m m1 a : x m = Ret (m1, a) → K_bind f x m = f a m1.
Proof. intros Hx. unfold K_bind. by rewrite Hx. Qed.
Lemma krun_engine {A} (f : C → outcome (C * A)) m c a : f (engine m) = Ret (c, a) → K_engine f m = Ret (set_engine c m, a).
Proof. intros Hf. unfold K_engine. by rewrite Hf. Qed.
Lemma krun_peer r n m : Proto.heap (base m) !! r = Some n → K_peer r m = Ret (m, n).
Proof. intros Hn. unfold K_peer. by rewrite Hn. Qed.

Lemma kwp_bind {A B} (x : K A) (f : A → K B) (Q : B → mgr → Prop) m :
  kwp x (λ a m1, kwp (f a) Q m1) m → kwp (K_bind f x) Q m.
Proof. intros Hx m' b. unfold K_bind. rewrite outcome_bind_ret. intros ([m1 a] & H1 & H2). by apply (Hx m1 a). Qed.
Lemma kwp_peer r (Q : Proto.Node → mgr → Prop) m : (∀ n, Proto.heap (base m) !! r = Some n → Q n m) → kwp (K_peer r) Q m.
Proof.
  intros HQ m' a. unfold K_peer. rewrite outcome_bind_ret. intros (n & Hn & [= <- <-]).
  apply HQ. by destruct (Proto.heap (base m) !! r); [injection Hn as ->|].
Qed.
Lemma kwp_lift {A} (o : outcome A) (Q : A → mgr → Prop) m : (∀ a, o = Ret a → Q a m) → kwp (K_lift o) Q m.
Proof. intros HQ m' a. unfold K_lift. rewrite outcome_bind_ret. intros (a' & Ho & [= <- <-]). by apply HQ. Qed.
Lemma kwp_base {A} (f : Proto.ManagerBase → outcome (Proto.ManagerBase * A)) (Q : A → mgr → Prop) m :
  (∀ b a, f (base m) = Ret (b, a) → Q a (set_base b m)) → kwp (K_base f) Q m.
Proof. intros HQ m' a. unfold K_base. rewrite outcome_bind_ret. intros ([b a'] & Ho & [= <- <-]). by apply HQ. Qed.

Lemma kkeeps_bind {A B} I (x : K A) (f : A → K B) : kkeeps I x → (∀ a, kkeeps I (f a)) → kkeeps I (K_bind f x).
Proof. intros Hx Hf m Hm. apply kwp_bind. intros m1 a H1. by apply Hf, (Hx m Hm m1 a). Qed.
Lemma kkeeps_ret {A} I (a : A) : kkeeps I (K_ret a).
Proof. by intros m Hm m' a' [= <- _]. Qed.
Lemma kkeeps_lift {A} I (o : outcome A) : kkeeps I (K_lift o).
Proof. intros m Hm. by apply kwp_lift. Qed.
Lemma kkeeps_gets {A} I (f : mgr → A) : kkeeps I (K_gets f).
Proof. by intros m Hm m' a' [= <- _]. Qed.
Lemma kkeeps_query {A} I (f : C → outcome A) : kkeeps I (K_query f).
Proof. intros m Hm m' a. unfold K_query. rewrite outcome_bind_ret. by intros (a' & _ & [= <- _]). Qed.
Lemma kkeeps_peer I r : kkeeps I (K_peer r).
Proof. intros m Hm. by apply kwp_peer. Qed.
End logic.

(** ** The invariant *)

(** A peer knows few items, and no address that was not given out. *)
Definition node_ok (next : N) (n : Proto.Node) : Prop :=
  set_Size (Proto.knownTxs n) ≤ Proto.maxKnownTxs ∧ ∀ a, ItemPtr a ∈ Proto.knownTxs n → (a < next)%N.

Lemma node_ok_AddTx pick p next n :
  is_picker pick → (p < next)%N → node_ok next n → node_ok next (Proto.AddTx pick (ItemPtr p) n).
Proof.
  intros Hpick Hp [Hsize Hptr]. destruct (room_adds pick Proto.maxKnownTxs (ItemPtr p) (Proto.knownTxs n)) as (_ & Hsub & Hmax & _); [done..|].
  split; [exact Hmax|]. intros a Ha. apply Hsub, elem_of_union in Ha as [[= ->]%elem_of_singleton|Ha]; [done | by apply Hptr].
Qed.

Section invariant.
Context {C D W : Type} {wso : WorldState W D} {eng : Engine C D W}.
Context {rls : Rlp BlockSpec} {rlss : Rlp (list BlockSpec)} {rlh : Rlp Byte64} {rlhs : Rlp (list Byte64)}.
Context {rlhm : Rlp Proto.HandshakeMsg} {rlrq : Rlp GetBlockHashesRequestMsg}.
Context {rlsl : RlpLaws BlockSpec} {rlssl : RlpLaws (list BlockSpec)} {rlhl : RlpLaws Byte64} {rlhsl : RlpLaws (list Byte64)}.
Context {rlhml : RlpLaws Proto.HandshakeMsg} {rlrql : RlpLaws GetBlockHashesRequestMsg}.
Context (net : list (ref * Msg) → ref → Msg → option error) (pick : picker item) (order : nodeOrder).
Hypothesis (Hpick : is_picker pick) (Horder : is_node_order order).
(** The network, shard and genesis that the manager announces *)
Context (hs0 : Proto.HandshakeMsg).
Abbreviation mgr := (CountrProtocolManager C).
Implicit Types (m : mgr).

(** The payload of a message is of the type that belongs to its code; a
    handshake carries our network, shard and genesis. *)
Definition counter_typed (msg : Msg) : Prop :=
  (msg_Code msg = Proto.Handshake ∧ ∃ hs, Decode (msg_Payload msg) = Ok hs ∧ Proto.NetworkId hs = Proto.NetworkId hs0 ∧
    Proto.ShardId hs = Proto.ShardId hs0 ∧ Proto.Genesis hs = Proto.Genesis hs0) ∨
  (msg_Code msg = GetBlockHashesRequest ∧ decodes GetBlockHashesRequestMsg msg) ∨
  (msg_Code msg = GetBlockHashesResponse ∧ decodes (list Byte64) msg) ∨
  (msg_Code msg = GetBlockHashesRewind ∧ decodes Byte64 msg) ∨
  (msg_Code msg = GetBlocksRequest ∧ decodes (list Byte64) msg) ∨
  (msg_Code msg = GetBlocksResponse ∧ decodes (list BlockSpec) msg) ∨
  (msg_Code msg = NewBlock ∧ decodes BlockSpec msg).

Record counter_inv m : Prop := {
  ci_base : base_ok (base m);
  ci_known r n : Proto.heap (base m) !! r = Some n → node_ok (nextPtr m) n;
  ci_sent : Forall (λ x, counter_typed x.2) (Proto.sent (base m));
  ci_status : Proto.NetworkId (handshakeMsg m) = Proto.NetworkId hs0 ∧ Proto.ShardId (handshakeMsg m) = Proto.ShardId hs0 ∧
    Proto.Genesis (handshakeMsg m) = Proto.Genesis hs0;
}.

(** The invariant, with [k] addresses given out *)
Definition settled (k : N) m : Prop := counter_inv m ∧ (k ≤ nextPtr m)%N.

Lemma settled_start m : counter_inv m → settled 0 m.
Proof. intros Hm. split; [done | lia]. Qed.

Lemma settled_peer k m r n n' :
  settled k m → Proto.heap (base m) !! r = Some n → Proto.nd_Id n' = Proto.nd_Id n → node_ok (nextPtr m) n' →
  settled k (set_base (Proto.set_heap (<[r := n']> (Proto.heap (base m))) (base m)) m).
Proof.
  intros [[Hb Hknown Hs Hst] Hk] Hn Hid Hok. split; [|done]. split; try done.
  - intros id r' Hr. cbn. destruct (decide (r = r')) as [<-|Hne].
    + exists n'. rewrite lookup_insert_eq. split; [done|]. destruct (Hb id r Hr) as (n1 & Hn1 & <-). congruence.
    + rewrite lookup_insert_ne by done. by apply Hb.
  - cbn. intros r' n1 [[<- <-]|[_ Hr]]%lookup_insert_Some; [done | by eapply Hknown].
Qed.

Lemma settled_peer_same k m r n n' :
  settled k m → Proto.heap (base m) !! r = Some n → Proto.nd_Id n' = Proto.nd_Id n → Proto.knownTxs n' = Proto.knownTxs n →
  settled k (set_base (Proto.set_heap (<[r := n']> (Proto.heap (base m))) (base m)) m).
Proof.
  intros Hq Hn Hid Hkn. eapply settled_peer; [done..|]. unfold node_ok. rewrite Hkn. destruct Hq as [[_ Hknown _ _] _]. exact (Hknown r n Hn).
Qed.

Lemma kkeeps_engine {A} k (f : C → outcome (C * A)) : kkeeps (settled k) (K_engine f).
Proof.
  intros m [[] Hk] m' a. unfold K_engine. rewrite outcome_bind_ret. intros ([c a'] & _ & [= <- _]). by split.
Qed.

Lemma kkeeps_Send {A} `{Rlp A} k to code (x : A) :
  (∀ payload, Encode x = Ok payload → counter_typed (MkMsg code payload)) → kkeeps (settled k) (K_Send net to code x).
Proof.
  intros Ht m [[Hb Hknown Hs Hst] Hk]. apply kwp_base. intros b a [= Heq]. unfold Proto.Send in Heq.
  destruct (Encode x) as [payload|e] eqn:Ex; [|injection Heq as <- _; by split].
  destruct (net _ _ _); [injection Heq as <- _; by split|]. injection Heq as <- _. split; [|done].
  split; [done | done | | done]. apply Forall_app. split; [done|]. apply Forall_singleton. by apply Ht.
Qed.

Lemma kkeeps_markKnown k r p : (p < k)%N → kkeeps (settled k) (markKnown pick r p).
Proof.
  intros Hp m Hm. unfold markKnown. apply kwp_bind, kwp_peer. intros n Hn m' a [= <- _].
  eapply settled_peer; [done..|]. destruct Hm as [[_ Hknown _ _] Hk]. apply node_ok_AddTx; [done | lia | by eapply Hknown].
Qed.

Lemma kkeeps_signal k r x : kkeeps (settled k) (signal r x).
Proof. intros m Hm. unfold signal. apply kwp_bind, kwp_peer. intros n Hn. apply kwp_bind, kwp_lift. intros ch _ m' a [= <- _]. by eapply settled_peer_same. Qed.

Lemma kkeeps_setLastHash k r h : kkeeps (settled k) (setLastHash r h).
Proof. intros m Hm. unfold setLastHash. apply kwp_bind, kwp_peer. intros n Hn m' a [= <- _]. by eapply settled_peer_same. Qed.

(** A new address is above those given out. *)
Lemma settled_alloc k m : settled k m → settled (N.succ (nextPtr m)) (set_nextPtr (N.succ (nextPtr m)) m).
Proof.
  intros [[Hb Hknown Hs Hst] Hk]. split; [|cbn; lia]. split; try done.
  cbn. intros r n Hr. destruct (Hknown r n Hr) as [Hsz Hp]. split; [done|]. intros a Ha. specialize (Hp a Ha). lia.
Qed.

Lemma kkeeps_alloc {A} k (f : N → K A) :
  (∀ p, kkeeps (settled (N.succ p)) (f p)) → kkeeps (settled k) (K_bind f K_alloc).
Proof.
  intros Hf m Hm. apply kwp_bind. intros m' p [= <- <-] m2 a H2.
  destruct (Hf (nextPtr m) _ (settled_alloc k m Hm) m2 a H2) as [? ?]. split; [done|]. destruct Hm as [_ ?]. lia.
Qed.

(** Finds the case of [counter_typed]. *)
Ltac counter_typed_tac :=
  first [ left; split; [reflexivity | assumption] | split; [reflexivity | assumption] | right; counter_typed_tac ].

Create HintDb kkeeps discriminated.
Hint Resolve kkeeps_ret kkeeps_lift kkeeps_gets kkeeps_query kkeeps_peer kkeeps_engine kkeeps_signal kkeeps_setLastHash : kkeeps.
Ltac kkeeps_steps :=
  repeat first
    [ progress eauto 2 with kkeeps
    | match goal with
      | |- kkeeps _ (K_bind _ K_alloc) => apply kkeeps_alloc; intros ?
      | |- kkeeps _ (markKnown _ _ _) => apply kkeeps_markKnown; lia
      | |- kkeeps _ (K_bind _ _) => apply kkeeps_bind; [|intros ?]
      | |- kkeeps _ (match ?x with _ => _ end) => destruct x eqn:?
      | |- kkeeps _ ((λ _, _) _) => progress cbv beta
      | |- kkeeps _ (K_Send _ _ ?code ?x) => apply kkeeps_Send; intros ? ?%(decodes_encode x code); right; counter_typed_tac
      end ].

Lemma kkeeps_broadCast k p b : (p < k)%N → kkeeps (settled k) (broadCast (W:=W) net pick order p b).
Proof.
  intros Hp. unfold broadCast. apply kkeeps_bind.
  { intros m Hm m' a. rewrite outcome_bind_ret. by intros (? & _ & [= <- _]). }
  intros nodes. induction nodes as [|r nodes IH]; cbn [broadCastLoop]; kkeeps_steps.
Qed.

Lemma kkeeps_processBlock k b from : kkeeps (settled k) (processBlock net pick order b from).
Proof. unfold processBlock. kkeeps_steps. apply kkeeps_broadCast. lia. Qed.
Hint Resolve kkeeps_processBlock : kkeeps.

Lemma kkeeps_collect k hs : kkeeps (settled k) (collectBlocks hs).
Proof. induction hs as [|h hs IH]; cbn [collectBlocks]; kkeeps_steps. Qed.
Lemma kkeeps_syncBlocks k specs from : kkeeps (settled k) (syncBlocks net pick order specs from).
Proof. induction specs as [|s specs IH]; cbn [syncBlocks]; kkeeps_steps. Qed.
Hint Resolve kkeeps_collect kkeeps_syncBlocks : kkeeps.

Lemma kkeeps_listen k read peer : kkeeps (settled k) (listen net pick order read peer).
Proof.
  unfold listen. kkeeps_steps;
    unfold handleGetBlockHashesRequestMsg, handleGetBlockHashesResponseMsg, handleGetBlockHashesRewindMsg,
      handleGetBlocksRequestMsg, handleGetBlocksResponseMsg, handleNewBlockMsg; kkeeps_steps.
Qed.

(** What a handshake sends, and that it leaves what peers know *)
Definition shaken (st : Proto.HandshakeMsg) (peer : ref) (b b' : Proto.ManagerBase) : Prop :=
  (Proto.sent b' = Proto.sent b ∨ ∃ payload, Encode st = Ok payload ∧ Proto.sent b' = Proto.sent b ++ [(peer, MkMsg Proto.Handshake payload)]) ∧
  ∀ r n', Proto.heap b' !! r = Some n' → ∃ n, Proto.heap b !! r = Some n ∧ Proto.knownTxs n' = Proto.knownTxs n.

Lemma handshake_frame st read peer b b' err : Proto.handshake net st read peer b = Ret (b', err) → shaken st peer b b'.
Proof.
  unfold Proto.handshake, Proto.Send. set (P := shaken st peer b).
  assert (∀ log, (log = Proto.sent b ∨ ∃ payload, Encode st = Ok payload ∧ log = Proto.sent b ++ [(peer, MkMsg Proto.Handshake payload)]) →
    P (Proto.Base (Proto.db b) (Proto.peerCount b) (Proto.heap b) log)) as HP.
  { intros log Hlog. split; [done|]. intros r n' Hn'. by exists n'. }
  assert (b = Proto.Base (Proto.db b) (Proto.peerCount b) (Proto.heap b) (Proto.sent b)) as Hb by by destruct b.
  assert (P b) as HPb by (rewrite Hb; apply HP; by left).
  destruct (Encode st) as [payload|e]; [|by intros [= <- _]]. destruct (net _ _ _); [by intros [= <- _]|].
  assert (P (Proto.Base (Proto.db b) (Proto.peerCount b) (Proto.heap b) (Proto.sent b ++ [(peer, MkMsg Proto.Handshake payload)]))) as HP1.
  { apply HP. right. by exists payload. }
  destruct read as [msg|]; [|by intros [= <- _]]. case_decide; [by intros [= <- _]|]. destruct (Decode _) as [hs|]; [|by intros [= <- _]].
  do 3 (case_decide; [by intros [= <- _]|]). unfold RegisterPeerNode. cbn [Proto.heap].
  destruct (Proto.heap b !! peer) as [n|] eqn:Hn; [|done]. cbn [deref outcome_bind]. intros [= <- _].
  split; [apply HP1|]. cbn [Proto.heap]. intros r n' [[<- <-]|[_ Hr]]%lookup_insert_Some; [by exists n | by exists n'].
Qed.

Lemma kkeeps_connect k peer id name read m :
  settled k m → Proto.heap (base m) !! peer = None → kwp (connect net peer id name read) (λ _, settled k) m.
Proof.
  intros [[Hb Hknown Hs Hst] Hk] Hf. unfold connect. apply kwp_bind. intros m1 a [= <- _].
  match goal with |- kwp _ _ ?x => set (m1 := x) end.
  assert (settled k m1) as Hm1.
  { split; [|done]. split; [by apply fresh_ok | | done | done].
    cbn. intros r n [[<- <-]|[_ Hr]]%lookup_insert_Some; [by split | by eapply Hknown]. }
  revert Hm1. generalize m1. clear - Hpick Horder rlhml.
  assert (∀ st, (Proto.NetworkId st = Proto.NetworkId hs0 ∧ Proto.ShardId st = Proto.ShardId hs0 ∧ Proto.Genesis st = Proto.Genesis hs0) →
    kkeeps (settled k) (K_base (Proto.handshake net st read peer))) as Hshake.
  { intros st Hst m [[Hb Hknown Hs Hhs] Hk]. apply kwp_base. intros b a Hrun.
    destruct (handshake_frame _ _ _ _ _ _ Hrun) as [Hsent Hheap]. destruct (handshake_spec net _ _ _ _ _ _ Hb Hrun) as (Hb' & _).
    split; [|done]. split; [done | | | done]; cbn.
    - intros r n' Hn'. destruct (Hheap r n' Hn') as (n & Hn & Hkn). unfold node_ok. rewrite Hkn. exact (Hknown r n Hn).
    - destruct Hsent as [->|(payload & Hp & ->)]; [done|]. apply Forall_app. split; [done|]. apply Forall_singleton. left. split; [done|].
      exists st. split; [by apply decode_encode | done]. }
  intros m Hm. apply kwp_bind. intros m1 best H1. apply (kkeeps_engine k _ m Hm) in H1. apply kwp_bind, kwp_lift. intros b _.
  apply kwp_bind. intros m2 st H2. unfold getHandshakeMsg in H2. injection H2 as <- <-.
  destruct H1 as [[Hb Hknown Hs Hhs] Hk]. apply kkeeps_bind; [by apply Hshake | intros ?; apply kkeeps_ret|]. by split.
Qed.

Lemma kkeeps_disconnected k peer : kkeeps (settled k) (disconnected peer).
Proof.
  intros m Hm. unfold disconnected. apply kwp_bind, kwp_base. intros b a Hrun. unfold Proto.UnregisterPeer in Hrun.
  destruct (Proto.heap (base m) !! peer) as [n|] eqn:Hn; [|done]. injection Hrun as <- _.
  match goal with |- kwp _ _ ?x => set (m1 := x) end.
  assert (settled k m1) as Hm1.
  { destruct Hm as [[Hb Hknown Hs Hst] Hk]. split; [|done]. split; [|done..]. intros id r Hr.
    change (delete (Proto.nd_Id n) (ps_nodes (Proto.db (base m))) !! id = Some r) in Hr. apply lookup_delete_Some in Hr as [_ Hr]. by apply Hb. }
  revert Hm1. generalize m1. clear. intros m Hm. apply kwp_bind, kwp_peer. intros n Hn. apply kwp_bind, kwp_lift. intros c1 _.
  apply kwp_bind, kwp_lift. intros c2 _ m' a [= <- _]. by eapply settled_peer_same.
Qed.

Lemma kkeeps_syncLoop k best node : kkeeps (settled k) (syncLoop (W:=W) net best node).
Proof. unfold syncLoop. kkeeps_steps. Qed.
Hint Resolve kkeeps_syncLoop : kkeeps.

Lemma kkeeps_syncNode k best node : kkeeps (settled k) (syncNode (W:=W) net best node).
Proof. unfold syncNode. kkeeps_steps. Qed.

Lemma kkeeps_syncResume k best node : kkeeps (settled k) (syncResume net best node).
Proof.
  intros m Hm. unfold syncResume. apply kwp_bind, kwp_peer. intros n Hn.
  destruct (chan_recv _) as [[x ch]|]; [|by apply kkeeps_ret]. apply kwp_bind. intros m1 a [= <- _].
  assert (settled k (set_base (Proto.set_heap (<[node := Proto.set_chans ch (Proto.GetBlocksChan n) n]> (Proto.heap (base m))) (base m)) m)) as Hm'.
  { by eapply settled_peer_same. }
  revert Hm'. generalize (set_base (Proto.set_heap (<[node := Proto.set_chans ch (Proto.GetBlocksChan n) n]> (Proto.heap (base m))) (base m)) m).
  match goal with |- ∀ m, _ → kwp ?x _ m => change (kkeeps (settled k) x) end. kkeeps_steps.
Qed.

(** ** Reachable managers *)

(** A call of the manager: a connection up to its handshake, a message that a
    listener reads, a synchronization up to where it waits, the end of a
    connection, a query, the shutdown *)
Inductive counter_step : mgr → mgr → Prop :=
  | cs_connect peer id name read m m' r :
      Proto.heap (base m) !! peer = None → connect net peer id name read m = Ret (m', r) → counter_step m m'
  | cs_listen read peer m m' err : listen net pick order read peer m = Ret (m', err) → counter_step m m'
  | cs_sync (best : block W) node m m' st : syncNode net best node m = Ret (m', st) → counter_step m m'
  | cs_resume (best : block W) node m m' st : syncResume net best node m = Ret (m', st) → counter_step m m'
  | cs_disconnected peer m m' : disconnected peer m = Ret (m', tt) → counter_step m m'
  | cs_countr name m m' z : Countr name m = Ret (m', z) → counter_step m m'
  | cs_tip m m' r : Tip (W:=W) m = Ret (m', r) → counter_step m m'
  | cs_shutdown m m' : Shutdown m = Ret (m', tt) → counter_step m m'.

Lemma counter_step_inv m m' : counter_step m m' → counter_inv m → counter_inv m'.
Proof.
  intros Hstep Hm%settled_start. assert (settled 0 m') as [? _]; [|done]. destruct Hstep as [peer id name read m m' r Hf H|? ? ? ? ? H|? ? ? ? ? H|? ? ? ? ? H|? ? ? H|? ? ? ? H|? ? ? H|? ? H].
  - by eapply kkeeps_connect.
  - by eapply kkeeps_listen.
  - by eapply kkeeps_syncNode.
  - by eapply kkeeps_syncResume.
  - by eapply kkeeps_disconnected.
  - assert (kkeeps (settled 0) (Countr name)) as Hk by (unfold Countr; kkeeps_steps). by eapply Hk.
  - assert (kkeeps (settled 0) (Tip (W:=W))) as Hk by (unfold Tip; kkeeps_steps). by eapply Hk.
  - injection H as <-. destruct Hm as [[] ?]. by split.
Qed.

Lemma counter_inv_new c miner : counter_inv (Mgr C (Proto.Base NewPeerSetDbInMemory 0 ∅ []) c miner false false hs0 0%N).
Proof. by split. Qed.

(** In every state that a new counter manager reaches by connections, messages,
    synchronizations, disconnections, queries and a shutdown, registered peers are live nodes under
    their own ids, peers know at most 1024 items, every message sent decodes at the type of its
    code, and every handshake announced our network, shard and genesis. *)
Theorem counter_invariant c miner m :
  rtc counter_step (Mgr C (Proto.Base NewPeerSetDbInMemory 0 ∅ []) c miner false false hs0 0%N) m → counter_inv m.
Proof.
  apply (rtc_ind_r (λ m, counter_inv m)); [apply counter_inv_new|].
  intros m1 m2 _ Hstep Hm. by eapply counter_step_inv.
Qed.

(** ** Relaying *)

Lemma broadCastLoop_flood p (b : block W) nodes : ∀ m,
  broadCastLoop net pick p b nodes m =
    let! (bs, count) := flood net pick (ItemPtr p) NewBlock (Spec b) nodes (base m) in Ret (set_base bs m, count).
Proof.
  induction nodes as [|r nodes IH]; intros m; cbn [broadCastLoop flood]; [by destruct m|].
  unfold markKnown. destruct (Proto.heap (base m) !! r) as [n|] eqn:Hn; [|unfold K_bind, K_peer; by rewrite Hn].
  cbn [deref outcome_bind]. erewrite krun_bind; [|by erewrite krun_bind by (by apply krun_peer)].
  unfold K_bind at 1, K_Send, K_base. cbn [outcome_bind base set_base]. fold (mark pick (ItemPtr p) r n (base m)).
  destruct (Proto.Send net r NewBlock (Spec b) _) as [b1 e]. cbn [outcome_bind].
  unfold K_bind. rewrite IH. cbn [base set_base]. by destruct (flood net pick _ _ _ _ b1) as [[b2 count]| |].
Qed.

(** A broadcast reaches exactly the registered peers not known to have the block. *)
Lemma broadCast_spec p (b : block W) m :
  base_ok (base m) →
  let targets := filter (λ r, ¬ knows (ItemPtr p) (base m) r) (registered order (base m)) in
  ∃ bs, broadCast net pick order p b m = Ret (set_base bs m, Z.of_nat (length targets)) ∧ same_peers (base m) bs ∧
    Proto.sent bs = sends net NewBlock (Spec b) (Proto.sent (base m)) targets.
Proof.
  intros Hb targets. assert (Forall (λ r, is_Some (Proto.heap (base m) !! r)) (registered order (base m))) as Hreg.
  { apply list.Forall_forall. intros r Hr. by apply (registered_nodes order). }
  unfold broadCast, PeerNodesWithMsgNotSeen. fold (registered order (base m)).
  rewrite (krun_bind _ _ m m targets) by (by rewrite (notSeenLoop_spec _ _ _ Hreg)).
  destruct (flood_spec net pick (ItemPtr p) NewBlock (Spec b) targets (base m)) as (bs & Hf & Hs & Hsent & _).
  { rewrite list.Forall_forall in *. intros r [_ Hr]%list_elem_of_filter. by apply Hreg. }
  exists bs. by rewrite broadCastLoop_flood, Hf.
Qed.

(** The end of [processBlock]: the block goes to the registered peers other
    than its sender, each once. *)
Lemma relay_spec (b : block W) from n m :
  counter_inv m → Proto.heap (base m) !! from = Some n →
  ∃ bs, K_bind (λ p, K_bind (λ _, K_bind (λ _, K_ret (b, None)) (broadCast net pick order p b)) (markKnown pick from p)) K_alloc m =
      Ret (set_base bs (set_nextPtr (N.succ (nextPtr m)) m), (b, None (A:=error))) ∧ same_peers (base m) bs ∧
    Proto.sent bs = sends net NewBlock (Spec b) (Proto.sent (base m)) (filter (.≠ from) (registered order (base m))).
Proof.
  intros [Hb Hknown _ _] Hn. set (p := nextPtr m). destruct (mark_spec pick (ItemPtr p) from n (base m) Hn) as (Hs & Hk & Hsent & Hheap).
  set (b1 := mark pick (ItemPtr p) from n (base m)) in *. set (m1 := set_base b1 (set_nextPtr (N.succ p) m)).
  rewrite (krun_bind _ _ m (set_nextPtr (N.succ p) m) p) by done. rewrite (krun_bind _ _ _ m1 tt).
  2: { unfold markKnown. erewrite krun_bind; [|by apply krun_peer]. done. }
  destruct (broadCast_spec p b m1 (same_peers_ok _ _ Hs Hb)) as (bs & Hrun & Hs' & Hsent').
  rewrite (krun_bind _ _ _ _ _ Hrun). exists bs. split; [done|]. split; [by etrans|]. rewrite Hsent'.
  change (base m1) with b1. rewrite Hsent. f_equal. unfold registered. rewrite (proj1 Hs). apply list_filter_iff. intros r.
  destruct (decide (r = from)) as [->|Hne]; [tauto|]. split; [done|]. intros _. unfold knows. rewrite (Hheap r Hne).
  destruct (Proto.heap (base m) !! r) as [n'|] eqn:Hr; [|done].
  intros [= Hin%bool_decide_eq_true_1]. destruct (Hknown r n' Hr) as [_ Hlt]. specialize (Hlt p Hin). lia.
Qed.

(** The beginning of [processBlock] *)
Lemma processBlock_run b from m b1 err :
  processTransactions (Transactions b) b (en_db (engine m)) = Ret (b1, err) →
  processBlock net pick order b from m =
    match err with
    | Some err => Ret (m, (b1, Some err))
    | None =>
        let! (c, b2, err) := en_AcceptNetworkBlock b1 (engine m) in
        match err with
        | Some err => Ret (set_engine c m, (b2, Some err))
        | None => K_bind (λ p, K_bind (λ _, K_bind (λ _, K_ret (b2, None)) (broadCast net pick order p b2)) (markKnown pick from p)) K_alloc (set_engine c m)
        end
    end.
Proof.
  intros Hrun. unfold processBlock. rewrite (krun_bind _ _ m m (en_db (engine m))) by done.
  rewrite (krun_bind _ _ m m (b1, err)) by (unfold K_lift; by rewrite Hrun). destruct err; [done|].
  unfold K_bind at 1, K_engine. destruct (en_AcceptNetworkBlock b1 (engine m)) as [[[c b2] [err|]]| |]; done.
Qed.

(** C35: What a counter manager does with a block from a peer: when a transaction is no
    increment or decrement of a named counter, the block is refused with the code of invalid
    transactions before the engine sees it and nothing changes; otherwise the engine is asked to
    accept the block in which each counter has changed by exactly its increments less its
    decrements modulo 2^64 and no other key; an error of the engine is returned and nothing is
    sent, an accepted block is sent once to exactly the registered peers other than the sender. *)
Theorem counter_block_counted_and_relayed b from n m :
  counter_inv m → is_Some (worldState b) → Proto.heap (base m) !! from = Some n →
  let d := en_db (engine m) in
  (∃ tx b1, tx ∈ Transactions b ∧ (∀ change, ¬ counts tx change) ∧
     processBlock net pick order b from m = Ret (m, (b1, Some (CoreError ERR_INVALID_TX "transaction error")))) ∨
  (∃ changes b1, Forall2 counts (Transactions b) changes ∧ same_block b b1 ∧
     (∀ k, balance b1 d k = u64 (balance b d k + owed changes k)) ∧
     (∀ k, k ∉ map fst changes → bview b1 d k = bview b d k) ∧
     ∀ c b2 err, en_AcceptNetworkBlock b1 (engine m) = Ret (c, b2, err) →
       ∃ m', processBlock net pick order b from m = Ret (m', (b2, err)) ∧ engine m' = c ∧ counter_inv m' ∧ same_peers (base m) (base m') ∧
         Proto.sent (base m') =
           match err with
           | None => sends net NewBlock (Spec b2) (Proto.sent (base m)) (filter (.≠ from) (registered order (base m)))
           | Some _ => Proto.sent (base m)
           end).
Proof.
  intros Hm Hw Hn d. destruct (processTransactions_spec (Transactions b) b d Hw) as (b1 & err1 & Hrun & Hs & Hcase).
  pose proof (processBlock_run b from m b1 err1 Hrun) as Hp. destruct err1 as [e|]; [left | right].
  - destruct Hcase as (-> & tx & Hin & Hno). by exists tx, b1.
  - destruct Hcase as (changes & Hall & Hr). exists changes, b1. split; [done|]. split; [done|].
    split; [intros k; by apply rewarded_balance|]. split; [intros k Hk; destruct Hr as [_ ->]; by rewrite decide_False|].
    intros c b2 err Hacc. rewrite Hacc in Hp. cbn [outcome_bind] in Hp.
    assert (∀ m', processBlock net pick order b from m = Ret (m', (b2, err)) → counter_inv m') as Hinv.
    { intros m' H. by apply (kkeeps_processBlock 0 b from m (settled_start m Hm)) in H as [? _]. }
    destruct err as [e|]; [exists (set_engine c m); split; [done|]; split; [done|]; split; [by apply Hinv | done]|].
    destruct (relay_spec b2 from n (set_engine c m)) as (bs & Heq & Hps & Hsent); [by destruct Hm | done|].
    rewrite Heq in Hp. eexists. split; [exact Hp|]. split; [done|]. split; [by apply Hinv | done].
Qed.
End invariant.

(** ** Synchronization *)

Section sync.
Context {C D W : Type} {wso : WorldState W D} {eng : Engine C D W} {rlrq : Rlp GetBlockHashesRequestMsg}.
Context (net : list (ref * Msg) → ref → Msg → option error).
Abbreviation mgr := (CountrProtocolManager C).
Implicit Types (m : mgr) (best : block W).

(** A synchronization that is resumed until it stops waiting, at most [k]
    times more *)
Fixpoint counter_syncRun (k : nat) best (node : ref) : K (syncState) := λ m,
  let! (m, (best, st)) := syncResume net best node m in
  match st, k with
  | SyncWaiting, S k => counter_syncRun k best node m
  | _, _ => Ret (m, st)
  end.

(** A peer that a synchronization talks to *)
Definition syncing (nd : Proto.Node) : Prop := is_Some (Proto.status nd) ∧ is_Some (Proto.LastHash nd).

Lemma syncLoop_returns best node nd m :
  Proto.heap (base m) !! node = Some nd → syncing nd →
  ∃ log st, syncLoop net best node m = Ret (set_base (Proto.Base (Proto.db (base m)) (Proto.peerCount (base m)) (Proto.heap (base m)) log) m, st) ∧
    (isInShutdown m = true → st = SyncReturned None).
Proof.
  intros Hn [[hs Hst] [lh Hlh]]. unfold syncLoop. rewrite (krun_bind _ _ m m (isInShutdown m)) by done.
  assert (m = set_base (Proto.Base (Proto.db (base m)) (Proto.peerCount (base m)) (Proto.heap (base m)) (Proto.sent (base m))) m) as Hm by (destruct m as [[]]; done).
  destruct (isInShutdown m); [eexists _, _; split; [rewrite <- Hm; done | done]|].
  rewrite (krun_bind _ _ _ _ _ (krun_peer node nd m Hn)). unfold isSyncNeeded. rewrite Hst. cbn [deref outcome_bind].
  rewrite (krun_bind _ _ _ _ _ eq_refl). destruct (negb _); [eexists _, _; split; [rewrite <- Hm; done | done]|].
  rewrite Hlh. rewrite (krun_bind _ _ m m lh) by done.
  destruct (Send_same net node GetBlockHashesRequest (MkHashesRequest lh (Uint64ToByte8 maxBlocks)) (base m)) as (log & err & Hs).
  erewrite krun_bind; [|unfold K_Send, K_base; by rewrite Hs]. destruct err; by do 2 eexists.
Qed.

(** What an answer does to a synchronization *)
Lemma counter_syncResume_spec (P : C → Prop) best node nd m x ch :
  (∀ c, P c → ∃ c' b, en_BestBlock c = Ret (c', Some b) ∧ P c') → P (engine m) →
  Proto.heap (base m) !! node = Some nd → syncing nd → chan_recv (Proto.GetBlockHashesChan nd) = Some (x, ch) →
  ∃ m' best' st, syncResume net best node m = Ret (m', (best', st)) ∧ P (engine m') ∧
    Proto.heap (base m') !! node = Some (Proto.set_chans ch (Proto.GetBlocksChan nd) nd) ∧
    (isInShutdown m = true ∨ x = Proto.CHAN_ERROR → st ≠ SyncWaiting).
Proof.
  intros Hbest HP Hn Hs Hrecv. unfold syncResume. rewrite (krun_bind _ _ _ _ _ (krun_peer node nd m Hn)), Hrecv.
  set (nd1 := Proto.set_chans ch _ nd). rewrite (krun_bind _ _ _ _ _ eq_refl). set (m1 := set_base _ m).
  assert (Proto.heap (base m1) !! node = Some nd1) as Hn1 by apply lookup_insert_eq.
  do 3 (case_decide; [by do 3 eexists|]). rewrite (krun_bind _ _ _ _ _ eq_refl).
  assert (∃ c best1, K_bind (λ best0, K_bind (λ s, K_ret (best0, s)) (syncLoop net best0 node))
            (if negb (isInShutdown m1) then K_bind (λ b, K_lift (deref b)) (K_engine en_BestBlock) else K_ret best) m1 =
          K_bind (λ s, K_ret (best1, s)) (syncLoop net best1 node) (set_engine c m1) ∧ P c) as (c & best1 & -> & HPc).
  { destruct (isInShutdown m1); cbn [negb]; [exists (engine m), best; split; [|done]; destruct m; by rewrite (krun_bind _ _ _ _ _ eq_refl)|].
    destruct (Hbest (engine m1) HP) as (c & b & Hb & HPc). exists c, b. split; [|done]. erewrite krun_bind; [done|].
    by rewrite (krun_bind _ _ _ _ _ (krun_engine _ m1 _ _ Hb)). }
  destruct (syncLoop_returns best1 node nd1 (set_engine c m1) Hn1 Hs) as (log & st & Hrun & Hst).
  rewrite (krun_bind _ _ _ _ _ Hrun). do 3 eexists. split; [done|]. split; [done|]. split; [done|].
  intros [Hsd|?]; [by rewrite (Hst Hsd) | done].
Qed.

(** A synchronization whose peer has disconnected ends: resumed at most once per answer left in
    the closed channel and once more, it returns instead of waiting; and while the manager shuts
    down it ends at the next answer. *)
Theorem counter_sync_ends (P : C → Prop) best node nd m k :
  (∀ c, P c → ∃ c' b, en_BestBlock c = Ret (c', Some b) ∧ P c') → P (engine m) →
  Proto.heap (base m) !! node = Some nd → syncing nd → ch_closed (Proto.GetBlockHashesChan nd) = true →
  (length (ch_queue (Proto.GetBlockHashesChan nd)) ≤ k)%nat →
  ∃ m' st, counter_syncRun k best node m = Ret (m', st) ∧ st ≠ SyncWaiting ∧
    (isInShutdown m = true → ∃ m1 best1, syncResume net best node m = Ret (m1, (best1, st))).
Proof.
  intros Hbest HP Hn Hs Hc Hk. revert m best nd HP Hn Hs Hc Hk.
  induction k as [|k IH]; intros m best nd HP Hn Hs Hc Hk; cbn [counter_syncRun].
  all: assert (∃ x ch, chan_recv (Proto.GetBlockHashesChan nd) = Some (x, ch) ∧ ch_closed ch = true ∧
      ch_queue ch = tail (ch_queue (Proto.GetBlockHashesChan nd)) ∧
      (ch_queue (Proto.GetBlockHashesChan nd) = [] → x = Proto.CHAN_ERROR)) as (x & ch & Hrecv & Hcl & Hq & Hx)
    by (unfold chan_recv; destruct (Proto.GetBlockHashesChan nd) as [[|x q] cl]; cbn in *; subst cl; by do 2 eexists).
  all: destruct (counter_syncResume_spec P best node nd m x ch Hbest HP Hn Hs Hrecv) as (m1 & best1 & st & Hrun & HP1 & Hn1 & Hst);
    rewrite Hrun; cbn [outcome_bind].
  - assert (st ≠ SyncWaiting) as Hne. { apply Hst. right. apply Hx. destruct (ch_queue _); [done | cbn in Hk; lia]. }
    destruct st; [|done|]; (do 2 eexists; split; [done|]; split; [done|]; by do 2 eexists).
  - destruct st as [e| |]; [by do 2 eexists; split; [done|]; split; [done|]; do 2 eexists| |by do 2 eexists; split; [done|]; split; [done|]; do 2 eexists].
    destruct (IH m1 best1 (Proto.set_chans ch (Proto.GetBlocksChan nd) nd)) as (m' & st & Hrec & Hst' & _); [done..| |].
    { cbn. rewrite Hq. destruct (ch_queue (Proto.GetBlockHashesChan nd)); cbn in *; lia. }
    exists m', st. split; [done|]. split; [done|]. intros Hsd. by destruct (Hst (or_introl Hsd)).
Qed.
End sync.

(** Payloads round trip for named counters only: a transaction on the counter with the empty name
    is refused by every peer that reads it. *)
Theorem unnamed_counter_is_refused op name :
  getTransactionFromPayload (makeTransactionPayload name op) = (name, if decide (name = []) then None else Some op).
Proof.
  case_decide as Hne; [subst name | by apply payload_read].
  unfold getTransactionFromPayload, makeTransactionPayload. rewrite app_nil_r. unfold Bytes.
  by rewrite decide_True by (rewrite arr_length; lia).
Qed.

(** ** Witnesses *)

#[global] Instance wire_counterRequest : Wire GetBlockHashesRequestMsg :=
  wire_iso (λ r, (ParentHash r, MaxBlocks r)) (λ '(p, m), MkHashesRequest p m) (λ r, match r with MkHashesRequest _ _ => eq_refl end).

Section witnesses.
#[local] Existing Instances w_hash w_codec w_laws w_ops w_spec_codec w_cn_codec w_ops_codec w_sig_codec.
#[local] Existing Instances w_rlp_spec w_rlp_specs w_rlp_hash w_rlp_hashes w_rlp_proto w_engine.
#[local] Existing Instances w_rlp_spec_laws w_rlp_specs_laws w_rlp_hash_laws w_rlp_hashes_laws.
#[local] Instance w_rlp_proto_laws : RlpLaws Proto.HandshakeMsg := rlp_of_wire_laws.
#[local] Instance w_rlp_counter : Rlp GetBlockHashesRequestMsg := rlp_of_wire.
#[local] Instance w_rlp_counter_laws : RlpLaws GetBlockHashesRequestMsg := rlp_of_wire_laws.

Abbreviation wdb := (gmap bytes bytes).
Abbreviation wc := (BlockChainConsensus MptWorldState * wdb)%type.
Abbreviation kmgr := (CountrProtocolManager wc).

(** A manager over a new chain, connected to three peers. *)
Definition k_status : Proto.HandshakeMsg :=
  Proto.MkHandshake (Proto.NetworkId handshakeMsg0) (Proto.ShardId handshakeMsg0) (Proto.TotalWeight handshakeMsg0) w_genesis (Proto.TipNumeric handshakeMsg0).
Definition k_none : kmgr := Mgr wc (Proto.Base NewPeerSetDbInMemory 0 ∅ []) (Platform.engine w_a0) null false false k_status 0%N.
Definition k_hello : result Msg := Ok (MkMsg Proto.Handshake (enc k_status)).
Definition k_after {A} (x : K (C:=wc) A) (m : kmgr) : kmgr := match x m with Ret (m', _) => m' | _ => m end.
Definition k_returns {A} (x : K (C:=wc) A) (m : kmgr) : bool := match x m with Ret _ => true | _ => false end.
Lemma k_after_eq {A} (x : K (C:=wc) A) m : k_returns x m = true → ∃ r, x m = Ret (k_after x m, r).
Proof. unfold k_returns, k_after. destruct (x m) as [[m' r]| |]; [by eexists | done..]. Qed.

Definition k_connect (peer : ref) (id : byte) : K (C:=wc) (block MptWorldState * option error) := connect w_net peer [id] [id; id] k_hello.
Definition k_m1 : kmgr := k_after (k_connect 1 x61) k_none.
Definition k_m2 : kmgr := k_after (k_connect 2 x62) k_m1.
Definition k_m3 : kmgr := k_after (k_connect 3 x63) k_m2.

Lemma k_connect_inv peer id m :
  Proto.heap (base m) !! peer = None → k_returns (k_connect peer id) m = true →
  counter_inv k_status m → counter_inv k_status (k_after (k_connect peer id) m).
Proof.
  intros Hf (r & Hr)%k_after_eq Hm. eapply (counter_step_inv w_net w_pick w_nodes w_pick_ok k_status m); [|done].
  by eapply cs_connect.
Qed.

Lemma none_eq {A} (o : option A) : match o with None => true | Some _ => false end = true → o = None.
Proof. by destruct o. Qed.
Lemma some_eq {A} (o : option A) : match o with None => false | Some _ => true end = true → is_Some o.
Proof. by destruct o. Qed.
Lemma k_connects1 : k_returns (k_connect 1 x61) k_none = true.
Proof. vm_compute. reflexivity. Qed.
Lemma k_connects2 : k_returns (k_connect 2 x62) k_m1 = true.
Proof. vm_compute. reflexivity. Qed.
Lemma k_connects3 : k_returns (k_connect 3 x63) k_m2 = true.
Proof. vm_compute. reflexivity. Qed.
Lemma k_free2 : Proto.heap (base k_m1) !! 2%positive = None.
Proof. apply none_eq. vm_compute. reflexivity. Qed.
Lemma k_free3 : Proto.heap (base k_m2) !! 3%positive = None.
Proof. apply none_eq. vm_compute. reflexivity. Qed.

(** Another node's block with two increments and a decrement, mined over its
    chain and decoded by the manager. *)
Definition k_tx (name : bytes) (op : Byte8) (ts : Z) : Transaction := Tx (makeTransactionPayload name op) [] [] (Uint64ToByte8 ts).
Definition k_txs : list Transaction := [k_tx [x61] OpIncrement 4; k_tx [x62] OpDecrement 5; k_tx [x61] OpIncrement 6].
Definition k_fill (b : block MptWorldState) (d : wdb) : block MptWorldState :=
  fold_left (λ b tx, match processTransaction tx b d with
                     | Ret (b, _) => match AddTransaction tx b d with Ret (b, _) => b | _ => b end
                     | _ => b
                     end) k_txs b.
Definition k_mined : outcome (wc * block MptWorldState * result (block MptWorldState)) :=
  let! (c, b) := en_NewCandidateBlock 40 (Platform.engine w_b0) in
  let! b := deref b in
  en_MineCandidateBlockPoW (k_fill b c.2) None c.
Definition k_msg : Msg :=
  match k_mined with Ret (_, b, Ok _) => MkMsg NewBlock (enc (Spec b)) | _ => MkMsg 0 [] end.
Definition k_decoded : kmgr * block MptWorldState :=
  match K_engine (en_DecodeNetworkBlock k_msg) k_m3 with Ret (m, Ok b) => (m, b) | _ => (k_none, w_dead) end.

(** The block is accepted, counted and relayed to the two peers that did not
    send it. *)
Definition k_counted : bool :=
  match processBlock w_net w_pick w_nodes k_decoded.2 1%positive k_decoded.1 with
  | Ret (m, (b, None)) =>
      bool_decide (map fst (drop 3 (Proto.sent (base m))) = [3%positive; 2%positive]) &&
      match Countr [x61] m, Countr [x62] m, Countr [x63] m with
      | Ret (_, a), Ret (_, b), Ret (_, c) => bool_decide (a = 2 ∧ b = 2 ^ 64 - 1 ∧ c = 0)
      | _, _, _ => false
      end
  | _ => false
  end.
Lemma k_counted_ok : k_counted = true.
Proof. vm_compute. reflexivity. Qed.

Lemma k_m3_inv : counter_inv k_status k_m3.
Proof.
  exact (k_connect_inv 3 x63 k_m2 k_free3 k_connects3 (k_connect_inv 2 x62 k_m1 k_free2 k_connects2
    (k_connect_inv 1 x61 k_none eq_refl k_connects1 (counter_inv_new k_status (Platform.engine w_a0) null)))).
Qed.

Lemma k_decoded_inv : counter_inv k_status k_decoded.1.
Proof.
  assert (match K_engine (en_DecodeNetworkBlock k_msg) k_m3 with Ret (_, Ok _) => true | _ => false end = true) as H by (vm_compute; reflexivity).
  pose proof (kkeeps_engine k_status 0 (en_DecodeNetworkBlock k_msg) k_m3 (settled_start _ _ k_m3_inv)) as Hk. unfold kwp in Hk.
  unfold k_decoded. destruct (K_engine (en_DecodeNetworkBlock k_msg) k_m3) as [[m [b|]]| |]; [|done..].
  by destruct (Hk m (Ok b) eq_refl).
Qed.

Lemma k_from : is_Some (Proto.heap (base k_decoded.1) !! 1%positive).
Proof. apply some_eq. vm_compute. reflexivity. Qed.
Lemma k_world : is_Some (worldState k_decoded.2).
Proof. apply some_eq. vm_compute. reflexivity. Qed.
Lemma k_payloads : map Payload (Transactions k_decoded.2) = map Payload k_txs.
Proof. apply (bool_decide_eq_true_1 _). vm_compute. reflexivity. Qed.

Lemma k_counts_all : Forall (λ tx, ∃ change, counts tx change) (Transactions k_decoded.2).
Proof.
  pose proof k_payloads as H. revert H. generalize (Transactions k_decoded.2). intros txs H.
  destruct txs as [|t1 [|t2 [|t3 [|t4 txs]]]]; [done..| |done]. cbn in H. injection H as H1 H2 H3.
  repeat constructor; [exists ([x61], 1) | exists ([x62], -1) | exists ([x61], 1)]; constructor; done.
Qed.

Lemma counter_block_counted_and_relayed_witness :
  ∃ changes b1, Forall2 counts (Transactions k_decoded.2) changes ∧ same_block k_decoded.2 b1 ∧
    ∀ k, balance b1 (engine k_decoded.1).2 k = u64 (balance k_decoded.2 (engine k_decoded.1).2 k + owed changes k).
Proof.
  destruct k_from as [n Hn].
  destruct (counter_block_counted_and_relayed (D:=wdb) w_net w_pick w_nodes w_pick_ok w_nodes_ok k_status k_decoded.2 1%positive n k_decoded.1 k_decoded_inv k_world Hn)
    as [(tx & b1 & Hin & Hno & _)|(changes & b1 & H1 & H2 & H3 & _)].
  - exfalso. pose proof k_counts_all as Hall. rewrite list.Forall_forall in Hall. destruct (Hall tx Hin) as [change Hc]. exact (Hno change Hc).
  - exists changes, b1. split; [exact H1|]. split; [exact H2 | exact H3].
Defined.

Lemma counter_invariant_witness : counter_inv k_status k_m1.
Proof.
  destruct (k_after_eq (k_connect 1 x61) k_none k_connects1) as [r Hr].
  apply (counter_invariant (W:=MptWorldState) w_net w_pick w_nodes w_pick_ok k_status (Platform.engine w_a0) null).
  apply rtc_once. exact (cs_connect w_net w_pick w_nodes 1%positive [x61] [x61; x61] k_hello k_none k_m1 r eq_refl Hr).
Defined.

(** A peer that has gone, with an answer left in its channel. *)
Definition k_gone : Proto.Node :=
  Proto.set_LastHash (Some null) (Proto.set_chans (Channel [Proto.CHAN_NEXT] true) (Channel [] true) (Proto.SetStatus k_status (Proto.NewNode [x61] [x61]))).
Definition k_gone_mgr : kmgr := Mgr wc (Proto.Base NewPeerSetDbInMemory 0 {[1%positive := k_gone]} []) w_asked null false false k_status 0%N.

Lemma best_answer (c : wc) : same_answer (λ _ : block MptWorldState, true) c.2 (en_BestBlock c) = true →
  ∀ c', c' = c → ∃ c2 b, en_BestBlock c' = Ret (c2, Some b) ∧ c2 = c.
Proof. intros (b & Hb & _)%best_same c' ->. by exists c, b. Qed.
Lemma k_best : ∀ c, c = w_asked → ∃ c2 (b : block MptWorldState), en_BestBlock c = Ret (c2, Some b) ∧ c2 = w_asked.
Proof. exact (best_answer w_asked w_best_same). Qed.

Lemma counter_sync_ends_witness :
  ∃ m' st, counter_syncRun w_net 1 w_block 1%positive k_gone_mgr = Ret (m', st) ∧ st ≠ SyncWaiting.
Proof.
  assert (syncing k_gone) as Hs by (split; by eexists).
  destruct (counter_sync_ends (D:=wdb) (W:=MptWorldState) w_net (λ c, c = w_asked) w_block 1%positive k_gone k_gone_mgr 1 k_best eq_refl (lookup_insert_eq _ _ _) Hs eq_refl (le_n 1))
    as (m' & st & H & Hst & _).
  exists m', st. split; [exact H | exact Hst].
Defined.
End witnesses.
