(* ===== verification/CounterOps.v ===== *)
(** * Changing counters ([src/protocol/counter/manager.go])

    Definitions only: the constructor of the counter manager, [delta], and
    [Increment] and [Decrement] over it.  They were written for an earlier
    consensus layer: they call [NewTransaction] with a payload and a submitter
    and [NewBlockChainConsensus] with a miner of 64 bytes, which the one of
    [src/consensus] does not take.  These two functions are parameters here,
    [newTransaction] and [newEngine].

    [delta] hands its block to the miner and waits for the callback, which
    runs in the goroutine of the miner: the call is one step of the node.
    Between two blocks of [Increment] other goroutines run: what they do
    before the call that leaves [i] more is [others i]. *)

From Stdlib Require Import Strings.Byte.
From S2P Require Import Prelude Bytes Db WorldStateI Block Consensus Trustee Peers Platform Pager CounterProto.

Module CounterOps.
Import Counter.

(** [const genesisTimeStamp], [countrName] *)
Definition genesisTimeStamp : Z := 0x200000.
Definition countrName : bytes := str_bytes "WorldState-Countr".

Section operations.
Context {C D W : Type} {wso : WorldState W D} {eng : Engine C D W} {sha : Sha512}.
Context {rls : Rlp BlockSpec} {rlss : Rlp (list BlockSpec)} {rlh : Rlp Byte64} {rlhs : Rlp (list Byte64)}.
Context (net : list (ref * Msg) → ref → Msg → option error) (pick : picker item) (order : nodeOrder).
(** The transaction with a payload and a submitter, made at a time; and the
    engine with a genesis time and a miner over a database *)
Context (newTransaction : Z → bytes → Byte64 → Transaction) (newEngine : Z → Byte64 → D → outcome (result C)).
Abbreviation mgr := (CountrProtocolManager C).

#[local] Notation "'do!' x ':=' e 'in' k" := (K_bind (λ x, k) e)
  (at level 10, x pattern, e at level 100, k at level 200).
#[local] Notation "'run!' e 'in' k" := (K_bind (λ _, k) e) (at level 10, e at level 100, k at level 200).

(** [func NewCountrProtocolManager(miner string) *CountrProtocolManager]:
    [None] is [nil].  [cfg] is the database of the configuration, without
    which the call panics, and [status] the variable [handshakeMsg]. *)
Definition NewCountrProtocolManager (miner : bytes) (cfg : option D) (status : Proto.HandshakeMsg) : outcome (option mgr) :=
  let! d := deref cfg in
  let! r := newEngine genesisTimeStamp (BytesToByte64 miner) d in
  match r with
  | Err _ => Ret None
  | Ok c =>
      let! g := deref (en_Genesis c) in
      let status := Proto.MkHandshake (Proto.NetworkId status) (Proto.ShardId status) (Proto.TotalWeight status) g (Proto.TipNumeric status) in
      Ret (Some (Mgr C (Proto.Base NewPeerSetDbInMemory 0 ∅ []) c (BytesToByte64 miner) false false status 0%N))
  end.

(** The loop of [delta], with [n] iterations left; [times] are those of the
    transactions. *)
Fixpoint deltaLoop (n : nat) (times : nat → Z) (name : bytes) (opCode : Byte8) (miner : Byte64) (b : block W) (d : D)
    : outcome (block W) :=
  match n with
  | O => Ret b
  | S n =>
      let! (b, (current, _)) := countr name b d in
      let b :=
        if decide (opCode = OpIncrement) then (block_Update name (Bytes (Uint64ToByte8 (u64 (current + 1)))) b).1
        else if decide (opCode = OpDecrement) then (block_Update name (Bytes (Uint64ToByte8 (u64 (current - 1)))) b).1
        else b in
      let! (b, _) := AddTransaction (newTransaction (times n) (makeTransactionPayload name opCode) miner) b d in
      deltaLoop n times name opCode miner b d
  end.

(** [func (mgr *CountrProtocolManager) delta(name string, opCode *core.Byte8, delta int) bool];
    [MineCandidateBlock] leaves the approver that the block has. *)
Definition delta (now : Z) (times : nat → Z) (name : bytes) (opCode : Byte8) (delta : Z) : K bool :=
  do! b := K_engine (en_NewCandidateBlock now) in
  do! b := K_lift (deref b) in
  do! d := K_gets (λ m, en_db (engine m)) in
  do! me := K_gets miner in
  do! b := K_lift (deltaLoop (Z.to_nat delta) times name opCode me b d) in
  do! r := K_engine (λ c, let! (c, _, r) := en_MineCandidateBlockPoW b (pow b) c in Ret (c, r)) in
  match r with
  | Err _ => K_ret false
  | Ok b =>
      do! p := K_alloc in
      do! _ := broadCast net pick order p b in
      K_ret true
  end.

(** The loop of [Increment] and [Decrement], with [n] iterations left *)
Fixpoint deltas (others : nat → mgr → mgr) (clock : nat → Z * (nat → Z)) (n : nat) (name : bytes) (opCode : Byte8) : K bool :=
  match n with
  | O => K_ret true
  | S n =>
      run! K_modify (others n) in
      do! ok := delta (clock n).1 (clock n).2 name opCode 1 in
      if ok : bool then deltas others clock n name opCode else K_ret false
  end.

(** [func (mgr *CountrProtocolManager) Increment(name string, delta int) (uint64)] *)
Definition Increment (others : nat → mgr → mgr) (clock : nat → Z * (nat → Z)) (name : bytes) (n : Z) : K Z :=
  do! ok := deltas others clock (Z.to_nat n) name OpIncrement in
  if ok : bool then Countr countrName else K_ret 0.

(** [func (mgr *CountrProtocolManager) Decrement(name string, delta int) (uint64)] *)
Definition Decrement (others : nat → mgr → mgr) (clock : nat → Z * (nat → Z)) (name : bytes) (n : Z) : K Z :=
  do! ok := deltas others clock (Z.to_nat n) name OpDecrement in
  if ok : bool then Countr countrName else K_ret 0.
End operations.
End CounterOps.
