(* ===== verification/CounterOpsTheorems.v ===== *)
(** * Theorems about changing counters

    [Increment] and [Decrement] over the block-chain consensus and the world
    state of [Trie]: how far the counter has moved when they return, and which
    value they return. *)

From Stdlib Require Import Strings.Byte.
From S2P Require Import Prelude Bytes Db Trie TrieSpec TrieFacts WorldState Concrete TrieTheorems WorldStateI Block BlockFacts BlockTheorems.
From S2P Require Import MainList Consensus ConsensusFacts ConsensusTheorems HistoryFacts HistoryTheorems ChainState.
From S2P Require Import Trustee TrusteeFacts TrusteeTheorems Peers PeersTheorems Platform PlatformFacts PlatformWitnesses Pager PagerTheorems CounterProto CounterTheorems CounterOps.
Import Counter CounterOps.

(** ** The invariant of the manager *)

Section keeping.
Context {C D W : Type} {wso : WorldState W D} {eng : Engine C D W} {sha : Sha512}.
Context {rls : Rlp BlockSpec} {rlss : Rlp (list BlockSpec)} {rlh : Rlp Byte64} {rlhs : Rlp (list Byte64)}.
Context {rlhm : Rlp Proto.HandshakeMsg} {rlrq : Rlp GetBlockHashesRequestMsg}.
Context {rlsl : RlpLaws BlockSpec} {rlssl : RlpLaws (list BlockSpec)} {rlhl : RlpLaws Byte64} {rlhsl : RlpLaws (list Byte64)}.
Context {rlhml : RlpLaws Proto.HandshakeMsg} {rlrql : RlpLaws GetBlockHashesRequestMsg}.
Context (net : list (ref * Msg) → ref → Msg → option error) (pick : picker item) (order : nodeOrder).
Context (Hpick : is_picker pick) (Horder : is_node_order order) (hs0 : Proto.HandshakeMsg).
Context (newTransaction : Z → bytes → Byte64 → Transaction) (newEngine : Z → Byte64 → D → outcome (result C)).
Abbreviation mgr := (CountrProtocolManager C).
Context (others : nat → mgr → mgr) (clock : nat → Z * (nat → Z)) (Hothers : ∀ i m, counter_inv hs0 m → counter_inv hs0 (others i m)).

Lemma delta_keeps now times name op n : kkeeps (counter_inv hs0) (delta net pick order newTransaction now times name op n).
Proof.
  assert (kkeeps (settled hs0 0) (delta net pick order newTransaction now times name op n)) as Hk.
  { unfold delta. apply kkeeps_bind; [apply kkeeps_engine|]. intros ob. apply kkeeps_bind; [apply kkeeps_lift|]. intros b.
    apply kkeeps_bind; [apply kkeeps_gets|]. intros d. apply kkeeps_bind; [apply kkeeps_gets|]. intros me.
    apply kkeeps_bind; [apply kkeeps_lift|]. intros b1. apply kkeeps_bind; [apply kkeeps_engine|]. intros [b2|e]; [|apply kkeeps_ret].
    apply kkeeps_alloc. intros p. apply kkeeps_bind; [apply kkeeps_broadCast; [done..|lia]|]. intros z. apply kkeeps_ret. }
  intros m Hm m' a Hrun. by apply (Hk m (settled_start hs0 m Hm)) in Hrun as [? _].
Qed.

Lemma deltas_keeps n name op : kkeeps (counter_inv hs0) (deltas net pick order newTransaction others clock n name op).
Proof.
  induction n as [|n IH]; cbn [deltas]; [apply kkeeps_ret|]. apply kkeeps_bind.
  - intros m Hm m' a [= <- _]. by apply Hothers.
  - intros _. apply kkeeps_bind; [apply delta_keeps|]. intros [|]; [exact IH | apply kkeeps_ret].
Qed.

(** Increment and Decrement keep the invariant of the manager: what they send decodes at its type,
    and the peers stay registered under their ids. *)
Theorem counter_changes_keep_invariant name n m m' r : counter_inv hs0 m →
  Increment net pick order newTransaction others clock name n m = Ret (m', r) ∨
  Decrement net pick order newTransaction others clock name n m = Ret (m', r) → counter_inv hs0 m'.
Proof.
  assert (∀ name, kkeeps (counter_inv hs0) (Countr name)) as Hread.
  { intros nm m0 Hm0 m1 a Hrun. eapply counter_step_inv; [done..|by eapply (cs_countr net pick order)|done]. }
  assert (∀ op, kkeeps (counter_inv hs0) (K_bind (λ ok : bool, if ok then Countr countrName else K_ret 0)
    (deltas net pick order newTransaction others clock (Z.to_nat n) name op))) as Hk.
  { intros op. apply kkeeps_bind; [apply deltas_keeps|]. intros [|]; [apply Hread | apply kkeeps_ret]. }
  intros Hm [Hrun|Hrun]; exact (Hk _ m Hm m' r Hrun).
Qed.

(** The manager that the constructor returns announces the genesis of its chain, and the invariant
    holds for it; without an engine there is no manager. *)
Theorem new_counter_manager miner cfg status om :
  NewCountrProtocolManager newEngine miner cfg status = Ret om →
  match om with
  | None => ∃ d e, cfg = Some d ∧ newEngine genesisTimeStamp (BytesToByte64 miner) d = Ret (Err e)
  | Some m => counter_inv (handshakeMsg m) m ∧ en_Genesis (engine m) = Some (Proto.Genesis (handshakeMsg m)) ∧
      Proto.NetworkId (handshakeMsg m) = Proto.NetworkId status ∧ Proto.peerCount (base m) = 0
  end.
Proof.
  unfold NewCountrProtocolManager. rewrite outcome_bind_ret. intros (d & Hd & Hrun). destruct cfg as [d'|]; [|done]. injection Hd as ->.
  apply outcome_bind_ret in Hrun as ([c|e] & He & Hrun); [|injection Hrun as <-; by exists d, e].
  apply outcome_bind_ret in Hrun as (g & Hg & [= <-]). cbn [engine handshakeMsg Proto.Genesis].
  destruct (en_Genesis c) as [g'|] eqn:Eg; [|done]. injection Hg as ->. split; [apply counter_inv_new | done].
Qed.
End keeping.

Section counting.
Context {D : Type} {dbo : Database D} {dbl : DatabaseLaws D}.
Context {sha : Sha512} {cdc : Codec node} {cdl : CodecLaws node}.
Context {cdn : Codec chainNode} {cdnl : CodecLaws chainNode} {cds : Codec BlockSpec} {cdsl : CodecLaws BlockSpec}.
Context {rls : Rlp BlockSpec} {rlss : Rlp (list BlockSpec)} {rlh : Rlp Byte64} {rlhs : Rlp (list Byte64)}.
Context (U : content → Prop) (HU : universe U) (HUe : U (tcontent t_empty)) (mfuel : nat).
#[local] Hint Extern 0 (WorldState MptWorldState _) => exact (mpt_instance mfuel) : typeclass_instances.
Context (fuel attempts : nat) (range : ranger) (now0 : Z) (Hrange : is_range range).
#[local] Instance counting_engine : Engine (BlockChainConsensus MptWorldState * D) D MptWorldState := chain_engine fuel attempts range now0.
Context (net : list (ref * Msg) → ref → Msg → option error) (pick : picker item) (order : nodeOrder).
Context (newTransaction : Z → bytes → Byte64 → Transaction).
Abbreviation mgr := (CountrProtocolManager (BlockChainConsensus MptWorldState * D)).
Implicit Types (d : D) (c : BlockChainConsensus MptWorldState) (b : block MptWorldState) (m : mgr) (t : tree) (base : gmap bytes bytes).

(** ** One block *)

(** The value of a counter in a map, and its bytes *)
Definition counter_in base (name : bytes) : Z := match base !! name with Some v => Uint64 (BytesToByte8 v) | None => 0 end.
Definition word (x : Z) : bytes := Bytes (Uint64ToByte8 x).

(** How an operation moves a counter *)
Definition sign (op : Byte8) : Z := if decide (op = OpIncrement) then 1 else -1.
Definition is_op (op : Byte8) : Prop := op = OpIncrement ∨ op = OpDecrement.

Lemma counter_word base name x : counter_in (<[name := word (u64 x)]> base) name = u64 x.
Proof.
  unfold counter_in, word. rewrite lookup_insert_eq. unfold BytesToByte8. rewrite BytesToArr_Bytes, Uint64_Uint64ToByte8, u64_small; [done|]. apply u64_range.
Qed.

Lemma AddTransaction_fields tx b d b' e : AddTransaction tx b d = Ret (b', e) →
  worldState b' = worldState b ∧ variables b' = variables b ∧ isNetworkBlock b' = isNetworkBlock b.
Proof.
  unfold AddTransaction. rewrite outcome_bind_ret. intros (w & _ & Ha). destruct (ws_HasTransaction w (Transaction_Id tx) d); [by injection Ha as <- _|].
  case_decide; by injection Ha as <- _.
Qed.

Lemma moved_block name op cur b : is_op op →
  (if decide (op = OpIncrement) then (block_Update name (Bytes (Uint64ToByte8 (u64 (cur + 1)))) b).1
   else if decide (op = OpDecrement) then (block_Update name (Bytes (Uint64ToByte8 (u64 (cur - 1)))) b).1 else b) =
  set_variables (<[name := Some (word (u64 (cur + sign op)))]> (variables b)) b.
Proof.
  unfold sign. intros [->| ->]; [by rewrite decide_True|]. pose proof op_differ as Hne.
  rewrite (decide_False (P:=OpDecrement = OpIncrement)) by done. rewrite decide_True by done. done.
Qed.

Lemma deltaLoop_one times name op me b d b' t base :
  is_op op → db_ok U d → on_tip d b t → variables b = ∅ → models base t →
  deltaLoop newTransaction 1 times name op me b d = Ret b' →
  on_tip d b' t ∧ variables b' = {[name := Some (word (u64 (counter_in base name + sign op)))]}.
Proof.
  intros Hop Hok [(ws & Hws & Hr) Hnet] Hv Hm. cbn [deltaLoop]. rewrite outcome_bind_ret. intros ([b1 [cur e1]] & Hc & Hd).
  rewrite moved_block in Hd by done. apply outcome_bind_ret in Hd as ([b2 e2] & (H1 & H2 & H3)%AddTransaction_fields & [= <-]).
  assert (cur = counter_in base name ∧ worldState b1 = Some ws ∧ isNetworkBlock b1 = false ∧ (variables b1 = ∅ ∨ ∃ v, variables b1 = {[name := v]})) as (-> & Hws1 & Hnet1 & Hx).
  { unfold countr, block_Lookup in Hc. rewrite Hv, lookup_empty, Hws in Hc. cbn [deref outcome_bind] in Hc.
    change (ws_Lookup ws name d) with (Lookup ws name d) in Hc. rewrite (Lookup_models U d ws t base name HU Hok Hr Hm) in Hc. unfold counter_in.
    destruct (base !! name) as [v|]; injection Hc as <- <- <-; (split; [done|]); (split; [done|]); (split; [done|]); [|by left].
    right. exists (Some v). by apply insert_empty. }
  split; [split; [exists ws; by rewrite H1 | by rewrite H3]|]. rewrite H2. cbn [variables set_variables].
  destruct Hx as [->|[v ->]]; [by apply insert_empty | apply insert_singleton_eq].
Qed.

Lemma broadCast_engine p b m m' n : broadCast net pick order p b m = Ret (m', n) → engine m' = engine m.
Proof.
  unfold broadCast, K_bind. rewrite outcome_bind_ret. intros ([m1 nodes] & H1 & H2). apply outcome_bind_ret in H1 as (ns & _ & [= <- _]).
  rewrite broadCastLoop_flood in H2. apply outcome_bind_ret in H2 as ([bs k] & _ & [= <- _]). done.
Qed.

(** The trie after a counter was set *)
Definition set_counter t name (x : Z) : tree := effect t {[name := Some (word x)]}.

Lemma models_set base t name x : wf_tree t → models base t → models (<[name := word x]> base) (set_counter t name x).
Proof.
  intros Hwf Hm. pose proof (models_written base {[name := Some (word x)]} t Hwf Hm) as Hw.
  assert (written base {[name := Some (word x)]} = <[name := word x]> base) as <-; [|done].
  apply map_eq. intros k. rewrite written_lookup. destruct (decide (k = name)) as [->|Hne].
  - rewrite lookup_singleton_eq, lookup_insert_eq. unfold word. pose proof (arr_length (Uint64ToByte8 x)) as Hl. unfold Bytes.
    by destruct (arr_list (Uint64ToByte8 x)).
  - by rewrite lookup_singleton_ne, lookup_insert_ne.
Qed.

Lemma delta_state now times name op m m' c d t base :
  is_op op → engine m = (c, d) → tip_state U d c t → models base t →
  let x := u64 (counter_in base name + sign op) in covers U t (range {[name := Some (word x)]}) →
  delta (D:=D) (W:=MptWorldState) net pick order newTransaction now times name op 1 m = Ret (m', true) →
  ∃ c' d', engine m' = (c', d') ∧ (tip_state U d' c' (set_counter t name x) ∨ c' = c ∧ tip_state U d' c t).
Proof.
  intros Hop Hm Ht Hmod x Hcov. unfold delta, K_bind at 1. rewrite outcome_bind_ret. intros ([m1 ob] & H1 & Hrest).
  unfold K_engine in H1. rewrite Hm in H1. apply outcome_bind_ret in H1 as ([[c1 d1] ob1] & H1 & [= <- <-]).
  cbn in H1. unfold on_db in H1. apply outcome_bind_ret in H1 as ([d1' ob'] & Hnew & [= <- <- <-]). cbn [fst snd] in Hnew.
  destruct ob' as [b|]; [|done]. destruct (NewCandidateBlock_state U HU mfuel now c d d1' b t HUe Ht Hnew) as (Ht1 & Hon & Hv).
  unfold K_bind, K_lift, K_gets in Hrest. cbn [deref outcome_bind engine set_engine en_db counting_engine chain_engine snd miner] in Hrest.
  apply outcome_bind_ret in Hrest as ([m2 b2] & H2 & Hrest). apply outcome_bind_ret in H2 as (b2' & Hloop & [= <- <-]).
  destruct (deltaLoop_one times name op (miner m) b d1' b2' t base Hop (ts_ok _ _ _ _ Ht1) Hon Hv Hmod Hloop) as [Hon2 Hv2].
  apply outcome_bind_ret in Hrest as ([m3 r] & H3 & Hrest). unfold K_engine in H3. cbn [engine set_engine] in H3.
  apply outcome_bind_ret in H3 as ([x3 r'] & H3 & [= <- <-]). cbn in H3. apply outcome_bind_ret in H3 as ([[x4 b4] r4] & H4 & [= <- <-]).
  apply outcome_bind_ret in H4 as ([[[d5 c5] b5] r5] & Hmine & [= <- <- <-]).
  destruct r5 as [b6|]; [|done]. apply outcome_bind_ret in Hrest as ([m7 p] & [= <- <-] & Hrest).
  apply outcome_bind_ret in Hrest as ([m8 n] & Hbc%broadCast_engine & [= <-]). cbn [engine set_engine set_nextPtr] in Hbc.
  exists c5, d5. split; [done|]. unfold MineCandidateBlockPoW in Hmine.
  assert (on_tip d1' (set_pow (pow b2') b2') t) as Hon3 by (by destruct Hon2).
  assert (covers U t (range (variables (set_pow (pow b2') b2')))) as Hcov3 by (cbn; by rewrite Hv2).
  destruct (mine_state U HU mfuel _ _ _ _ _ _ _ _ _ _ t Ht1 Hon3 Hrange Hcov3 Hmine) as [_ [(_ & _ & Hs)|(_ & -> & Hs)]]; [left | by right].
  cbn [variables set_pow] in Hs. by rewrite Hv2 in Hs.
Qed.

(** ** Reading a counter *)

Lemma Countr_state k m c d t base : engine m = (c, d) → tip_state U d c t → models base t →
  ∃ m' d', Countr (D:=D) (W:=MptWorldState) k m = Ret (m', counter_in base k) ∧ engine m' = (c, d') ∧ tip_state U d' c t.
Proof.
  intros Hm Ht Hmod. destruct (BestBlock_state U HU mfuel c d t HUe Ht) as (d1 & b & Hbest & Ht1 & Hon & Hv & _).
  assert (K_engine en_BestBlock m = Ret (set_engine (c, d1) m, Some b)) as Heng.
  { apply krun_engine. rewrite Hm. cbn. unfold on_db. cbn [fst snd]. by rewrite Hbest. }
  unfold Countr. rewrite (krun_bind _ _ _ _ _ Heng). unfold K_bind, K_lift, K_gets. cbn [deref outcome_bind engine set_engine en_db counting_engine chain_engine snd].
  destruct (Lookup_tip U HU mfuel d1 b t base k (ts_ok _ _ _ _ Ht1) Hon Hv Hmod) as [b' Hl]. unfold countr. rewrite Hl. cbn [outcome_bind].
  exists (set_engine (c, d1) m), d1. split; [|done]. unfold view_lookup, counter_in. rewrite lookup_empty. by destruct (base !! k).
Qed.

(** ** Many blocks *)

Context (others : nat → mgr → mgr) (clock : nat → Z * (nat → Z)).
Hypothesis others_idle : ∀ i m, engine (others i m) = engine m.
Context (name : bytes) (op : Byte8) (Hop : is_op op).
Abbreviation step_delta n := (delta (D:=D) (W:=MptWorldState) net pick order newTransaction (clock n).1 (clock n).2 name op 1).

(** The weight of the chain grows with every block: it does not wrap around. *)
Fixpoint weight_grows (n : nat) m : Prop :=
  match n with
  | O => True
  | S n => ∀ m', step_delta n (others n m) = Ret (m', true) → c_weight (engine m).1 < c_weight (engine m').1 ∧ weight_grows n m'
  end.

(** The universe covers the tries that the counter goes through from [x]. *)
Fixpoint counts_covered (n : nat) t (x : Z) : Prop :=
  match n with
  | O => True
  | S n => let x := u64 (x + sign op) in covers U t (range {[name := Some (word x)]}) ∧ counts_covered n (set_counter t name x) x
  end.

(** The map after [n] steps *)
Definition moved base (n : nat) : gmap bytes bytes :=
  match n with O => base | _ => <[name := word (u64 (counter_in base name + sign op * Z.of_nat n))]> base end.

Lemma moved_step base n x : x = u64 (counter_in base name + sign op) → moved (<[name := word x]> base) n = moved base (S n).
Proof.
  intros ->. destruct n as [|n]; cbn [moved]; [by rewrite Z.mul_1_r|]. rewrite counter_word, insert_insert_eq.
  assert (∀ v k, u64 (u64 (v + sign op) + sign op * k) = u64 (v + sign op * (1 + k))) as Hu.
  { intros v k. unfold u64. rewrite Zplus_mod_idemp_l. f_equal. lia. }
  rewrite Hu. do 4 f_equal. lia.
Qed.

Lemma deltas_state n : ∀ m m' c d t base, engine m = (c, d) → tip_state U d c t → models base t →
  counts_covered n t (counter_in base name) → weight_grows n m →
  deltas (D:=D) (W:=MptWorldState) net pick order newTransaction others clock n name op m = Ret (m', true) →
  ∃ c' d' t', engine m' = (c', d') ∧ tip_state U d' c' t' ∧ models (moved base n) t'.
Proof.
  induction n as [|n IH]; intros m m' c d t base Hm Ht Hmod; cbn [counts_covered weight_grows deltas].
  { intros _ _ [= <-]. by exists c, d, t. }
  intros [Hcov Hcovs] Hw. unfold K_bind. rewrite outcome_bind_ret. intros ([m0 u] & [= <- _] & Hrest).
  apply outcome_bind_ret in Hrest as ([m1 ok] & Hd & Hrest). destruct ok; [|by injection Hrest].
  pose proof (others_idle n m) as Hidle. rewrite Hm in Hidle. destruct (Hw m1 Hd) as [Hlt Hws].
  destruct (delta_state _ _ name op _ _ c d t base Hop Hidle Ht Hmod Hcov Hd) as (c1 & d1 & Hm1 & [Ht1|[-> _]]).
  2: { rewrite Hm, Hm1 in Hlt. cbn [fst] in Hlt. lia. }
  assert (wf_tree t) as Hwf by (destruct Ht as [_ (ws & _ & Hr)]; exact (rp_wf _ _ _ Hr)).
  rewrite <- (moved_step base n _ eq_refl). eapply (IH m1 m' c1 d1); [done | done | by apply models_set | by rewrite counter_word | done | done].
Qed.

(** Deciding that the weight grows *)
Fixpoint grows_b (n : nat) m : bool :=
  match n with
  | O => true
  | S n => match step_delta n (others n m) with
           | Ret (m', true) => bool_decide (c_weight (engine m).1 < c_weight (engine m').1) && grows_b n m'
           | _ => true
           end
  end.

Lemma grows_b_sound n : ∀ m, grows_b n m = true → weight_grows n m.
Proof.
  induction n as [|n IH]; intros m; cbn [grows_b weight_grows]; [done|]. intros Hb m' Hd. rewrite Hd in Hb.
  apply andb_true_iff in Hb as [Hlt%bool_decide_eq_true_1 Hb]. split; [done | by apply IH].
Qed.

(** C36: Increment and Decrement of the counter manager, over the block-chain consensus and the
    world state: when no other goroutine touches the engine and every block that is mined gets
    more weight than the tip, either every block was mined, and then reading any counter gives
    the value before, moved by one per block modulo 2^64 for the named counter and unchanged for
    the others, and the call returns the value of the counter WorldState-Countr, or mining
    failed and the call returns zero; an amount that is not positive changes nothing. *)
Theorem counter_changes_exactly n m m' r c d t base :
  engine m = (c, d) → tip_state U d c t → models base t →
  counts_covered (Z.to_nat n) t (counter_in base name) → weight_grows (Z.to_nat n) m →
  (if decide (op = OpIncrement)
   then Increment (D:=D) (W:=MptWorldState) net pick order newTransaction others clock name n
   else Decrement (D:=D) (W:=MptWorldState) net pick order newTransaction others clock name n) m = Ret (m', r) →
  let after := moved base (Z.to_nat n) in
  (r = counter_in after countrName ∧ ∀ k, ∃ m2, Countr (D:=D) (W:=MptWorldState) k m' = Ret (m2, counter_in after k)) ∨
  (r = 0 ∧ deltas (D:=D) (W:=MptWorldState) net pick order newTransaction others clock (Z.to_nat n) name op m = Ret (m', false)).
Proof.
  intros Hm Ht Hmod Hcov Hw Hrun after.
  assert (K_bind (λ ok, if ok : bool then Countr (D:=D) (W:=MptWorldState) countrName else K_ret 0)
    (deltas (D:=D) (W:=MptWorldState) net pick order newTransaction others clock (Z.to_nat n) name op) m = Ret (m', r)) as Hrun'.
  { revert Hrun. case_decide as E; [by rewrite E|]. destruct Hop as [|E']; [done | by rewrite E']. }
  revert Hrun'. unfold K_bind. rewrite outcome_bind_ret. intros ([m1 ok] & Hd & Hr). destruct ok; [left | injection Hr as <- <-; by right].
  destruct (deltas_state _ _ _ _ _ _ _ Hm Ht Hmod Hcov Hw Hd) as (c1 & d1 & t1 & Hm1 & Ht1 & Hmod1).
  destruct (Countr_state countrName m1 c1 d1 t1 _ Hm1 Ht1 Hmod1) as (m2 & d2 & Hread & Hm2 & Ht2). rewrite Hread in Hr. injection Hr as <- <-.
  split; [done|]. intros k. destruct (Countr_state k m2 c1 d2 t1 _ Hm2 Ht2 Hmod1) as (m3 & d3 & Hread3 & _). by exists m3.
Qed.
End counting.

(** ** Witness *)

Section witnesses.
#[local] Existing Instances w_hash w_codec w_laws w_ops w_spec_codec w_cn_codec w_cn_laws w_spec_laws w_ws_laws w_separate.
#[local] Existing Instances w_rlp_spec w_rlp_specs w_rlp_hash w_rlp_hashes.
Abbreviation wdb := (gmap bytes bytes).
Abbreviation wc := (BlockChainConsensus MptWorldState * wdb)%type.
Abbreviation kmgr := (CountrProtocolManager wc).

(** A manager without peers on a new chain counts to two. *)
Definition wi_mgr : kmgr := Mgr wc (Proto.Base NewPeerSetDbInMemory 0 ∅ []) (wc_start.2, wc_start.1) null false false handshakeMsg0 0%N.
Definition wi_tx (now : Z) (payload : bytes) (submitter : Byte64) : Transaction := NewTransaction now payload [] (Bytes submitter).
Definition wi_others (_ : nat) (m : kmgr) : kmgr := m.
Definition wi_clock (n : nat) : Z * (nat → Z) := (40 + Z.of_nat n, λ i, 50 + Z.of_nat n + Z.of_nat i).
Abbreviation wi_engine := (counting_engine 0 10 3 w_range 0).
Abbreviation wi_run := (Increment (eng:=wi_engine) w_net w_pick w_nodes wi_tx wi_others wi_clock [x61] 2).

Definition wi_ran (o : outcome (kmgr * Z)) : kmgr * Z := match o with Ret r => r | _ => (wi_mgr, -1) end.
Definition wi_ok (o : outcome (kmgr * Z)) : bool := match o with Ret _ => true | _ => false end.
Lemma wi_ran_eq o : wi_ok o = true → o = Ret ((wi_ran o).1, (wi_ran o).2).
Proof. by destruct o as [[m r]| |]. Qed.
Definition wi_all (o : outcome (kmgr * bool)) : bool := match o with Ret (_, ok) => ok | _ => false end.

Lemma wi_returns : wi_ok (wi_run wi_mgr) = true.
Proof. vm_compute. reflexivity. Qed.
Lemma wi_grows : grows_b 0 10 3 w_range 0 w_net w_pick w_nodes wi_tx wi_others wi_clock [x61] OpIncrement 2 wi_mgr = true.
Proof. vm_compute. reflexivity. Qed.
Lemma wi_mined : wi_all (deltas (eng:=wi_engine) w_net w_pick w_nodes wi_tx wi_others wi_clock 2 [x61] OpIncrement wi_mgr) = true.
Proof. vm_compute. reflexivity. Qed.

Definition wi_changes : list wchange := [([x61], Some (word 1)); ([x61], Some (word 2))].
Definition wi_trees : list tree := trees t_empty wi_changes.
Definition wi_U : content → Prop := U_of wi_trees.
Lemma wi_universe : universe wi_U.
Proof. apply universe_b_sound. vm_compute. reflexivity. Qed.
Lemma wi_empty : wi_U (tcontent t_empty).
Proof. apply (U_of_covered wi_trees t_empty) with []; [apply trees_head | done]. Qed.
Lemma wi_covers : covers wi_U t_empty wi_changes.
Proof. apply covers_trees. by intros x Hx. Qed.

Lemma range_one k v : w_range {[k := v]} = [(k, v)].
Proof. unfold w_range. apply map_to_list_singleton. Qed.
Lemma set_one t k x : set_counter t k x = t_apply t (tchange (k, Some (word x))).
Proof. unfold set_counter, effect. by rewrite map_to_list_singleton. Qed.

Lemma wi_counts : counts_covered wi_U w_range [x61] OpIncrement 2 t_empty (counter_in ∅ [x61]).
Proof.
  destruct wi_covers as [H1 [H2 _]]. cbn [counts_covered]. unfold sign, counter_in. rewrite decide_True, lookup_empty by done.
  change (u64 (0 + 1)) with 1. change (u64 (1 + 1)) with 2. rewrite !range_one, set_one. by repeat split.
Qed.

Lemma wi_start : tip_state wi_U wc_start.1 wc_start.2 t_empty.
Proof.
  exact (NewBlockChainConsensus_state wi_U wi_universe 0 0 w_range 0 5 [x6d] ∅ wc_start.1 wc_start.2 wi_empty (db_ok_empty wi_U)
    w_no_chain w_range_ok wc_new_eq).
Qed.

Lemma not_mined (o : outcome (kmgr * bool)) m : wi_all o = true → o = Ret (m, false) → False.
Proof. by intros H ->. Qed.

Lemma counter_changes_exactly_witness :
  ∃ m2, Countr (eng:=wi_engine) [x61] (wi_ran (wi_run wi_mgr)).1 = Ret (m2, 2).
Proof.
  destruct (counter_changes_exactly wi_U wi_universe wi_empty 0 10 3 w_range 0 w_range_ok w_net w_pick w_nodes wi_tx wi_others wi_clock (λ _ _, eq_refl)
    [x61] OpIncrement (or_introl eq_refl) 2 wi_mgr (wi_ran (wi_run wi_mgr)).1 (wi_ran (wi_run wi_mgr)).2 wc_start.2 wc_start.1 t_empty ∅
    eq_refl wi_start models_empty wi_counts (grows_b_sound 0 10 3 w_range 0 w_net w_pick w_nodes wi_tx wi_others wi_clock [x61] OpIncrement 2 wi_mgr wi_grows)
    (wi_ran_eq (wi_run wi_mgr) wi_returns)) as [[_ Hall]|[_ Hno]].
  - destruct (Hall [x61]) as [m2 Hread]. exists m2. exact Hread.
  - exfalso. exact (not_mined _ _ wi_mined Hno).
Defined.
End witnesses.
