(* ===== verification/Sessions.v ===== *)
(** * Connections ([Run] of the protocols)

    Definitions only: what the p2p library runs for a connection, from the
    handshake to the deferred functions, for the platform manager
    ([protocol] of [src/network/platform.go]), the pager and the counter
    ([Protocol] of [src/protocol/pager/manager.go] and
    [src/protocol/counter/manager.go]).

    A connection is a list of rounds: before the listener reads its next
    message other goroutines run, the synchronization that [Run] starts among
    them.  The list ends where the connection is still open, and then [Run] is
    [Blocked]. *)

From S2P Require Import Prelude Bytes Db WorldStateI Block Consensus Trustee Peers Platform Pager CounterProto.

(** The handshake that a connection reads, its rounds, and what others do
    between the last message and the deferred functions *)
Record round {M : Type} := MkRound {
  rd_others : M → M;
  rd_env : env;
  rd_read : result Msg;
}.
Arguments round M : clear implicits.

Record connection {M : Type} := MkConnection {
  cn_NodeId : bytes;
  cn_Id : bytes;
  cn_Name : bytes;
  cn_hello : result Msg;
  cn_rounds : list (round M);
  cn_last : M → M;
}.
Arguments connection M : clear implicits.

Module Sessions.

(** ** The platform manager *)

Section platform.
Context {C D W : Type} {wso : WorldState W D} {eng : Engine C D W} {sha : Sha512} {ec : Ecdsa}.
Context {cop : Codec (list Op)} {csg : Codec signature}.
Context {rls : Rlp BlockSpec} {rlss : Rlp (list BlockSpec)} {rlh : Rlp Byte64} {rlhs : Rlp (list Byte64)}.
Context {rlhm : Rlp HandshakeMsg} {rlrq : Rlp GetBlockHashesRequestMsg}.
Context (net : list (ref * Msg) → ref → Msg → option error).
Abbreviation mgr := (platformManager C W).

#[local] Notation "'do!' x ':=' e 'in' k" := (M_bind (λ x, k) e)
  (at level 10, x pattern, e at level 100, k at level 200).
#[local] Notation "'run!' e 'in' k" := (M_bind (λ _, k) e) (at level 10, e at level 100, k at level 200).

(** [func (mgr *platformManager) listen(peer *peerNode) error] *)
Fixpoint listenLoop (rounds : list (round mgr)) (peer : ref) : Platform.M (call error) :=
  match rounds with
  | [] => M_ret Blocked
  | rd :: rounds =>
      run! M_modify (rd_others rd) in
      do! err := listen net (rd_env rd) (rd_read rd) peer in
      match err with
      | Some err => M_ret (Returned err)
      | None => listenLoop rounds peer
      end
  end.

(** [Run] of [protocol]; [peer] is the address of the new node. *)
Definition Run (cn : connection mgr) (peer : ref) : Platform.M (call (option error)) :=
  do! (_, err) := connect net peer (cn_NodeId cn) (cn_Id cn) (cn_Name cn) (cn_hello cn) in
  match err with
  | Some err => M_ret (Returned (Some err))
  | None =>
      do! r := listenLoop (cn_rounds cn) peer in
      match r with
      | Blocked => M_ret Blocked
      | Returned _ =>
          run! M_modify (cn_last cn) in
          run! disconnected peer in
          M_ret (Returned None)
      end
  end.
End platform.

(** ** The pager *)

Section pager.
Context {rlh : Rlp Proto.HandshakeMsg} {rlt : Rlp BroadcastTextMsg}.
Context (net : list (ref * Msg) → ref → Msg → option error) (pick : picker item) (order : nodeOrder).

Fixpoint pager_listenLoop (rounds : list (round PagerProtocolManager)) (id name : bytes) (m : PagerProtocolManager)
    : outcome (PagerProtocolManager * call error) :=
  match rounds with
  | [] => Ret (m, Blocked)
  | rd :: rounds =>
      let! (m, err) := pager_listen net pick order (rd_read rd) id name (rd_others rd m) in
      match err with
      | Some err => Ret (m, Returned err)
      | None => pager_listenLoop rounds id name m
      end
  end.

(** [Run] of [func (mgr *PagerProtocolManager) Protocol() p2p.Protocol] *)
Definition pager_Run (cn : connection PagerProtocolManager) (peer : ref) (m : PagerProtocolManager)
    : outcome (PagerProtocolManager * call error) :=
  let! (m, err) := pager_connect net peer (cn_Id cn) (cn_Name cn) (cn_hello cn) m in
  match err with
  | Some err => Ret (m, Returned err)
  | None =>
      let! (m, r) := pager_listenLoop (cn_rounds cn) (cn_Id cn) (cn_Name cn) m in
      match r with
      | Blocked => Ret (m, Blocked)
      | Returned err => let! m := pager_disconnected peer (cn_last cn m) in Ret (m, Returned err)
      end
  end.
End pager.

(** ** The counter *)

Section counter.
Import Counter.
Context {C D W : Type} {wso : WorldState W D} {eng : Engine C D W} {sha : Sha512}.
Context {rls : Rlp BlockSpec} {rlss : Rlp (list BlockSpec)} {rlh : Rlp Byte64} {rlhs : Rlp (list Byte64)}.
Context {rlhm : Rlp Proto.HandshakeMsg} {rlrq : Rlp GetBlockHashesRequestMsg}.
Context (net : list (ref * Msg) → ref → Msg → option error) (pick : picker item) (order : nodeOrder).
Abbreviation mgr := (CountrProtocolManager C).

#[local] Notation "'do!' x ':=' e 'in' k" := (K_bind (λ x, k) e)
  (at level 10, x pattern, e at level 100, k at level 200).
#[local] Notation "'run!' e 'in' k" := (K_bind (λ _, k) e) (at level 10, e at level 100, k at level 200).

(** [func (mgr *CountrProtocolManager) listen(peer *protocol.Node) error] *)
Fixpoint counter_listenLoop (rounds : list (round mgr)) (peer : ref) : K (call error) :=
  match rounds with
  | [] => K_ret Blocked
  | rd :: rounds =>
      run! K_modify (rd_others rd) in
      do! err := listen net pick order (rd_read rd) peer in
      match err with
      | Some err => K_ret (Returned err)
      | None => counter_listenLoop rounds peer
      end
  end.

(** [Run] of [func (mgr *CountrProtocolManager) Protocol() p2p.Protocol] *)
Definition counter_Run (cn : connection mgr) (peer : ref) : K (call (option error)) :=
  do! (_, err) := connect net peer (cn_Id cn) (cn_Name cn) (cn_hello cn) in
  match err with
  | Some err => K_ret (Returned (Some err))
  | None =>
      do! r := counter_listenLoop (cn_rounds cn) peer in
      match r with
      | Blocked => K_ret Blocked
      | Returned _ =>
          run! K_modify (cn_last cn) in
          run! disconnected peer in
          K_ret (Returned None)
      end
  end.
End counter.
End Sessions.
