(* ===== verification/SessionTheorems.v ===== *)
(** * Theorems about connections

    A connection of the platform manager, from its handshake to its deferred
    functions, is a sequence of the steps for which the invariants of the
    manager are proved, whatever other goroutines do in between; when it has
    ended the peer is registered nowhere and its channels are closed. *)

From Stdlib Require Import Strings.Byte.
From S2P Require Import Prelude Bytes Db WorldStateI Block BlockFacts Consensus Trustee TrusteeFacts.
From S2P Require Import Trie TrieSpec TrieFacts WorldState Concrete TrieTheorems BlockTheorems ConsensusFacts ConsensusTheorems TrusteeTheorems.
From S2P Require Import Peers PeersTheorems Pager PagerTheorems CounterProto CounterTheorems Sessions Platform PlatformFacts PlatformTheorems Produced PlatformWitnesses.

(** ** What calls leave alone *)

Section frames.
Context {C D W : Type} {wso : WorldState W D} {eng : Engine C D W} {sha : Sha512} {ec : Ecdsa}.
Context {cop : Codec (list Op)} {csg : Codec signature}.
Context {rls : Rlp BlockSpec} {rlss : Rlp (list BlockSpec)} {rlh : Rlp Byte64} {rlhs : Rlp (list Byte64)}.
Context {rlhm : Rlp HandshakeMsg} {rlrq : Rlp GetBlockHashesRequestMsg}.
Context (net : list (ref * Msg) → ref → Msg → option error).
Abbreviation mgr := (platformManager C W).
Abbreviation M := (@M C W ec).
Implicit Types (m : mgr) (e : env).

(** A property of the manager that is about who is connected only *)
Record about_peers (I : mgr → Prop) : Prop := {
  ap_engine c m : I m → I (set_engine c m);
  ap_dead s m : I m → I (set_deadTxs s m);
  ap_sent l m : I m → I (set_sent l m);
  ap_ptr p m : I m → I (set_nextPtr p m);
  ap_queue q m : I m → I (set_txQ q m);
  ap_producer p r m : I m → I (set_blockProducer p r m);
  ap_history s m : I m → I (set_peerDb (PeerSetDb (ps_nodes (peerDb m)) s) m);
  ap_peer r n n' m : heap m !! r = Some n → pn_Id n' = pn_Id n → I m → I (set_heap (<[r := n']> (heap m)) m);
}.

Section one.
Context (I : mgr → Prop) (HI : about_peers I).

Lemma still_engine {A} (f : C → outcome (C * A)) : keeps I (M_engine f).
Proof. intros m Hm. apply wp_engine. intros c a _. by apply (ap_engine I HI). Qed.
Lemma still_Send {A} `{Rlp A} to code (x : A) : keeps I (Send net to code x).
Proof. intros m Hm. apply wp_Send; [done|]. intros. by apply (ap_sent I HI). Qed.
Lemma still_mark e r p : keeps I (markKnown e r p).
Proof. intros m Hm. unfold markKnown. apply wp_bind, wp_peer. intros n Hn. apply wp_modify. by eapply (ap_peer I HI). Qed.
Lemma still_signal r x : keeps I (signal r x).
Proof. intros m Hm. unfold signal. apply wp_bind, wp_peer. intros n Hn. apply wp_bind, wp_lift. intros ch _. apply wp_modify. by eapply (ap_peer I HI). Qed.
Lemma still_LastHash r h : keeps I (setLastHash r h).
Proof. intros m Hm. unfold setLastHash. apply wp_bind, wp_peer. intros n Hn. apply wp_modify. by eapply (ap_peer I HI). Qed.
Lemma still_alloc : keeps I M_alloc.
Proof. intros m Hm m' p [= <- _]. by apply (ap_ptr I HI). Qed.
Lemma still_seen {A} it (f : bool → M A) :
  (∀ seen, keeps I (f seen)) →
  keeps I (M_bind (λ ps, let '(ps, seen) := HaveISeenIt it ps in M_bind (λ _, f seen) (M_modify (set_peerDb ps))) (M_gets peerDb)).
Proof.
  intros Hf m Hm. apply wp_bind, wp_gets. destruct (HaveISeenIt_spec it (peerDb m)) as (_ & _ & Hn).
  destruct (HaveISeenIt it (peerDb m)) as [[nodes hist] seen]. cbn in Hn. subst nodes. apply wp_bind, wp_modify, Hf. by apply (ap_history I HI).
Qed.
Lemma still_dead f : keeps I (M_modify (λ m, set_deadTxs (f m) m)).
Proof. intros m Hm. by apply wp_modify, (ap_dead I HI). Qed.
Lemma still_producer p : keeps I (setProducer p).
Proof. intros m Hm. by apply wp_modify, (ap_producer I HI). Qed.

Create HintDb still.
Hint Resolve keeps_ret keeps_lift keeps_gets keeps_query keeps_peer : still.
Hint Resolve still_engine still_mark still_signal still_LastHash still_alloc still_dead still_producer : still.
Hint Extern 1 (keeps _ (Send _ _ _ _)) => apply still_Send : still.

Ltac still_steps :=
  repeat first
    [ progress eauto 2 with still
    | match goal with
      | |- keeps _ (M_bind (λ x, let '(_, _) := HaveISeenIt _ x in _) _) => apply still_seen; intros ?
      | |- keeps _ (M_bind _ _) => apply keeps_bind; [|intros ?]
      | |- keeps _ (match ?x with _ => _ end) => destruct x eqn:?
      | |- keeps _ ((λ _, _) _) => progress cbv beta
      end ].

Lemma still_broadcast e p b : keeps I (broadcast net e p b).
Proof.
  unfold broadcast. still_steps.
  assert (∀ nodes, keeps I (broadcastLoop net e p b nodes)) as Hloop; [|apply Hloop].
  induction nodes as [|r nodes IH]; cbn [broadcastLoop]; still_steps.
Qed.
Lemma still_processTxs txs : ∀ b, keeps I (processTxs txs b).
Proof. induction txs as [|tx txs IH]; intros b; cbn [processTxs]; unfold processTx; still_steps. Qed.
#[local] Hint Resolve still_broadcast still_processTxs : still.

Lemma still_processBlock e b from : keeps I (processBlock net e b from).
Proof. unfold processBlock. still_steps. Qed.
#[local] Hint Resolve still_processBlock : still.

Lemma still_collectBlocks hs : keeps I (collectBlocks hs).
Proof. induction hs as [|h hs IH]; cbn [collectBlocks]; still_steps. Qed.
Lemma still_syncBlocks e specs from : keeps I (syncBlocks net e specs from).
Proof. induction specs as [|s specs IH]; cbn [syncBlocks]; still_steps. Qed.
Lemma still_announceUncles e us r : keeps I (announceUncles net e us r).
Proof. induction us as [|u us IH]; cbn [announceUncles]; still_steps. Qed.
#[local] Hint Resolve still_collectBlocks still_syncBlocks still_announceUncles : still.

(** A message does not change who is connected. *)
Lemma still_listen e read peer : keeps I (listen net e read peer).
Proof.
  unfold listen. still_steps;
    unfold handleGetBlockHashesRequestMsg, handleGetBlockHashesResponseMsg, handleGetBlockHashesRewindMsg,
      handleGetBlocksRequestMsg, handleGetBlocksResponseMsg, handleNewBlockMsg; still_steps.
Qed.

Lemma still_Start : keeps I Start.
Proof. intros m Hm m' r. unfold Start. destruct (isRunning m); intros [= <- _]; [done | by apply (ap_producer I HI)]. Qed.
Lemma still_shutdown : keeps I shutdownProducer.
Proof. intros m Hm m' r. unfold shutdownProducer. destruct (blockProducer m); intros [= <- _]; [by apply (ap_producer I HI) | done]. Qed.
Lemma still_running b : keeps I (M_modify (λ m, set_blockProducer (blockProducer m) b m)).
Proof. intros m Hm. by apply wp_modify, (ap_producer I HI). Qed.
#[local] Hint Resolve still_Start still_shutdown still_running : still.

Lemma still_Suspend : keeps I Suspend.
Proof. unfold Suspend. still_steps. Qed.
Lemma still_Stop closed : keeps I (Stop closed).
Proof. unfold Stop. still_steps. Qed.
Lemma still_Status h : keeps I (Status h).
Proof. unfold Status. still_steps. Qed.
Lemma still_State : keeps I mgr_State.
Proof. unfold mgr_State. still_steps. Qed.
Lemma still_balance miner : keeps I (mgr_MiningRewardBalance miner).
Proof. unfold mgr_MiningRewardBalance. still_steps. Qed.
Lemma still_Submit e p s u : keeps I (Submit e p s u).
Proof. intros m Hm m' r. unfold Submit. case_decide; intros [= <- _]; [done | by apply (ap_queue I HI)]. Qed.
#[local] Hint Resolve still_Suspend : still.

Lemma still_syncRequest node : keeps I (syncRequest net node).
Proof. unfold syncRequest. still_steps. Qed.
Lemma still_syncFinish e node : keeps I (syncFinish net e node).
Proof. unfold syncFinish. still_steps. Qed.
#[local] Hint Resolve still_syncRequest still_syncFinish : still.
Lemma still_syncNode best node : keeps I (syncNode net best node).
Proof. unfold syncNode. still_steps. Qed.

Lemma still_syncResume e node : keeps I (syncResume net e node).
Proof.
  intros m Hm. unfold syncResume. apply wp_bind, wp_peer. intros n Hn. destruct (chan_recv _) as [[x ch]|]; [|by apply wp_ret].
  apply wp_bind, wp_modify. eapply (ap_peer I HI) in Hm; [|exact Hn | by instantiate (1 := set_pn_chans ch (pn_GetBlocksChan n) n)].
  revert Hm. generalize (set_heap (<[node := set_pn_chans ch (pn_GetBlocksChan n) n]> (heap m)) m).
  match goal with |- ∀ p, _ → wp ?y _ _ => change (keeps I y) end. still_steps.
Qed.

Lemma still_mineOrBury e b : keeps I (mineOrBury net e b).
Proof. unfold mineOrBury, mgr_mineCandidateBlock. still_steps. Qed.
Lemma still_openBlock e p : keeps I (openBlock e p).
Proof. unfold openBlock. still_steps. Qed.
#[local] Hint Resolve still_mineOrBury still_openBlock : still.

Lemma still_produce e timeout : keeps I (produce net e timeout).
Proof.
  assert (∀ tx p, keeps I (produceTx net e tx p)) as Htx by (intros tx p; unfold produceTx, processTx; still_steps).
  assert (∀ p, keeps I (produceTimeout net e p)) as Hto by (intros p; unfold produceTimeout; still_steps).
  intros m Hm m' r. unfold produce. destruct (blockProducer m) as [p|]; [|by intros [= <- _]]. destruct timeout.
  - rewrite outcome_bind_ret. intros ([m1 u] & Hrun & [= <- _]). by apply (Hto p m Hm) in Hrun.
  - destruct (txQ m) as [|tx q]; [by intros [= <- _]|]. rewrite outcome_bind_ret. intros ([m1 u] & Hrun & [= <- _]).
    by apply (Htx tx p _ (ap_queue I HI q m Hm)) in Hrun.
Qed.
End one.

(** ** Peers that are known keep their ids *)

(** The nodes of [m0] are there, under the ids they had. *)
Definition ids_kept (m0 m : mgr) : Prop := ∀ r n, heap m0 !! r = Some n → ∃ n', heap m !! r = Some n' ∧ pn_Id n' = pn_Id n.
(** The same peers are registered. *)
Definition same_registered (m0 m : mgr) : Prop :=
  ids_kept m0 m ∧ ps_nodes (peerDb m) = ps_nodes (peerDb m0) ∧ mgr_peers m = mgr_peers m0 ∧ peerCount m = peerCount m0.

#[global] Instance ids_kept_preorder : PreOrder ids_kept.
Proof.
  split; [by intros m r n Hn; exists n|]. intros m1 m2 m3 H12 H23 r n Hn.
  destruct (H12 r n Hn) as (n2 & Hn2 & <-). exact (H23 r n2 Hn2).
Qed.

Lemma ids_kept_set m0 m r n n' : heap m !! r = Some n → pn_Id n' = pn_Id n → ids_kept m0 m → ids_kept m0 (set_heap (<[r := n']> (heap m)) m).
Proof.
  intros Hn Hid Hm r' n0 Hn0. destruct (Hm r' n0 Hn0) as (n1 & Hn1 & Hid1). cbn [heap set_heap].
  destruct (decide (r = r')) as [<-|Hne]; [exists n'; rewrite lookup_insert_eq | exists n1; rewrite lookup_insert_ne by done]; split; congruence.
Qed.

Lemma ids_kept_about m0 : about_peers (ids_kept m0).
Proof. split; try done. intros. by eapply ids_kept_set. Qed.
Lemma same_registered_about m0 : about_peers (same_registered m0).
Proof. split; try done. intros r n n' m Hn Hid (H1 & H2). split; [by eapply ids_kept_set | done]. Qed.

(** ** Connecting and disconnecting *)

(** What registering [peer] under [id] with [conf] does *)
Definition admitted (peer : ref) (id : bytes) (m0 m : mgr) : Prop :=
  ids_kept m0 m ∧ ps_nodes (peerDb m) = <[id := peer]> (ps_nodes (peerDb m0)) ∧
  (∃ conf, mgr_peers m = <[id := conf]> (mgr_peers m0)) ∧ peerCount m = peerCount m0 + 1.

Lemma wp_register peer hs conf n m0 m :
  same_registered m0 m → heap m0 !! peer = Some n →
  wp (registerPeer peer hs conf) (λ err m', match err with None => admitted peer (pn_Id n) m0 m' | Some _ => same_registered m0 m' end) m.
Proof.
  intros (Hids & Hnodes & Hpeers & Hcount) Hn. destruct (Hids peer n Hn) as (n1 & Hn1 & Hid). unfold registerPeer.
  apply wp_bind, wp_gets, wp_bind, wp_gets, wp_bind, wp_lift. unfold RegisterPeerNode. rewrite Hn1. intros ? [= <-].
  apply wp_bind, wp_modify, wp_bind, wp_peer. cbn [heap set_peerDb]. intros n2 Hn2. assert (n2 = n1) as -> by congruence.
  apply wp_bind, wp_modify, wp_bind, wp_modify, wp_ret. cbn [node_Id peerNode_db]. rewrite <- Hid.
  split; [by eapply (ids_kept_set m0 (set_peerDb _ m))|]. cbn. rewrite Hnodes, Hpeers, Hcount. split; [done|]. split; [by eexists | done].
Qed.

Lemma wp_handshake status read peer n m0 m :
  same_registered m0 m → heap m0 !! peer = Some n →
  wp (handshake net status read peer) (λ err m', match err with None => admitted peer (pn_Id n) m0 m' | Some _ => same_registered m0 m' end) m.
Proof.
  intros Hm Hn. unfold handshake. apply wp_bind. eapply wp_mono; [by apply (still_Send _ (same_registered_about m0))|].
  intros [err|] m1 Hm1; [by apply wp_ret|]. destruct read as [msg|err]; [|by apply wp_ret].
  apply wp_decide; intros _; [by apply wp_ret|]. destruct (Decode _) as [hs|err]; [|by apply wp_ret].
  unfold validateAndAdd. apply wp_bind, wp_gets. apply wp_decide; intros _; [by apply wp_ret|].
  apply wp_bind, wp_lift. intros g _. apply wp_decide; intros _; [by apply wp_ret|]. apply wp_bind, wp_peer. intros n1 _.
  apply wp_bind, wp_lift. intros v _. destruct (v _); [by apply wp_ret|]. by apply wp_register.
Qed.

Lemma wp_connect peer nodeId id name read m : heap m !! peer = None →
  wp (connect net peer nodeId id name read) (λ r m',
    ids_kept m m' ∧ (∃ n, heap m' !! peer = Some n ∧ pn_Id n = id) ∧
    match r.2 with
    | None => ps_nodes (peerDb m') = <[id := peer]> (ps_nodes (peerDb m)) ∧
        (∃ conf, mgr_peers m' = <[id := conf]> (mgr_peers m)) ∧ peerCount m' = peerCount m + 1
    | Some _ => ps_nodes (peerDb m') = ps_nodes (peerDb m) ∧ mgr_peers m' = mgr_peers m ∧ peerCount m' = peerCount m
    end) m.
Proof.
  intros Hfresh. unfold connect. apply wp_bind, wp_modify. set (m0 := set_heap (<[peer := NewPeerNode nodeId id name]> (heap m)) m).
  assert (heap m0 !! peer = Some (NewPeerNode nodeId id name)) as Hn by apply lookup_insert_eq.
  assert (ids_kept m m0) as Hids.
  { intros r n Hr. exists n. split; [|done]. cbn. rewrite lookup_insert_ne; [done|]. intros ->. congruence. }
  assert (same_registered m0 m0) as Hm0 by by split.
  apply wp_bind. eapply wp_mono; [exact (still_engine _ (same_registered_about m0) en_BestBlock m0 Hm0)|].
  intros ob m1 Hm1. apply wp_bind, wp_lift. intros best _. apply wp_bind. unfold getHandshakeMsg.
  apply wp_bind, wp_gets, wp_bind, wp_lift. intros g _. apply wp_ret. apply wp_bind.
  eapply wp_mono; [by apply (wp_handshake _ _ peer (NewPeerNode nodeId id name) m0)|]. intros [err|] m2 H2; apply wp_ret; cbn [snd].
  - destruct H2 as (H1 & H2). split; [by etrans|]. split; [exact (H1 peer _ Hn) | exact H2].
  - destruct H2 as (H1 & H2). split; [by etrans|]. split; [exact (H1 peer _ Hn) | exact H2].
Qed.

(** What the deferred functions of a connection do *)
Definition ended (peer : ref) (m m' : mgr) : Prop :=
  ∃ n n', heap m !! peer = Some n ∧ heap m' !! peer = Some n' ∧ pn_Id n' = pn_Id n ∧
    ch_closed (pn_GetBlockHashesChan n') = true ∧ ch_closed (pn_GetBlocksChan n') = true ∧
    ps_nodes (peerDb m') = delete (pn_Id n) (ps_nodes (peerDb m)) ∧ mgr_peers m' = delete (pn_Id n) (mgr_peers m) ∧
    peerCount m' = peerCount m - 1.

Lemma closed_channel ch ch' : chan_close ch = Ret ch' → ch_closed ch' = true.
Proof. unfold chan_close. destruct (ch_closed ch); [done|]. by intros [= <-]. Qed.

Lemma wp_disconnected peer m : wp (disconnected peer) (λ _ m', ended peer m m' ∧ ids_kept m m') m.
Proof.
  unfold disconnected, unregisterPeer. apply wp_bind, wp_bind, wp_peer. intros n Hn. apply wp_bind, wp_modify, wp_modify.
  apply wp_bind, wp_peer. cbn [heap set_peers set_peerDb]. intros n1 Hn1. assert (n1 = n) as -> by congruence.
  apply wp_bind, wp_lift. intros c1 Hc1%closed_channel. apply wp_bind, wp_lift. intros c2 Hc2%closed_channel. apply wp_modify. split.
  - exists n, (set_pn_chans c1 c2 n). split; [done|]. cbn. by rewrite lookup_insert_eq.
  - intros r n0 Hn0. cbn. destruct (decide (peer = r)) as [<-|Hne]; [rewrite lookup_insert_eq; eexists; split; [done|]; by simplify_eq | rewrite lookup_insert_ne by done; by exists n0].
Qed.

Lemma wp_Disconnect app m : wp (Disconnect app) (λ _ m', ids_kept m m') m.
Proof. intros m' r. unfold Disconnect. destruct (PeerNodeForId _ _); intros [= <- _]; by intros r' n Hn; exists n. Qed.

(** A step of the platform keeps every node under its id. *)
Lemma plat_step_ids m m' : plat_step net m m' → ids_kept m m'.
Proof.
  assert (ids_kept m m) as Hm by reflexivity. pose proof (ids_kept_about m) as HI.
  destruct 1 as [m m' r H|m m' r H|c m m' r H|h m m' r H|m m' r H|miner m m' r H|e p s u m m' r H|app m m' r H
    |peer nodeId id name read m m' r Hf H|e read peer m m' r He H|peer m m' r H|best peer m m' r H
    |e peer m m' r He H|e timeout m m' r He H].
  - exact (still_Start _ HI m Hm m' r H).
  - exact (still_Suspend _ HI m Hm m' r H).
  - exact (still_Stop _ HI c m Hm m' r H).
  - exact (still_Status _ HI h m Hm m' r H).
  - exact (still_State _ HI m Hm m' r H).
  - exact (still_balance _ HI miner m Hm m' r H).
  - exact (still_Submit _ HI e p s u m Hm m' r H).
  - exact (wp_Disconnect app m m' r H).
  - by destruct (wp_connect peer nodeId id name read m Hf m' r H).
  - exact (still_listen _ HI e read peer m Hm m' r H).
  - by destruct (wp_disconnected peer m m' r H).
  - exact (still_syncNode _ HI best peer m Hm m' r H).
  - exact (still_syncResume _ HI e peer m Hm m' r H).
  - exact (still_produce _ HI e timeout m Hm m' r H).
Qed.

Lemma plat_steps_ids m m' : rtc (plat_step net) m m' → ids_kept m m'.
Proof. induction 1 as [m|m m1 m' H _ IH]; [reflexivity|]. etrans; [by apply plat_step_ids | done]. Qed.

(** ** Whole connections *)

(** Other goroutines take steps of the platform. *)
Definition takes_steps (f : mgr → mgr) : Prop := ∀ m, rtc (plat_step net) m (f m).
(** They neither admit peers nor drop them. *)
Definition counts_same (f : mgr → mgr) : Prop := ∀ m, peerCount (f m) = peerCount m.
Definition others_of (cn : connection mgr) : list (mgr → mgr) := map rd_others (cn_rounds cn) ++ [cn_last cn].
Definition connection_ok (cn : connection mgr) : Prop :=
  Forall takes_steps (others_of cn) ∧ Forall (λ rd, env_ok (rd_env rd)) (cn_rounds cn).

Lemma listenLoop_steps rounds peer :
  Forall takes_steps (map rd_others rounds) → Forall (λ rd, env_ok (rd_env rd)) rounds →
  ∀ m m' r, Sessions.listenLoop net rounds peer m = Ret (m', r) →
    rtc (plat_step net) m m' ∧ (Forall counts_same (map rd_others rounds) → peerCount m' = peerCount m).
Proof.
  induction rounds as [|rd rounds IH]; intros Hst Henv m m' r; cbn [Sessions.listenLoop map] in *.
  { intros [= <- _]. by split. }
  apply Forall_cons_1 in Hst as [Hst Hsts]. apply Forall_cons_1 in Henv as [He Henv].
  unfold M_bind, M_modify. cbn [outcome_bind]. rewrite outcome_bind_ret. intros ([m1 err] & Hl & Hrest).
  assert (rtc (plat_step net) m m1) as H1 by (eapply rtc_r; [apply Hst | by eapply step_listen]).
  destruct (still_listen _ (same_registered_about (rd_others rd m)) _ _ _ _ (conj (reflexivity _) (conj eq_refl (conj eq_refl eq_refl))) _ _ Hl) as (_ & _ & _ & Hc).
  destruct err as [err|].
  - injection Hrest as <- _. split; [done|]. intros [Hk _]%Forall_cons_1. by rewrite Hc, Hk.
  - destruct (IH Hsts Henv m1 m' r Hrest) as [H2 H3]. split; [by etrans|]. intros [Hk Hks]%Forall_cons_1. by rewrite (H3 Hks), Hc, Hk.
Qed.

(** C20: A connection of the platform manager, from the handshake over any number of messages to
    its deferred functions and with any steps of other goroutines in between, is a sequence of
    the steps for which the invariants are proved; when the handshake is refused nobody is
    registered, and when the connection has ended the peer is neither in the peer data base nor
    among the peers, both its channels are closed, and the peer count is the one before unless
    others have changed it. *)
Theorem peer_session_ends_clean cn peer m m' r :
  heap m !! peer = None → connection_ok cn → Sessions.Run net cn peer m = Ret (m', r) →
  rtc (plat_step net) m m' ∧
  match r with
  | Blocked => is_Some (heap m' !! peer)
  | Returned (Some _) =>
      ps_nodes (peerDb m') = ps_nodes (peerDb m) ∧ mgr_peers m' = mgr_peers m ∧ peerCount m' = peerCount m
  | Returned None => ∃ n, heap m' !! peer = Some n ∧ pn_Id n = cn_Id cn ∧
      ch_closed (pn_GetBlockHashesChan n) = true ∧ ch_closed (pn_GetBlocksChan n) = true ∧
      ps_nodes (peerDb m') !! cn_Id cn = None ∧ mgr_peers m' !! cn_Id cn = None ∧
      (Forall counts_same (others_of cn) → peerCount m' = peerCount m)
  end.
Proof.
  intros Hfresh [Hsteps Henv] Hrun. apply Forall_app in Hsteps as [Hst [Hlast _]%Forall_cons_1].
  unfold Sessions.Run, M_bind in Hrun. apply outcome_bind_ret in Hrun as ([m1 [best err]] & Hcn & Hrun).
  pose proof (step_connect net _ _ _ _ _ _ _ _ Hfresh Hcn) as Hstep. apply rtc_once in Hstep.
  destruct (wp_connect _ _ _ _ _ _ Hfresh _ _ Hcn) as (_ & (n & Hn & Hid) & Hreg). cbn [snd] in Hreg.
  destruct err as [err|]; [by injection Hrun as <- <-|].
  apply outcome_bind_ret in Hrun as ([m2 q] & Hl & Hrun). destruct (listenLoop_steps _ _ Hst Henv _ _ _ Hl) as [H2 Hc2].
  destruct (plat_steps_ids _ _ H2 peer n Hn) as (n2 & Hn2 & Hid2). destruct q as [err|]; [|injection Hrun as <- <-; split; [by etrans | by exists n2]].
  cbn [M_modify outcome_bind] in Hrun. apply outcome_bind_ret in Hrun as ([m3 u] & Hd & Hrun). injection Hrun as <- <-.
  assert (rtc (plat_step net) m m3) as H3 by (etrans; [done|]; etrans; [done|]; eapply rtc_r; [apply Hlast | by eapply step_disconnected]).
  destruct (wp_disconnected _ _ _ _ Hd) as [(n3 & n4 & Hn3 & Hn4 & Hid4 & Hc1 & Hcl2 & Hdb & Hps & Hcnt) _].
  destruct (plat_steps_ids _ _ (Hlast m2) peer n2 Hn2) as (n3' & Hn3' & Hid3). assert (n3' = n3) as -> by congruence.
  assert (pn_Id n3 = cn_Id cn) as Hi by congruence. split; [done|]. exists n4. rewrite Hdb, Hps, Hi, !lookup_delete_eq.
  split; [done|]. split; [congruence|]. do 4 (split; [done|]). intros [Hk [Hk' _]%Forall_cons_1]%Forall_app.
  destruct Hreg as (_ & _ & Hcount). rewrite Hcnt, Hk', (Hc2 Hk), Hcount. lia.
Qed.
End frames.

(** ** Connections of the pager and of the counter *)

Section others.
Context {rlh : Rlp Proto.HandshakeMsg} {rlt : Rlp BroadcastTextMsg}.
Context (net : list (ref * Msg) → ref → Msg → option error) (pick : picker item) (order : nodeOrder).

(** A connection of the pager is a sequence of its steps. *)
Theorem pager_session_is_steps cn peer m m' r :
  Proto.heap (base m) !! peer = None →
  Forall (λ f, ∀ m, rtc (pager_step net pick order) m (f m)) (map rd_others (cn_rounds cn) ++ [cn_last cn]) →
  Sessions.pager_Run net pick order cn peer m = Ret (m', r) → rtc (pager_step net pick order) m m'.
Proof.
  intros Hf [Hst [Hlast _]%Forall_cons_1]%Forall_app. unfold Sessions.pager_Run. rewrite outcome_bind_ret. intros ([m1 err] & Hcn & Hrun).
  pose proof (PagerTheorems.step_connect net pick order _ _ _ _ _ _ _ Hf Hcn) as H1. apply rtc_once in H1.
  destruct err as [err|]; [by injection Hrun as <- _|]. apply outcome_bind_ret in Hrun as ([m2 q] & Hl & Hrun). etrans; [exact H1|].
  assert (rtc (pager_step net pick order) m1 m2) as H2.
  { clear - Hst Hl. revert m1 Hst Hl. induction (cn_rounds cn) as [|rd rounds IH]; intros m1 Hst Hl; cbn [Sessions.pager_listenLoop map] in *; [by injection Hl as <- _|].
    apply Forall_cons_1 in Hst as [Ho Hst]. apply outcome_bind_ret in Hl as ([m3 err] & Hone & Hl).
    assert (rtc (pager_step net pick order) m1 m3) as H3 by (eapply rtc_r; [apply Ho | by eapply PagerTheorems.step_listen]).
    destruct err as [err|]; [by injection Hl as <- _|]. etrans; [exact H3 | by apply IH]. }
  etrans; [exact H2|]. destruct q as [err|]; [|by injection Hrun as <- _]. apply outcome_bind_ret in Hrun as (m3 & Hd & [= <- _]).
  eapply rtc_r; [apply Hlast | by eapply PagerTheorems.step_disconnected].
Qed.
End others.

Section counter.
Context {C D W : Type} {wso : WorldState W D} {eng : Engine C D W} {sha : Sha512}.
Context {rls : Rlp BlockSpec} {rlss : Rlp (list BlockSpec)} {rlh : Rlp Byte64} {rlhs : Rlp (list Byte64)}.
Context {rlhm : Rlp Proto.HandshakeMsg} {rlrq : Rlp Counter.GetBlockHashesRequestMsg}.
Context (net : list (ref * Msg) → ref → Msg → option error) (pick : picker item) (order : nodeOrder).
Abbreviation step := (counter_step (W:=W) net pick order).

(** A connection of the counter is a sequence of its steps. *)
Theorem counter_session_is_steps cn peer (m m' : Counter.CountrProtocolManager C) r :
  Proto.heap (Counter.base m) !! peer = None →
  Forall (λ f, ∀ m, rtc step m (f m)) (map rd_others (cn_rounds cn) ++ [cn_last cn]) →
  Sessions.counter_Run net pick order cn peer m = Ret (m', r) → rtc step m m'.
Proof.
  intros Hf [Hst [Hlast _]%Forall_cons_1]%Forall_app. unfold Sessions.counter_Run, Counter.K_bind. rewrite outcome_bind_ret.
  intros ([m1 [best err]] & Hcn & Hrun). pose proof (cs_connect net pick order _ _ _ _ _ _ _ Hf Hcn) as H1. apply rtc_once in H1.
  destruct err as [err|]; [by injection Hrun as <- _|]. apply outcome_bind_ret in Hrun as ([m2 q] & Hl & Hrun). etrans; [exact H1|].
  assert (rtc step m1 m2) as H2.
  { clear - Hst Hl. revert m1 Hst Hl. induction (cn_rounds cn) as [|rd rounds IH]; intros m1 Hst Hl; cbn [Sessions.counter_listenLoop map] in *; [by injection Hl as <- _|].
    apply Forall_cons_1 in Hst as [Ho Hst]. unfold Counter.K_bind, Counter.K_modify in Hl. cbn [outcome_bind] in Hl. apply outcome_bind_ret in Hl as ([m3 err] & Hone & Hl).
    assert (rtc step m1 m3) as H3 by (eapply rtc_r; [apply Ho | by eapply cs_listen]).
    destruct err as [err|]; [by injection Hl as <- _|]. etrans; [exact H3 | by apply IH]. }
  etrans; [exact H2|]. destruct q as [err|]; [|by injection Hrun as <- _]. cbn [Counter.K_modify outcome_bind] in Hrun.
  apply outcome_bind_ret in Hrun as ([m3 []] & Hd & [= <- _]). eapply rtc_r; [apply Hlast | by eapply cs_disconnected].
Qed.
End counter.

(** ** A connection, run *)

Section witnesses.
#[local] Existing Instances w_hash w_codec w_laws w_ops w_spec_codec w_cn_codec w_ops_codec w_sig_codec.
#[local] Existing Instances w_rlp_spec w_rlp_specs w_rlp_hash w_rlp_hashes w_rlp_handshake w_rlp_request w_engine.
Abbreviation wdb := (gmap bytes bytes).
Abbreviation wc := (BlockChainConsensus MptWorldState * wdb)%type.
Abbreviation wmgr := (platformManager (H:=sample_ecdsa) wc MptWorldState).

(** Between the messages the application submits a transaction; the peer
    announces a block and goes away. *)
Definition s_others : wmgr → wmgr := after (Submit w_env [x31] [] [x32]).
Definition s_connection : connection wmgr :=
  MkConnection _ (w_self x05) (bytesToHexString (w_self x05)) [x70] (w_hello w_a0)
    [MkRound _ s_others w_env (Ok w_announced); MkRound _ s_others w_env (Err (StdError "EOF"))] s_others.

Lemma s_takes_steps : takes_steps w_net s_others.
Proof.
  intros m. unfold s_others, after. destruct (Submit w_env [x31] [] [x32] m) as [[m' r]| |] eqn:Hs; [|apply rtc_refl..].
  eapply rtc_once, step_submit. exact Hs.
Qed.
Lemma s_counts_same : counts_same s_others.
Proof. intros m. unfold s_others, after, Submit. by case_decide. Qed.
Lemma s_connection_ok : connection_ok w_net s_connection.
Proof.
  split; [apply Forall_cons_2; [apply s_takes_steps|]; apply Forall_cons_2; [apply s_takes_steps|]; apply Forall_cons_2; [apply s_takes_steps|]; apply Forall_nil_2|].
  apply Forall_cons_2; [exact w_env_ok|]. apply Forall_cons_2; [exact w_env_ok|]. apply Forall_nil_2.
Qed.
Lemma s_counts : Forall counts_same (others_of s_connection).
Proof. apply Forall_cons_2; [apply s_counts_same|]. apply Forall_cons_2; [apply s_counts_same|]. apply Forall_cons_2; [apply s_counts_same|]. apply Forall_nil_2. Qed.

Definition s_run : outcome (wmgr * call (option error)) := Sessions.Run w_net s_connection 3%positive w_b0.
Definition s_after (o : outcome (wmgr * call (option error))) : wmgr := match o with Ret (m, _) => m | _ => w_none end.
Definition s_clean (o : outcome (wmgr * call (option error))) : bool := match o with Ret (_, Returned None) => true | _ => false end.
Lemma s_run_eq o : s_clean o = true → o = Ret (s_after o, Returned None).
Proof. by destruct o as [[m [[e|]|]]| |]. Qed.
Lemma s_run_clean : s_clean s_run = true.
Proof. vm_compute. reflexivity. Qed.
Lemma s_fresh : bool_decide (heap w_b0 !! 3%positive = None) = true.
Proof. vm_compute. reflexivity. Qed.
(** The block of the peer was accepted. *)
Example s_tip : bool_decide (Numeric (c_tip (engine (s_after s_run)).1) = Numeric (c_tip (engine w_a5).1)) = true.
Proof. vm_compute. reflexivity. Qed.

Lemma peer_session_ends_clean_witness :
  rtc (plat_step w_net) w_b0 (s_after s_run) ∧
  ps_nodes (peerDb (s_after s_run)) !! bytesToHexString (w_self x05) = None ∧ peerCount (s_after s_run) = peerCount w_b0.
Proof.
  destruct (peer_session_ends_clean w_net s_connection 3%positive w_b0 (s_after s_run) (Returned None)
    (bool_decide_eq_true_1 _ s_fresh) s_connection_ok (s_run_eq s_run s_run_clean)) as [Hsteps (n & _ & _ & _ & _ & Hnodes & _ & Hcount)].
  split; [exact Hsteps|]. split; [exact Hnodes | exact (Hcount s_counts)].
Defined.
End witnesses.
