(* ===== verification/LevelDb.v ===== *)
(** * The LevelDB store ([src/db/databaseLevelDB.go])

    The wrapper that a node uses as its database.  The library goleveldb is
    the class [LevelDB]; [LevelDBLaws] is what it documents of handles: opening
    or recovering a database gives a handle of its own on it, failing to leaves
    the handles alone, and closing releases a handle even when it reports an
    error.  Reads and writes only delegate to the library and may fail as it
    does; nothing is assumed of them here. *)

From Stdlib Require Import Strings.Byte.
From S2P Require Import Prelude Bytes Db.

(** [opt.Options] of goleveldb, as far as the wrapper sets them *)
Record Options := MkOptions {
  OpenFilesCacheCapacity : Z;
  BlockCacheCapacity : Z;
  WriteBuffer : Z;
  BloomFilterBits : Z;
}.

(** goleveldb: [L] is what it keeps on disk and in memory, [H] are the
    handles ([*leveldb.DB]). *)
Class LevelDB (L H : Type) := {
  OpenFile : bytes → Options → L → L * result H;
  RecoverFile : bytes → L → L * result H;
  (** whether an error is an [*errors.ErrCorrupted] *)
  isCorrupted : error → bool;
  ldb_Put : H → bytes → bytes → L → L * option error;
  ldb_Get : H → bytes → L → result bytes;
  ldb_Has : H → bytes → L → bool * option error;
  ldb_Delete : H → bytes → L → L * option error;
  ldb_Close : H → L → L * option error;
}.

(** [type DatabaseLevelDB struct] *)
Record DatabaseLevelDB {H : Type} := MkLevelDB {
  fn : bytes;
  ldb : H;
}.
Arguments DatabaseLevelDB : clear implicits.

Section wrapper.
Context {L H : Type} {lib : LevelDB L H}.
Implicit Types (db : DatabaseLevelDB H) (s : L).

(** [func NewDatabaseLevelDB(file string, cache int, handles int) ( *DatabaseLevelDB, error)];
    [/] on [int]s rounds towards zero. *)
Definition NewDatabaseLevelDB (file : bytes) (cache handles : Z) s : L * result (DatabaseLevelDB H) :=
  let cache := if decide (cache < 16) then 16 else cache in
  let handles := if decide (handles < 16) then 16 else handles in
  let '(s, r) := OpenFile file (MkOptions handles (cache `quot` 2) (cache `quot` 4) 10) s in
  let '(s, r) :=
    match r with
    | Err e => if isCorrupted e then RecoverFile file s else (s, r)
    | Ok _ => (s, r)
    end in
  match r with
  | Err e => (s, Err e)
  | Ok h => (s, Ok (MkLevelDB H file h))
  end.

Definition leveldb_Put db (key value : bytes) s : L * option error := ldb_Put (ldb db) key value s.
Definition leveldb_Get db (key : bytes) s : result bytes := ldb_Get (ldb db) key s.
Definition leveldb_Has db (key : bytes) s : bool * option error := ldb_Has (ldb db) key s.
Definition leveldb_Delete db (key : bytes) s : L * option error := ldb_Delete (ldb db) key s.
Definition leveldb_Close db s : L * option error := ldb_Close (ldb db) s.

(** The wrapper as a [db.Database] *)
Definition leveldb_database db : Database L := {|
  Put := leveldb_Put db;
  Get := leveldb_Get db;
  Has := leveldb_Has db;
  Delete := leveldb_Delete db;
  Close := leveldb_Close db;
|}.
End wrapper.

(** ** What the library promises *)

Class LevelDBLaws (L H : Type) `{LevelDB L H} := {
  (** the file that a handle is open on *)
  ldb_file : H → L → option bytes;
  open_ok f o s s' h : OpenFile f o s = (s', Ok h) →
    ldb_file h s = None ∧ ldb_file h s' = Some f ∧ ∀ h', h' ≠ h → ldb_file h' s' = ldb_file h' s;
  open_err f o s s' e : OpenFile f o s = (s', Err e) → ∀ h, ldb_file h s' = ldb_file h s;
  recover_ok f s s' h : RecoverFile f s = (s', Ok h) →
    ldb_file h s = None ∧ ldb_file h s' = Some f ∧ ∀ h', h' ≠ h → ldb_file h' s' = ldb_file h' s;
  recover_err f s s' e : RecoverFile f s = (s', Err e) → ∀ h, ldb_file h s' = ldb_file h s;
  (** the call may report an error; the handle is released in any case *)
  close_ok h f s : ldb_file h s = Some f →
    ldb_file h (ldb_Close h s).1 = None ∧ ∀ h', h' ≠ h → ldb_file h' (ldb_Close h s).1 = ldb_file h' s;
}.

(** ** Opening *)

Section laws.
Context {L H : Type} {lib : LevelDB L H} {laws : LevelDBLaws L H}.

(** Opening gives a handle of its own on the file. *)
Lemma NewDatabaseLevelDB_ok file cache handles (s s' : L) db :
  NewDatabaseLevelDB file cache handles s = (s', Ok db) →
  fn db = file ∧ ldb_file (ldb db) s = None ∧ ldb_file (ldb db) s' = Some file ∧
  ∀ h, h ≠ ldb db → ldb_file h s' = ldb_file h s.
Proof.
  unfold NewDatabaseLevelDB. destruct (OpenFile _ _ s) as [s1 [h|e]] eqn:Ho.
  - intros [= <- <-]. destruct (open_ok _ _ _ _ _ Ho) as (H1 & H2 & H3). by split_and!.
  - destruct (isCorrupted e); [|done]. destruct (RecoverFile file s1) as [s2 [h|e2]] eqn:Hr; [|done].
    intros [= <- <-]. pose proof (open_err _ _ _ _ _ Ho) as He. destruct (recover_ok _ _ _ _ Hr) as (H1 & H2 & H3).
    split_and!; [done | by rewrite <- He | done|]. intros h' Hne. by rewrite H3, He.
Qed.

Lemma NewDatabaseLevelDB_err file cache handles (s s' : L) e :
  NewDatabaseLevelDB file cache handles s = (s', Err e) → ∀ h, ldb_file h s' = ldb_file h s.
Proof.
  unfold NewDatabaseLevelDB. destruct (OpenFile _ _ s) as [s1 [h|e1]] eqn:Ho; [done|].
  pose proof (open_err _ _ _ _ _ Ho) as He. destruct (isCorrupted e1); [|intros [= <- _]; done].
  destruct (RecoverFile file s1) as [s2 [h|e2]] eqn:Hr; [done|].
  intros [= <- _] h. by rewrite (recover_err _ _ _ _ Hr), He.
Qed.
End laws.
