(* ===== verification/Config.v ===== *)
(** * Configuration ([src/config/config.go], [src/config/errors.go])

    Definitions only: how a node reads its configuration file and its key
    file, opens its database, and makes and keeps a key when it has none.
    The package variable [c], the files and the database library are the state
    [process].  JSON, the parser of node addresses and the key generator are
    parameters; a key is its three numbers. *)

From Stdlib Require Import Strings.Byte.
From S2P Require Import Prelude Bytes Db LevelDb.

(** ** Errors ([errors.go]) *)

Definition ERR_INVALID_FILE : Z := 0x01.
Definition ERR_NULL_CONFIG : Z := 0x02.
Definition ERR_INVALID_CONFIG : Z := 0x03.
Definition ERR_INVALID_BOOTNODE : Z := 0x04.
Definition ERR_INVALID_SECRET_FILE : Z := 0x05.
Definition ERR_MARSHAL_FAILURE : Z := 0x06.
Definition ERR_INVALID_SECRET_DATA : Z := 0x07.
Definition ERR_MISSING_PARAM : Z := 0x08.
Definition ERR_NOT_INITIALIZED : Z := 0x09.
Definition ERR_DB_FAILURE : Z := 0x0a.

(** [type ConfigError struct] *)
Record ConfigError := MkConfigError {
  ce_msg : string;
  ce_code : Z;
}.
Definition ce_Error (err : ConfigError) : string := ce_msg err.
Definition ce_Code (err : ConfigError) : Z := ce_code err.
Definition NewConfigError (code : Z) (msg : string) : ConfigError := MkConfigError msg code.

(** ** Files ([os]) *)

(** What the files hold, the paths that cannot be opened or created, and those
    on which a write stops after some bytes with an error *)
Record files := MkFiles {
  f_data : gmap bytes bytes;
  f_openErr : bytes → option error;
  f_createErr : bytes → option error;
  f_writeErr : bytes → option (nat * error);
}.

(** [os.Open(path)]: the bytes that can be read *)
Definition os_Open (path : bytes) (fs : files) : result bytes :=
  match f_openErr fs path with
  | Some e => Err e
  | None => match f_data fs !! path with Some data => Ok data | None => Err (StdError "no such file or directory") end
  end.

(** [file.Read(data)] with room for [n] bytes, on a file that was just opened *)
Definition file_Read (n : nat) (file : bytes) : result bytes :=
  match file with [] => Err (StdError "EOF") | _ => Ok (take n file) end.

(** The files with other data *)
Definition set_data (data : gmap bytes bytes) (fs : files) : files :=
  MkFiles data (f_openErr fs) (f_createErr fs) (f_writeErr fs).

(** [os.Create(path)], which empties the file *)
Definition os_Create (path : bytes) (fs : files) : result files :=
  match f_createErr fs path with
  | Some e => Err e
  | None => Ok (set_data (<[path := []]> (f_data fs)) fs)
  end.

(** [file.Write(data)] on the file that [os.Create(path)] made: the number of
    bytes written, and the error when these are not all *)
Definition file_Write (path data : bytes) (fs : files) : files * (nat * option error) :=
  match f_writeErr fs path with
  | Some (n, e) => (set_data (<[path := take n data]> (f_data fs)) fs, (Nat.min n (length data), Some e))
  | None => (set_data (<[path := data]> (f_data fs)) fs, (length data, None))
  end.

(** ** Keys *)

(** [big.Int]'s [Bytes] and [SetBytes] *)
Fixpoint bigBytesLoop (fuel : nat) (z : Z) (acc : bytes) : bytes :=
  match fuel with
  | O => acc
  | S fuel => if decide (z = 0) then acc else bigBytesLoop fuel (z `div` 256) (byte_of (z `mod` 256) :: acc)
  end.
Definition big_Bytes (z : Z) : bytes := bigBytesLoop (S (Z.to_nat (Z.log2 (Z.abs z)))) (Z.abs z) [].
Definition big_SetBytes (bs : bytes) : Z := be_combine 0 bs.

(** [ecdsa.PrivateKey] on the curve S256 *)
Record ecKey := MkKey {
  key_X : Z;
  key_Y : Z;
  key_D : Z;
}.

(** [type keyPair struct] *)
Record keyPair := MkKeyPair {
  kp_Curve : bytes;
  kp_X : bytes;
  kp_Y : bytes;
  kp_D : bytes;
}.

(** The [keyPair] that is stored for a key *)
Definition keyPairOf (k : ecKey) : keyPair :=
  MkKeyPair (str_bytes "S256") (big_Bytes (key_X k)) (big_Bytes (key_Y k)) (big_Bytes (key_D k)).

(** [type configParams struct]: pointers and the slice may be [nil]. *)
Record configParams := MkParams {
  p_Bootnodes : option (list (option bytes));
  p_NodeName : option bytes;
  p_NetworkId : option bytes;
  p_DataDir : option bytes;
  p_KeyFile : option bytes;
}.

(** [encoding/json] *)
Class Json (A : Type) := {
  Marshal : A → result bytes;
  Unmarshal : bytes → result A;
}.
Class JsonLaws (A : Type) `{Json A} := {
  unmarshal_marshal (x : A) data : Marshal x = Ok data → Unmarshal data = Ok x;
}.

(** ** The configuration *)

Section config.
Context {L H : Type} {lib : LevelDB L H}.
Context {jp : Json configParams} {jk : Json keyPair}.
(** [discover.Node] and its parser, and the encoding of a public key *)
Context {Node : Type} (ParseNode : bytes → result Node) (Node_String : Node → bytes).
Context (FromPub : Z → Z → bytes).

(** [type config struct]; what [InitializeConfig] checks to be present is not
    a pointer here. *)
Record config := MkConf {
  bootnodes : list Node;
  nodeName : bytes;
  networkId : bytes;
  db : DatabaseLevelDB H;
  key : ecKey;
  port : option bytes;
  natEnabled : option bool;
  id : bytes;
}.

(** The state of the process: the package variable [c], the files and the
    database library *)
Record process := MkProcess {
  ps_c : option config;
  ps_files : files;
  ps_ldb : L;
}.

(** [func Config() ( *config, error)] *)
Definition Config (p : process) : ConfigError + config :=
  match ps_c p with
  | None => inl (NewConfigError ERR_NOT_INITIALIZED "service config not initialized")
  | Some c => inr c
  end.

(** [func (c *config) BootnodeStrings() []string] *)
Definition BootnodeStrings (c : config) : list bytes := map Node_String (bootnodes c).

(** The loop over the boot nodes; a [nil] string panics. *)
Fixpoint parseBootnodes (bs : list (option bytes)) (acc : list Node) : outcome (ConfigError + list Node) :=
  match bs with
  | [] => Ret (inr acc)
  | b :: bs =>
      let! b := deref b in
      match ParseNode b with
      | Ok enode => parseBootnodes bs (acc ++ [enode])
      | Err err => Ret (inl (NewConfigError ERR_INVALID_BOOTNODE (Error_string err)))
      end
  end.

(** Sourcing the key from the data of the key file *)
Definition readKey (file : bytes) : ConfigError + ecKey :=
  match file_Read 1024 file with
  | Err err => inl (NewConfigError ERR_INVALID_SECRET_FILE (Error_string err))
  | Ok data =>
      match Unmarshal (A:=keyPair) data with
      | Err err => inl (NewConfigError ERR_INVALID_SECRET_DATA (Error_string err))
      | Ok kp => inr (MkKey (big_SetBytes (kp_X kp)) (big_SetBytes (kp_Y kp)) (big_SetBytes (kp_D kp)))
      end
  end.

(** Generating a key and writing it to the key file; [gen] is what
    [crypto.GenerateKey] gives, [nil] on its error, which is ignored, as is
    what [file.Write] returns. *)
Definition makeKey (gen : option ecKey) (path : bytes) (fs : files) : outcome (files * (ConfigError + ecKey)) :=
  let! nodekey := deref gen in
  match Marshal (keyPairOf nodekey) with
  | Err err => Ret (fs, inl (NewConfigError ERR_MARSHAL_FAILURE (Error_string err)))
  | Ok data =>
      match os_Create path fs with
      | Err err => Ret (fs, inl (NewConfigError ERR_INVALID_SECRET_FILE (Error_string err)))
      | Ok fs => Ret ((file_Write path data fs).1, inr nodekey)
      end
  end.

(** The part of [InitializeConfig] that runs with the database open: the
    files and the configuration, or the error *)
Definition configure (gen : option ecKey) (params : configParams) (leveldb : DatabaseLevelDB H)
    (port : option bytes) (natEnabled : option bool) (fs : files) : outcome (files * (ConfigError + config)) :=
  match p_NetworkId params with
  | None => Ret (fs, inl (NewConfigError ERR_MISSING_PARAM "network ID not specified"))
  | Some networkId =>
      match p_NodeName params with
      | None => Ret (fs, inl (NewConfigError ERR_MISSING_PARAM "node name not specified"))
      | Some nodeName =>
          let! nodes := match p_Bootnodes params with
                        | None => Ret (inr [])
                        | Some bs => parseBootnodes bs []
                        end in
          match nodes with
          | inl err => Ret (fs, inl err)
          | inr nodes =>
              match p_KeyFile params with
              | None => Ret (fs, inl (NewConfigError ERR_MISSING_PARAM "key filename not specified"))
              | Some path =>
                  let! (fs, k) := match os_Open path fs with
                                  | Ok file => Ret (fs, readKey file)
                                  | Err _ => makeKey gen path fs
                                  end in
                  match k with
                  | inl err => Ret (fs, inl err)
                  | inr k =>
                      Ret (fs, inr (MkConf nodes nodeName networkId leveldb k port natEnabled (FromPub (key_X k) (key_Y k))))
                  end
              end
          end
      end
  end.

(** [func InitializeConfig(configFile *string, port *string, natEnabled *bool) error];
    the deferred function closes the database unless the configuration is set. *)
Definition InitializeConfig (gen : option ecKey) (configFile port : option bytes) (natEnabled : option bool)
    (p : process) : outcome (process * option ConfigError) :=
  match ps_c p with
  | Some _ => Ret (p, None)
  | None =>
      match configFile with
      | None | Some [] => Ret (p, Some (NewConfigError ERR_MISSING_PARAM "config file not specified"))
      | Some path =>
          match os_Open path (ps_files p) with
          | Err err => Ret (p, Some (NewConfigError ERR_INVALID_FILE (Error_string err)))
          | Ok file =>
              match file_Read 1024 file with
              | Err err => Ret (p, Some (NewConfigError ERR_NULL_CONFIG (Error_string err)))
              | Ok data =>
                  match Unmarshal (A:=configParams) data with
                  | Err err => Ret (p, Some (NewConfigError ERR_INVALID_CONFIG (Error_string err)))
                  | Ok params =>
                      match p_DataDir params with
                      | None => Ret (p, Some (NewConfigError ERR_MISSING_PARAM "data directory not specified"))
                      | Some dir =>
                          let '(s, r) := NewDatabaseLevelDB dir 0 0 (ps_ldb p) in
                          match r with
                          | Err err => Ret (MkProcess None (ps_files p) s, Some (NewConfigError ERR_DB_FAILURE (Error_string err)))
                          | Ok leveldb =>
                              let! (fs, c) := configure gen params leveldb port natEnabled (ps_files p) in
                              match c with
                              | inl err => Ret (MkProcess None fs (leveldb_Close leveldb s).1, Some err)
                              | inr c => Ret (MkProcess (Some c) fs s, None)
                              end
                          end
                      end
                  end
              end
          end
      end
  end.
End config.
Arguments config : clear implicits.
Arguments process : clear implicits.
