(* ===== verification/ConfigTheorems.v ===== *)
(** * Theorems about configuration and the LevelDB store

    What [InitializeConfig] leaves behind, and that a node keeps its identity
    over restarts; with witnesses. *)

From Stdlib Require Import Strings.Byte.
From S2P Require Import Prelude Bytes Db Concrete LevelDb Config.

(** ** Numbers *)

Lemma bigBytesLoop_combine fuel : ∀ z acc,
  0 ≤ z < 2 ^ Z.of_nat fuel → be_combine 0 (bigBytesLoop fuel z acc) = be_combine z acc.
Proof.
  induction fuel as [|fuel IH]; intros z acc Hz; cbn [bigBytesLoop].
  - by assert (z = 0) as -> by (simpl in Hz; lia).
  - case_decide as Hzero; [by subst|]. rewrite Nat2Z.inj_succ, Z.pow_succ_r in Hz by lia.
    assert (0 < 2 ^ Z.of_nat fuel) by (apply Z.pow_pos_nonneg; lia).
    rewrite IH by (split; [apply Z.div_pos; lia | apply Z.div_lt_upper_bound; lia]).
    rewrite be_combine_cons, byte_val_of, Z.mod_mod by done. f_equal. pose proof (Z.div_mod z 256 ltac:(done)). lia.
Qed.

(** A number is read back from its bytes. *)
Lemma big_round_trip z : 0 ≤ z → big_SetBytes (big_Bytes z) = z.
Proof.
  intros Hz. unfold big_SetBytes, big_Bytes. rewrite Z.abs_eq by done.
  rewrite bigBytesLoop_combine; [done|]. split; [done|].
  destruct (decide (z = 0)) as [->|]; [done|].
  pose proof (Z.log2_spec z ltac:(lia)) as [_ Hlt]. pose proof (Z.log2_nonneg z).
  by rewrite Nat2Z.inj_succ, Z2Nat.id by done.
Qed.

(** ** Configuration *)

Section config.
Context {L H : Type} `{EqDecision H} {lib : LevelDB L H} {laws : LevelDBLaws L H}.
Context {jp : Json configParams} {jk : Json keyPair} {jkl : JsonLaws keyPair}.
Context {Node : Type} (ParseNode : bytes → result Node) (FromPub : Z → Z → bytes).
Abbreviation configure := (configure (H:=H) ParseNode FromPub).
Abbreviation InitializeConfig := (InitializeConfig (L:=L) (H:=H) ParseNode FromPub).
Implicit Types (p : process L H Node).

Lemma configure_fields gen params leveldb pt nat fs fs' c :
  configure gen params leveldb pt nat fs = Ret (fs', inr c) →
  db c = leveldb ∧ port c = pt ∧ natEnabled c = nat ∧ id c = FromPub (key_X (key c)) (key_Y (key c)).
Proof.
  unfold Config.configure. destruct (p_NetworkId params); [|done]. destruct (p_NodeName params); [|done].
  rewrite outcome_bind_ret. intros ([err|nodes] & _ & Hr); [done|]. destruct (p_KeyFile params); [|done].
  apply outcome_bind_ret in Hr as ([fs1 [err|k]] & _ & Hr); [done|]. by injection Hr as _ <-.
Qed.

(** What a call of [InitializeConfig] leaves *)
Lemma InitializeConfig_spec gen file pt nat p p' r :
  InitializeConfig gen file pt nat p = Ret (p', r) →
  match r, ps_c p with
  | None, Some _ => p' = p
  | Some _, Some _ => False
  | Some _, None => ps_c p' = None ∧ ∀ h, ldb_file h (ps_ldb p') = ldb_file h (ps_ldb p)
  | None, None => ∃ c, ps_c p' = Some c ∧ ldb_file (ldb (db c)) (ps_ldb p) = None ∧
      ldb_file (ldb (db c)) (ps_ldb p') = Some (fn (db c)) ∧
      (∀ h, h ≠ ldb (db c) → ldb_file h (ps_ldb p') = ldb_file h (ps_ldb p)) ∧
      port c = pt ∧ natEnabled c = nat ∧ id c = FromPub (key_X (key c)) (key_Y (key c))
  end.
Proof.
  unfold Config.InitializeConfig. destruct (ps_c p) as [c|] eqn:Hc; [by intros [= <- <-]|].
  destruct file as [[|b path]|]; try (by intros [= <- <-]).
  destruct (os_Open _ _) as [data|e]; [|by intros [= <- <-]].
  destruct (file_Read 1024 data) as [data'|e]; [|by intros [= <- <-]].
  destruct (Unmarshal data') as [params|e]; [|by intros [= <- <-]].
  destruct (p_DataDir params) as [dir|]; [|by intros [= <- <-]].
  destruct (NewDatabaseLevelDB dir 0 0 (ps_ldb p)) as [s [leveldb|e]] eqn:Hdb.
  2: { intros [= <- <-]. split; [done|]. by apply (NewDatabaseLevelDB_err _ _ _ _ _ _ Hdb). }
  destruct (NewDatabaseLevelDB_ok _ _ _ _ _ _ Hdb) as (Hfn & Hnone & Hopen & Hother).
  rewrite outcome_bind_ret. intros ([fs [err|c]] & Hcf & Hr); injection Hr as <- <-; simpl.
  - split; [done|]. intros h. unfold leveldb_Close. destruct (close_ok _ _ _ Hopen) as [Hclosed Hrest].
    destruct (decide (h = ldb leveldb)) as [->|Hne]; [by rewrite Hclosed | by rewrite Hrest, Hother].
  - exists c. destruct (configure_fields _ _ _ _ _ _ _ _ Hcf) as (-> & -> & -> & ->).
    split_and!; [done | done | by rewrite Hfn | done..].
Qed.

(** C31: A call of InitializeConfig on a process without configuration either succeeds, with the
    configuration set, its database newly opened, and port, NAT flag and node id those of the
    arguments and the key, or it fails with the configuration unset and every database handle as
    it was before the call; a repeated call changes nothing. *)
Theorem config_all_or_nothing gen file pt nat p p' r :
  InitializeConfig gen file pt nat p = Ret (p', r) →
  match r, ps_c p with
  | None, Some _ => p' = p
  | Some _, Some _ => False
  | Some _, None => ps_c p' = None ∧ ∀ h, ldb_file h (ps_ldb p') = ldb_file h (ps_ldb p)
  | None, None => ∃ c, ps_c p' = Some c ∧ ldb_file (ldb (db c)) (ps_ldb p) = None ∧
      ldb_file (ldb (db c)) (ps_ldb p') = Some (fn (db c)) ∧
      (∀ h, h ≠ ldb (db c) → ldb_file h (ps_ldb p') = ldb_file h (ps_ldb p)) ∧
      port c = pt ∧ natEnabled c = nat ∧ id c = FromPub (key_X (key c)) (key_Y (key c))
  end.
Proof. apply InitializeConfig_spec. Qed.

(** The generated key can be written to a file and read back. *)
Definition storable (k : ecKey) : Prop :=
  0 ≤ key_X k ∧ 0 ≤ key_Y k ∧ 0 ≤ key_D k ∧
  ∀ data, Marshal (keyPairOf k) = Ok data → (0 < length data ≤ 1024)%nat.

Lemma readKey_made k data : storable k → Marshal (keyPairOf k) = Ok data → readKey data = inr k.
Proof.
  intros (HX & HY & HD & Hlen) Hm. destruct (Hlen data Hm) as [Hpos Hmax]. unfold readKey, file_Read.
  destruct data as [|b data]; [simpl in Hpos; lia|]. rewrite take_ge by done.
  rewrite (unmarshal_marshal _ _ Hm). cbn [kp_X kp_Y kp_D keyPairOf]. rewrite !big_round_trip by done. by destruct k.
Qed.

(** The files once the key is there: nothing is lost, and the key file holds
    the key. *)
Lemma key_kept gen path fs fs' k :
  (∀ path, f_openErr fs path = None) → (∀ path, f_writeErr fs path = None) → (∀ k, gen = Some k → storable k) →
  match os_Open path fs with Ok file => Ret (fs, readKey file) | Err _ => makeKey gen path fs end = Ret (fs', inr k) →
  (∃ file, os_Open path fs' = Ok file ∧ readKey file = inr k) ∧
  ∀ path' data, os_Open path' fs = Ok data → os_Open path' fs' = Ok data.
Proof.
  intros Hopen Hwrite Hgen. destruct (os_Open path fs) as [file|e] eqn:Ho.
  { intros [= <- Hk]. split; [by exists file | done]. }
  unfold makeKey. rewrite outcome_bind_ret. intros (k' & Hk' & Hr).
  destruct gen as [k0|]; [|done]. injection Hk' as ->. pose proof (Hgen k' eq_refl) as Hst.
  destruct (Marshal (keyPairOf k')) as [data|] eqn:Hm; [|done].
  unfold os_Create in Hr. destruct (f_createErr fs path); [done|]. injection Hr as <- <-.
  unfold os_Open in *. unfold file_Write. cbn [f_writeErr set_data]. rewrite Hwrite. cbn [fst f_openErr f_data set_data].
  split.
  - rewrite Hopen, lookup_insert_eq. exists data. split; [done | by apply readKey_made].
  - intros path' data' Hd. rewrite Hopen in Hd, Ho |- *.
    destruct (decide (path' = path)) as [->|Hne]; [by destruct (f_data fs !! path)|].
    by rewrite !lookup_insert_ne.
Qed.

Lemma configure_again gen gen' params leveldb leveldb' pt pt' nat nat' fs fs' c :
  (∀ path, f_openErr fs path = None) → (∀ path, f_writeErr fs path = None) → (∀ k, gen = Some k → storable k) →
  configure gen params leveldb pt nat fs = Ret (fs', inr c) →
  (∀ path data, os_Open path fs = Ok data → os_Open path fs' = Ok data) ∧
  configure gen' params leveldb' pt' nat' fs' =
    Ret (fs', inr (MkConf (bootnodes c) (nodeName c) (networkId c) leveldb' (key c) pt' nat' (id c))).
Proof.
  intros Hopen Hwrite Hgen. unfold Config.configure. destruct (p_NetworkId params); [|done]. destruct (p_NodeName params); [|done].
  rewrite outcome_bind_ret. intros ([err|nodes] & Hn & Hr); [done|]. rewrite Hn. cbn [outcome_bind].
  destruct (p_KeyFile params) as [path|]; [|done].
  apply outcome_bind_ret in Hr as ([fs1 [err|k]] & Hk & Hr); [done|]. injection Hr as <- <-.
  destruct (key_kept gen path fs fs1 k Hopen Hwrite Hgen Hk) as [(file & Ho & Hrk) Hkeep].
  split; [done|]. rewrite Ho, Hrk. done.
Qed.

(** C30: A node keeps its identity over restarts, as long as no file fails to open or to be
    written in full, a generated key is storable (numbers that are not negative, an encoding of
    1 to 1024 bytes) and the database opens again: when InitializeConfig has succeeded, a new
    process on the same files gets the same key, node id, names and boot nodes, whatever key it
    could have generated. *)
Theorem identity_survives_restart gen gen' file pt pt' nat nat' p p1 c s s' leveldb :
  (∀ path, f_openErr (ps_files p) path = None) → (∀ path, f_writeErr (ps_files p) path = None) →
  (∀ k, gen = Some k → storable k) →
  ps_c p = None → InitializeConfig gen file pt nat p = Ret (p1, None) → ps_c p1 = Some c →
  NewDatabaseLevelDB (fn (db c)) 0 0 s = (s', Ok leveldb) →
  ∃ p2 c', InitializeConfig gen' file pt' nat' (MkProcess None (ps_files p1) s) = Ret (p2, None) ∧
    ps_c p2 = Some c' ∧ key c' = key c ∧ id c' = id c ∧ nodeName c' = nodeName c ∧
    networkId c' = networkId c ∧ bootnodes c' = bootnodes c ∧ ps_files p2 = ps_files p1.
Proof.
  intros Hopen Hwrite Hgen Hc Hrun Hc1 Hdb. unfold Config.InitializeConfig in *. rewrite Hc in Hrun. cbn [ps_c ps_files ps_ldb].
  destruct file as [[|b path]|]; try done.
  destruct (os_Open (b :: path) (ps_files p)) as [data|e] eqn:Ho; [|done].
  destruct (file_Read 1024 data) as [data'|e] eqn:Hrd; [|done].
  destruct (Unmarshal data') as [params|e] eqn:Hu; [|done].
  destruct (p_DataDir params) as [dir|] eqn:Hdir; [|done].
  destruct (NewDatabaseLevelDB dir 0 0 (ps_ldb p)) as [s1 [l1|e]] eqn:Hdb1; [|done].
  apply outcome_bind_ret in Hrun as ([fs [err|c1]] & Hcf & Hr); [done|]. injection Hr as <-.
  injection Hc1 as ->. cbn [ps_files].
  destruct (NewDatabaseLevelDB_ok _ _ _ _ _ _ Hdb1) as (Hfn & _).
  destruct (configure_fields _ _ _ _ _ _ _ _ Hcf) as (Hdbc & _). rewrite Hdbc, Hfn in Hdb.
  destruct (configure_again gen gen' params l1 leveldb pt pt' nat nat' _ _ _ Hopen Hwrite Hgen Hcf) as [Hkeep Hcf'].
  rewrite (Hkeep _ _ Ho), Hrd, Hu, Hdir, Hdb, Hcf'. cbn [outcome_bind].
  do 2 eexists. split; [done|]. split; [done|]. by split_and!.
Qed.

(** A key file that exists but cannot be opened is overwritten with a new key. *)
Theorem unreadable_key_is_replaced gen path fs e k data :
  f_openErr fs path = Some e → f_createErr fs path = None → gen = Some k → Marshal (keyPairOf k) = Ok data →
  makeKey gen path fs = Ret ((file_Write path data (set_data (<[path := []]> (f_data fs)) fs)).1, inr k) ∧
  os_Open path fs = Err e.
Proof.
  intros He Hce -> Hm. unfold makeKey, os_Create, os_Open. rewrite He, Hce. cbn [deref outcome_bind]. by rewrite Hm.
Qed.

(** When the key file cannot be written in full, the node starts with its new
    key all the same, and what is left in the file is cut off. *)
Theorem cut_key_is_kept_silently gen path fs n e k data :
  f_createErr fs path = None → f_writeErr fs path = Some (n, e) → gen = Some k → Marshal (keyPairOf k) = Ok data →
  ∃ fs', makeKey gen path fs = Ret (fs', inr k) ∧ f_data fs' !! path = Some (take n data).
Proof.
  intros Hce Hw -> Hm. unfold makeKey, os_Create. rewrite Hce. cbn [deref outcome_bind]. rewrite Hm. eexists. split; [done|].
  unfold file_Write. cbn [f_writeErr set_data]. rewrite Hw. apply lookup_insert_eq.
Qed.
End config.

(** ** Witnesses *)

Section witnesses.
(** A library that keeps the databases in memory: the files, and for each
    handle the file it is open on *)
Definition wl : Type := gmap bytes (gmap bytes bytes) * list (option bytes).

Definition wl_file (h : nat) (s : wl) : option bytes := mjoin (s.2 !! h).
Definition wl_stored (f : bytes) (s : wl) : gmap bytes bytes := default ∅ (s.1 !! f).
Definition wl_closed : error := StdError "leveldb: closed".

#[local] Instance wl_lib : LevelDB wl nat := {
  OpenFile f _ s := ((s.1, s.2 ++ [Some f]), Ok (length s.2));
  RecoverFile f s := ((s.1, s.2 ++ [Some f]), Ok (length s.2));
  isCorrupted _ := false;
  ldb_Put h k v s :=
    match wl_file h s with
    | Some f => ((<[f := <[k := v]> (wl_stored f s)]> s.1, s.2), None)
    | None => (s, Some wl_closed)
    end;
  ldb_Get h k s :=
    match wl_file h s with
    | Some f => match wl_stored f s !! k with Some v => Ok v | None => Err (StdError "leveldb: not found") end
    | None => Err wl_closed
    end;
  ldb_Has h k s :=
    match wl_file h s with
    | Some f => (bool_decide (is_Some (wl_stored f s !! k)), None)
    | None => (false, Some wl_closed)
    end;
  ldb_Delete h k s :=
    match wl_file h s with
    | Some f => ((<[f := delete k (wl_stored f s)]> s.1, s.2), None)
    | None => (s, Some wl_closed)
    end;
  ldb_Close h s :=
    match wl_file h s with
    | Some _ => ((s.1, <[h := None]> s.2), None)
    | None => (s, Some wl_closed)
    end;
}.

Lemma wl_open_file (f : bytes) (s : wl) :
  wl_file (length s.2) s = None ∧ wl_file (length s.2) (s.1, s.2 ++ [Some f]) = Some f ∧
  ∀ h, h ≠ length s.2 → wl_file h (s.1, s.2 ++ [Some f]) = wl_file h s.
Proof.
  unfold wl_file. cbn [fst snd]. split_and!.
  - by rewrite lookup_ge_None_2.
  - by rewrite list_lookup_middle.
  - intros h Hne. destruct (decide (h < length s.2)%nat); [by rewrite lookup_app_l|].
    rewrite (lookup_ge_None_2 s.2) by lia. rewrite lookup_ge_None_2; [done|]. rewrite length_app. simpl. lia.
Qed.

#[local] Instance wl_laws : LevelDBLaws wl nat.
Proof.
  refine {| ldb_file := wl_file |}.
  - intros f o s s' h [= <- <-]. destruct (wl_open_file f s) as (H1 & H2 & H3). by split_and!.
  - done.
  - intros f s s' h [= <- <-]. destruct (wl_open_file f s) as (H1 & H2 & H3). by split_and!.
  - done.
  - intros h f s Hf. simpl. rewrite Hf. unfold wl_file in *. cbn [fst snd]. split.
    + destruct (s.2 !! h) eqn:E; [|done]. rewrite list_lookup_insert_eq; [done|]. by eapply lookup_lt_Some.
    + intros h' Hne. by rewrite list_lookup_insert_ne.
Defined.

Definition json_of_wire {A} `{Wire A} : Json A := {|
  Marshal x := Ok (enc x);
  Unmarshal b := match dec b with Some (x, []) => Ok x | _ => Err (StdError "invalid character") end;
|}.

Lemma json_of_wire_laws {A} `{Wire A} : @JsonLaws A json_of_wire.
Proof. split. simpl. intros x b [= <-]. rewrite <- (app_nil_r (enc x)). by rewrite dec_enc. Qed.

#[local] Instance wire_keyPair : Wire keyPair :=
  wire_iso (λ k, (kp_Curve k, kp_X k, kp_Y k, kp_D k)) (λ '(c, x, y, d), MkKeyPair c x y d)
    (λ k, match k with MkKeyPair _ _ _ _ => eq_refl end).
#[local] Instance wire_params : Wire configParams :=
  wire_iso (λ p, (p_Bootnodes p, p_NodeName p, p_NetworkId p, p_DataDir p, p_KeyFile p))
    (λ '(b, n, i, d, k), MkParams b n i d k) (λ p, match p with MkParams _ _ _ _ _ => eq_refl end).
#[local] Instance w_json_kp : Json keyPair := json_of_wire.
#[local] Instance w_json_params : Json configParams := json_of_wire.
#[local] Instance w_json_kp_laws : JsonLaws keyPair := json_of_wire_laws.

Definition w_parse (b : bytes) : result bytes :=
  match b with [] => Err (StdError "invalid node") | _ => Ok b end.
Definition w_pub (x y : Z) : bytes := x04 :: big_Bytes x ++ big_Bytes y.

Definition w_params : configParams :=
  MkParams (Some [Some (str_bytes "enode"); Some (str_bytes "enode2")]) (Some (str_bytes "node")) (Some (str_bytes "net"))
    (Some (str_bytes "data")) (Some (str_bytes "key.json")).
Definition w_file : bytes := str_bytes "config.json".
Definition w_files : files :=
  MkFiles {[ w_file := match Marshal w_params with Ok d => d | Err _ => [] end ]} (λ _, None) (λ _, None) (λ _, None).
Definition w_key : ecKey := MkKey 70000 5 (2 ^ 200 + 1).
Definition w_process : process wl nat bytes := MkProcess None w_files (∅, []).

Definition w_init : outcome (process wl nat bytes * option ConfigError) :=
  InitializeConfig w_parse w_pub (Some w_key) (Some w_file) (Some (str_bytes "30303")) (Some false) w_process.

Definition w_p1 : process wl nat bytes := match w_init with Ret (p, _) => p | _ => w_process end.
Definition w_dead_conf : config nat bytes := MkConf [] [] [] (MkLevelDB nat [] 0%nat) w_key None None [].
Definition w_c1 : config nat bytes := match ps_c w_p1 with Some c => c | None => w_dead_conf end.

Lemma w_init_ok :
  match w_init with Ret (p, None) => bool_decide (is_Some (fn ∘ db <$> ps_c p)) | _ => false end = true.
Proof. vm_compute. reflexivity. Qed.

Lemma init_eq (o : outcome (process wl nat bytes * option ConfigError)) :
  match o with Ret (p, None) => bool_decide (is_Some (fn ∘ db <$> ps_c p)) | _ => false end = true →
  o = Ret (match o with Ret (p, _) => p | _ => w_process end, None) ∧
  ps_c (match o with Ret (p, _) => p | _ => w_process end) =
    Some (match ps_c (match o with Ret (p, _) => p | _ => w_process end) with Some c => c | None => w_dead_conf end).
Proof.
  destruct o as [[p [e|]]| |]; [done| |done..]. intros Hb%bool_decide_eq_true_1. split; [done|].
  destruct (ps_c p); [done|]. by destruct Hb.
Qed.

Lemma w_init_eq : w_init = Ret (w_p1, None) ∧ ps_c w_p1 = Some w_c1.
Proof. exact (init_eq w_init w_init_ok). Qed.

Lemma config_all_or_nothing_witness :
  ∃ c, ps_c w_p1 = Some c ∧ ldb_file (ldb (db c)) (ps_ldb w_p1) = Some (fn (db c)).
Proof.
  destruct w_init_eq as [Heq _].
  destruct (config_all_or_nothing w_parse w_pub (Some w_key) (Some w_file) (Some (str_bytes "30303")) (Some false)
    w_process w_p1 None Heq) as (c & Hc & _ & Ho & _).
  exists c. split; [exact Hc | exact Ho].
Defined.

Lemma w_key_storable (k : ecKey) : Some w_key = Some k → storable k.
Proof.
  intros [= <-]. split_and!; [done..|]. intros data Hm.
  assert (Hlen : match Marshal (keyPairOf w_key) with
                 | Ok d => ((1 <=? length d) && (length d <=? 1024))%nat
                 | Err _ => false
                 end = true) by (vm_compute; reflexivity).
  rewrite Hm in Hlen. apply andb_prop in Hlen as [H1%Nat.leb_le H2%Nat.leb_le]. lia.
Qed.

Definition w_open2 : wl * result (DatabaseLevelDB nat) := NewDatabaseLevelDB (fn (db w_c1)) 0 0 (∅, []).
Lemma w_open2_eq : NewDatabaseLevelDB (fn (db w_c1)) 0 0 ((∅, []) : wl) = (w_open2.1, Ok (MkLevelDB nat (fn (db w_c1)) 0%nat)).
Proof. vm_compute. reflexivity. Qed.

(** The second start makes no use of the key it could generate. *)
Lemma identity_survives_restart_witness :
  ∃ p2 c', InitializeConfig w_parse w_pub None (Some w_file) None None (MkProcess None (ps_files w_p1) ((∅, []) : wl)) = Ret (p2, None) ∧
    ps_c p2 = Some c' ∧ key c' = key w_c1 ∧ id c' = id w_c1.
Proof.
  destruct w_init_eq as [Heq Hc].
  destruct (identity_survives_restart w_parse w_pub (Some w_key) None (Some w_file) (Some (str_bytes "30303")) None (Some false) None
    w_process w_p1 w_c1 (∅, []) w_open2.1 (MkLevelDB nat (fn (db w_c1)) 0%nat)
    (λ _, eq_refl) (λ _, eq_refl) w_key_storable eq_refl Heq Hc w_open2_eq) as (p2 & c' & Hrun & Hc' & Hk & Hi & _).
  exists p2, c'. split; [exact Hrun|]. split; [exact Hc'|]. split; [exact Hk | exact Hi].
Defined.

(** A key file without permission to read *)
Definition w_locked : files := MkFiles {[ [x6b] := [x01] ]} (λ _, Some (StdError "permission denied")) (λ _, None) (λ _, None).
Definition w_kdata : bytes := match Marshal (keyPairOf w_key) with Ok d => d | Err _ => [] end.
Lemma w_key_data : Marshal (keyPairOf w_key) = Ok w_kdata.
Proof. vm_compute. reflexivity. Qed.

(** A full disk *)
Definition w_full : files := MkFiles ∅ (λ _, None) (λ _, None) (λ _, Some (3%nat, StdError "no space left on device")).

Lemma unreadable_key_is_replaced_witness :
  ∃ fs, makeKey (Some w_key) [x6b] w_locked = Ret (fs, inr w_key).
Proof.
  eexists.
  apply (unreadable_key_is_replaced (Some w_key) [x6b] w_locked (StdError "permission denied") w_key w_kdata
    eq_refl eq_refl eq_refl w_key_data).
Defined.

Lemma cut_key_is_kept_silently_witness :
  ∃ fs', makeKey (Some w_key) [x6b] w_full = Ret (fs', inr w_key) ∧ f_data fs' !! [x6b] = Some (take 3 w_kdata).
Proof.
  exact (cut_key_is_kept_silently (Some w_key) [x6b] w_full 3 (StdError "no space left on device") w_key w_kdata
    eq_refl eq_refl eq_refl w_key_data).
Defined.
End witnesses.
