(* ===== verification/Logger.v ===== *)
(** * Logging ([src/log/logger.go])

    The application-wide log level, the log file that is opened on first use,
    and the loggers.  What is written is recorded as lines: the prefix of the
    level, the format with the logger's own prefix before it, and the
    arguments.  The time stamp that the standard logger adds is left out. *)

From Stdlib Require Import Strings.Byte.
From S2P Require Import Prelude Bytes Db.

Definition DEBUG : Z := 1.
Definition INFO : Z := 2.
Definition ERROR : Z := 3.
Definition NONE : Z := Z.shiftl 1 10.

Definition EnvLogfile : bytes := str_bytes "LOG_FILE".
Definition DefaultLogFile : bytes := str_bytes "app.log".

(** [*os.File]: a file that was created, or the standard output *)
Inductive logFile := CreatedFile (name : bytes) | Stdout.

(** [log.Logger] of the standard library *)
Record stdLogger := MkStd {
  sl_file : logFile;
  sl_prefix : bytes;
}.

(** [type logger struct] *)
Record logger := MkLogger {
  debug : stdLogger;
  info : stdLogger;
  err : stdLogger;
  prefix : bytes;
}.

Section log.
(** The arguments of a format, [os.Getenv] and whether [os.Create] works *)
Context {A : Type} (getenv : bytes → bytes) (creates : bytes → bool).

(** A line that was written *)
Record line := MkLine {
  ln_file : logFile;
  ln_prefix : bytes;
  ln_format : bytes;
  ln_args : list A;
}.

(** The package variables, and what was written *)
Record logState := MkLog {
  logLevel : Z;
  logfile : option logFile;
  appLogger : option logger;
  written : list line;
}.

Definition initial : logState := MkLog DEBUG None None [].

Definition SetLogLevel (level : Z) (s : logState) : logState :=
  MkLog level (logfile s) (appLogger s) (written s).
Definition GetLogLevel (s : logState) : Z := logLevel s.

(** [func getLogFile() *os.File] *)
Definition getLogFile (s : logState) : logState * logFile :=
  match logfile s with
  | Some f => (s, f)
  | None =>
      let f := if creates (getenv EnvLogfile) then CreatedFile (getenv EnvLogfile)
               else if creates DefaultLogFile then CreatedFile DefaultLogFile
               else Stdout in
      (MkLog (logLevel s) (Some f) (appLogger s) (written s), f)
  end.
Definition GetLogFile (s : logState) : logState * logFile := getLogFile s.

(** The three standard loggers over the log file *)
Definition makeLogger (pre : bytes) (s : logState) : logState * logger :=
  let '(s, f1) := getLogFile s in
  let '(s, f2) := getLogFile s in
  let '(s, f3) := getLogFile s in
  (s, MkLogger (MkStd f1 (str_bytes "DEBUG|")) (MkStd f2 (str_bytes "INFO |")) (MkStd f3 (str_bytes "ERROR|")) pre).

(** [func AppLogger() Logger] *)
Definition AppLogger (s : logState) : logState * logger :=
  match appLogger s with
  | Some l => (s, l)
  | None =>
      let '(s, l) := makeLogger (str_bytes "|APP| ") s in
      (MkLog (logLevel s) (logfile s) (Some l) (written s), l)
  end.

(** [func NewLogger(name interface{}) Logger]; [name] is the printed type. *)
Definition NewLogger (name : bytes) (s : logState) : logState * logger :=
  makeLogger (str_bytes "|" ++ name ++ str_bytes "| ") s.

Definition Printf (l : stdLogger) (format : bytes) (args : list A) (s : logState) : logState :=
  MkLog (logLevel s) (logfile s) (appLogger s) (written s ++ [MkLine (sl_file l) (sl_prefix l) format args]).

Definition Debug (l : logger) (format : bytes) (args : list A) (s : logState) : logState :=
  if decide (logLevel s > DEBUG) then s else Printf (debug l) (prefix l ++ format) args s.
Definition Info (l : logger) (format : bytes) (args : list A) (s : logState) : logState :=
  if decide (logLevel s > INFO) then s else Printf (info l) (prefix l ++ format) args s.
Definition Error (l : logger) (format : bytes) (args : list A) (s : logState) : logState :=
  if decide (logLevel s > ERROR) then s else Printf (err l) (prefix l ++ format) args s.

(** ** Programs that log *)

(** A use of the package: loggers are numbered in the order in which they were
    made. *)
Inductive use :=
  | USetLevel (level : Z)
  | UApp
  | UNew (name : bytes)
  | UDebug (i : nat) (format : bytes) (args : list A)
  | UInfo (i : nat) (format : bytes) (args : list A)
  | UError (i : nat) (format : bytes) (args : list A).

Definition use_step (u : use) (st : logState * list logger) : logState * list logger :=
  let '(s, ls) := st in
  let on i f := match ls !! i with Some l => (f l, ls) | None => (s, ls) end in
  match u with
  | USetLevel level => (SetLogLevel level s, ls)
  | UApp => let '(s, l) := AppLogger s in (s, ls ++ [l])
  | UNew name => let '(s, l) := NewLogger name s in (s, ls ++ [l])
  | UDebug i format args => on i (λ l, Debug l format args s)
  | UInfo i format args => on i (λ l, Info l format args s)
  | UError i format args => on i (λ l, Error l format args s)
  end.

(** The lines that a program should write: those of the level in force, each
    under the prefix of its logger. *)
Fixpoint expected (us : list use) (level : Z) (prefixes : list bytes) (f : logFile) : list line :=
  let put (threshold : Z) (p : bytes) i format args :=
    match prefixes !! i with
    | Some pre => if decide (level ≤ threshold) then [MkLine f p (pre ++ format) args] else []
    | None => []
    end in
  match us with
  | [] => []
  | u :: us =>
      match u with
      | USetLevel l => expected us l prefixes f
      | UApp => expected us level (prefixes ++ [str_bytes "|APP| "]) f
      | UNew name => expected us level (prefixes ++ [str_bytes "|" ++ name ++ str_bytes "| "]) f
      | UDebug i format args => put DEBUG (str_bytes "DEBUG|") i format args ++ expected us level prefixes f
      | UInfo i format args => put INFO (str_bytes "INFO |") i format args ++ expected us level prefixes f
      | UError i format args => put ERROR (str_bytes "ERROR|") i format args ++ expected us level prefixes f
      end
  end.

(** The file that the package chooses *)
Definition chosen : logFile := (getLogFile initial).2.

(** Every logger writes to the file chosen, under its level's prefix. *)
Definition logger_ok (pre : bytes) (l : logger) : Prop :=
  l = MkLogger (MkStd chosen (str_bytes "DEBUG|")) (MkStd chosen (str_bytes "INFO |")) (MkStd chosen (str_bytes "ERROR|")) pre.

Record log_inv (s : logState) (ls : list logger) (prefixes : list bytes) : Prop := {
  li_file : logfile s = None ∨ logfile s = Some chosen;
  li_app l : appLogger s = Some l → logger_ok (str_bytes "|APP| ") l;
  li_loggers : Forall2 logger_ok prefixes ls;
}.

Lemma makeLogger_ok pre s :
  logfile s = None ∨ logfile s = Some chosen →
  logger_ok pre (makeLogger pre s).2 ∧
  (makeLogger pre s).1 = MkLog (logLevel s) (Some chosen) (appLogger s) (written s).
Proof. destruct s as [lv lf ap wr]. unfold makeLogger, getLogFile, chosen. simpl. intros [->| ->]; done. Qed.

(** What logging through logger [i] writes, if [sel] is its standard logger. *)
Definition put (i : nat) (threshold : Z) (p format : bytes) (args : list A) (level : Z) (prefixes : list bytes) : list line :=
  match prefixes !! i with
  | Some pre => if decide (level ≤ threshold) then [MkLine chosen p (pre ++ format) args] else []
  | None => []
  end.

Lemma log_put_spec (i : nat) thr p format args (sel : logger → stdLogger) s ls prefixes :
  log_inv s ls prefixes → (∀ pre l, logger_ok pre l → sel l = MkStd chosen p) →
  let s' := match ls !! i with
            | Some l => if decide (logLevel s > thr) then s else Printf (sel l) (prefix l ++ format) args s
            | None => s
            end in
  log_inv s' ls prefixes ∧ logLevel s' = logLevel s ∧
  written s' = written s ++ put i thr p format args (logLevel s) prefixes.
Proof.
  intros [Hf Ha Hl] Hsel. unfold put. destruct (prefixes !! i) as [pre|] eqn:Ep.
  - destruct (Forall2_lookup_l _ _ _ _ _ Hl Ep) as (l & El & Hok). rewrite El.
    destruct (decide (logLevel s > thr)); [rewrite decide_False by lia; by rewrite app_nil_r|].
    rewrite decide_True by lia. cbn. by rewrite (Hsel pre l Hok), Hok.
  - assert (ls !! i = None) as ->; [|by rewrite app_nil_r].
    apply lookup_ge_None_2. rewrite <- (Forall2_length Hl). by apply lookup_ge_None.
Qed.

Lemma use_spec us : ∀ s ls prefixes,
  log_inv s ls prefixes →
  written (fold_left (λ st u, use_step u st) us (s, ls)).1 = written s ++ expected us (logLevel s) prefixes chosen.
Proof.
  induction us as [|u us IH]; intros s ls prefixes [Hf Ha Hl]; [cbn; by rewrite app_nil_r|].
  assert (Hput : ∀ (i : nat) thr p format args (sel : logger → stdLogger),
    (∀ pre l, logger_ok pre l → sel l = MkStd chosen p) →
    written (fold_left (λ st u, use_step u st) us
      (match ls !! i with
       | Some l => if decide (logLevel s > thr) then s else Printf (sel l) (prefix l ++ format) args s
       | None => s
       end, ls)).1 = written s ++ put i thr p format args (logLevel s) prefixes ++ expected us (logLevel s) prefixes chosen).
  { intros i thr p format args sel Hsel.
    destruct (log_put_spec i thr p format args sel s ls prefixes) as (Hinv & Hlv & Hw); [by split | done|].
    by rewrite (IH _ _ _ Hinv), Hlv, Hw, <- (assoc_L (++)). }
  destruct u as [level| |name|i format args|i format args|i format args]; cbn [fold_left use_step expected].
  - rewrite (IH _ _ prefixes) by (by split). done.
  - unfold AppLogger. destruct (appLogger s) as [l|] eqn:Eapp.
    + apply IH. split; [done | intros l' Hl'; apply Ha; congruence|]. apply Forall2_app; [done|]. constructor; [by apply Ha | constructor].
    + destruct (makeLogger_ok (str_bytes "|APP| ") s Hf) as [Hok Hs].
      destruct (makeLogger _ s) as [s1 l]. simpl in Hok, Hs. subst s1. cbn [written logLevel logfile].
      rewrite (IH _ _ (prefixes ++ [str_bytes "|APP| "])); [done|]. split; [by right | by intros l' [= <-]|].
      apply Forall2_app; [done|]. by constructor.
  - unfold NewLogger. set (pre := str_bytes "|" ++ name ++ str_bytes "| ").
    destruct (makeLogger_ok pre s Hf) as [Hok Hs].
    destruct (makeLogger pre s) as [s1 l]. simpl in Hok, Hs. subst s1. cbn [written logLevel logfile].
    rewrite (IH _ _ (prefixes ++ [pre])); [done|]. split; [by right | by apply Ha|].
    apply Forall2_app; [done|]. by constructor.
  - etrans; [|apply (Hput i DEBUG (str_bytes "DEBUG|") format args debug); by intros pre l ->]. by destruct (ls !! i).
  - etrans; [|apply (Hput i INFO (str_bytes "INFO |") format args info); by intros pre l ->]. by destruct (ls !! i).
  - etrans; [|apply (Hput i ERROR (str_bytes "ERROR|") format args err); by intros pre l ->]. by destruct (ls !! i).
Qed.

(** From the start of a program, whatever loggers it makes and levels it sets, the log holds
    exactly the messages whose level was in force when they were logged, in order, each under
    the prefixes of its level and its logger, and all in one file. *)
Theorem log_writes_expected us :
  written (fold_left (λ st u, use_step u st) us (initial, [])).1 = expected us DEBUG [] chosen.
Proof. apply (use_spec us initial [] []). split; [by left | done | constructor]. Qed.
End log.
