(* ===== verification/TimeBound.v ===== *)
(** * Calls with a time limit ([RunTimeBound] of [src/common/util.go])

    The caller and the goroutine that runs the method share the variable
    [err]; they meet on a channel that is not buffered, and a timer races
    with the method.  What each does next is an event; a run is a sequence of
    events, which the scheduler chooses.  The handshakes of [Platform] and
    [Pager] read their message within such a limit. *)

From S2P Require Import Prelude.

(** Where the caller is: in [select], before [return err], or returned *)
Inductive caller :=
  | CSelect
  | CReturn
  | CReturned (r : option error).

(** Where the goroutine is: in the method, at [done <- struct{}{}], or ended *)
Inductive worker :=
  | WRunning
  | WSending
  | WEnded.

(** What [RunTimeBound] has shared and started *)
Record timeBound := TimeBound {
  tb_err : option error;
  tb_caller : caller;
  tb_worker : worker;
}.

(** What happens next: the method returns, the goroutine's signal is received,
    the timer fires, the caller returns *)
Inductive tb_event :=
  | MethodReturns (e : option error)
  | DoneReceived
  | TimerFires
  | CallerReturns.

(** [func RunTimeBound(sec time.Duration, method func () error, timeoutError error) error],
    started *)
Definition RunTimeBound : timeBound := TimeBound None CSelect WRunning.

(** The step of an event; [None] when it cannot happen now. *)
Definition tb_step (timeoutError : option error) (ev : tb_event) (s : timeBound) : option timeBound :=
  match ev, tb_caller s, tb_worker s with
  | MethodReturns e, c, WRunning => Some (TimeBound e c WSending)
  | DoneReceived, CSelect, WSending => Some (TimeBound (tb_err s) CReturn WEnded)
  | TimerFires, CSelect, w => Some (TimeBound timeoutError CReturn w)
  | CallerReturns, CReturn, w => Some (TimeBound (tb_err s) (CReturned (tb_err s)) w)
  | _, _, _ => None
  end.

Fixpoint tb_run (timeoutError : option error) (evs : list tb_event) (s : timeBound) : option timeBound :=
  match evs with
  | [] => Some s
  | ev :: evs => tb_step timeoutError ev s ≫= tb_run timeoutError evs
  end.

Section theorems.
Context (timeoutError : option error).
Implicit Types (s : timeBound) (evs : list tb_event).

(** The results of the method in a run *)
Definition results evs : list (option error) :=
  omap (λ ev, match ev with MethodReturns e => Some e | _ => None end) evs.

Lemma tb_run_app evs1 evs2 s : tb_run timeoutError (evs1 ++ evs2) s = (tb_run timeoutError evs1 s ≫= tb_run timeoutError evs2).
Proof. revert s. induction evs1 as [|ev evs1 IH]; intros s; [done|]. cbn. destruct (tb_step timeoutError ev s); [apply IH | done]. Qed.

Lemma results_snoc evs ev : results (evs ++ [ev]) = results evs ++ match ev with MethodReturns e => [e] | _ => [] end.
Proof. unfold results. rewrite omap_app. by destruct ev. Qed.

(** A result that may be returned after the events [evs]: that of the method,
    or the time-out *)
Definition may_return evs (r : option error) : Prop := results evs = [r] ∨ (TimerFires ∈ evs ∧ r = timeoutError).

(** What holds after the events [evs] *)
Definition tb_inv evs s : Prop :=
  match tb_worker s with WRunning => results evs = [] | _ => ∃ e, results evs = [e] end ∧
  match tb_caller s, tb_worker s with
  | CSelect, WRunning => True
  | CSelect, WSending => results evs = [tb_err s]
  | CSelect, WEnded => False
  | CReturn, _ => may_return evs (tb_err s)
  | CReturned r, _ => may_return evs r
  end.

Lemma may_return_snoc evs ev r : results evs = [] ∨ results (evs ++ [ev]) = results evs → may_return evs r → may_return (evs ++ [ev]) r.
Proof.
  intros Hres [Hr|[Hin ->]]; [left; destruct Hres as [H| ->]; [congruence | done]|]. right. split; [|done]. apply elem_of_app. by left.
Qed.

Lemma tb_step_inv evs ev s s' : tb_inv evs s → tb_step timeoutError ev s = Some s' → tb_inv (evs ++ [ev]) s'.
Proof.
  unfold tb_inv. destruct s as [err c w]. intros [Hw Hc] Hstep.
  pose proof (results_snoc evs ev) as Hres. destruct ev as [e| | |]; destruct c, w; cbn in *; try done; injection Hstep as <-; cbn;
    rewrite ?Hw in Hres; cbn in Hres; rewrite ?app_nil_r in Hres; rewrite ?Hres.
  all: split; try done; try by exists e.
  all: try (left; done).
  all: try (apply may_return_snoc; [|done]; first [by left | by right]).
  all: try (right; split; [apply elem_of_app; right; by left | done]).
  left. by rewrite Hres.
Qed.

Lemma tb_reaches_inv evs s : tb_run timeoutError evs RunTimeBound = Some s → tb_inv evs s.
Proof.
  revert s. induction evs as [|ev evs IH] using rev_ind; intros s; [by intros [= <-]|].
  rewrite tb_run_app. cbn. intros (s1 & H1 & (s2 & H2 & [= <-])%bind_Some)%bind_Some. by eapply tb_step_inv; [apply IH|].
Qed.

(** A call with a time limit returns the method's own result, or the time-out error after the
    timer has fired; and whatever the method does, when the timer fires the caller is at most one
    step from returning, so the call never waits for a method that does not return. *)
Theorem time_bound_returns evs s :
  tb_run timeoutError evs RunTimeBound = Some s →
  match tb_caller s with
  | CReturned r => results evs = [r] ∨ (TimerFires ∈ evs ∧ r = timeoutError)
  | CReturn => ∃ s', tb_run timeoutError [CallerReturns] s = Some s' ∧ tb_caller s' = CReturned (tb_err s)
  | CSelect => ∃ s', tb_run timeoutError [TimerFires; CallerReturns] s = Some s' ∧ tb_caller s' = CReturned timeoutError
  end.
Proof.
  intros [_ Hc]%tb_reaches_inv. destruct s as [err c w]. destruct c; cbn in *; [by eexists | by eexists | exact Hc].
Qed.

(** After a time-out the goroutine never ends: nobody receives from its channel. *)
Theorem time_bound_leaks s evs' s' :
  tb_caller s ≠ CSelect → tb_worker s ≠ WEnded → tb_run timeoutError evs' s = Some s' → tb_worker s' ≠ WEnded.
Proof.
  revert s. induction evs' as [|ev evs' IH]; intros s Hc Hw; cbn; [by intros [= <-]|].
  intros (s1 & H1 & H2)%bind_Some. destruct s as [err c w]. apply (IH s1); [..|done];
    destruct ev, c, w; cbn in *; try done; by injection H1 as <-.
Qed.
End theorems.

(** The method's result can overtake the time-out error: the goroutine assigns to the variable that
    the caller is about to return. *)
Theorem time_bound_races e :
  tb_run (Some e) [TimerFires; MethodReturns None; CallerReturns] RunTimeBound = Some (TimeBound None (CReturned None) WSending).
Proof. reflexivity. Qed.

Lemma time_bound_leaks_witness :
  tb_worker (TimeBound None (CReturned None) WSending) ≠ WEnded.
Proof.
  apply (time_bound_leaks (Some (StdError "timed out")) (TimeBound (Some (StdError "timed out")) CReturn WRunning)
    [MethodReturns None; CallerReturns]); [done | done | reflexivity].
Defined.

Lemma time_bound_returns_witness : results [TimerFires; CallerReturns] = [Some (StdError "late")] ∨
  (TimerFires ∈ [TimerFires; CallerReturns] ∧ Some (StdError "late") = Some (StdError "late")).
Proof.
  exact (time_bound_returns (Some (StdError "late")) [TimerFires; CallerReturns] (TimeBound (Some (StdError "late")) (CReturned (Some (StdError "late"))) WRunning) eq_refl).
Defined.
