(* ===== verification/Text.v ===== *)
(** * Text: runes, words, numbers and hexadecimal strings

    What the command lines use of Go's packages [unicode/utf8], [bufio],
    [fmt] and [encoding/hex]: strings are byte strings, a rune is its code
    point.  The lemmas say that words are read back from a line, and bytes
    from their hexadecimal form. *)

From Stdlib Require Import Strings.Byte.
From S2P Require Import Prelude Bytes Db Trustee.

(** ** Runes ([unicode/utf8]) *)

Definition RuneError : Z := 0xFFFD.

(** A continuation byte between [lo] and [hi]; its low six bits *)
Definition cont (lo hi : Z) (b : byte) : option Z :=
  if decide (lo ≤ byte_val b ≤ hi) then Some (Z.land (byte_val b) 0x3F) else None.

(** [utf8.DecodeRune(s)]: the rune and its width; [(RuneError, 1)] when the
    encoding is invalid, [(RuneError, 0)] on the empty string *)
Definition DecodeRune (s : bytes) : Z * nat :=
  match s with
  | [] => (RuneError, 0%nat)
  | b0 :: rest =>
      let p0 := byte_val b0 in
      let bad := (RuneError, 1%nat) in
      let lo := if decide (p0 = 0xE0) then 0xA0 else if decide (p0 = 0xF0) then 0x90 else 0x80 in
      let hi := if decide (p0 = 0xED) then 0x9F else if decide (p0 = 0xF4) then 0x8F else 0xBF in
      if decide (p0 < 0x80) then (p0, 1%nat)
      else if decide (p0 < 0xC2 ∨ 0xF4 < p0) then bad
      else
        match rest with
        | [] => bad
        | b1 :: rest =>
            match cont lo hi b1 with
            | None => bad
            | Some c1 =>
                if decide (p0 < 0xE0) then (Z.lor (Z.shiftl (Z.land p0 0x1F) 6) c1, 2%nat)
                else
                  match rest with
                  | [] => bad
                  | b2 :: rest =>
                      match cont 0x80 0xBF b2 with
                      | None => bad
                      | Some c2 =>
                          if decide (p0 < 0xF0) then
                            (Z.lor (Z.shiftl (Z.land p0 0x0F) 12) (Z.lor (Z.shiftl c1 6) c2), 3%nat)
                          else
                            match rest with
                            | [] => bad
                            | b3 :: _ =>
                                match cont 0x80 0xBF b3 with
                                | None => bad
                                | Some c3 =>
                                    (Z.lor (Z.shiftl (Z.land p0 0x07) 18)
                                       (Z.lor (Z.shiftl c1 12) (Z.lor (Z.shiftl c2 6) c3)), 4%nat)
                                end
                            end
                      end
                  end
            end
        end
  end.

(** [utf8.RuneCountInString(s)]; a width is positive, so the length is enough
    fuel. *)
Fixpoint runeCountLoop (fuel : nat) (s : bytes) : nat :=
  match fuel, s with
  | S fuel, _ :: _ => S (runeCountLoop fuel (drop (DecodeRune s).2 s))
  | _, _ => 0
  end.
Definition RuneCount (s : bytes) : nat := runeCountLoop (length s) s.

(** ** Words ([bufio.ScanWords]) *)

(** [func isSpace(r rune) bool] *)
Definition isSpace (r : Z) : bool :=
  bool_decide (r ∈ [0x20; 0x09; 0x0A; 0x0B; 0x0C; 0x0D; 0x85; 0xA0]) ||
  bool_decide (0x2000 ≤ r ≤ 0x200A) ||
  bool_decide (r ∈ [0x1680; 0x2028; 0x2029; 0x202F; 0x205F; 0x3000]).

(** The words of a line that a scanner with the split function [ScanWords]
    delivers; [word] is what was read of the current one. *)
Fixpoint scanWordsLoop (fuel : nat) (s word : bytes) : list bytes :=
  let flush (ws : list bytes) := match word with [] => ws | _ => word :: ws end in
  match fuel, s with
  | S fuel, _ :: _ =>
      let '(r, width) := DecodeRune s in
      if isSpace r then flush (scanWordsLoop fuel (drop width s) [])
      else scanWordsLoop fuel (drop width s) (word ++ take width s)
  | _, _ => flush []
  end.
Definition ScanWords (line : bytes) : list bytes := scanWordsLoop (length line) line [].

(** ** Printing ([fmt]) *)

(** [%d] of a signed number *)
Definition fmt_i (z : Z) : bytes :=
  if decide (z < 0) then x2d :: str_bytes (fmt_d (- z)) else str_bytes (fmt_d z).

(** [%10s]: the width counts runes. *)
Definition fmt_10s (s : bytes) : bytes := replicate (10 - RuneCount s) x20 ++ s.

(** [%s] of an [*RTU] *)
Definition fmt_rtu (r : RTU) : bytes := str_bytes (rtu_String r).

(** ** Hexadecimal strings ([encoding/hex]) *)

(** [hex.ErrLength] and [hex.InvalidByteError] *)
Inductive hexError := ErrLength | InvalidByteError (b : byte).

(** [func fromHexChar(c byte) (byte, bool)] *)
Definition fromHexChar (c : byte) : option Z :=
  let c := byte_val c in
  if decide (48 ≤ c ≤ 57) then Some (c - 48)
  else if decide (97 ≤ c ≤ 102) then Some (c - 97 + 10)
  else if decide (65 ≤ c ≤ 70) then Some (c - 65 + 10)
  else None.

(** [hex.DecodeString(s)] *)
Fixpoint hexDecode (s : bytes) : hexError + bytes :=
  match s with
  | [] => inr []
  | [a] => match fromHexChar a with None => inl (InvalidByteError a) | Some _ => inl ErrLength end
  | a :: b :: s =>
      match fromHexChar a with
      | None => inl (InvalidByteError a)
      | Some x =>
          match fromHexChar b with
          | None => inl (InvalidByteError b)
          | Some y => match hexDecode s with inl e => inl e | inr bs => inr (byte_of (Z.lor (Z.shiftl x 4) y) :: bs) end
          end
      end
  end.

(** [%#U] of [rune(b)]: the code point, and the character when it is printable *)
Definition hexUpper (n : Z) : byte := nth (Z.to_nat n) (str_bytes "0123456789ABCDEF") x00.
Definition fmt_U (b : byte) : bytes :=
  let r := byte_val b in
  let code := str_bytes "U+00" ++ [hexUpper (r `div` 16); hexUpper (r `mod` 16)] in
  let char := if decide (r < 0x80) then [b] else [byte_of (Z.lor 0xC0 (Z.shiftr r 6)); byte_of (Z.lor 0x80 (Z.land r 0x3F))] in
  if decide (0x20 ≤ r ≤ 0x7E ∨ (0xA1 ≤ r ∧ r ≠ 0xAD)) then code ++ str_bytes " '" ++ char ++ str_bytes "'" else code.

(** [err.Error()] *)
Definition hexErrorString (e : hexError) : bytes :=
  match e with
  | ErrLength => str_bytes "encoding/hex: odd length hex string"
  | InvalidByteError b => str_bytes "encoding/hex: invalid byte: " ++ fmt_U b
  end.

(** ** Facts *)

(** A byte of a word: a printable character of ASCII *)
Definition plain (b : byte) : bool := bool_decide (0x21 ≤ byte_val b ≤ 0x7E).

Lemma DecodeRune_ascii b s : byte_val b < 0x80 → DecodeRune (b :: s) = (byte_val b, 1%nat).
Proof. intros Hb. unfold DecodeRune. by rewrite decide_True by done. Qed.

Lemma isSpace_plain b : plain b = true → isSpace (byte_val b) = false.
Proof. destruct b; vm_compute; congruence. Qed.

Lemma scanWords_plain w : ∀ fuel word rest,
  forallb plain w = true → (length w ≤ fuel)%nat →
  scanWordsLoop fuel (w ++ rest) word = scanWordsLoop (fuel - length w) rest (word ++ w).
Proof.
  induction w as [|b w IH]; intros fuel word rest Hw Hf; simpl in Hw, Hf.
  { simpl. by rewrite app_nil_r, Nat.sub_0_r. }
  apply andb_true_iff in Hw as [Hb Hw]. destruct fuel as [|fuel]; [lia|]. cbn [scanWordsLoop app length].
  rewrite DecodeRune_ascii by (unfold plain in Hb; apply bool_decide_eq_true_1 in Hb; lia).
  rewrite isSpace_plain by done. change (drop 1 (b :: w ++ rest)) with (w ++ rest). change (take 1 (b :: w ++ rest)) with [b].
  rewrite IH by (done || lia). by rewrite <- app_assoc.
Qed.

(** A line of words that are separated by single spaces *)
Fixpoint spaced (ws : list bytes) : bytes :=
  match ws with [] => [] | [w] => w | w :: ws => w ++ x20 :: spaced ws end.

(** The words of a line are read back. *)
Lemma ScanWords_spaced ws : Forall (λ w, w ≠ [] ∧ forallb plain w = true) ws → ScanWords (spaced ws) = ws.
Proof.
  unfold ScanWords. intros Hws. assert (∀ fuel, (length (spaced ws) ≤ fuel)%nat → scanWordsLoop fuel (spaced ws) [] = ws) as H; [|by apply H].
  induction Hws as [|w ws [Hne Hw] Hws IH]; intros fuel Hf; [by destruct fuel|].
  destruct ws as [|w' ws].
  - cbn [spaced] in *. pose proof (scanWords_plain w fuel [] [] Hw Hf) as Hrun. rewrite app_nil_r in Hrun.
    rewrite Hrun. by destruct (fuel - length w)%nat, w.
  - change (spaced (w :: w' :: ws)) with (w ++ x20 :: spaced (w' :: ws)) in *. rewrite length_app in Hf. cbn [length] in Hf.
    rewrite scanWords_plain by (done || lia). destruct (fuel - length w)%nat as [|n] eqn:En; [lia|]. cbn [scanWordsLoop].
    rewrite DecodeRune_ascii by done. change (isSpace (byte_val x20)) with true. change (drop 1 (x20 :: spaced (w' :: ws))) with (spaced (w' :: ws)). cbn [app].
    rewrite IH by lia. by destruct w.
Qed.

Lemma fromHexChar_digit n : 0 ≤ n < 16 → fromHexChar (hexDigit n) = Some n.
Proof.
  intros Hn. assert (∀ i, (i < 16)%nat → fromHexChar (hexDigit (Z.of_nat i)) = Some (Z.of_nat i)) as H.
  { intros i Hi. do 16 (destruct i as [|i]; [reflexivity|]). lia. }
  rewrite <- (Z2Nat.id n) by lia. apply H. lia.
Qed.

Lemma nibbles b : byte_of (Z.lor (Z.shiftl (byte_val b `div` 16) 4) (byte_val b `mod` 16)) = b.
Proof. by destruct b. Qed.

(** Bytes are read back from their hexadecimal form. *)
Lemma hexDecode_hex bs : hexDecode (bytesToHexString bs) = inr bs.
Proof.
  induction bs as [|b bs IH]; [done|]. cbn [bytesToHexString hexDecode]. pose proof (byte_val_range b).
  rewrite !fromHexChar_digit by (first [apply Z.mod_pos_bound; lia | split; [apply Z.div_pos | apply Z.div_lt_upper_bound]; lia]).
  by rewrite IH, nibbles.
Qed.

Lemma hex_ne bs n : length bs = S n → bytesToHexString bs ≠ [].
Proof. by destruct bs. Qed.

Lemma plain_hexDigit n : 0 ≤ n < 16 → plain (hexDigit n) = true.
Proof.
  intros Hn. assert (∀ i, (i < 16)%nat → plain (hexDigit (Z.of_nat i)) = true) as H.
  { intros i Hi. do 16 (destruct i as [|i]; [reflexivity|]). lia. }
  rewrite <- (Z2Nat.id n) by lia. apply H. lia.
Qed.

Lemma plain_hex bs : forallb plain (bytesToHexString bs) = true.
Proof.
  induction bs as [|b bs IH]; [done|]. cbn [bytesToHexString forallb]. pose proof (byte_val_range b).
  rewrite !plain_hexDigit by (first [apply Z.mod_pos_bound; lia | split; [apply Z.div_pos | apply Z.div_lt_upper_bound]; lia]).
  done.
Qed.

(** The euro sign, two words, and numbers *)
Example text_samples :
  DecodeRune [xe2; x82; xac; x41] = (0x20AC, 3%nat) ∧ RuneCount [xe2; x82; xac; x41; xff] = 3%nat ∧
  ScanWords (str_bytes "  incr  alice 5 ") = [str_bytes "incr"; str_bytes "alice"; str_bytes "5"] ∧
  ScanWords [x61; xc2; xa0; x62] = [[x61]; [x62]] ∧
  fmt_i (-12) = str_bytes "-12" ∧ fmt_10s (str_bytes "alice") = str_bytes "     alice" ∧
  hexDecode (str_bytes "0g1") = inl (InvalidByteError x67) ∧ hexDecode (str_bytes "abc") = inl ErrLength ∧
  hexErrorString (InvalidByteError x67) = str_bytes "encoding/hex: invalid byte: U+0067 'g'".
Proof. vm_compute. done. Qed.
