(* ===== verification/Countr.v ===== *)
(** * The counter application ([src/countrApp/app.go])

    Definitions only: the transactions of the application, how its command
    line reads them, the transaction processor and the proof-of-work approver
    that it registers with the platform.  Go strings are byte strings; words
    are what a scanner that splits at blanks delivers.  The command line itself
    is in [Cli]. *)

From Stdlib Require Import Strings.Byte.
From S2P Require Import Prelude Bytes Db WorldStateI Block Consensus Trustee Peers Platform.

(** [int64(x)] *)
Definition s64 (z : Z) : Z := (z + 2 ^ 63) `mod` 2 ^ 64 - 2 ^ 63.

(** ** Numbers on the command line *)

(** [strconv.ParseInt(s, 10, 64)]: the value, which is the closest number
    when the input is out of range, and the error *)
Definition parseMagnitude (neg : bool) (s : bytes) : Z * option error :=
  let '(un, err) := match ParseUint s with
                    | Ok un => (un, None)
                    | Err (StdError "value out of range") => (2 ^ 64 - 1, Some (StdError "value out of range"))
                    | Err e => (0, Some e)
                    end in
  match err with
  | Some (StdError "invalid syntax") => (0, err)
  | _ =>
      if negb neg && bool_decide (2 ^ 63 ≤ un) then (2 ^ 63 - 1, Some (StdError "value out of range"))
      else if neg && bool_decide (2 ^ 63 < un) then (- 2 ^ 63, Some (StdError "value out of range"))
      else ((if neg then - un else un), None)
  end.

Definition ParseInt (s : bytes) : Z * option error :=
  match s with
  | [] => (0, Some (StdError "invalid syntax"))
  | c :: rest =>
      if decide (byte_val c = 43) then parseMagnitude false rest
      else if decide (byte_val c = 45) then parseMagnitude true rest
      else parseMagnitude false s
  end.

(** [strconv.Atoi(s)], where an [int] has 64 bits; [None] is an error. *)
Definition Atoi (s : bytes) : option Z :=
  match ParseInt s with (v, None) => Some v | _ => None end.

(** ** Operations on the command line *)

(** [type op struct] *)
Record op := MkCounterOp {
  op_name : bytes;
  op_delta : Z;
}.

(** The loop of [scanOps] over the words of the line; it returns the
    operations and the words it has not read. *)
Fixpoint scanLoop (words : list bytes) (ops : list op) (currOp : op) (readName : bool) : list op * list bytes :=
  match words with
  | [] => (if readName then ops ++ [currOp] else ops, [])
  | word :: words =>
      match Atoi word with
      | Some delta =>
          if decide (op_name currOp = []) then (ops, words)
          else scanLoop words (ops ++ [MkCounterOp (op_name currOp) delta]) (MkCounterOp [] 0) false
      | None => scanLoop words (if readName then ops ++ [currOp] else ops) (MkCounterOp word 1) true
      end
  end.

(** [func scanOps(scanner *bufio.Scanner) (ops []op)] *)
Definition scanOps (words : list bytes) : list op * list bytes := scanLoop words [] (MkCounterOp [] 0) false.

(** ** Transactions *)

(** [type testTx struct] *)
Record testTx := MkTestTx {
  tt_Op : bytes;
  tt_Source : bytes;
  tt_Target : bytes;
  tt_Delta : Z;
}.

Definition OpIncr : bytes := str_bytes "incr".
Definition OpDecr : bytes := str_bytes "decr".
Definition OpXfer : bytes := str_bytes "xfer".

(** Programs over a transaction's block: [lookup], [network.Debit] and
    [network.Credit] of [txs.Block()], and the last line of the processor *)
Definition app_lookup (key : bytes) (k : Z → appProg) : appProg :=
  AppLookup key (λ r, k (match r with Ok val => s64 (Uint64 (BytesToByte8 val)) | Err _ => 0 end)).

Definition app_Debit (account : bytes) (delta : RTU) (k : option error → appProg) : appProg :=
  AppLookup account (λ r,
    let currVal := BytesToRtu (match r with Ok v => v | Err _ => [] end) in
    if decide (currVal < delta) then
      k (Some (CoreError ERR_LOW_BALANCE ("insufficient fund: " +:+ fmt_d currVal +:+ " < " +:+ fmt_d delta)))
    else AppUpdate account (rtu_Bytes (Uint64ToRtu (u64 (currVal - delta)))) (λ _, k None)).

Definition app_Credit (account : bytes) (delta : RTU) (k : option error → appProg) : appProg :=
  AppLookup account (λ r,
    let newVal := u64 (BytesToRtu (match r with Ok v => v | Err _ => [] end) + delta) in
    AppUpdate account (rtu_Bytes (Uint64ToRtu newVal)) (λ _, k None)).

Definition app_store (key : bytes) (currVal : Z) : appProg :=
  AppUpdate key (Bytes (Uint64ToByte8 (u64 currVal))) AppReturn.

Section app.
Context {cdt : Codec testTx}.

(** [func incrementTx(name string, delta int) []byte]; [nil] on an error *)
Definition incrementTx (name : bytes) (delta : Z) : bytes :=
  match Serialize (MkTestTx OpIncr [] name delta) with Ok p => p | Err _ => [] end.

(** [func decrementTx(name string, delta int) []byte] *)
Definition decrementTx (name : bytes) (delta : Z) : bytes :=
  match Serialize (MkTestTx OpDecr [] name delta) with Ok p => p | Err _ => [] end.

(** The payload of the command [xfer]; [id] is the node's public key and
    [ParseInt]'s error is ignored. *)
Definition xferTx (id amount account : bytes) : bytes :=
  match Serialize (MkTestTx OpXfer (bytesToHexString id) account (ParseInt amount).1) with Ok p => p | Err _ => [] end.

(** [txProcessor] of [main] *)
Definition txProcessor : TxProcessor := λ txs,
  match Deserialize (A:=testTx) (Payload txs) with
  | Err _ => AppReturn false
  | Ok opCode =>
      if decide (tt_Op opCode = OpIncr) then
        app_lookup (tt_Target opCode) (λ v, app_store (tt_Target opCode) (s64 (v + tt_Delta opCode)))
      else if decide (tt_Op opCode = OpDecr) then
        app_lookup (tt_Target opCode) (λ v, app_store (tt_Target opCode) (s64 (v - tt_Delta opCode)))
      else if decide (tt_Op opCode = OpXfer) then
        let amount := Uint64ToRtu (u64 (tt_Delta opCode)) in
        app_Debit (tt_Source opCode) amount (λ err,
          match err with
          | Some _ => AppReturn false
          | None => app_Credit (tt_Target opCode) amount (λ err,
              match err with Some _ => AppReturn false | None => AppReturn true end)
          end)
      else AppReturn false
  end.
End app.

(** The loop of [powApprover] of [main]; an index out of range panics, and
    [&&] does not evaluate its right side when the left is false. *)
Fixpoint powApproverLoop (hash : bytes) (n i : nat) (result : bool) : outcome bool :=
  match n with
  | O => Ret result
  | S n =>
      if result then
        let! b := deref (hash !! i) in powApproverLoop hash n (S i) (bool_decide (b = x00))
      else powApproverLoop hash n (S i) false
  end.

Definition powApprover (hash : bytes) (blockTs parentTs : Z) : outcome bool := powApproverLoop hash 2 0 true.

(** The approver as the platform calls it, on the 64 bytes of a hash *)
Definition app_PowApprover : PowApprover := λ hash blockTs parentTs, match powApprover hash blockTs parentTs with Ret result => result | _ => false end.

Definition app_PeerValidator : PeerValidator := λ _, None.

(** [conf] of [main] *)
Definition app_config (networkId nodeName : bytes) : AppConfig := MkApp (BytesToByte16 networkId) [] nodeName (BytesToByte16 []).
Definition app_service `{Ecdsa, Codec testTx} (key : PrivateKey) : ServiceConfig :=
  MkService _ key (Some txProcessor) (Some app_PowApprover) (Some app_PeerValidator).

(** ** Commands *)

Section commands.
Context {C D W : Type} {wso : WorldState W D} {eng : Engine C D W} {sha : Sha512} {ec : Ecdsa}.

#[local] Notation "'do!' x ':=' e 'in' k" := (M_bind (λ x, k) e)
  (at level 10, x pattern, e at level 100, k at level 200).

(** The command [countr] shows a counter of the best state; a state with a
    [nil] block panics. *)
Definition show_counter (name : bytes) : @M C W ec Z :=
  do! s := mgr_State in
  do! s := M_lift (deref s) in
  do! d := M_gets (λ m, en_db (engine m)) in
  do! (_, val) := M_lift (st_Get name s d) in
  M_ret (s64 (Uint64 (BytesToByte8 (match val with Ok v => v | Err _ => [] end)))).
End commands.
