(* ===== verification/CountrTheorems.v ===== *)
(** * Theorems about the counter application

    What the transaction processor does to a block on every branch, that it
    leaves nothing behind when it rejects, and how the command line's words
    become counters. *)

From Stdlib Require Import Strings.Byte.
From S2P Require Import Prelude Bytes Db Trie TrieSpec TrieFacts WorldState Concrete TrieTheorems WorldStateI Block BlockFacts BlockTheorems.
From S2P Require Import Consensus ConsensusFacts ConsensusTheorems Trustee TrusteeFacts TrusteeTheorems Peers PeersTheorems Platform PlatformFacts Produced PlatformWitnesses Countr.

(** ** Signed integers *)

Lemma s64_range z : - 2 ^ 63 ≤ s64 z < 2 ^ 63.
Proof. unfold s64. pose proof (Z.mod_pos_bound (z + 2 ^ 63) (2 ^ 64)). lia. Qed.

Lemma s64_small z : - 2 ^ 63 ≤ z < 2 ^ 63 → s64 z = z.
Proof. unfold s64. intros. rewrite Z.mod_small; lia. Qed.

Lemma u64_s64 z : u64 (s64 z) = u64 z.
Proof.
  unfold u64, s64. rewrite Zminus_mod_idemp_l. f_equal. lia.
Qed.

Lemma s64_u64 z : s64 (u64 z) = s64 z.
Proof. unfold u64, s64. by rewrite Zplus_mod_idemp_l. Qed.

Lemma u64_add_l a b : u64 (u64 a + b) = u64 (a + b).
Proof. unfold u64. apply Zplus_mod_idemp_l. Qed.

Lemma u64_s64_add a b : u64 (s64 (s64 a + b)) = u64 (a + b).
Proof. by rewrite u64_s64, <- u64_add_l, u64_s64, u64_add_l. Qed.

(** ** The processor *)

(** What an operation adds to the numbers stored under keys *)
Definition changes (o : testTx) : list (bytes * Z) :=
  if decide (tt_Op o = OpIncr) then [(tt_Target o, tt_Delta o)]
  else if decide (tt_Op o = OpDecr) then [(tt_Target o, - tt_Delta o)]
  else [(tt_Source o, - u64 (tt_Delta o)); (tt_Target o, u64 (tt_Delta o))].

Section processor.
Context {D W : Type} {wso : WorldState W D} {cdt : Codec testTx}.
Implicit Types (b : block W) (d : D) (tx : NetTransaction W).

(** When the processor accepts an operation *)
Definition accepted (o : testTx) b d : Prop :=
  tt_Op o = OpIncr ∨ tt_Op o = OpDecr ∨ (tt_Op o = OpXfer ∧ u64 (tt_Delta o) ≤ balance b d (tt_Source o)).

Lemma tx_Lookup_spec key tx d :
  is_Some (worldState (nt_block tx)) →
  ∃ b' r, tx_Lookup key tx d = Ret (MkNetTx W (nt_tx tx) b', r) ∧ same_block (nt_block tx) b' ∧
    (∀ k, bview b' d k = bview (nt_block tx) d k) ∧ match r with Ok v => v | Err _ => [] end = default [] (bview (nt_block tx) d key).
Proof.
  intros Hw. destruct (lookupBytes_spec key (nt_block tx) d Hw) as (b' & Heq & Hs & Hv). unfold lookupBytes in Heq. unfold tx_Lookup.
  destruct (block_Lookup key (nt_block tx) d) as [[b1 r]| |]; [|done..]. cbn [outcome_bind] in *. injection Heq as -> Hr.
  by exists b', r.
Qed.

(** The programs of [network.Debit] and [network.Credit] run those. *)
Lemma app_Debit_run a x k tx d :
  runApp (app_Debit a x k) tx d =
    let! (b, e) := Debit a x (nt_block tx) d in runApp (k e) (MkNetTx W (nt_tx tx) b) d.
Proof.
  unfold app_Debit, Debit, lookupBytes. cbn [runApp]. unfold tx_Lookup.
  destruct (block_Lookup a (nt_block tx) d) as [[b r]| |]; [|done..]. cbn [outcome_bind].
  by destruct (decide (BytesToRtu _ < x)).
Qed.

Lemma app_Credit_run a x k tx d :
  runApp (app_Credit a x k) tx d =
    let! b := Credit a x (nt_block tx) d in runApp (k None) (MkNetTx W (nt_tx tx) b) d.
Proof.
  unfold app_Credit, Credit, lookupBytes. cbn [runApp]. unfold tx_Lookup.
  by destruct (block_Lookup a (nt_block tx) d) as [[b r]| |].
Qed.

(** Reading a counter, changing it and writing it back *)
Lemma app_count_run key x f tx d :
  is_Some (worldState (nt_block tx)) → (∀ v, u64 (f v) = u64 (v + x)) →
  ∃ b', runApp (app_lookup key (λ v, app_store key (f v))) tx d = Ret (MkNetTx W (nt_tx tx) b', true) ∧
    rewarded [(key, x)] (nt_block tx) d b'.
Proof.
  intros Hw Hf. unfold app_lookup. cbn [runApp]. destruct (tx_Lookup_spec key tx d Hw) as (b1 & r & -> & Hs & Hv & Hr).
  cbn [outcome_bind]. set (v := match r with Ok val => s64 _ | Err _ => 0 end).
  assert (v = s64 (balance (nt_block tx) d key)) as Hvv.
  { unfold v, balance, BytesToRtu, Uint64ToRtu. rewrite <- Hr. by destruct r. }
  eexists. split; [done|]. apply (rewarded_cons key x [] (nt_block tx) d (block_Update key (Bytes (Uint64ToByte8 (u64 (f v)))) b1).1); [|apply rewarded_nil].
  split; [etrans; [exact Hs | by eexists]|]. intros k. rewrite bview_update, Hv. case_decide; [|done].
  rewrite Hf, Hvv. unfold rtu_Bytes. do 3 f_equal. by rewrite <- u64_add_l, u64_s64, u64_add_l.
Qed.

Lemma processor_spec o tx d :
  is_Some (worldState (nt_block tx)) → Deserialize (Payload (nt_tx tx)) = Ok o →
  ∃ b' ok, runApp (txProcessor (nt_tx tx)) tx d = Ret (MkNetTx W (nt_tx tx) b', ok) ∧ same_block (nt_block tx) b' ∧
    (ok = true ↔ accepted o (nt_block tx) d) ∧
    (ok = false → ∀ k, bview b' d k = bview (nt_block tx) d k) ∧
    (ok = true → rewarded (changes o) (nt_block tx) d b').
Proof.
  intros Hw Hdes. unfold txProcessor, accepted, changes. rewrite Hdes.
  destruct (decide (tt_Op o = OpIncr)) as [Hi|Hi].
  { destruct (app_count_run (tt_Target o) (tt_Delta o) (λ v, s64 (v + tt_Delta o)) tx d Hw) as (b' & -> & Hr); [intros; apply u64_s64|].
    exists b', true. split; [done|]. split; [apply Hr|]. split; [tauto|]. by split. }
  destruct (decide (tt_Op o = OpDecr)) as [Hd|Hd].
  { destruct (app_count_run (tt_Target o) (- tt_Delta o) (λ v, s64 (v - tt_Delta o)) tx d Hw) as (b' & -> & Hr); [intros; apply u64_s64|].
    exists b', true. split; [done|]. split; [apply Hr|]. split; [tauto|]. by split. }
  destruct (decide (tt_Op o = OpXfer)) as [Hx|Hx].
  2: { exists (nt_block tx), false. split; [by destruct tx|]. split; [reflexivity|].
    split; [split; [done | tauto]|]. by split. }
  rewrite app_Debit_run. unfold Uint64ToRtu. set (x := u64 (tt_Delta o)).
  destruct (Debit_spec (tt_Source o) x (nt_block tx) d Hw (u64_range _)) as (b1 & e & -> & Hcase). cbn [outcome_bind].
  destruct (decide (balance (nt_block tx) d (tt_Source o) < x)) as [Hlow|Hlow].
  - destruct Hcase as (He & Hs & Hv). destruct e as [e|]; [|done]. exists b1, false. split; [done|]. split; [done|].
    split; [split; [done|]; intros [?|[?|[_ ?]]]; [done..|lia]|]. by split.
  - destruct Hcase as [-> Hp]. rewrite app_Credit_run. cbn [nt_block nt_tx].
    destruct (Credit_spec (tt_Target o) x b1 d) as (b2 & -> & Hp2); [by rewrite (same_block_state (nt_block tx) b1) by apply Hp|].
    cbn [outcome_bind]. exists b2, true. split; [done|]. split; [etrans; [apply Hp | apply Hp2]|].
    split; [split; [|done]; intros _; right; right; split; [done | lia]|]. split; [done|]. intros _.
    eapply rewarded_cons; [|eapply rewarded_cons; [exact Hp2 | apply rewarded_nil]].
    rewrite u64_small; [exact Hp|]. pose proof (balance_range (nt_block tx) d (tt_Source o)). pose proof (u64_range (tt_Delta o)) as Hr. fold x in Hr.
    unfold is_u64 in *. lia.
Qed.

(** C26: The transaction processor of the counter application accepts exactly increments,
    decrements and covered transfers; it then changes the stored numbers by exactly the
    operation's amounts modulo 2^64 and no other key, and a rejected operation changes nothing
    that the block reads. *)
Theorem countr_processing_exact o tx d :
  is_Some (worldState (nt_block tx)) → Deserialize (Payload (nt_tx tx)) = Ok o →
  ∃ b' ok, runApp (txProcessor (nt_tx tx)) tx d = Ret (MkNetTx W (nt_tx tx) b', ok) ∧ same_block (nt_block tx) b' ∧
    (ok = true ↔ accepted o (nt_block tx) d) ∧
    (ok = false → ∀ k, bview b' d k = bview (nt_block tx) d k) ∧
    (ok = true →
      (∀ k, balance b' d k = u64 (balance (nt_block tx) d k + owed (changes o) k)) ∧
      (∀ k, k ∉ map fst (changes o) → bview b' d k = bview (nt_block tx) d k)).
Proof.
  intros Hw Hdes. destruct (processor_spec o tx d Hw Hdes) as (b' & ok & Heq & Hs & Hiff & Hno & Hyes).
  exists b', ok. do 4 (split; [done|]). intros Hok. specialize (Hyes Hok). split; [intros k; by apply rewarded_balance|].
  intros k Hk. destruct Hyes as [_ ->]. by rewrite decide_False.
Qed.

(** The counter application leaves no write behind when it rejects a transaction, as the theorem
    about produced blocks asks of applications. *)
Theorem countr_rejects_cleanly parent (tx : Transaction) : rejects_cleanly parent (txProcessor tx).
Proof.
  intros writes writes'. unfold txProcessor. destruct (Deserialize (A:=testTx) (Payload tx)) as [o|e]; [|by intros [= <-]].
  repeat case_decide; cbn [app_lookup app_store specApp]; [done | done | | by intros [= <-]].
  unfold app_Debit, app_Credit. cbn [specApp]. case_decide; [by intros [= <-] | done].
Qed.
End processor.

(** Counting in the hexadecimal name of an account changes its balance of
    mining rewards: both are kept in the same world state under the same key. *)
Theorem counter_increment_mints_balance {D W : Type} {wso : WorldState W D} {cdt : Codec testTx} address delta (tx : NetTransaction W) (d : D) :
  is_Some (worldState (nt_block tx)) →
  Deserialize (Payload (nt_tx tx)) = Ok (MkTestTx OpIncr [] (bytesToHexString address) delta) →
  ∃ tx' b1 b2, runApp (txProcessor (nt_tx tx)) tx d = Ret (tx', true) ∧
    trustee_MiningRewardBalance address (nt_block tx) d = Ret (b1, balance (nt_block tx) d (bytesToHexString address)) ∧
    trustee_MiningRewardBalance address (nt_block tx') d =
      Ret (b2, u64 (balance (nt_block tx) d (bytesToHexString address) + delta)).
Proof.
  intros Hw Hdes. destruct (processor_spec _ tx d Hw Hdes) as (b' & ok & -> & Hs & Hiff & _ & Hyes).
  assert (ok = true) as -> by (apply Hiff; by left). specialize (Hyes eq_refl).
  assert (∀ b : block W, is_Some (worldState b) → ∃ b1, trustee_MiningRewardBalance address b d = Ret (b1, balance b d (bytesToHexString address))) as Hbal.
  { intros b Hb. unfold trustee_MiningRewardBalance, MiningRewardBalance.
    destruct (lookupBytes_spec (bytesToHexString address) b d Hb) as (b1 & -> & _). by exists b1. }
  destruct (Hbal (nt_block tx) Hw) as [b1 H1]. destruct (Hbal b') as [b2 H2]; [by rewrite (same_block_state _ _ Hs)|].
  exists (MkNetTx W (nt_tx tx) b'), b1, b2. split; [done|]. split; [done|]. cbn [nt_block]. rewrite H2. do 2 f_equal.
  rewrite (rewarded_balance _ _ _ _ _ Hyes). f_equal. f_equal. unfold changes, owed. cbn [foldr fst snd tt_Op tt_Target tt_Delta]. rewrite decide_True by done.
  cbn [foldr fst snd]. rewrite decide_True by done. lia.
Qed.

(** The approver looks at the first two bytes. *)
Lemma powApprover_spec hash ts delta :
  (2 ≤ length hash)%nat →
  powApprover hash ts delta = Ret (bool_decide (take 2 hash = [x00; x00])) ∧
  app_PowApprover hash ts delta = bool_decide (take 2 hash = [x00; x00]).
Proof.
  intros Hl. destruct hash as [|b1 [|b2 hash]]; cbn [length] in Hl; [lia..|].
  assert (powApprover (b1 :: b2 :: hash) ts delta = Ret (bool_decide (take 2 (b1 :: b2 :: hash) = [x00; x00]))) as Heq.
  { unfold powApprover. cbn. destruct (decide (b1 = x00)) as [->|Hn1].
    - rewrite (bool_decide_eq_true_2 (x00 = x00)) by done. cbn. f_equal. apply bool_decide_ext. rewrite take_0. split; [by intros -> | by intros [= ->]].
    - rewrite (bool_decide_eq_false_2 (b1 = x00)) by done. f_equal. symmetry. apply bool_decide_eq_false_2. by intros [= -> _]. }
  split; [done|]. unfold app_PowApprover. by rewrite Heq.
Qed.

(** ** The command line *)

(** The words that give an operation *)
Inductive op_words : op → list bytes → Prop :=
  | words_name name : name ≠ [] → Atoi name = None → op_words (MkCounterOp name 1) [name]
  | words_delta name number delta : name ≠ [] → Atoi name = None → Atoi number = Some delta →
      op_words (MkCounterOp name delta) [name; number].

(** The operations that are complete after what was read *)
Definition flushed (s : list op * op * bool) : list op := let '(ops, cur, open) := s in if open : bool then ops ++ [cur] else ops.

Lemma scan_items ops wss : Forall2 op_words ops wss → ∀ acc cur open, ∃ acc' cur' open',
  (∀ rest, scanLoop (concat wss ++ rest) acc cur open = scanLoop rest acc' cur' open') ∧
  flushed (acc', cur', open') = flushed (acc, cur, open) ++ ops ∧
  ((wss = [] ∧ op_name cur = [] ∧ open = false) ∨ (∃ name number, list.last wss = Some [name; number]) → op_name cur' = [] ∧ open' = false).
Proof.
  induction 1 as [|o ws ops wss Hw Hall IH]; intros acc cur open; cbn [concat].
  - exists acc, cur, open. split; [done|]. rewrite app_nil_r. split; [done|]. by intros [(_ & ? & ?)|(? & ? & [=])].
  - assert (∃ acc1 cur1 open1, (∀ rest, scanLoop (ws ++ rest) acc cur open = scanLoop rest acc1 cur1 open1) ∧
      flushed (acc1, cur1, open1) = flushed (acc, cur, open) ++ [o] ∧
      ((∃ name number, ws = [name; number]) → op_name cur1 = [] ∧ open1 = false)) as (acc1 & cur1 & open1 & Hrun & Hf & Hend).
    { inversion Hw as [name Hne Hname|name number delta Hne Hname Hnum]; subst.
      - eexists _, _, true. split; [intros rest; simpl; by rewrite Hname|]. split; [done|]. by intros (? & ? & [=]).
      - eexists _, _, false. split; [intros rest; simpl; rewrite Hname, Hnum, decide_False by done; reflexivity|]. by split. }
    destruct (IH acc1 cur1 open1) as (acc' & cur' & open' & Hrun' & Hf' & Hend').
    exists acc', cur', open'. split; [intros rest; by rewrite <- app_assoc, Hrun|].
    split; [by rewrite Hf', Hf, <- app_assoc|]. intros [(? & _)|(name & number & Hlast)]; [done|]. apply Hend'.
    destruct wss as [|ws' wss]; [|right; by exists name, number]. left. injection Hlast as Hlast. split; [done|]. apply Hend. by exists name, number.
Qed.

(** The words of complete operations are read as these operations; a number that does not follow
    a name ends the reading and the words after it are left to the command line. *)
Theorem scan_ops_exact ops wss number delta rest :
  Forall2 op_words ops wss → Atoi number = Some delta → (wss = [] ∨ ∃ name number', list.last wss = Some [name; number']) →
  scanOps (concat wss ++ number :: rest) = (ops, rest).
Proof.
  intros Hall Hnum Hlast. unfold scanOps. destruct (scan_items ops wss Hall [] (MkCounterOp [] 0) false) as (acc & cur & open & Hrun & Hf & Hend).
  rewrite Hrun. cbn [scanLoop]. rewrite Hnum. destruct Hend as [Hcur ->]; [destruct Hlast as [->|?]; [by left | by right]|].
  rewrite decide_True by done. cbn in Hf. by rewrite Hf.
Qed.

Lemma scanOps_words ops wss : Forall2 op_words ops wss → scanOps (concat wss) = (ops, []).
Proof.
  intros Hall. unfold scanOps. destruct (scan_items ops wss Hall [] (MkCounterOp [] 0) false) as (acc & cur & open & Hrun & Hf & _).
  specialize (Hrun []). rewrite app_nil_r in Hrun. rewrite Hrun. cbn [scanLoop]. cbn in Hf. by rewrite <- Hf.
Qed.

(** ** Increments *)

(** What operations add to a counter *)
Definition added (ops : list op) (k : bytes) : Z :=
  foldr (λ o acc, (if decide (op_name o = k) then op_delta o else 0) + acc) 0 ops.

Section commands.
Context {C D W : Type} {wso : WorldState W D} {eng : Engine C D W} {sha : Sha512} {ec : Ecdsa}.
Context {cdt : Codec testTx} {cdtl : CodecLaws testTx}.
Abbreviation mgr := (platformManager C W).
Implicit Types (m : mgr) (b : block W).

(** Processing the transactions of increments adds their amounts up. *)
Lemma processTxs_adds_up m txs ops : ∀ b,
  sc_TxProcessor (cf_Service (config m)) = Some txProcessor → is_Some (worldState b) →
  Forall2 (λ tx o, Payload tx = incrementTx (op_name o) (op_delta o)) txs ops →
  ∃ b', processTxs txs b m = Ret (m, (b', true)) ∧ same_block b b' ∧
    ∀ k, balance b' (en_db (engine m)) k = u64 (balance b (en_db (engine m)) k + added ops k).
Proof.
  revert ops. induction txs as [|tx txs IH]; intros ops b Hproc Hw Hall; inversion Hall as [|? o ? ops' Hp Hrest]; subst; cbn [processTxs].
  - exists b. split; [done|]. split; [reflexivity|]. intros k. simpl. by rewrite Z.add_0_r, u64_small by apply balance_range.
  - destruct (serialize_ok (MkTestTx OpIncr [] (op_name o) (op_delta o))) as [p Hser].
    unfold incrementTx in Hp. rewrite Hser in Hp.
    destruct (processor_spec (MkTestTx OpIncr [] (op_name o) (op_delta o)) (MkNetTx W tx b) (en_db (engine m))) as (b1 & ok & Hrun & Hs & Hiff & _ & Hyes);
      [done | cbn [nt_tx]; rewrite Hp; by apply deserialize_serialize|]. cbn [nt_tx nt_block] in *.
    assert (ok = true) as -> by (apply Hiff; by left). specialize (Hyes eq_refl).
    destruct (IH ops' b1 Hproc) as (b' & Hr & Hs' & Hbal); [by rewrite (same_block_state _ _ Hs)|done|].
    exists b'. rewrite (run_bind _ _ m m (b1, true)).
    2: { unfold processTx, M_bind, M_gets, M_lift. cbn [outcome_bind]. rewrite Hproc. cbn [deref outcome_bind]. by rewrite Hrun. }
    split; [exact Hr|]. split; [by etrans|]. intros k. rewrite Hbal, (rewarded_balance _ _ _ _ _ Hyes), u64_add_l. f_equal.
    rewrite <- Z.add_assoc. f_equal. unfold changes, owed. cbn [tt_Op tt_Target tt_Delta]. rewrite decide_True by done.
    cbn [foldr fst snd added]. fold (added ops' k). lia.
Qed.
End commands.

(** ** Witnesses *)

#[global] Instance wire_testTx : Wire testTx :=
  wire_iso (λ t, (tt_Op t, tt_Source t, tt_Target t, tt_Delta t)) (λ '(o, s, t, d), MkTestTx o s t d)
    (λ t, match t with MkTestTx _ _ _ _ => eq_refl end).

Section witnesses.
#[local] Existing Instances w_hash w_codec w_laws w_ops w_spec_codec w_cn_codec w_ops_codec w_sig_codec.
#[local] Existing Instances w_rlp_spec w_engine.
#[local] Instance w_test_codec : Codec testTx := codec_of_wire.
#[local] Instance w_test_laws : CodecLaws testTx := codec_of_wire_laws.

(** A transfer of 70 from the account of the candidate's miner. *)
Definition w_xfer : testTx := MkTestTx OpXfer (bytesToHexString (myAddress w_trustee)) [x61] 70.
Definition w_xfer_tx : NetTransaction MptWorldState :=
  MkNetTx _ (Tx (enc w_xfer) [] [] (Uint64ToByte8 4)) w_candidate.

Lemma countr_processing_exact_witness :
  ∃ b' ok, runApp (txProcessor (nt_tx w_xfer_tx)) w_xfer_tx w_db = Ret (MkNetTx _ (nt_tx w_xfer_tx) b', ok).
Proof.
  assert (Deserialize (Payload (nt_tx w_xfer_tx)) = Ok w_xfer) as H by (vm_compute; reflexivity).
  destruct (countr_processing_exact w_xfer w_xfer_tx w_db (mk_is_Some _ _ eq_refl) H) as (b' & ok & Hrun & _).
  exists b', ok. exact Hrun.
Defined.

(** The words [alice 5 bob carol -2], and a line that goes on with a number. *)
Definition w_ops_read : list op := [MkCounterOp [x61] 5; MkCounterOp [x62] 1; MkCounterOp [x63] (-2)].
Definition w_words : list (list bytes) := [[[x61]; [x35]]; [[x62]]; [[x63]; [x2d; x32]]].
Lemma w_words_ok : Forall2 op_words w_ops_read w_words.
Proof. repeat constructor; done. Qed.

Lemma scan_ops_exact_witness : scanOps (concat w_words ++ [x37] :: [[x64]]) = (w_ops_read, [[x64]]).
Proof.
  apply (scan_ops_exact w_ops_read w_words [x37] 7 [[x64]]).
  - exact w_words_ok.
  - reflexivity.
  - right. exists [x63], [x2d; x32]. reflexivity.
Defined.

Definition w_countr : platformManager (H:=sample_ecdsa) (BlockChainConsensus MptWorldState * gmap bytes bytes) MptWorldState :=
  Mgr _ _ _ (MkConfig _ w_app (app_service (H:=sample_ecdsa) 5) None []) (MkTrustee 0 [] (MkOp [] ∅)) (w_dead_chain, ∅) [] None
    NewPeerSetDbInMemory ∅ ∅ 0 false ∅ [] 0%N.

(** Numbers: signs, range, and a word out of range that is taken for a name *)
Example w_atoi : Atoi (str_bytes "-12") = Some (-12) ∧ Atoi (str_bytes "+7") = Some 7 ∧ Atoi (str_bytes "9223372036854775808") = None ∧
  ParseInt (str_bytes "-9223372036854775809") = (- 2 ^ 63, Some (StdError "value out of range")).
Proof. vm_compute. done. Qed.
End witnesses.
