(* ===== verification/Cli.v ===== *)
(** * The command line of the counter application ([src/countrApp/app.go])

    Definitions only: [CLI] with every command, and [main].  The terminal is
    the state: the platform manager, the log level, what was printed, and the
    calls made so far.  Other goroutines of the node run between two calls of
    the command line: what they do to the manager before the [i]th call is the
    parameter [others i], and what the call gets from outside is [envs i].
    What those goroutines print and log is left out of the output and the log.

    Standard input is the list of the lines that each scanner delivers up to
    an end of file; after the last one there is only an end of file. *)

From Stdlib Require Import Strings.Byte.
From S2P Require Import Prelude Bytes Db LevelDb Config Logger WorldStateI Block Consensus Trustee Text Peers Platform Countr.

(** [const cmdPrompt] *)
Definition cmdPrompt : bytes := str_bytes "Command: ".
Definition nl : bytes := [x0a].
Definition quote : bytes := [x22].

(** The calls of the platform manager that the command line makes *)
Inductive request :=
  | RState
  | RPeers
  | RStatus (txId : Byte64)
  | RBalance (miner : bytes)
  | RSubmit (tx : Transaction).

(** [wordScanner.Scan()] followed by [wordScanner.Text()]: the next word, which
    is empty after the last one *)
Definition next (words : list bytes) : bytes * list bytes :=
  match words with [] => ([], []) | w :: words => (w, words) end.

Section cli.
Context {C D W : Type} {wso : WorldState W D} {eng : Engine C D W} {sha : Sha512} {ec : Ecdsa}.
Context {cdt : Codec testTx}.
Context {H Node : Type}.
(** [time.Unix(0, ns).Format(...)] *)
Context (fmtTime : Z → bytes).
Context (others : nat → platformManager C W → platformManager C W) (envs : nat → env).

(** The terminal *)
Record terminal := Term {
  t_mgr : platformManager C W;
  t_log : logState (A:=bytes);
  t_out : bytes;
  t_calls : list request;
}.

(** A command runs on the terminal; it may wait forever. *)
Definition T (A : Type) : Type := terminal → outcome (terminal * call A).
Definition T_ret {A} (a : A) : T A := λ t, Ret (t, Returned a).
Definition T_bind {A B} (x : T A) (f : A → T B) : T B := λ t,
  let! (t, r) := x t in match r with Returned a => f a t | Blocked => Ret (t, Blocked) end.
Definition T_lift {A} (o : outcome A) : T A := λ t, let! a := o in Ret (t, Returned a).

#[local] Notation "'get!' x ':=' e 'in' k" := (T_bind e (λ x, k))
  (at level 10, x pattern, e at level 100, k at level 200).
#[local] Notation "'then!' e 'in' k" := (T_bind e (λ _, k)) (at level 10, e at level 100, k at level 200).

(** [fmt.Printf] *)
Definition print (s : bytes) : T unit := λ t,
  Ret (Term (t_mgr t) (t_log t) (t_out t ++ s) (t_calls t), Returned tt).
Definition setLevel (level : Z) : T unit := λ t,
  Ret (Term (t_mgr t) (SetLogLevel level (t_log t)) (t_out t) (t_calls t), Returned tt).

(** A call of the manager, after what others did *)
Definition ask {A} (q : request) (x : M A) : T A := λ t,
  let! (m, a) := x (others (length (t_calls t)) (t_mgr t)) in
  Ret (Term m (t_log t) (t_out t) (t_calls t ++ [q]), Returned a).

(** [counterMgr.Submit(payload, nil, myId)] *)
Definition submit (myId payload : bytes) : T Byte64 := λ t,
  let e := envs (length (t_calls t)) in
  let! (m, r) := Submit e payload [] myId (others (length (t_calls t)) (t_mgr t)) in
  match r with
  | Blocked => Ret (Term m (t_log t) (t_out t) (t_calls t), Blocked)
  | Returned id =>
      Ret (Term m (t_log t) (t_out t) (t_calls t ++ [RSubmit (NewTransaction (e_now e) payload [] myId)]), Returned id)
  end.

(** ** Commands: each reads its arguments and returns the words it leaves *)

Definition cmd_log (words : list bytes) : T (list bytes) :=
  let '(level, words) := next words in
  then!
    (if decide (level = []) then print (str_bytes "usage: log <DEBUG|INFO|ERROR>" ++ nl)
     else if decide (level = str_bytes "DEBUG") then setLevel DEBUG
     else if decide (level = str_bytes "INFO") then setLevel INFO
     else if decide (level = str_bytes "ERROR") then setLevel ERROR
     else print (str_bytes "Invalid log level '" ++ level ++ str_bytes "'" ++ nl)) in
  T_ret words.

Fixpoint countrLoop (words : list bytes) (oneDone : bool) : T bool :=
  match words with
  | [] => T_ret oneDone
  | name :: words =>
      if decide (name = []) then countrLoop words oneDone
      else
        then! (if oneDone then print nl else T_ret tt) in
        get! val := ask RState (show_counter name) in
        then! print (fmt_10s name ++ str_bytes ": " ++ fmt_i val) in
        countrLoop words true
  end.

Definition cmd_countr (words : list bytes) : T (list bytes) :=
  get! oneDone := countrLoop words false in
  then! (if oneDone then T_ret tt else print (str_bytes "usage: countr <countr name> ..." ++ nl)) in
  T_ret [].

(** The loop of the commands [incr] and [decr] over their operations *)
Fixpoint submitOps (cmd : bytes) (mkTx : bytes → Z → bytes) (myId : bytes) (ops : list op) : T unit :=
  match ops with
  | [] => T_ret tt
  | o :: ops =>
      get! txId := submit myId (mkTx (op_name o) (op_delta o)) in
      then! print (str_bytes "adding transaction: " ++ cmd ++ str_bytes " " ++ op_name o ++ str_bytes " " ++
        fmt_i (op_delta o) ++ nl ++ str_bytes "TX ID: " ++ bytesToHexString (Bytes txId) ++ nl) in
      submitOps cmd mkTx myId ops
  end.

Definition cmd_ops (cmd : bytes) (mkTx : bytes → Z → bytes) (myId : bytes) (words : list bytes) : T (list bytes) :=
  let '(ops, words) := scanOps words in
  then!
    (if decide (ops = []) then
       print (str_bytes "usage: " ++ cmd ++ str_bytes " <countr name> [<integer>] ..." ++ nl)
     else submitOps cmd mkTx myId ops) in
  T_ret words.

Fixpoint peersLoop (peers : list AppConfig) : T unit :=
  match peers with
  | [] => T_ret tt
  | peer :: peers =>
      get! balance := ask (RBalance (ac_NodeId peer)) (mgr_MiningRewardBalance (ac_NodeId peer)) in
      then! print (fmt_10s (quote ++ ac_NodeName peer) ++ quote ++ str_bytes " [" ++ fmt_rtu balance ++
        str_bytes " RTU] : " ++ bytesToHexString (ac_NodeId peer) ++ nl) in
      peersLoop peers
  end.

Definition cmd_peers (words : list bytes) : T (list bytes) :=
  get! peers := ask RPeers Peers in
  then! peersLoop peers in
  T_ret words.

(** What the command [tx] prints for the status of a transaction; an error
    that is not a [*core.CoreError] panics. *)
Definition showStatus (status : option (block W) * option error) : T unit :=
  match status with
  | (b, None) =>
      get! b := T_lift (deref b) in
      print (str_bytes "Transaction accepted at depth " ++ fmt_i (Uint64 (Depth b)) ++ str_bytes " @ " ++
        fmtTime (s64 (Uint64 (block_Timestamp b))) ++ nl)
  | (b, Some err) =>
      get! code := T_lift (deref (error_code err)) in
      if decide (code = ERR_TX_NOT_APPLIED) then
        match b with
        | None => print (str_bytes "Transaction rejected" ++ nl)
        | Some _ => print (str_bytes "Transaction not in canonical chain" ++ nl)
        end
      else if decide (code = ERR_TX_NOT_FOUND) then print (str_bytes "Transaction not submitted" ++ nl)
      else T_ret tt
  end.

Definition cmd_tx (words : list bytes) : T (list bytes) :=
  let '(tx, words) := next words in
  then!
    (if decide (tx = []) then print (str_bytes "usage: tx <transaction id>" ++ nl)
     else
       match hexDecode tx with
       | inr bs =>
           get! status := ask (RStatus (BytesToByte64 bs)) (Status (BytesToByte64 bs)) in
           showStatus status
       | inl err => print (str_bytes "Invalid tx: " ++ hexErrorString err ++ nl)
       end) in
  T_ret words.

Definition cmd_balance (words : list bytes) : T (list bytes) :=
  let '(account, words) := next words in
  then!
    (if decide (account = []) then print (str_bytes "usage: balance <account number>" ++ nl)
     else
       match hexDecode account with
       | inr bs =>
           get! balance := ask (RBalance bs) (mgr_MiningRewardBalance bs) in
           print (fmt_rtu balance ++ str_bytes " RTU" ++ nl)
       | inl err => print (str_bytes "Invalid address: " ++ hexErrorString err ++ nl)
       end) in
  T_ret words.

Definition cmd_xfer (cfg : option (Config.config H Node)) (myId : bytes) (words : list bytes) : T (list bytes) :=
  let '(amount, words) := next words in
  let '(account, words) := next words in
  then!
    (if decide (amount = [] ∨ account = []) then
       print (str_bytes "usage: xfer <amount> <account number>" ++ nl)
     else
       then! print (str_bytes "adding transaction: xfer " ++ fmt_i (ParseInt amount).1 ++ str_bytes " --> " ++ account ++ nl) in
       get! cfg := T_lift (deref cfg) in
       then! submit myId (xferTx (Config.id cfg) amount account) in
       T_ret tt) in
  T_ret words.

Definition cmd_info (cfg : option (Config.config H Node)) (words : list bytes) : T (list bytes) :=
  get! s := ask RState mgr_State in
  get! s := T_lift (deref s) in
  get! cfg := T_lift (deref cfg) in
  then! print (str_bytes "#######################" ++ nl ++
    str_bytes "Node Name: " ++ nodeName cfg ++ nl ++
    str_bytes "Node ID  : " ++ bytesToHexString (Config.id cfg) ++ nl) in
  get! reward := ask (RBalance []) (mgr_MiningRewardBalance []) in
  then! print (str_bytes "Reward   : " ++ fmt_rtu reward ++ str_bytes " RTU" ++ nl ++
    str_bytes "Network  : " ++ networkId cfg ++ nl) in
  get! tip := T_lift (st_Tip s) in
  then! print (str_bytes "TIP      : " ++ bytesToHexString (Bytes tip) ++ nl ++
    str_bytes "Depth    : " ++ fmt_i (st_Depth s) ++ nl ++
    str_bytes "Weight   : " ++ fmt_i (st_Weight s) ++ nl ++
    str_bytes "Timestamp: " ++ fmtTime (s64 (st_Timestamp s)) ++ nl ++
    str_bytes "#######################") in
  T_ret words.

Definition cmd_unknown (cmd : bytes) (words : list bytes) : T (list bytes) :=
  then! print (str_bytes "Unknown Command: " ++ cmd ++ concat (map (app (str_bytes " ")) words)) in
  T_ret [].

(** ** The loops of [CLI] *)

(** The [switch] over the command; [None] leaves [CLI]. *)
Definition runCommand (cfg : option (Config.config H Node)) (myId cmd : bytes) (words : list bytes)
    : T (option (list bytes)) :=
  if decide (cmd = str_bytes "quit" ∨ cmd = str_bytes "q") then T_ret None
  else
    get! words :=
      (if decide (cmd = str_bytes "log") then cmd_log words
       else if decide (cmd = str_bytes "countr") then cmd_countr words
       else if decide (cmd = OpIncr) then cmd_ops OpIncr incrementTx myId words
       else if decide (cmd = OpDecr) then cmd_ops OpDecr decrementTx myId words
       else if decide (cmd = str_bytes "peers") then cmd_peers words
       else if decide (cmd = str_bytes "tx") then cmd_tx words
       else if decide (cmd = str_bytes "balance") then cmd_balance words
       else if decide (cmd = OpXfer) then cmd_xfer cfg myId words
       else if decide (cmd = str_bytes "info") then cmd_info cfg words
       else cmd_unknown cmd words) in
    T_ret (Some words).

(** The words of a line; [true] leaves [CLI]. *)
Fixpoint wordLoop (fuel : nat) (cfg : option (Config.config H Node)) (myId : bytes) (words : list bytes) : T bool :=
  match words with
  | [] => T_ret false
  | cmd :: words =>
      match fuel with
      | O => λ _, OutOfFuel
      | S fuel =>
          get! r := runCommand cfg myId cmd words in
          match r with None => T_ret true | Some words => wordLoop fuel cfg myId words end
      end
  end.

(** The lines that one scanner delivers *)
Fixpoint lineLoop (cfg : option (Config.config H Node)) (myId : bytes) (lines : list bytes) : T bool :=
  match lines with
  | [] => T_ret false
  | line :: lines =>
      let words := ScanWords line in
      get! quit := wordLoop (length words) cfg myId words in
      if quit : bool then T_ret true
      else then! print (nl ++ cmdPrompt) in lineLoop cfg myId lines
  end.

(** [func CLI(c chan int, counterMgr network.PlatformManager)] *)
Fixpoint CLI (fuel : nat) (cfg : option (Config.config H Node)) (myId : bytes) (stdin : list (list bytes)) : T unit :=
  match fuel with
  | O => λ _, OutOfFuel
  | S fuel =>
      then! print cmdPrompt in
      get! quit := lineLoop cfg myId (match stdin with [] => [] | lines :: _ => lines end) in
      if quit : bool then T_ret tt else CLI fuel cfg myId (tail stdin)
  end.
End cli.
Arguments terminal C W {_}.

(** ** The p2p server and [main] *)

(** [p2p.Config], without the protocols, whose handler is [connect] and
    [listen] of [Platform], and the logger; [NAT] is whether it is [nat.Any()]. *)
Record p2pConfig `{Ecdsa} {Node : Type} := MkP2P {
  MaxPeers : Z;
  p2p_PrivateKey : PrivateKey;
  p2p_Name : bytes;
  ListenAddr : bytes;
  NAT : bool;
  BootstrapNodes : list Node;
}.
Arguments p2pConfig {_} Node.

Definition maxPeerCount : Z := 10.

Section main.
Context {L H : Type} {lib : LevelDB L H} {jp : Json configParams} {jk : Json keyPair}.
Context {Node : Type} (ParseNode : bytes → result Node) (Node_String : Node → bytes) (FromPub : Z → Z → bytes).
Context {C W : Type} (wso : DatabaseLevelDB H → WorldState W L) (eng : DatabaseLevelDB H → Engine C L W).
Context {sha : Sha512} {ec : Ecdsa} {cdt : Codec testTx}.
(** The library's private key for the numbers of a key, and what starting the
    p2p server gives: the id of this node *)
Context (privateKey : ecKey → PrivateKey) (server_Start : p2pConfig Node → result bytes).
Context (fmtTime : Z → bytes).
Context (others : nat → platformManager C W → platformManager C W) (envs : nat → env).

(** The loop over the bootstrap nodes in [configureP2P] *)
Fixpoint p2pBootnodes (bs : list bytes) (acc : list Node) : result (list Node) :=
  match bs with
  | [] => Ok acc
  | b :: bs =>
      match ParseNode b with
      | Ok enode => p2pBootnodes bs (acc ++ [enode])
      | Err err => Err err
      end
  end.

(** [func (mgr *platformManager) configureP2P() error]: the id of the node *)
Definition configureP2P (app : AppConfig) (srv : ServiceConfig) (port : bytes) (nat : bool) (bootnodes : list bytes)
    : result bytes :=
  match p2pBootnodes bootnodes [] with
  | Err err => Err err
  | Ok nodes => server_Start (MkP2P _ _ maxPeerCount (sc_IdentityKey srv) (ac_NodeName app) (str_bytes ":" ++ port) nat nodes)
  end.

(** What is left when the program ends: the manager, if there was one, with
    what [Stop] returned, and what was printed and logged *)
Record ended := Ended {
  end_process : Config.process L H Node;
  end_out : bytes;
  end_log : logState (A:=bytes);
  end_stop : option (platformManager C W * call (option error));
}.

(** [log.AppLogger().Info(msg)] *)
Definition appInfo (getenv : bytes → bytes) (creates : bytes → bool) (msg : bytes) (s : logState (A:=bytes)) : logState :=
  let '(s, l) := AppLogger getenv creates s in Logger.Info l msg [] s.

(** [func main()] after [flag.Parse()]; [CLI] runs in a goroutine that [main]
    waits for.  The flag [natEnabled] goes into the configuration only. *)
Definition main (fuel : nat) (gen : option ecKey) (getenv : bytes → bytes) (creates : bytes → bool)
    (fileName port : bytes) (natEnabled : bool) (stdin : list (list bytes))
    (p : Config.process L H Node) (lg : logState (A:=bytes)) : outcome ended :=
  let! (p, err) := InitializeConfig ParseNode FromPub gen (Some fileName) (Some port) (Some natEnabled) p in
  match err with
  | Some err => Ret (Ended p (str_bytes "Failed to initialize configuration: " ++ str_bytes (ce_Error err) ++ nl) lg None)
  | None =>
      let! cfg := deref (match Config p with inr c => Some c | inl _ => None end) in
      let myId := Config.id cfg in
      let! listen := deref (Config.port cfg) in
      let out := str_bytes "Starting node, listening on " ++ listen ++ str_bytes "..." ++ nl in
      let lg := SetLogLevel DEBUG lg in
      let app := app_config (networkId cfg) (nodeName cfg) in
      let srv := app_service (privateKey (Config.key cfg)) in
      let! r := NewPlatformManager (eng:=eng (Config.db cfg)) (Some app) (Some srv) (Some (ps_ldb p))
                  (configureP2P app srv port false (BootnodeStrings Node_String cfg)) in
      match r with
      | Err err => Ret (Ended p (out ++ str_bytes "Failed to instantiate platform layer: " ++ str_bytes (Error_string err) ++ nl) lg None)
      | Ok m =>
          let! (m, _) := Start m in
          let lg := appInfo getenv creates (str_bytes "starting CLI now...") lg in
          let! (t, r) := CLI (wso:=wso (Config.db cfg)) (eng:=eng (Config.db cfg)) fmtTime others envs fuel (Some cfg) myId stdin (Term m lg out []) in
          match r with
          | Blocked => Ret (Ended p (t_out t) (t_log t) (Some (t_mgr t, Blocked)))
          | Returned _ =>
              let lg := appInfo getenv creates (str_bytes "done.") (t_log t) in
              let d := en_db (Engine:=eng (Config.db cfg)) (engine (t_mgr t)) in
              let '(d', closed) := leveldb_Close (Config.db cfg) d in
              let! (m, r) := Stop closed (t_mgr t) in
              match r with
              | Blocked => Ret (Ended (MkProcess (ps_c p) (ps_files p) d) (t_out t) lg (Some (m, Blocked)))
              | Returned e => Ret (Ended (MkProcess (ps_c p) (ps_files p) d') (t_out t) lg (Some (m, Returned e)))
              end
          end
      end
  end.
End main.
