(* ===== verification/CliTheorems.v ===== *)
(** * Theorems about the command line of the counter application

    A session of the command line does what the words typed say and nothing
    else, returns when it is told to quit and never otherwise; what it prints
    for a transaction leads back to that transaction; and [main] closes what it
    opened. *)

From Stdlib Require Import Strings.Byte.
From S2P Require Import Prelude Bytes Db LevelDb Config ConfigTheorems Logger Trie TrieSpec TrieFacts WorldState Concrete TrieTheorems WorldStateI Block BlockFacts BlockTheorems.
From S2P Require Import Consensus ConsensusFacts ConsensusTheorems Trustee TrusteeFacts TrusteeTheorems Text Peers PeersTheorems Platform PlatformFacts Produced PlatformWitnesses Countr CountrTheorems Cli.

(** ** What a session should do *)

(** What the command line changes: the log level, and the transactions it
    submits *)
Inductive effect := ELevel (level : Z) | ESubmit (payload : bytes).

Definition submits (es : list effect) : list bytes :=
  omap (λ e, match e with ESubmit p => Some p | ELevel _ => None end) es.
Definition lastLevel (l : Z) (es : list effect) : Z :=
  foldl (λ l e, match e with ELevel l' => l' | ESubmit _ => l end) l es.

Lemma submits_app es es' : submits (es ++ es') = submits es ++ submits es'.
Proof. apply omap_app. Qed.
Lemma lastLevel_app l es es' : lastLevel l (es ++ es') = lastLevel (lastLevel l es) es'.
Proof. apply foldl_app. Qed.

Definition is_quit (cmd : bytes) : Prop := cmd = str_bytes "quit" ∨ cmd = str_bytes "q".

Definition levelOf (level : bytes) : list effect :=
  if decide (level = str_bytes "DEBUG") then [ELevel DEBUG]
  else if decide (level = str_bytes "INFO") then [ELevel INFO]
  else if decide (level = str_bytes "ERROR") then [ELevel ERROR]
  else [].

Section script.
Context {cdt : Codec testTx} (id : bytes).

(** What a command does, and the words that are left after its arguments *)
Definition meaning (cmd : bytes) (words : list bytes) : list effect * list bytes :=
  if decide (cmd = str_bytes "log") then (match words with [] => [] | level :: _ => levelOf level end, tail words)
  else if decide (cmd = OpIncr) then
    let '(ops, words) := scanOps words in (map (λ o, ESubmit (incrementTx (op_name o) (op_delta o))) ops, words)
  else if decide (cmd = OpDecr) then
    let '(ops, words) := scanOps words in (map (λ o, ESubmit (decrementTx (op_name o) (op_delta o))) ops, words)
  else if decide (cmd = OpXfer) then
    match words with
    | amount :: account :: words =>
        (if decide (amount = [] ∨ account = []) then [] else [ESubmit (xferTx id amount account)], words)
    | _ => ([], [])
    end
  else if decide (cmd = str_bytes "tx" ∨ cmd = str_bytes "balance") then ([], tail words)
  else if decide (cmd = str_bytes "peers" ∨ cmd = str_bytes "info") then ([], words)
  else ([], []).

(** The effects of a line, and whether it says to quit *)
Fixpoint lineScript (fuel : nat) (words : list bytes) : list effect * bool :=
  match words, fuel with
  | [], _ | _, O => ([], false)
  | cmd :: words, S fuel =>
      if decide (is_quit cmd) then ([], true)
      else
        let '(es, words) := meaning cmd words in
        let '(es', quit) := lineScript fuel words in (es ++ es', quit)
  end.

(** The effects of a session: of the lines up to the one that says to quit *)
Fixpoint script (lines : list bytes) : list effect * bool :=
  match lines with
  | [] => ([], false)
  | line :: lines =>
      let '(es, quit) := lineScript (length (ScanWords line)) (ScanWords line) in
      if quit : bool then (es, true) else let '(es', quit) := script lines in (es ++ es', quit)
  end.

Lemma script_app l1 l2 :
  script (l1 ++ l2) =
    let '(es, quit) := script l1 in
    if quit : bool then (es, true) else let '(es', quit) := script l2 in (es ++ es', quit).
Proof.
  induction l1 as [|line l1 IH]; simpl; [by destruct (script l2)|].
  destruct (lineScript _ _) as [es [|]]; [done|]. rewrite IH. destruct (script l1) as [es1 [|]]; [done|].
  destruct (script l2) as [es2 q]. by rewrite app_assoc.
Qed.
End script.

(** ** Running commands *)

(** The payloads that were submitted *)
Definition payloads (calls : list request) : list bytes :=
  omap (λ q, match q with RSubmit tx => Some (Payload tx) | _ => None end) calls.
Definition is_query (q : request) : Prop := match q with RSubmit _ => False | _ => True end.

(** The consensus layer answers the queries of the command line, and keeps [P]. *)
Record answerable {C D W : Type} `{Engine C D W} (P : C → Prop) : Prop := {
  aw_best c : P c → ∃ c' b, en_BestBlock c = Ret (c', Some b) ∧ P c' ∧ is_Some (hash b) ∧ is_Some (worldState b);
  aw_status h c : P c → ∃ b e, en_TransactionStatus h c = Ret (b, e) ∧
    match e with None => is_Some b | Some e => is_Some (error_code e) end;
}.

(** A condition on the manager that the calls of the command line do not touch *)
Definition undisturbed {C W : Type} {ec : Ecdsa} (R : platformManager C W → Prop) : Prop := ∀ m, R m →
  (∀ c, R (set_engine c m)) ∧ (∀ q, R (set_txQ q m)) ∧ (∀ s, R (set_deadTxs s m)).

Create HintDb cli.

Section session.
Context {C D W : Type} {wso : WorldState W D} {eng : Engine C D W} {sha : Sha512} {ec : Ecdsa}.
Context {cdt : Codec testTx} {H Node : Type}.
Context (fmtTime : Z → bytes).
Context (others : nat → platformManager C W → platformManager C W) (envs : nat → env).
Context (P : C → Prop) (Hans : answerable P) (K : platformManager C W → Prop) (HK : undisturbed K).
(** What holds between the calls: [P] of the engine, and [K] *)
Definition steady (m : platformManager C W) : Prop := P (engine m) ∧ K m.
(** Other goroutines keep it, and the block producer keeps up with the queue. *)
Context (Hothers : ∀ i m, steady m → steady (others i m) ∧ (length (txQ (others i m)) < txQueueSize)%nat).
Abbreviation terminal := (terminal C W).
Implicit Types (t : terminal) (m : platformManager C W) (words lines : list bytes).

(** From [t] to [t'] exactly the effects [es] happened. *)
Record did (es : list effect) t t' : Prop := {
  did_engine : steady (t_mgr t');
  did_submits : payloads (t_calls t') = payloads (t_calls t) ++ submits es;
  did_level : logLevel (t_log t') = lastLevel (logLevel (t_log t)) es;
}.

(** A command that returns, with effects and a result *)
Definition runs {A} (x : T A) (es : list effect) (Q : A → Prop) : Prop := ∀ t, steady (t_mgr t) →
  ∃ t' a, x t = Ret (t', Returned a) ∧ did es t t' ∧ Q a.

Lemma runs_ret {A} (a : A) (Q : A → Prop) : Q a → runs (T_ret a) [] Q.
Proof. intros Ha t Ht. exists t, a. split; [done|]. split; [split; [done| |done]|done]. by rewrite app_nil_r. Qed.

Lemma runs_bind {A B} (x : T A) (f : A → T B) es es' (Q : A → Prop) (R : B → Prop) :
  runs x es Q → (∀ a, Q a → runs (f a) es' R) → runs (T_bind x f) (es ++ es') R.
Proof.
  intros Hx Hf t Ht. destruct (Hx t Ht) as (t1 & a & E1 & [H1 H2 H3] & Ha). destruct (Hf a Ha t1 H1) as (t2 & b & E2 & [H4 H5 H6] & Hb).
  exists t2, b. unfold T_bind. rewrite E1. cbn [outcome_bind]. split; [done|]. split; [|done]. split; [done| |].
  - by rewrite H5, H2, submits_app, app_assoc.
  - by rewrite H6, H3, lastLevel_app.
Qed.

(** A query first, which has no effect *)
Lemma runs_query {A B} (x : T A) (f : A → T B) es (Q : A → Prop) (R : B → Prop) :
  runs x [] Q → (∀ a, Q a → runs (f a) es R) → runs (T_bind x f) es R.
Proof. intros Hx Hf. exact (runs_bind x f [] es Q R Hx Hf). Qed.

(** Returning something last *)
Lemma runs_then {A B} (x : T A) (b : B) es (R : B → Prop) : runs x es (λ _, True) → R b → runs (T_bind x (λ _, T_ret b)) es R.
Proof. intros Hx Hb. rewrite <- (app_nil_r es). by apply runs_bind with (Q := λ _, True); [|intros; apply runs_ret]. Qed.

Lemma runs_lift {A} (o : outcome A) (Q : A → Prop) : (∃ a, o = Ret a ∧ Q a) → runs (T_lift o) [] Q.
Proof. intros (a & -> & Ha) t Ht. by apply (runs_ret a Q). Qed.

Lemma runs_print s : runs (print s) [] (λ _, True).
Proof. intros t Ht. eexists _, tt. split; [done|]. split; [split; [done| |done]|done]. by rewrite app_nil_r. Qed.

Lemma runs_level l : runs (setLevel l) [ELevel l] (λ _, True).
Proof. intros t Ht. eexists _, tt. split; [done|]. split; [split; [done| |done]|done]. by rewrite app_nil_r. Qed.

Lemma runs_ask {A} q (x : M A) (Q : A → Prop) : is_query q →
  (∀ m, steady m → ∃ m' a, x m = Ret (m', a) ∧ steady m' ∧ Q a) → runs (ask others q x) [] Q.
Proof.
  intros Hq Hx t Ht. destruct (Hx (others (length (t_calls t)) (t_mgr t))) as (m & a & Heq & Hm & Ha); [by apply Hothers|].
  unfold ask. rewrite Heq. cbn [outcome_bind]. eexists _, a. split; [done|]. split; [|done]. split; [done| |done].
  unfold payloads. cbn [t_calls]. rewrite omap_app. by destruct q.
Qed.

Lemma runs_submit myId p : runs (submit others envs myId p) [ESubmit p] (λ _, True).
Proof.
  intros t Ht. destruct (Hothers (length (t_calls t)) (t_mgr t) Ht) as [Hm Hq]. unfold submit, Submit.
  rewrite decide_False by lia. cbn [outcome_bind]. eexists _, _. split; [done|]. split; [|done].
  split; [split; [apply Hm | by apply HK, Hm]| |done]. unfold payloads. cbn [t_calls]. by rewrite omap_app.
Qed.
#[local] Hint Resolve runs_print runs_level runs_submit : cli.

(** ** The queries of the manager *)

Lemma run_best m : steady m → ∃ c b, M_engine en_BestBlock m = Ret (set_engine c m, Some b) ∧ steady (set_engine c m) ∧ is_Some (hash b) ∧ is_Some (worldState b).
Proof.
  intros [(c & b & Heq & Hc & Hb)%(aw_best _ Hans) Hm]. exists c, b. unfold M_engine. rewrite Heq.
  split; [done|]. split; [split; [done | by apply HK]|done].
Qed.

Lemma run_State m : steady m → ∃ m' s, mgr_State m = Ret (m', Some s) ∧ steady m' ∧ is_Some (hash (st_block s)) ∧ is_Some (worldState (st_block s)).
Proof.
  intros (c & b & Heq & Hc & Hb)%run_best. exists (set_engine c m), (MkState W b). unfold mgr_State.
  by rewrite (run_bind _ _ _ _ _ Heq).
Qed.

Lemma run_show_counter name m : steady m → ∃ m' z, show_counter name m = Ret (m', z) ∧ steady m' ∧ True.
Proof.
  intros (m' & s & Heq & Hm & _ & Hw)%run_State. unfold show_counter. rewrite (run_bind _ _ _ _ _ Heq).
  unfold M_bind, M_lift, M_gets. cbn [deref outcome_bind]. unfold st_Get.
  destruct (lookupBytes_spec name (st_block s) (en_db (engine m')) Hw) as (b' & Hl & _). unfold lookupBytes in Hl.
  destruct (block_Lookup name (st_block s) _) as [[b1 r]| |]; [|done..]. cbn [outcome_bind]. by eexists _, _.
Qed.

Lemma run_balance miner m : steady m → ∃ m' r, mgr_MiningRewardBalance miner m = Ret (m', r) ∧ steady m' ∧ True.
Proof.
  intros (c & b & Heq & Hc & _ & Hw)%run_best. unfold mgr_MiningRewardBalance. rewrite (run_bind _ _ _ _ _ eq_refl).
  rewrite (run_bind _ _ _ _ _ Heq). unfold M_bind, M_lift, M_gets. cbn [deref outcome_bind].
  set (a := if decide _ then _ else _). unfold trustee_MiningRewardBalance, MiningRewardBalance.
  destruct (lookupBytes_spec (bytesToHexString a) b (en_db (engine (set_engine c m))) Hw) as (b' & -> & _).
  cbn [outcome_bind]. by eexists _, _.
Qed.

Lemma run_Status h m : steady m → ∃ m' s, Status h m = Ret (m', s) ∧ steady m' ∧
  match s with (b, None) => is_Some b | (_, Some e) => is_Some (error_code e) end.
Proof.
  intros Hm. unfold Status. rewrite (run_bind _ _ _ _ _ eq_refl). case_decide.
  - eexists _, (None, Some _). split; [done|]. split; [split; [apply Hm | by apply HK, Hm]|by eexists].
  - destruct (aw_status _ Hans h _ (proj1 Hm)) as (b & e & Heq & He). unfold M_query. rewrite Heq. cbn [outcome_bind]. by exists m, (b, e).
Qed.

(** ** The commands *)

Lemma countrLoop_runs words : ∀ one, runs (countrLoop others words one) [] (λ _, True).
Proof.
  induction words as [|name words IH]; intros one; cbn [countrLoop]; [by apply runs_ret|].
  case_decide; [done|]. eapply runs_query; [destruct one; [apply runs_print | by apply runs_ret]|]. intros _ _.
  eapply runs_query; [apply runs_ask; [done | apply run_show_counter]|]. intros z _.
  eapply runs_query; [apply runs_print|]. intros _ _. apply IH.
Qed.

Lemma submitOps_runs cmd mkTx myId ops :
  runs (submitOps others envs cmd mkTx myId ops) (map (λ o, ESubmit (mkTx (op_name o) (op_delta o))) ops) (λ _, True).
Proof.
  induction ops as [|o ops IH]; cbn [submitOps map]; [by apply runs_ret|].
  apply (runs_bind _ _ [_] _ (λ _, True)); [apply runs_submit|]. intros id _.
  eapply runs_query; [apply runs_print|]. intros _ _. apply IH.
Qed.

Lemma peersLoop_runs peers : runs (peersLoop others peers) [] (λ _, True).
Proof.
  induction peers as [|peer peers IH]; cbn [peersLoop]; [by apply runs_ret|].
  eapply runs_query; [apply runs_ask; [done | apply run_balance]|]. intros r _.
  eapply runs_query; [apply runs_print|]. intros _ _. apply IH.
Qed.

Lemma showStatus_runs (s : option (block W) * option error) :
  match s with (b, None) => is_Some b | (_, Some e) => is_Some (error_code e) end → runs (showStatus fmtTime s) [] (λ _, True).
Proof.
  destruct s as [b [e|]]; intros [x Hx]; cbn [showStatus]; rewrite Hx; (eapply runs_query; [by apply (runs_lift _ (λ _, True)); eexists|]); intros y _.
  - repeat case_decide; [by destruct b; apply runs_print | apply runs_print | by apply runs_ret].
  - apply runs_print.
Qed.

Lemma cmd_log_runs words :
  runs (cmd_log words) (match words with [] => [] | level :: _ => levelOf level end) (eq (tail words)).
Proof.
  destruct words as [|level words]; cbn [cmd_log next tail]; (apply runs_then; [|done]).
  - rewrite decide_True by done. apply runs_print.
  - unfold levelOf. destruct (decide (level = [])) as [->|_]; [apply runs_print|].
    repeat case_decide; auto with cli.
Qed.

Lemma cmd_ops_runs cmd mkTx myId words :
  runs (cmd_ops others envs cmd mkTx myId words)
    (map (λ o, ESubmit (mkTx (op_name o) (op_delta o))) (scanOps words).1) (eq (scanOps words).2).
Proof.
  unfold cmd_ops. destruct (scanOps words) as [ops rest]. apply runs_then; [|done].
  case_decide as Hops; [rewrite Hops; apply runs_print | apply submitOps_runs].
Qed.

Lemma cmd_xfer_runs (cfg : Config.config H Node) myId words :
  runs (cmd_xfer others envs (Some cfg) myId words) (meaning (Config.id cfg) OpXfer words).1
    (eq (meaning (Config.id cfg) OpXfer words).2).
Proof.
  unfold cmd_xfer. destruct words as [|amount [|account words]]; cbn [next]; try (apply runs_then; [|done]; rewrite decide_True by auto; apply runs_print).
  apply runs_then; [|done]. change (meaning (Config.id cfg) OpXfer _).1 with (if decide (amount = [] ∨ account = []) then [] else [ESubmit (xferTx (Config.id cfg) amount account)]).
  case_decide; [apply runs_print|]. eapply runs_query; [apply runs_print|]. intros _ _.
  eapply runs_query; [apply (runs_lift _ (λ c, c = cfg)); by eexists|]. intros c ->. by apply runs_then; [apply runs_submit|].
Qed.

Lemma cmd_info_runs (cfg : Config.config H Node) words : runs (cmd_info fmtTime others (Some cfg) words) [] (eq words).
Proof.
  unfold cmd_info. eapply runs_query; [apply (runs_ask _ _ (λ s, ∃ s', s = Some s' ∧ is_Some (hash (st_block s')))); [done|]|].
  { intros m (m' & s & Heq & Hm & Hh & _)%run_State. exists m', (Some s). split; [done|]. split; [done|]. by exists s. }
  intros s (s' & -> & Hh). eapply runs_query; [apply (runs_lift _ (λ s, s = s')); by eexists|]. intros s ->.
  eapply runs_query; [apply (runs_lift _ (λ c, c = cfg)); by eexists|]. intros c ->.
  eapply runs_query; [apply runs_print|]. intros _ _. eapply runs_query; [apply runs_ask; [done | apply run_balance]|]. intros r _.
  eapply runs_query; [apply runs_print|]. intros _ _.
  eapply runs_query; [apply (runs_lift _ (λ _, True)); unfold st_Tip, block_Hash; destruct Hh as [h ->]; by eexists|]. intros tip _.
  by apply runs_then; [apply runs_print|].
Qed.

Lemma cmd_tx_runs words : runs (cmd_tx fmtTime others words) [] (eq (tail words)).
Proof.
  destruct words as [|tx words]; cbn [cmd_tx next tail]; (apply runs_then; [|done]); [rewrite decide_True by done; apply runs_print|].
  case_decide; [apply runs_print|]. destruct (hexDecode tx) as [e|bs]; [apply runs_print|].
  eapply runs_query; [apply runs_ask; [done | apply run_Status]|]. intros s Hs. by apply showStatus_runs.
Qed.

Lemma cmd_balance_runs words : runs (cmd_balance others words) [] (eq (tail words)).
Proof.
  destruct words as [|a words]; cbn [cmd_balance next tail]; (apply runs_then; [|done]); [rewrite decide_True by done; apply runs_print|].
  case_decide; [apply runs_print|]. destruct (hexDecode a) as [e|bs]; [apply runs_print|].
  eapply runs_query; [apply runs_ask; [done | apply run_balance]|]. intros r _. apply runs_print.
Qed.

Lemma cmd_peers_runs words : runs (cmd_peers others words) [] (eq words).
Proof.
  unfold cmd_peers. eapply runs_query; [apply (runs_ask _ _ (λ _, True)); [done|]; intros m Hm; by eexists _, _|].
  intros peers _. by apply runs_then; [apply peersLoop_runs|].
Qed.

Lemma cmd_countr_runs words : runs (cmd_countr others words) [] (eq []).
Proof.
  unfold cmd_countr. eapply runs_query; [apply countrLoop_runs|]. intros one _. apply runs_then; [|done].
  destruct one; [by apply runs_ret | apply runs_print].
Qed.

Lemma cmd_unknown_runs cmd words : runs (cmd_unknown cmd words) [] (eq []).
Proof. by apply runs_then; [apply runs_print|]. Qed.

(** ** The loops *)

Lemma runs_map {A B} (x : T A) (f : A → B) es a : runs x es (eq a) → runs (T_bind x (λ a, T_ret (f a))) es (eq (f a)).
Proof. intros Hx. rewrite <- (app_nil_r es). apply runs_bind with (Q := eq a); [done|]. intros _ <-. by apply runs_ret. Qed.

Lemma runCommand_runs (cfg : Config.config H Node) myId cmd words : ¬ is_quit cmd →
  runs (runCommand fmtTime others envs (Some cfg) myId cmd words) (meaning (Config.id cfg) cmd words).1
    (eq (Some (meaning (Config.id cfg) cmd words).2)).
Proof.
  intros Hq. unfold runCommand. rewrite decide_False by exact Hq. apply runs_map.
  destruct (decide (cmd = str_bytes "log")) as [->|H1]; [apply cmd_log_runs|].
  destruct (decide (cmd = str_bytes "countr")) as [->|H2]; [apply cmd_countr_runs|].
  destruct (decide (cmd = OpIncr)) as [->|H3].
  { unfold meaning. rewrite decide_False, decide_True by done. pose proof (cmd_ops_runs OpIncr incrementTx myId words) as Hr. by destruct (scanOps words). }
  destruct (decide (cmd = OpDecr)) as [->|H4].
  { unfold meaning. rewrite decide_False, decide_False, decide_True by done. pose proof (cmd_ops_runs OpDecr decrementTx myId words) as Hr. by destruct (scanOps words). }
  destruct (decide (cmd = str_bytes "peers")) as [->|H5]; [apply cmd_peers_runs|].
  destruct (decide (cmd = str_bytes "tx")) as [->|H6]; [apply cmd_tx_runs|].
  destruct (decide (cmd = str_bytes "balance")) as [->|H7]; [apply cmd_balance_runs|].
  destruct (decide (cmd = OpXfer)) as [->|H8]; [apply cmd_xfer_runs|].
  destruct (decide (cmd = str_bytes "info")) as [->|H9]; [apply cmd_info_runs|].
  unfold meaning. rewrite !decide_False by tauto. apply cmd_unknown_runs.
Qed.

Lemma scanOps_length words : (length (scanOps words).2 ≤ length words)%nat.
Proof.
  unfold scanOps. generalize (@nil op) (MkCounterOp [] 0) false. induction words as [|w words IH]; intros ops cur open; cbn [scanLoop]; [done|].
  destruct (Atoi w); [case_decide; [simpl; lia|]|]; (etrans; [apply IH | simpl; lia]).
Qed.

Lemma meaning_length id cmd words : (length (meaning id cmd words).2 ≤ length words)%nat.
Proof.
  unfold meaning. pose proof (scanOps_length words) as Hl. destruct (scanOps words) as [ops rest]. simpl in Hl.
  repeat case_decide; simpl; try lia; destruct words as [|w1 [|w2 words]]; simpl; lia.
Qed.

Lemma wordLoop_runs (cfg : Config.config H Node) myId fuel : ∀ words, (length words ≤ fuel)%nat →
  runs (wordLoop fmtTime others envs fuel (Some cfg) myId words) (lineScript (Config.id cfg) fuel words).1
    (eq (lineScript (Config.id cfg) fuel words).2).
Proof.
  induction fuel as [|fuel IH]; intros [|cmd words] Hl; simpl in Hl; cbn [wordLoop lineScript]; try (by apply runs_ret); [lia|].
  destruct (decide (is_quit cmd)) as [Hq|Hq].
  - apply (runs_query _ _ _ (eq None)); [|intros _ <-; by apply runs_ret]. unfold runCommand. rewrite decide_True by exact Hq. by apply runs_ret.
  - pose proof (runCommand_runs cfg myId cmd words Hq) as Hr. pose proof (meaning_length (Config.id cfg) cmd words) as Hm.
    destruct (meaning (Config.id cfg) cmd words) as [es rest]. simpl in Hr, Hm. specialize (IH rest ltac:(lia)).
    destruct (lineScript (Config.id cfg) fuel rest) as [es' quit]. simpl in *. apply runs_bind with (Q := eq (Some rest)); [done|]. by intros _ <-.
Qed.

Lemma lineLoop_runs (cfg : Config.config H Node) myId lines :
  runs (lineLoop fmtTime others envs (Some cfg) myId lines) (script (Config.id cfg) lines).1 (eq (script (Config.id cfg) lines).2).
Proof.
  induction lines as [|line lines IH]; cbn [lineLoop script]; [by apply runs_ret|].
  pose proof (wordLoop_runs cfg myId (length (ScanWords line)) (ScanWords line) (le_n _)) as Hr.
  destruct (lineScript _ _ _) as [es quit]. simpl in Hr. destruct quit.
  - rewrite <- (app_nil_r (es, true).1). apply runs_bind with (Q := eq true); [done|]. intros _ <-. by apply runs_ret.
  - destruct (script _ lines) as [es' quit]. simpl in *. apply runs_bind with (Q := eq false); [done|]. intros _ <-.
    eapply runs_query; [apply runs_print|]. by intros _ _.
Qed.

(** One round of the outer loop, over the lines up to an end of file *)
Lemma CLI_round (cfg : Config.config H Node) myId fuel stdin t :
  let lines := match stdin with [] => [] | lines :: _ => lines end in
  steady (t_mgr t) → ∃ t', did (script (Config.id cfg) lines).1 t t' ∧
    CLI fmtTime others envs (S fuel) (Some cfg) myId stdin t =
      if (script (Config.id cfg) lines).2 then Ret (t', Returned tt) else CLI fmtTime others envs fuel (Some cfg) myId (tail stdin) t'.
Proof.
  intros lines Ht. cbn [CLI].
  destruct (runs_query _ _ _ _ _ (runs_print cmdPrompt) (λ _ _, lineLoop_runs cfg myId lines) t Ht) as (t' & quit & Heq & Hd & <-).
  exists t'. split; [done|]. unfold T_bind in *. cbn [print outcome_bind] in *. subst lines. rewrite Heq. cbn [outcome_bind].
  by destruct (script _ _).2.
Qed.

Lemma did_trans es es' t t1 t2 : did es t t1 → did es' t1 t2 → did (es ++ es') t t2.
Proof.
  intros [H1 H2 H3] [H4 H5 H6]. split; [done| |].
  - by rewrite H5, H2, submits_app, app_assoc.
  - by rewrite H6, H3, lastLevel_app.
Qed.

Lemma CLI_quits (cfg : Config.config H Node) myId stdin : ∀ fuel t es,
  steady (t_mgr t) → script (Config.id cfg) (concat stdin) = (es, true) → (length stdin ≤ fuel)%nat →
  ∃ t', CLI fmtTime others envs fuel (Some cfg) myId stdin t = Ret (t', Returned tt) ∧ did es t t'.
Proof.
  induction stdin as [|lines stdin IH]; intros fuel t es Ht Hs Hf; simpl in Hs, Hf; [done|].
  destruct fuel as [|fuel]; [lia|]. destruct (CLI_round cfg myId fuel (lines :: stdin) t Ht) as (t1 & Hd & ->).
  rewrite script_app in Hs. destruct (script _ lines) as [es1 [|]]; simpl in *; [injection Hs as <-; by exists t1|].
  destruct (script _ (concat stdin)) as [es2 q] eqn:Hes2. injection Hs as <- ->.
  destruct (IH fuel t1 es2 (did_engine _ _ _ Hd) eq_refl ltac:(lia)) as (t2 & Heq & Hd2). exists t2. split; [done|]. by eapply did_trans.
Qed.

Lemma CLI_spins (cfg : Config.config H Node) myId fuel : ∀ stdin t es,
  steady (t_mgr t) → script (Config.id cfg) (concat stdin) = (es, false) →
  CLI fmtTime others envs fuel (Some cfg) myId stdin t = OutOfFuel.
Proof.
  induction fuel as [|fuel IH]; intros stdin t es Ht Hs; [done|].
  destruct (CLI_round cfg myId fuel stdin t Ht) as (t1 & Hd & ->). destruct stdin as [|lines stdin].
  - exact (IH [] t1 [] (did_engine _ _ _ Hd) eq_refl).
  - cbn [concat] in Hs. rewrite script_app in Hs. destruct (script _ lines) as [es1 [|]]; simpl in *; [done|].
    destruct (script _ (concat stdin)) as [es2 q] eqn:Hes2. injection Hs as _ ->. exact (IH stdin t1 es2 (did_engine _ _ _ Hd) Hes2).
Qed.

End session.

(** ** The consensus engine answers *)

Section chain.
Context {D W : Type} {dbo : Database D} {dbl : DatabaseLaws D}.
Context {wso : WorldState W D} {wsl : WorldStateLaws W D} {sep : ChainSeparate W D} {sha : Sha512}.
Context {cdn : Codec chainNode} {cdnl : CodecLaws chainNode} {cds : Codec BlockSpec} {cdsl : CodecLaws BlockSpec} {rls : Rlp BlockSpec}.
Context (fuel attempts : nat) (range : ranger) (now : Z).

(** A well-formed chain whose current world state is stored *)
Definition chain_ready (g : Byte64) (c : BlockChainConsensus W * D) : Prop :=
  chain_inv g c.2 c.1 ∧ ∀ w, c_state c.1 = Some w → ws_known (W:=W) (ws_Hash w) c.2.

Lemma BestBlock_ready g c d : chain_ready g (c, d) →
  ∃ d' w, BestBlock c d = Ret (d', Some (clone w (c_tip c))) ∧ chain_ready g (c, d').
Proof.
  intros [Hinv Hk]. simpl in Hinv, Hk. pose proof Hinv as [_ _ _ _ [cw Hcw]]. specialize (Hk cw Hcw). unfold BestBlock.
  destruct (ws_new_ok d) as [w Hw]. destruct (ws_New d) as [d1 o] eqn:Hnew. simpl in Hw. subst o. rewrite Hcw. cbn [deref outcome_bind].
  pose proof (ws_new_known (W:=W) (ws_Hash cw) d Hk) as Hk1. rewrite Hnew in Hk1. simpl in Hk1.
  destruct (ws_rebase_known w (ws_Hash cw) d1 Hk1) as [Hok _]. pose proof (ws_rebase_keeps (ws_Hash cw) w (ws_Hash cw) d1 Hk1) as Hk2.
  destruct (ws_Rebase w (ws_Hash cw) d1) as [[d2 w2] e] eqn:Hreb. simpl in Hok, Hk2. subst e.
  exists d2, w2. split; [done|]. split; simpl.
  - eapply chain_inv_same; [by eapply new_rebase_frame | done].
  - intros w' Hw'. assert (w' = cw) as -> by congruence. done.
Qed.

Lemma transactionStatus_errors (txId : Byte64) c d : is_Some (c_state c) →
  ∃ b n e, transactionStatus (W:=W) txId c d = Ret (b, n, e) ∧
    match e with None => is_Some b | Some e => b = None ∧ is_Some (error_code e) end.
Proof.
  intros [w Hw]. unfold transactionStatus. rewrite Hw. cbn [deref outcome_bind].
  destruct (ws_HasTransaction w txId d) as [h|e]; [|by eexists _, _, _].
  destruct (getChainNode h d) as [n|e]; [|by eexists _, _, _].
  destruct (cn_IsMainList n); [|by eexists _, _, _]. destruct (getBlock h d) as [blk|]; [|by eexists _, _, _].
  eexists _, _, None. split; [done|]. by eexists.
Qed.

(** A chain answers the queries of the command line. *)
Lemma chain_answerable g : answerable (H:=chain_engine fuel attempts range now) (chain_ready g).
Proof.
  split.
  - intros [c d] Hr. destruct (BestBlock_ready g c d Hr) as (d' & w & Heq & Hr'). exists (c, d'), (clone w (c_tip c)).
    split; [unfold en_BestBlock; simpl; unfold on_db; simpl; by rewrite Heq|]. split; [done|].
    destruct Hr as [[_ _ (h & L & n & Hh & _) _ _] _]. split; [by exists h | by eexists].
  - intros h [c d] [[_ _ _ _ Hs] _]. destruct (transactionStatus_errors h c d Hs) as (b & n & e & Heq & He).
    exists b, e. split; [unfold en_TransactionStatus; simpl; unfold TransactionStatus; by rewrite Heq|]. by destruct e; [apply He|].
Qed.

(** The command tx says that a transaction was rejected when the block that has it is stored,
    but not on the main list. *)
Theorem forked_tx_shown_as_rejected {ec : Ecdsa} fmtTime others g h (t : terminal (BlockChainConsensus W * D) W) c d n bh :
  let eng := chain_engine fuel attempts range now in
  let m := others (length (t_calls t)) (t_mgr t) in
  engine m = (c, d) → chain_ready g (c, d) → h ∉ deadTxs m →
  (∀ w, c_state c = Some w → ws_HasTransaction w h d = Ok bh) → getChainNode bh d = Ok n → cn_IsMainList n = false →
  ∃ t', cmd_tx (eng:=eng) fmtTime others [bytesToHexString (Bytes h)] t = Ret (t', Returned []) ∧
    t_out t' = t_out t ++ str_bytes "Transaction rejected" ++ nl.
Proof.
  intros eng m Hm [[_ _ _ _ [w Hw]] _] Hdead Htx Hn Hml. simpl in Hw. specialize (Htx w Hw). unfold cmd_tx. cbn [next].
  rewrite decide_False by (by eapply hex_ne, arr_length). rewrite hexDecode_hex. unfold BytesToByte64. rewrite BytesToArr_Bytes.
  unfold T_bind at 1, T_bind at 1, ask. fold m. unfold Status. rewrite (run_bind _ _ _ _ _ eq_refl), decide_False by done.
  unfold M_query. rewrite Hm. unfold en_TransactionStatus, eng, chain_engine, TransactionStatus, transactionStatus. cbn [fst snd].
  rewrite Hw. cbn [deref outcome_bind]. rewrite Htx, Hn, Hml. cbn [negb outcome_bind].
  eexists. split; [done|]. done.
Qed.
End chain.

(** ** Transactions from the command line *)

(** What is printed for a transaction *)
Definition shownTx {sha : Sha512} (cmd : bytes) (o : op) (tx : Transaction) : bytes :=
  str_bytes "adding transaction: " ++ cmd ++ str_bytes " " ++ op_name o ++ str_bytes " " ++
  fmt_i (op_delta o) ++ nl ++ str_bytes "TX ID: " ++ bytesToHexString (Bytes (Transaction_Id tx)) ++ nl.

Section typed.
Context {C D W : Type} {wso : WorldState W D} {eng : Engine C D W} {sha : Sha512} {ec : Ecdsa}.
Context {cdt : Codec testTx} {H Node : Type}.
Context (fmtTime : Z → bytes).
Context (others : nat → platformManager C W → platformManager C W) (envs : nat → env).
Context (cfg : option (Config.config H Node)) (myId : bytes).
Implicit Types (t : terminal C W) (m : platformManager C W) (b : block W) (conf : Config.config H Node).

(** C28: A session of the command line has exactly the effects that a reading of the typed words
    gives (the transactions submitted, in order, and the log level), whatever other goroutines
    do in between as long as they leave room in the transaction queue and keep the consensus
    layer answering; it returns exactly when a command says to quit, nothing after that is
    executed, and without it the command line never returns, also at the end of its input. *)
Theorem cli_does_what_is_typed (P : C → Prop) conf stdin t es quit : answerable P →
  (∀ i m, P (engine m) → P (engine (others i m)) ∧ (length (txQ (others i m)) < txQueueSize)%nat) →
  P (engine (t_mgr t)) → script (Config.id conf) (concat stdin) = (es, quit) →
  if quit : bool then
    ∀ fuel, (length stdin ≤ fuel)%nat → ∃ t', CLI fmtTime others envs fuel (Some conf) myId stdin t = Ret (t', Returned tt) ∧
      payloads (t_calls t') = payloads (t_calls t) ++ submits es ∧
      logLevel (t_log t') = lastLevel (logLevel (t_log t)) es ∧ P (engine (t_mgr t'))
  else ∀ fuel, CLI fmtTime others envs fuel (Some conf) myId stdin t = OutOfFuel.
Proof.
  intros Hans Ho Ht Hs. set (R := λ _ : platformManager C W, True). assert (undisturbed R) as HR by by intros m.
  assert (∀ i m, steady P R m → steady P R (others i m) ∧ (length (txQ (others i m)) < txQueueSize)%nat) as Hoth.
  { intros i m [Hm _]. destruct (Ho i m Hm). by repeat split. }
  destruct quit; [|intros fuel; by eapply (CLI_spins fmtTime others envs P Hans R HR Hoth)]. intros fuel Hf.
  destruct (CLI_quits fmtTime others envs P Hans R HR Hoth conf myId stdin fuel t es (conj Ht I) Hs Hf) as (t' & Heq & [[H1 _] H2 H3]). by exists t'.
Qed.

Lemma submitOps_exact cmd mkTx ops : (∀ i m, (length (txQ (others i m)) < txQueueSize)%nat) → ∀ t,
  ∃ t' txs, submitOps others envs cmd mkTx myId ops t = Ret (t', Returned tt) ∧
    t_calls t' = t_calls t ++ map RSubmit txs ∧
    Forall2 (λ tx o, Payload tx = mkTx (op_name o) (op_delta o)) txs ops ∧
    t_out t' = t_out t ++ concat (zip_with (shownTx cmd) ops txs).
Proof.
  intros Hroom. induction ops as [|o ops IH]; intros t; cbn [submitOps].
  { exists t, []. split; [done|]. rewrite !app_nil_r. by split_and!. }
  unfold T_bind at 1, submit, Submit. pose proof (Hroom (length (t_calls t)) (t_mgr t)) as Hq. rewrite decide_False by lia.
  cbn [outcome_bind]. unfold T_bind, print. cbn [outcome_bind t_mgr t_log t_out t_calls].
  set (tx := NewTransaction _ _ _ _). edestruct IH as (t' & txs & Heq & Hc & Hp & Ho). exists t', (tx :: txs).
  rewrite Heq. split; [done|]. split; [by rewrite Hc; cbn [t_calls map]; rewrite <- app_assoc|]. split; [by constructor|].
  rewrite Ho. cbn [t_out zip_with concat]. by rewrite <- app_assoc.
Qed.

(** A line with one command that leaves no words *)
Lemma lineLoop_command cmd args t t' :
  Forall (λ w, w ≠ [] ∧ forallb plain w = true) (cmd :: args) →
  runCommand fmtTime others envs cfg myId cmd args t = Ret (t', Returned (Some [])) →
  lineLoop fmtTime others envs cfg myId [spaced (cmd :: args)] t =
    Ret (Term (t_mgr t') (t_log t') (t_out t' ++ nl ++ cmdPrompt) (t_calls t'), Returned false).
Proof.
  intros Hw Hr. cbn [lineLoop]. rewrite ScanWords_spaced by done. cbn [length wordLoop]. unfold T_bind. rewrite Hr. cbn [outcome_bind].
  by destruct (length args).
Qed.

(** C27: From the command line to the counters: when other goroutines leave room in the
    transaction queue before every call of the manager, a typed line incr with names and amounts
    submits one transaction per operation and makes no other call, and processing these
    transactions on any block with a world state accepts all and adds to every counter the sum
    of the amounts given for its name, wrapped to 64 bits. *)
Theorem increments_add_up {cdtl : CodecLaws testTx} wss ops t :
  Forall2 op_words ops wss → ops ≠ [] → Forall (λ w, w ≠ [] ∧ forallb plain w = true) (concat wss) →
  (∀ i m, (length (txQ (others i m)) < txQueueSize)%nat) →
  ∃ t' txs, lineLoop fmtTime others envs cfg myId [spaced (OpIncr :: concat wss)] t = Ret (t', Returned false) ∧
    t_calls t' = t_calls t ++ map RSubmit txs ∧
    ∀ m b, sc_TxProcessor (cf_Service (config m)) = Some txProcessor → is_Some (worldState b) →
      ∃ b', processTxs txs b m = Ret (m, (b', true)) ∧ same_block b b' ∧
        ∀ k, s64 (balance b' (en_db (engine m)) k) = s64 (s64 (balance b (en_db (engine m)) k) + added ops k).
Proof.
  intros Hall Hne Hpl Hroom. destruct (submitOps_exact OpIncr incrementTx ops Hroom t) as (t' & txs & Heq & Hc & Hp & _).
  eexists _, txs. split; [apply (lineLoop_command OpIncr (concat wss) t t')|]; [by constructor| |].
  { change (runCommand fmtTime others envs cfg myId OpIncr (concat wss) t) with
      (T_bind (cmd_ops others envs OpIncr incrementTx myId (concat wss)) (λ words, T_ret (Some words)) t).
    unfold cmd_ops. rewrite (scanOps_words ops wss Hall). unfold T_bind. by rewrite decide_False, Heq. }
  split; [done|]. intros m b Hproc Hw. destruct (processTxs_adds_up m txs ops b Hproc Hw Hp) as (b' & Hrun & Hs & Hbal).
  exists b'. split; [done|]. split; [done|]. intros k.
  by rewrite Hbal, s64_u64, <- (s64_u64 (s64 _ + _)), <- u64_add_l, u64_s64, u64_add_l, s64_u64.
Qed.

(** The transaction id that incr and decr print, typed after tx, asks for the status of exactly
    the transaction that was submitted. *)
Theorem printed_id_finds_transaction (P : C → Prop) cmd mkTx o t : answerable P →
  (∀ i m, P (engine m) → P (engine (others i m))) → (∀ i m, (length (txQ (others i m)) < txQueueSize)%nat) →
  ∃ t1 tx, submitOps others envs cmd mkTx myId [o] t = Ret (t1, Returned tt) ∧
    t_calls t1 = t_calls t ++ [RSubmit tx] ∧ Payload tx = mkTx (op_name o) (op_delta o) ∧ t_out t1 = t_out t ++ shownTx cmd o tx ∧
    ∀ t2, P (engine (t_mgr t2)) →
      ∃ t3, lineLoop fmtTime others envs cfg myId [spaced [str_bytes "tx"; bytesToHexString (Bytes (Transaction_Id tx))]] t2 = Ret (t3, Returned false) ∧
        t_calls t3 = t_calls t2 ++ [RStatus (Transaction_Id tx)] ∧ P (engine (t_mgr t3)).
Proof.
  intros Hans Hkeep Hroom. destruct (submitOps_exact cmd mkTx [o] Hroom t) as (t1 & txs & Heq & Hc & Hp & Ho).
  apply Forall2_cons_inv_r in Hp as (tx & txs' & Hp & Hnil & ->). apply Forall2_nil_inv_r in Hnil as ->.
  exists t1, tx. cbn [zip_with concat map] in Hc, Ho. rewrite app_nil_r in Ho. do 4 (split; [done|]). intros t2 Ht2.
  destruct (run_Status P Hans (λ _, True) ltac:(by intros m) (Transaction_Id tx) _ (conj (Hkeep (length (t_calls t2)) _ Ht2) I)) as (m & s & Hst & [Hm _] & Hs).
  set (tm := Term m (t_log t2) (t_out t2) (t_calls t2 ++ [RStatus (Transaction_Id tx)])).
  assert (∃ out, showStatus fmtTime s tm = Ret (Term m (t_log t2) out (t_calls t2 ++ [RStatus (Transaction_Id tx)]), Returned tt)) as [out Hshow].
  { destruct s as [b [e|]]; cbn [showStatus]; destruct Hs as [x Hx]; rewrite Hx; unfold T_bind, T_lift; cbn [deref outcome_bind]; [|by eexists].
    repeat case_decide; [destruct b|..]; by eexists. }
  eexists. split; [apply (lineLoop_command (str_bytes "tx") [_] t2 (Term m (t_log t2) out (t_calls t2 ++ [RStatus (Transaction_Id tx)])))|]; [| |by split].
  - apply Forall_cons_2; [by split|]. apply Forall_cons_2; [|done]. split; [by eapply hex_ne, arr_length | apply plain_hex].
  - unfold runCommand. rewrite decide_False by (intros [|]; done). repeat (rewrite decide_False by done). rewrite decide_True by done.
    unfold T_bind at 1, cmd_tx. cbn [next]. rewrite decide_False by (by eapply hex_ne, arr_length). rewrite hexDecode_hex.
    unfold BytesToByte64. rewrite BytesToArr_Bytes. unfold T_bind at 1, T_bind at 1, ask. rewrite Hst. cbn [outcome_bind]. fold tm.
    rewrite Hshow. done.
Qed.
End typed.

(** ** The whole program *)

Lemma NewPlatformManager_stopped {C D W : Type} {eng : Engine C D W} {ec : Ecdsa} app srv db p2p (m : platformManager C W) :
  NewPlatformManager app srv db p2p = Ret (Ok m) → isRunning m = false.
Proof.
  unfold NewPlatformManager. destruct app as [app|], srv as [srv|]; try done.
  destruct (sc_TxProcessor srv), (sc_PeerValidator srv); try done. destruct db as [d|]; [|done]. destruct p2p as [self|e]; [|done].
  rewrite outcome_bind_ret. intros ([c|e] & _ & Hr); [|done]. apply outcome_bind_ret in Hr as (tr & _ & Hr). by injection Hr as <-.
Qed.

Section main.
Context {L H : Type} {lib : LevelDB L H} {ldl : LevelDBLaws L H} `{EqDecision H} {jp : Json configParams} {jk : Json keyPair}.
Context {Node : Type} (ParseNode : bytes → result Node) (Node_String : Node → bytes) (FromPub : Z → Z → bytes).
Context {C W : Type} (wso : DatabaseLevelDB H → WorldState W L) (eng : DatabaseLevelDB H → Engine C L W).
Context {sha : Sha512} {ec : Ecdsa} {cdt : Codec testTx}.
Context (privateKey : ecKey → PrivateKey) (server_Start : p2pConfig Node → result bytes) (fmtTime : Z → bytes).
Context (others : nat → platformManager C W → platformManager C W) (envs : nat → env).
Context (getenv : bytes → bytes) (creates : bytes → bool).

(** The manager that [main] makes with a configuration *)
Definition newManager (cfg : Config.config H Node) (port : bytes) (d : L) : outcome (result (platformManager C W)) :=
  let app := app_config (networkId cfg) (nodeName cfg) in
  let srv := app_service (privateKey (Config.key cfg)) in
  NewPlatformManager (eng:=eng (Config.db cfg)) (Some app) (Some srv) (Some d)
    (configureP2P ParseNode server_Start app srv port false (BootnodeStrings Node_String cfg)).

Abbreviation main := (main ParseNode Node_String FromPub wso eng privateKey server_Start fmtTime others envs).

(** C29: The counter program, once it has its configuration and its platform manager and is told
    to quit, returns: the block producer is stopped, Stop returns what closing the database
    gave, and the handle of the database that InitializeConfig opened is released; provided
    other goroutines never stop the producer, leave room in the transaction queue before every
    call of the command line, and keep the consensus layer answering with the database open. *)
Theorem main_stops_and_closes (P : C → Prop) fuel gen file port nat stdin p p1 lg cfg m0 f es :
  InitializeConfig ParseNode FromPub gen (Some file) (Some port) (Some nat) p = Ret (p1, None) → ps_c p = None → ps_c p1 = Some cfg →
  newManager cfg port (ps_ldb p1) = Ret (Ok m0) →
  answerable (H:=eng (Config.db cfg)) P → P (engine m0) →
  (∀ i m, P (engine m) ∧ is_Some (blockProducer m) →
     P (engine (others i m)) ∧ is_Some (blockProducer (others i m)) ∧ (length (txQ (others i m)) < txQueueSize)%nat) →
  (∀ c, P c → ldb_file (ldb (Config.db cfg)) (en_db (Engine:=eng (Config.db cfg)) c) = Some f) →
  script (Config.id cfg) (concat stdin) = (es, true) → (length stdin ≤ fuel)%nat →
  ∃ e m, main fuel gen getenv creates file port nat stdin p lg = Ret e ∧
    end_stop e = Some (m, Returned (leveldb_Close (Config.db cfg) (en_db (Engine:=eng (Config.db cfg)) (engine m))).2) ∧ blockProducer m = None ∧ isRunning m = false ∧
    ldb_file (ldb (Config.db cfg)) (ps_ldb (end_process e)) = None ∧ ps_c (end_process e) = Some cfg.
Proof.
  intros Hini Hc0 Hcfg Hnew Hans Hm0 Hoth Hf Hs Hfuel. unfold Cli.main. rewrite Hini. cbn [outcome_bind]. unfold Config.Config. rewrite Hcfg.
  assert (Config.port cfg = Some port) as Hport.
  { apply InitializeConfig_spec in Hini. rewrite Hc0 in Hini. destruct Hini as (c & Hc & _ & _ & _ & Hp & _). congruence. }
  cbn [deref outcome_bind]. rewrite Hport. cbn [deref outcome_bind]. unfold newManager in Hnew. rewrite Hnew. cbn [outcome_bind].
  set (K := λ m : platformManager C W, is_Some (blockProducer m)). assert (undisturbed K) as HK by by intros m.
  assert (∀ i m, steady P K m → steady P K (others i m) ∧ (length (txQ (others i m)) < txQueueSize)%nat) as Ho.
  { intros i m Hm. destruct (Hoth i m Hm) as (? & ? & ?). by repeat split. }
  assert (∃ m1 r, Start m0 = Ret (m1, r) ∧ steady P K m1) as (m1 & r & Hst & Hm1).
  { unfold Start. rewrite (NewPlatformManager_stopped _ _ _ _ _ Hnew). eexists _, _. split; [done|]. split; [done | by eexists]. }
  rewrite Hst. cbn [outcome_bind].
  match goal with |- context [Term m1 ?l ?o ?q] => destruct (CLI_quits (wso:=wso (Config.db cfg)) (eng:=eng (Config.db cfg)) fmtTime others envs P Hans K HK Ho cfg (Config.id cfg) stdin fuel (Term m1 l o q) es Hm1 Hs Hfuel) as (t & Heq & [[Ht [pr Hpr]] _ _]) end.
  rewrite Heq. cbn [outcome_bind]. destruct (close_ok _ _ _ (Hf _ Ht)) as [Hclosed _].
  unfold leveldb_Close. destruct (ldb_Close _ _) as [d' err] eqn:Hcl. cbn [fst] in Hclosed.
  unfold Stop, M_bind, shutdownProducer. rewrite Hpr. eexists _, (set_blockProducer None false (t_mgr t)). split; [reflexivity|].
  split_and!; [cbn; by rewrite Hcl | done..].
Qed.
End main.
