(* ===== verification/CliWitnesses.v ===== *)
(** * Witnesses for the theorems about the command line

    A session on a new node, and a run of the whole program over a LevelDB
    library that keeps its files in memory. *)

From Stdlib Require Import Strings.Byte.
From S2P Require Import Prelude Bytes Db LevelDb Config ConfigTheorems Logger Trie TrieSpec TrieFacts WorldState Concrete TrieTheorems WorldStateI Block BlockFacts BlockTheorems.
From S2P Require Import Consensus ConsensusFacts ConsensusTheorems Trustee TrusteeFacts TrusteeTheorems Text Peers PeersTheorems Platform PlatformFacts Produced PlatformWitnesses Countr CountrTheorems Cli CliTheorems.

(** ** Consensus engines that answer *)

(** [BestBlock] answers, with the database left as [d]. *)
Definition answered {D W : Type} `{EqDecision D} (d : D) (o : outcome (D * option (block W))) : bool :=
  match o with
  | Ret (d', Some b) => bool_decide (d' = d) && bool_decide (is_Some (hash b)) && bool_decide (is_Some (worldState b))
  | _ => false
  end.

Lemma settled_answerable {D W : Type} {dbo : Database D} {wso : WorldState W D} {sha : Sha512} `{EqDecision D}
    {cdn : Codec chainNode} {cds : Codec BlockSpec} {rls : Rlp BlockSpec} fuel attempts range now (c : BlockChainConsensus W) (d0 d1 : D) :
  answered d1 (BestBlock c d0) = true → answered d1 (BestBlock c d1) = true → is_Some (c_state c) →
  answerable (H:=chain_engine fuel attempts range now) (λ x, x = (c, d0) ∨ x = (c, d1)).
Proof.
  intros H0 H1 Hs. split.
  - assert (∀ d, answered d1 (BestBlock c d) = true →
      ∃ b, on_db (BestBlock c) (c, d) = Ret ((c, d1), Some b) ∧ is_Some (hash b) ∧ is_Some (worldState b)) as Hb.
    { intros d. unfold answered, on_db. simpl. destruct (BestBlock c d) as [[d' [b|]]| |]; try done. cbn [outcome_bind].
      intros [[->%bool_decide_eq_true_1 Hh%bool_decide_eq_true_1]%andb_true_iff Hw%bool_decide_eq_true_1]%andb_true_iff. by exists b. }
    intros x [->| ->]; [destruct (Hb d0 H0) as (b & Heq & Hok)|destruct (Hb d1 H1) as (b & Heq & Hok)];
      exists (c, d1), b; (split; [exact Heq|]); (split; [by right|exact Hok]).
  - assert (∀ h d, ∃ b e, TransactionStatus h c d = Ret (b, e) ∧ match e with None => is_Some b | Some e => is_Some (error_code e) end) as Hst.
    { intros h d. destruct (transactionStatus_errors h c d Hs) as (b & n & e & Heq & He). exists b, e. unfold TransactionStatus. rewrite Heq.
      split; [done|]. by destruct e; [apply He|]. }
    intros h x [->| ->]; apply Hst.
Qed.

Section witnesses.
#[local] Existing Instances w_hash w_codec w_laws w_ops w_spec_codec w_cn_codec w_ops_codec w_sig_codec.
#[local] Existing Instances w_rlp_spec w_test_codec w_test_laws.

Abbreviation wdb := (gmap bytes bytes).
Abbreviation wc := (BlockChainConsensus MptWorldState * wdb)%type.
Abbreviation wmgr := (platformManager (H:=sample_ecdsa) wc MptWorldState).

(** ** A session *)

#[local] Existing Instance w_engine.

(** Between two calls the block producer takes every transaction. *)
Definition w_others (_ : nat) (m : wmgr) : wmgr := set_txQ [] m.
Lemma w_others_room i m : (length (txQ (w_others i m)) < txQueueSize)%nat.
Proof. unfold txQueueSize. simpl. lia. Qed.
Definition w_time (ns : Z) : bytes := fmt_i ns.
Definition w_conf : Config.config nat bytes :=
  MkConf [] (str_bytes "node") (str_bytes "net") (MkLevelDB nat [] 0%nat) (MkKey 1 2 3) None None [x04; x01].

Definition w_cli_P (x : wc) : Prop := x = (w_asked.1, w_asked.2) ∨ x = (w_asked.1, w_asked.2).
Lemma w_cli_best : answered w_asked.2 (BestBlock w_asked.1 w_asked.2) = true.
Proof. vm_compute. reflexivity. Qed.
Lemma w_cli_state : bool_decide (is_Some (c_state w_asked.1)) = true.
Proof. vm_compute. reflexivity. Qed.
Lemma w_cli_answerable : answerable (H:=w_engine) w_cli_P.
Proof.
  exact (settled_answerable 10 3 w_range 0 w_asked.1 w_asked.2 w_asked.2 w_cli_best w_cli_best (bool_decide_eq_true_1 _ w_cli_state)).
Qed.

Definition w_cli_mgr : wmgr := set_engine (w_asked.1, w_asked.2) w_a0.
Definition w_term : terminal (ec:=sample_ecdsa) wc MptWorldState := Term w_cli_mgr initial [] [].
Definition w_lines : list (list bytes) :=
  [[str_bytes "incr alice 5 bob"; str_bytes "log INFO info peers"]; [str_bytes "xfer 7 abcd countr alice"; str_bytes "nonsense q"; str_bytes "quit decr bob"]].
Definition w_script : list effect * bool := script (Config.id w_conf) (concat w_lines).
Lemma w_script_quits : w_script.2 = true.
Proof. vm_compute. reflexivity. Qed.
Lemma w_script_length : length (submits w_script.1) = 3%nat.
Proof. vm_compute. reflexivity. Qed.
Lemma script_quits (x : list effect * bool) : x.2 = true → x = (x.1, true).
Proof. by destruct x as [es []]. Qed.

Lemma cli_does_what_is_typed_witness :
  ∃ t', CLI w_time w_others (λ _, w_env) 2 (Some w_conf) [x01] w_lines w_term = Ret (t', Returned tt) ∧
    payloads (t_calls t') = [] ++ submits w_script.1.
Proof.
  destruct (cli_does_what_is_typed (D:=wdb) (eng:=w_engine) w_time w_others (λ _, w_env) [x01] w_cli_P w_conf w_lines w_term w_script.1 true
    w_cli_answerable (λ i m Hm, conj Hm (w_others_room i m)) (or_introl eq_refl) (script_quits w_script w_script_quits) 2%nat (le_n 2))
    as (t' & Hrun & Hp & _).
  exists t'. split; [exact Hrun | exact Hp].
Defined.

Lemma w_words_plain : Forall (λ w : bytes, w ≠ [] ∧ forallb plain w = true) (concat w_words).
Proof. repeat (apply Forall_cons_2; [done|]). apply Forall_nil_2. Qed.

Lemma increments_add_up_witness :
  ∃ t' txs b', lineLoop (D:=wdb) w_time w_others (λ _, w_env) (Some w_conf) [x01] [spaced (OpIncr :: concat w_words)] w_term = Ret (t', Returned false) ∧
    t_calls t' = [] ++ map RSubmit txs ∧ processTxs txs w_candidate w_countr = Ret (w_countr, (b', true)).
Proof.
  destruct (increments_add_up (D:=wdb) (eng:=w_engine) w_time w_others (λ _, w_env) (Some w_conf) [x01] w_words w_ops_read w_term w_words_ok
    ltac:(done) w_words_plain w_others_room) as (t' & txs & Hrun & Hc & Hadd).
  destruct (Hadd w_countr w_candidate eq_refl ltac:(by eexists)) as (b' & Hp & _).
  exists t', txs, b'. split; [exact Hrun|]. split; [exact Hc | exact Hp].
Defined.

Lemma printed_id_finds_transaction_witness :
  ∃ t1 tx t3, submitOps (C:=wc) w_others (λ _, w_env) OpIncr incrementTx [x01] [MkCounterOp [x61] 5] w_term = Ret (t1, Returned tt) ∧
    lineLoop (D:=wdb) w_time w_others (λ _, w_env) (Some w_conf) [x01] [spaced [str_bytes "tx"; bytesToHexString (Bytes (Transaction_Id tx))]] w_term = Ret (t3, Returned false) ∧
    t_calls t3 = [] ++ [RStatus (Transaction_Id tx)].
Proof.
  destruct (printed_id_finds_transaction (D:=wdb) (eng:=w_engine) w_time w_others (λ _, w_env) (Some w_conf) [x01] w_cli_P OpIncr incrementTx (MkCounterOp [x61] 5) w_term
    w_cli_answerable (λ i m Hm, Hm) w_others_room) as (t1 & tx & Hrun & _ & _ & _ & Hq).
  destruct (Hq w_term (or_introl eq_refl)) as (t3 & Hline & Hc & _).
  exists t1, tx, t3. split; [exact Hrun|]. split; [exact Hline | exact Hc].
Defined.
End witnesses.

(** ** A run of the whole program *)

Section main.
#[local] Existing Instances w_hash w_codec w_spec_codec w_cn_codec w_ops_codec w_sig_codec w_rlp_spec w_test_codec.
#[local] Existing Instances wl_lib wl_laws w_json_kp w_json_params sample_ecdsa.

Abbreviation lc := (BlockChainConsensus MptWorldState * wl)%type.
Definition l_ws (db : DatabaseLevelDB nat) : WorldState MptWorldState wl := mpt_world_state (dbo:=leveldb_database db) 0.
Definition l_engine (db : DatabaseLevelDB nat) : Engine lc wl MptWorldState :=
  chain_engine (dbo:=leveldb_database db) (wso:=l_ws db) 10 3 w_range 0.

Definition l_private (k : ecKey) : PrivateKey := key_D k.
Definition l_start (c : p2pConfig bytes) : result bytes := Ok (replicate 64 x05).
Definition l_string (b : bytes) : bytes := b.
Definition l_others (_ : nat) (m : platformManager lc MptWorldState) : platformManager lc MptWorldState := set_txQ [] m.

Definition l_new : outcome (result (platformManager lc MptWorldState)) :=
  newManager w_parse l_string l_engine l_private l_start w_c1 (str_bytes "30303") (ps_ldb w_p1).
Definition l_dead : platformManager lc MptWorldState :=
  Mgr _ _ _ (MkConfig _ w_app (app_service (H:=sample_ecdsa) 5) None []) (MkTrustee 0 [] (MkOp [] ∅)) (w_dead_chain, (∅, [])) [] None
    NewPeerSetDbInMemory ∅ ∅ 0 false ∅ [] 0%N.
Definition l_m0 : platformManager lc MptWorldState := match l_new with Ret (Ok m) => m | _ => l_dead end.
Definition l_c : BlockChainConsensus MptWorldState := (engine l_m0).1.
Definition l_d0 : wl := (engine l_m0).2.
Definition l_d1 : wl := match BestBlock (wso:=l_ws (Config.db w_c1)) l_c l_d0 with Ret (d, _) => d | _ => l_d0 end.
Definition l_P (x : lc) : Prop := x = (l_c, l_d0) ∨ x = (l_c, l_d1).

Lemma l_new_ok : match l_new with Ret (Ok _) => true | _ => false end = true.
Proof. vm_compute. reflexivity. Qed.
Lemma made_eq (o : outcome (result (platformManager lc MptWorldState))) :
  match o with Ret (Ok _) => true | _ => false end = true → o = Ret (Ok (match o with Ret (Ok m) => m | _ => l_dead end)).
Proof. by destruct o as [[m|]| |]. Qed.
Lemma l_new_eq : newManager w_parse l_string l_engine l_private l_start w_c1 (str_bytes "30303") (ps_ldb w_p1) = Ret (Ok l_m0).
Proof. exact (made_eq l_new l_new_ok). Qed.

Lemma l_best0 : answered l_d1 (BestBlock (wso:=l_ws (Config.db w_c1)) l_c l_d0) = true.
Proof. vm_compute. reflexivity. Qed.
Lemma l_best1 : answered l_d1 (BestBlock (wso:=l_ws (Config.db w_c1)) l_c l_d1) = true.
Proof. vm_compute. reflexivity. Qed.
Lemma l_state : bool_decide (is_Some (c_state l_c)) = true.
Proof. vm_compute. reflexivity. Qed.
Lemma l_answerable : answerable (H:=l_engine (Config.db w_c1)) l_P.
Proof.
  exact (settled_answerable (dbo:=leveldb_database (Config.db w_c1)) (wso:=l_ws (Config.db w_c1)) 10 3 w_range 0 l_c l_d0 l_d1 l_best0 l_best1
    (bool_decide_eq_true_1 _ l_state)).
Qed.

Lemma l_open0 : bool_decide (wl_file (ldb (Config.db w_c1)) l_d0 = Some (str_bytes "data")) = true.
Proof. vm_compute. reflexivity. Qed.
Lemma l_open1 : bool_decide (wl_file (ldb (Config.db w_c1)) l_d1 = Some (str_bytes "data")) = true.
Proof. vm_compute. reflexivity. Qed.
Lemma l_open c : l_P c → ldb_file (ldb (Config.db w_c1)) (en_db (Engine:=l_engine (Config.db w_c1)) c) = Some (str_bytes "data").
Proof. intros [->| ->]; [exact (bool_decide_eq_true_1 _ l_open0) | exact (bool_decide_eq_true_1 _ l_open1)]. Qed.

Lemma l_engine_m0 (x : lc) : x = (x.1, x.2).
Proof. by destruct x. Qed.

Lemma l_keep (i : nat) (m : platformManager lc MptWorldState) : l_P (engine m) ∧ is_Some (blockProducer m) →
  l_P (engine (l_others i m)) ∧ is_Some (blockProducer (l_others i m)) ∧ (length (txQ (l_others i m)) < txQueueSize)%nat.
Proof. intros [H1 H2]. split; [exact H1|]. split; [exact H2|]. unfold txQueueSize. simpl. lia. Qed.

Definition l_script : list effect * bool := script (Config.id w_c1) (concat w_lines).
Lemma l_script_quits : l_script.2 = true.
Proof. vm_compute. reflexivity. Qed.

Lemma main_stops_and_closes_witness :
  ∃ e m, main w_parse l_string w_pub l_ws l_engine l_private l_start w_time l_others (λ _, w_env) 2 (Some w_key) (λ _, []) (λ _, false)
      w_file (str_bytes "30303") false w_lines w_process initial = Ret e ∧
    end_stop e = Some (m, Returned (leveldb_Close (Config.db w_c1) (en_db (Engine:=l_engine (Config.db w_c1)) (engine m))).2) ∧
    ldb_file (ldb (Config.db w_c1)) (ps_ldb (end_process e)) = None.
Proof.
  destruct w_init_eq as [Hini Hcfg].
  destruct (main_stops_and_closes w_parse l_string w_pub l_ws l_engine l_private l_start w_time l_others (λ _, w_env) (λ _, []) (λ _, false)
    l_P 2 (Some w_key) w_file (str_bytes "30303") false w_lines w_process w_p1 initial w_c1 l_m0 (str_bytes "data") l_script.1
    Hini eq_refl Hcfg l_new_eq l_answerable (or_introl (l_engine_m0 (engine l_m0))) l_keep l_open (script_quits l_script l_script_quits) (le_n 2))
    as (e & m & Hrun & Hstop & _ & _ & Hclosed & _).
  exists e, m. split; [exact Hrun|]. split; [exact Hstop | exact Hclosed].
Defined.
End main.
