(* ===== verification/PagerApp.v ===== *)
(** * The pager application ([src/app/main.go])

    Definitions only: the command line over the pager and the counter manager,
    and [main].  The console is the state: both managers, the log, the files,
    what was printed, and the calls made so far.  Other goroutines of the node
    run between two calls of the command line: what they do to the managers
    before the [i]th call is [others i], what the call gets from outside is
    [envs i].  What those goroutines print and log is left out.

    Of the p2p library, the parameters are: what starting the server gives,
    what it knows of its peers before the [i]th call, and the parser of node
    addresses.  The expressions [*config.Id()] were written when the id was a
    pointer to a string; here they are the id. *)

From Stdlib Require Import Strings.Byte.
From S2P Require Import Prelude Bytes Db LevelDb Config Logger WorldStateI Block Consensus Trustee Text Peers Platform Pager CounterProto CounterOps Countr Cli.

Module App.
Import Counter CounterOps.

(** ** The console *)

(** The calls of the managers that the command line makes *)
Inductive request :=
  | ASend (msg : BroadcastTextMsg)
  | ACountr (name : bytes)
  | AIncrement (name : bytes) (delta : Z)
  | ADecrement (name : bytes) (delta : Z)
  | ATip.

(** [*p2p.PeerInfo], as far as it is printed *)
Record peerInfo := MkPeerInfo {
  pi_Name : bytes;
  pi_ID : bytes;
  pi_RemoteAddress : bytes;
}.

(** What a call gets from outside: an id for a message, the times of
    [Increment] and [Decrement], and what others do between their blocks *)
Record appEnv {C : Type} := MkAppEnv {
  ae_uuid : bytes;
  ae_clock : nat → Z * (nat → Z);
  ae_others : nat → CountrProtocolManager C → CountrProtocolManager C;
}.
Arguments appEnv C : clear implicits.

Section app.
Context {C D W : Type} {wso : WorldState W D} {eng : Engine C D W} {sha : Sha512}.
Context {rls : Rlp BlockSpec} {rlt : Rlp BroadcastTextMsg} {jk : Json keyPair} {Node H : Type}.
Context (net : list (ref * Msg) → ref → Msg → option error) (pick : picker item) (order : nodeOrder).
Context (newTransaction : Z → bytes → Byte64 → Transaction).
Context (getenv : bytes → bytes) (creates : bytes → bool).
Context (ParseNode : bytes → result Node).
(** The key of the server, its address, and its peers *)
Context (srv_PrivateKey : ecKey) (srv_Enode : bytes) (srv_PeersInfo : nat → list peerInfo).
Context (others : nat → PagerProtocolManager * CountrProtocolManager C → PagerProtocolManager * CountrProtocolManager C) (envs : nat → appEnv C).

(** [counterMgr] may be [nil]. *)
Record console := Console {
  a_pager : PagerProtocolManager;
  a_counter : option (CountrProtocolManager C);
  a_log : logState (A:=bytes);
  a_files : files;
  a_out : bytes;
  a_calls : list request;
}.

Definition A (X : Type) : Type := console → outcome (console * X).
Definition A_ret {X} (x : X) : A X := λ s, Ret (s, x).
Definition A_bind {X Y} (x : A X) (f : X → A Y) : A Y := λ s, let! (s, a) := x s in f a s.

#[local] Notation "'get!' x ':=' e 'in' k" := (A_bind e (λ x, k))
  (at level 10, x pattern, e at level 100, k at level 200).
#[local] Notation "'then!' e 'in' k" := (A_bind e (λ _, k)) (at level 10, e at level 100, k at level 200).

(** [fmt.Printf] *)
Definition print (x : bytes) : A unit := λ s,
  Ret (Console (a_pager s) (a_counter s) (a_log s) (a_files s) (a_out s ++ x) (a_calls s), tt).
Definition logging (f : logState (A:=bytes) → logState (A:=bytes)) : A unit := λ s,
  Ret (Console (a_pager s) (a_counter s) (f (a_log s)) (a_files s) (a_out s) (a_calls s), tt).
Definition setFiles (fs : files) : A unit := λ s,
  Ret (Console (a_pager s) (a_counter s) (a_log s) fs (a_out s) (a_calls s), tt).

(** [log.AppLogger().Debug(...)] *)
Definition appDebug (format : bytes) (args : list bytes) : A unit :=
  logging (λ lg, let '(lg, l) := AppLogger getenv creates lg in Logger.Debug l format args lg).
(** [log.AppLogger().Error(...)] *)
Definition appError (format : bytes) (args : list bytes) : A unit :=
  logging (λ lg, let '(lg, l) := AppLogger getenv creates lg in Logger.Error l format args lg).

(** A call of the counter manager, after what others did *)
Definition askCounter {X} (q : request) (x : appEnv C → K (C:=C) X) : A X := λ s,
  let! mgr := deref (a_counter s) in
  let '(pm, cm) := others (length (a_calls s)) (a_pager s, mgr) in
  let! (cm, a) := x (envs (length (a_calls s))) cm in
  Ret (Console pm (Some cm) (a_log s) (a_files s) (a_out s) (a_calls s ++ [q]), a).

(** [pagerMgr.Broadcast(msg)] with the message for the id that [uuid] gives *)
Definition askPager (text : bytes) : A Z := λ s,
  let msg := MkText (BytesToByte16 (ae_uuid (envs (length (a_calls s))))) text in
  let pm := match a_counter s with
            | Some mgr => (others (length (a_calls s)) (a_pager s, mgr)).1
            | None => a_pager s
            end in
  let! (pm, count) := Broadcast net pick order msg pm in
  Ret (Console pm (match a_counter s with
                   | Some mgr => Some (others (length (a_calls s)) (a_pager s, mgr)).2
                   | None => None
                   end) (a_log s) (a_files s) (a_out s) (a_calls s ++ [ASend msg]), count).

(** ** Commands: each reads its arguments and returns the words it leaves *)

Definition cmd_log (words : list bytes) : A (list bytes) :=
  let '(level, words) := next words in
  then!
    (if decide (level = []) then print (str_bytes "usage: log <DEBUG|INFO|ERROR>" ++ nl)
     else if decide (level = str_bytes "DEBUG") then logging (SetLogLevel DEBUG)
     else if decide (level = str_bytes "INFO") then logging (SetLogLevel INFO)
     else if decide (level = str_bytes "ERROR") then logging (SetLogLevel ERROR)
     else print (str_bytes "Invalid log level '" ++ level ++ str_bytes "'" ++ nl)) in
  A_ret words.

(** The loop of the command [send] *)
Fixpoint sendText (text : bytes) (words : list bytes) : bytes :=
  match words with
  | [] => text
  | w :: words => sendText (if decide (text = []) then w else text ++ str_bytes " " ++ w) words
  end.

Definition cmd_send (words : list bytes) : A (list bytes) :=
  let text := sendText [] words in
  get! count := askPager text in
  then! appDebug (str_bytes "sent message: '%s' to %d peers") [text; fmt_i count] in
  A_ret [].

Definition cmd_countr (words : list bytes) : A (list bytes) :=
  let '(name, words) := next words in
  then!
    (if decide (name = []) then print (str_bytes "usage: countr <countr name>" ++ nl)
     else
       get! value := askCounter (ACountr name) (λ _, Countr name) in
       print (fmt_i value)) in
  A_ret words.

(** The commands [incr] and [decr] *)
Definition cmd_change (cmd : bytes) (request : bytes → Z → request) (change : appEnv C → bytes → Z → K (C:=C) Z)
    (words : list bytes) : A (list bytes) :=
  let usage := str_bytes "usage: " ++ cmd ++ str_bytes " <countr name> [<integer>]" ++ nl in
  let '(name, words) := next words in
  if decide (name = []) then then! print usage in A_ret words
  else
    let '(word, words) := next words in
    match (if decide (word = []) then Some 1 else Atoi word) with
    | None => then! print usage in A_ret words
    | Some delta =>
        then! askCounter (request name delta) (λ e, change e name delta) in
        A_ret words
    end.

Definition cmd_incr : list bytes → A (list bytes) :=
  cmd_change (str_bytes "incr") AIncrement
    (λ e name delta, Increment net pick order newTransaction (ae_others e) (ae_clock e) name delta).
Definition cmd_decr : list bytes → A (list bytes) :=
  cmd_change (str_bytes "decr") ADecrement
    (λ e name delta, Decrement net pick order newTransaction (ae_others e) (ae_clock e) name delta).

(** The variable [err] of the [if] is not the one that is tested after it. *)
Definition cmd_add (words : list bytes) : A (list bytes) :=
  let '(peerNode, words) := next words in
  then!
    (if decide (peerNode = []) then print (str_bytes "usage: add <peer node>" ++ nl)
     else
       let err : option error := None in
       then!
         match ParseNode peerNode with
         | Ok node =>
             then! appDebug (str_bytes "adding peer node: '%s'") [peerNode] in
             (λ s, let err := Proto.AddPeer (Pager.base (a_pager s)) in Ret (s, tt))
         | Err err => A_ret tt
         end in
       match err with
       | Some err => appError (str_bytes "failed to add peer node: %s") [str_bytes (Error_string err)]
       | None => A_ret tt
       end) in
  A_ret words.

Definition cmd_save (words : list bytes) : A (list bytes) :=
  let '(fileName, words) := next words in
  then!
    (if decide (fileName = []) then print (str_bytes "usage: save <file name>" ++ nl)
     else
       then! print (str_bytes "persisting to '" ++ fileName ++ str_bytes "'") in
       match Marshal (keyPairOf srv_PrivateKey) with
       | Ok kp =>
           then! print (str_bytes " size: " ++ fmt_i (Z.of_nat (length kp))) in
           (λ s, match os_Create fileName (a_files s) with
                 | Ok fs => setFiles (file_Write fileName kp fs).1 s
                 | Err err => print (nl ++ str_bytes "Error: " ++ str_bytes (Error_string err)) s
                 end)
       | Err err => print (str_bytes "failed to marshal: " ++ str_bytes (Error_string err))
       end) in
  A_ret words.

(** [%02d] of a number that is not negative *)
Definition fmt_02d (z : Z) : bytes := if decide (z < 10) then str_bytes "0" ++ fmt_i z else fmt_i z.

(** The loop of the command [peers], from index [i] *)
Fixpoint peersLoop (i : Z) (peers : list peerInfo) : A unit :=
  match peers with
  | [] => A_ret tt
  | peer :: peers =>
      then! print (fmt_02d (i + 1) ++ str_bytes " : " ++ quote ++ fmt_10s (pi_Name peer) ++ quote ++ str_bytes " : " ++
        pi_ID peer ++ str_bytes "@" ++ pi_RemoteAddress peer ++ nl) in
      peersLoop (i + 1) peers
  end.

Definition cmd_peers (words : list bytes) : A (list bytes) := λ s,
  A_bind (peersLoop 0 (srv_PeersInfo (length (a_calls s)))) (λ _, A_ret words) s.

Definition cmd_tip (words : list bytes) : A (list bytes) :=
  get! (depth, weight, hash) := askCounter ATip (λ _, Tip) in
  then! (λ s, let! h := deref hash in
              print (str_bytes "Depth: " ++ fmt_i depth ++ str_bytes ", Weight: " ++ fmt_i weight ++ nl ++ bytesToHexString (Bytes h) ++ nl) s) in
  A_ret words.

Definition cmd_enode (words : list bytes) : A (list bytes) :=
  then! print srv_Enode in A_ret words.

Definition cmd_info (cfg : option (Config.config H Node)) (words : list bytes) : A (list bytes) :=
  then! print (str_bytes "#######################" ++ nl) in
  then! (λ s, let! cfg := deref cfg in
              print (str_bytes "Node Name: " ++ nodeName cfg ++ nl ++
                str_bytes "Node ID  : " ++ Config.id cfg ++ nl ++
                str_bytes "Network  : " ++ networkId cfg ++ nl) s) in
  then! print (str_bytes "#######################") in
  A_ret words.

Definition cmd_unknown (cmd : bytes) (words : list bytes) : A (list bytes) :=
  then! print (str_bytes "Unknown Command: " ++ cmd ++ concat (map (app (str_bytes " ")) words)) in
  A_ret [].

(** ** The loops of [CLI] *)

(** The [switch] over the command; [None] leaves [CLI]. *)
Definition runCommand (cfg : option (Config.config H Node)) (cmd : bytes) (words : list bytes) : A (option (list bytes)) :=
  if decide (cmd = str_bytes "quit" ∨ cmd = str_bytes "q") then A_ret None
  else
    get! words :=
      (if decide (cmd = str_bytes "log") then cmd_log words
       else if decide (cmd = str_bytes "send") then cmd_send words
       else if decide (cmd = str_bytes "countr") then cmd_countr words
       else if decide (cmd = str_bytes "incr") then cmd_incr words
       else if decide (cmd = str_bytes "decr") then cmd_decr words
       else if decide (cmd = str_bytes "add") then cmd_add words
       else if decide (cmd = str_bytes "save") then cmd_save words
       else if decide (cmd = str_bytes "peers") then cmd_peers words
       else if decide (cmd = str_bytes "tip") then cmd_tip words
       else if decide (cmd = str_bytes "enode") then cmd_enode words
       else if decide (cmd = str_bytes "info") then cmd_info cfg words
       else cmd_unknown cmd words) in
    A_ret (Some words).

(** The words of a line; [true] leaves [CLI]. *)
Fixpoint wordLoop (fuel : nat) (cfg : option (Config.config H Node)) (words : list bytes) : A bool :=
  match words with
  | [] => A_ret false
  | cmd :: words =>
      match fuel with
      | O => λ _, OutOfFuel
      | S fuel =>
          get! r := runCommand cfg cmd words in
          match r with None => A_ret true | Some words => wordLoop fuel cfg words end
      end
  end.

(** The lines that one scanner delivers *)
Fixpoint lineLoop (cfg : option (Config.config H Node)) (lines : list bytes) : A bool :=
  match lines with
  | [] => A_ret false
  | line :: lines =>
      get! quit := (if decide (line = []) then A_ret false
                    else let words := ScanWords line in wordLoop (length words) cfg words) in
      if quit : bool then A_ret true
      else then! print (nl ++ cmdPrompt) in lineLoop cfg lines
  end.

(** The deferred functions [c <- 1]: [main] receives one value from the
    unbuffered channel, so that a second send blocks. *)
Definition deferredSends (deferred : nat) : call unit :=
  match deferred with O | S O => Returned tt | _ => Blocked end.

(** [func CLI(c chan int, srv *p2p.Server)]: each scanner delivers the lines up
    to an end of file; after the last one there is only an end of file.  Every
    round of the loop defers one more send.  A panic of a command ends the run
    here; the deferred sends that Go runs first are left out. *)
Fixpoint CLI (fuel deferred : nat) (cfg : option (Config.config H Node)) (stdin : list (list bytes)) : A (call unit) :=
  match fuel with
  | O => λ _, OutOfFuel
  | S fuel =>
      then! print cmdPrompt in
      let deferred := S deferred in
      get! quit := lineLoop cfg (match stdin with [] => [] | lines :: _ => lines end) in
      if quit : bool then A_ret (deferredSends deferred) else CLI fuel deferred cfg (tail stdin)
  end.
End app.
Arguments console C : clear implicits.

(** ** [main] *)

(** [p2p.Protocol], without the handler, whose parts are [connect], [listen]
    and [disconnected] of the manager *)
Record p2pProtocol := MkProtocol {
  proto_Name : bytes;
  proto_Version : Z;
  proto_Length : Z;
}.

Definition poc1 : Z := 0x01.
(** [func (mgr *PagerProtocolManager) Protocol() p2p.Protocol] *)
Definition pager_Protocol : p2pProtocol := MkProtocol (str_bytes "pager") poc1 (BroadcastText + 1).
(** [func (mgr *CountrProtocolManager) Protocol() p2p.Protocol] *)
Definition counter_Protocol : p2pProtocol := MkProtocol (str_bytes "countr") poc1 ProtocolMsgCount.

(** [p2p.Config]; [NAT] is whether it is [nat.Any()]. *)
Record serverConfig {Node : Type} := MkServer {
  sv_MaxPeers : Z;
  sv_PrivateKey : ecKey;
  sv_Name : bytes;
  sv_ListenAddr : bytes;
  sv_NAT : bool;
  sv_Protocols : list p2pProtocol;
  sv_BootstrapNodes : list Node;
}.
Arguments serverConfig Node : clear implicits.

(** The function that [main] registers with the pager: what it prints *)
Definition pageHandler (from text : bytes) : bytes :=
  nl ++ str_bytes "########## Msg From '" ++ from ++ str_bytes "' #########" ++ nl ++
  text ++ nl ++ str_bytes "#######################" ++ nl ++ cmdPrompt.

Section main.
Context {L H : Type} {lib : LevelDB L H} {jp : Json configParams} {jk : Json keyPair}.
Context {Node : Type} (ParseNode : bytes → result Node) (FromPub : Z → Z → bytes).
Context {C W : Type} (wso : DatabaseLevelDB H → WorldState W L) (eng : DatabaseLevelDB H → Engine C L W) {sha : Sha512}.
Context {rls : Rlp BlockSpec} {rlt : Rlp BroadcastTextMsg}.
Context (net : list (ref * Msg) → ref → Msg → option error) (pick : picker item) (order : nodeOrder).
Context (newTransaction : Z → bytes → Byte64 → Transaction).
Context (newEngine : DatabaseLevelDB H → Z → Byte64 → L → outcome (result C)).
Context (getenv : bytes → bytes) (creates : bytes → bool).
(** What starting the p2p server gives: its address *)
Context (server_Start : serverConfig Node → result bytes) (srv_PeersInfo : nat → list peerInfo).
Context (others : nat → PagerProtocolManager * CountrProtocolManager C → PagerProtocolManager * CountrProtocolManager C) (envs : nat → appEnv C).

(** What is left when the program ends *)
Record finished := Finished {
  fin_process : Config.process L H Node;
  fin_out : bytes;
  fin_log : logState (A:=bytes);
  fin_managers : option (PagerProtocolManager * CountrProtocolManager C);
}.

(** [log.AppLogger().Info(...)] *)
Definition app_Info (format : bytes) (args : list bytes) (lg : logState (A:=bytes)) : logState :=
  let '(lg, l) := AppLogger getenv creates lg in Logger.Info l format args lg.

(** The deferred calls of [main]: [Shutdown] of the counter manager, which
    panics when there is none, and then of the pager, which only logs *)
Definition shutdowns (cfg : Config.config H Node) (pm : PagerProtocolManager) (cm : option (CountrProtocolManager C))
    (fs : files) (out : bytes) (lg : logState (A:=bytes)) : outcome finished :=
  let! cm := deref cm in
  let! (cm, _) := Shutdown cm in
  let d := en_db (Engine:=eng (Config.db cfg)) (engine cm) in
  Ret (Finished (MkProcess (Some cfg) fs (leveldb_Close (Config.db cfg) d).1) out lg (Some (pm, cm))).

(** [func main()] after [flag.Parse()]; [CLI] runs in a goroutine whose first
    send [main] waits for, whether or not further sends block it, and [status] is the variable [handshakeMsg] of the counter
    package. *)
Definition main (fuel : nat) (gen : option ecKey) (fileName port : bytes) (natEnabled : bool) (status : Proto.HandshakeMsg)
    (stdin : list (list bytes)) (p : Config.process L H Node) (lg : logState (A:=bytes)) : outcome finished :=
  let! (p, err) := InitializeConfig ParseNode FromPub gen (Some fileName) (Some port) (Some natEnabled) p in
  match err with
  | Some err => Ret (Finished p (str_bytes "Failed to initialize configuration: " ++ str_bytes (ce_Error err) ++ nl) lg None)
  | None =>
      let! cfg := deref (match Config p with inr c => Some c | inl _ => None end) in
      let! listen := deref (Config.port cfg) in
      let out := str_bytes "Starting node, listening on " ++ listen ++ str_bytes "..." ++ nl in
      let lg := SetLogLevel DEBUG lg in
      let pm := NewPagerProtocolManager in
      let! cm := NewCountrProtocolManager (eng:=eng (Config.db cfg)) (newEngine (Config.db cfg)) (Config.id cfg) (Some (ps_ldb p)) status in
      let! nat := deref (Config.natEnabled cfg) in
      let srv := MkServer Node 10 (Config.key cfg) (nodeName cfg) (str_bytes ":" ++ listen) nat
                   [pager_Protocol; counter_Protocol] (bootnodes cfg) in
      match server_Start srv with
      | Err err =>
          let lg := (let '(lg, l) := AppLogger getenv creates lg in
                     Logger.Error l (str_bytes "Failed to start server: %s") [str_bytes (Error_string err)] lg) in
          shutdowns cfg pm cm (ps_files p) out lg
      | Ok enode =>
          let lg := app_Info (str_bytes "started server: %s") [enode] lg in
          let lg := app_Info (str_bytes "starting CLI now...") [] lg in
          let! (s, _) := CLI (wso:=wso (Config.db cfg)) (eng:=eng (Config.db cfg)) net pick order newTransaction getenv creates ParseNode
                           (sv_PrivateKey srv) enode srv_PeersInfo others envs fuel 0 (Some cfg) stdin (Console pm cm lg (ps_files p) out []) in
          let lg := app_Info (str_bytes "done.") [] (a_log s) in
          shutdowns cfg (a_pager s) (a_counter s) (a_files s) (a_out s) lg
      end
  end.
End main.
End App.
