(* ===== verification/PagerAppTheorems.v ===== *)
(** * Theorems about the pager application

    The command line does to the two managers what a short script says, which
    is read off the words typed, and nothing else; a page that is typed is
    shown by the peers that receive it; a key that is saved can be read back;
    and [main] ends by closing its database, or panics when the counter manager
    could not be made. *)

From Stdlib Require Import Strings.Byte.
From S2P Require Import Prelude Bytes Db LevelDb Config ConfigTheorems Logger Trie TrieSpec TrieFacts WorldState Concrete TrieTheorems WorldStateI Block BlockFacts BlockTheorems.
From S2P Require Import Consensus ConsensusFacts ConsensusTheorems Trustee Text Peers PeersTheorems Platform PlatformFacts Pager PagerTheorems.
From S2P Require Import CounterProto CounterTheorems CounterOps ChainState CounterOpsTheorems Countr Cli PagerApp.

(** ** Words *)

Definition word_ok (w : bytes) : Prop := w ≠ [].

Lemma scanWordsLoop_ne fuel : ∀ s word, Forall word_ok (scanWordsLoop fuel s word).
Proof.
  assert (∀ (word : bytes) ws, Forall word_ok ws → Forall word_ok (match word with [] => ws | _ => word :: ws end)) as Hflush.
  { intros [|b word] ws Hws; [done|]. by apply Forall_cons_2. }
  induction fuel as [|fuel IH]; intros s word; cbn [scanWordsLoop]; [by apply Hflush|].
  destruct s as [|b s]; [by apply Hflush|]. destruct (DecodeRune (b :: s)) as [r width].
  destruct (isSpace r); [by apply Hflush | apply IH].
Qed.

Lemma ScanWords_ne line : Forall word_ok (ScanWords line).
Proof. apply scanWordsLoop_ne. Qed.

Lemma spaced_cons w ws : spaced (w :: ws) = w ++ concat (map (app (str_bytes " ")) ws).
Proof.
  revert w. induction ws as [|w' ws IH]; intros w; [by rewrite app_nil_r|].
  change (spaced (w :: w' :: ws)) with (w ++ x20 :: spaced (w' :: ws)). by rewrite IH.
Qed.

Lemma sendText_tail words : ∀ text, text ≠ [] → App.sendText text words = text ++ concat (map (app (str_bytes " ")) words).
Proof.
  induction words as [|w words IH]; intros text Ht; cbn [App.sendText map concat]; [by rewrite app_nil_r|].
  rewrite decide_False by done. rewrite IH by (by intros [? _]%app_eq_nil). by rewrite <- !app_assoc.
Qed.

(** The text of [send] is its words with a space between two of them. *)
Lemma sendText_spaced words : Forall word_ok words → App.sendText [] words = spaced words.
Proof.
  intros Hall. destruct words as [|w ws]; [done|]. apply Forall_cons_1 in Hall as [Hw Hws].
  cbn [App.sendText]. rewrite decide_True, spaced_cons by done. by apply sendText_tail.
Qed.

(** ** What a session should do *)

Module AppScript.
Import App.

(** The calls of the managers *)
Inductive action :=
  | Page (text : bytes)
  | Read (name : bytes)
  | Add (name : bytes) (n : Z)
  | Subtract (name : bytes) (n : Z)
  | Tell.

(** The amount that is typed after the name of a counter: one if there is none *)
Definition amount (words : list bytes) : option Z := match words with [] => Some 1 | w :: _ => Atoi w end.

(** What a command with its arguments asks for, and the words that it leaves *)
Definition meaning (cmd : bytes) (words : list bytes) : list action * list bytes :=
  if decide (cmd = str_bytes "send") then ([Page (spaced words)], [])
  else if decide (cmd = str_bytes "countr") then (match words with [] => [] | name :: _ => [Read name] end, tail words)
  else if decide (cmd = str_bytes "incr" ∨ cmd = str_bytes "decr") then
    let act := if decide (cmd = str_bytes "incr") then Add else Subtract in
    (match words with
     | [] => []
     | name :: words => match amount words with Some n => [act name n] | None => [] end
     end, drop 2 words)
  else if decide (cmd = str_bytes "tip") then ([Tell], words)
  else if decide (cmd = str_bytes "log" ∨ cmd = str_bytes "add" ∨ cmd = str_bytes "save") then ([], tail words)
  else if decide (cmd = str_bytes "peers" ∨ cmd = str_bytes "enode" ∨ cmd = str_bytes "info") then ([], words)
  else ([], []).

Definition quits (cmd : bytes) : Prop := cmd = str_bytes "quit" ∨ cmd = str_bytes "q".

(** The actions of the words of a line, and whether it says to quit *)
Fixpoint lineActions (fuel : nat) (words : list bytes) : list action * bool :=
  match words, fuel with
  | [], _ | _, O => ([], false)
  | cmd :: words, S fuel =>
      if decide (quits cmd) then ([], true)
      else
        let '(acts, words) := meaning cmd words in
        let '(acts', quit) := lineActions fuel words in (acts ++ acts', quit)
  end.

(** The actions of a session: of the lines up to the one that says to quit *)
Fixpoint session (lines : list bytes) : list action * bool :=
  match lines with
  | [] => ([], false)
  | line :: lines =>
      let '(acts, quit) := lineActions (length (ScanWords line)) (ScanWords line) in
      if quit : bool then (acts, true) else let '(acts', quit) := session lines in (acts ++ acts', quit)
  end.

Example session_example :
  session [str_bytes "incr a 2 send hello  world"; str_bytes "decr b"; str_bytes "incr c x countr"; str_bytes "nonsense tip"; str_bytes "tip q tip"] =
    ([Add (str_bytes "a") 2; Page (str_bytes "hello world"); Subtract (str_bytes "b") 1; Tell], true).
Proof. vm_compute. reflexivity. Qed.
End AppScript.

Import App AppScript.

Lemma session_app l1 l2 :
  session (l1 ++ l2) =
    let '(acts, quit) := session l1 in
    if quit : bool then (acts, true) else let '(acts', quit) := session l2 in (acts ++ acts', quit).
Proof.
  induction l1 as [|line l1 IH]; simpl; [by destruct (session l2)|].
  destruct (lineActions _ _) as [acts [|]]; [done|]. rewrite IH. destruct (session l1) as [acts1 [|]]; [done|].
  destruct (session l2) as [acts2 q]. by rewrite app_assoc.
Qed.

Lemma left_words cmd words : (length (meaning cmd words).2 ≤ length words)%nat.
Proof. unfold meaning. repeat case_decide; simpl; rewrite ?length_drop; destruct words; simpl; lia. Qed.

Lemma left_ok cmd words : Forall word_ok words → Forall word_ok (meaning cmd words).2.
Proof.
  intros Hw. unfold meaning. repeat case_decide; simpl; try done; try (by apply Forall_drop); destruct words; try done; by apply Forall_cons_1 in Hw as [_ Hw].
Qed.

(** ** Running a script *)

Section execution.
Context {C D W : Type} {wso : WorldState W D} {eng : Engine C D W} {sha : Sha512}.
Context {rls : Rlp BlockSpec} {rlt : Rlp BroadcastTextMsg} {jk : Json keyPair} {Node H : Type}.
Context (net : list (ref * Msg) → ref → Msg → option error) (pick : picker item) (order : nodeOrder).
Context (newTransaction : Z → bytes → Byte64 → Transaction).
Context (getenv : bytes → bytes) (creates : bytes → bool).
Context (ParseNode : bytes → result Node).
Context (srv_PrivateKey : ecKey) (srv_Enode : bytes) (srv_PeersInfo : nat → list peerInfo).
Context (others : nat → PagerProtocolManager * Counter.CountrProtocolManager C → PagerProtocolManager * Counter.CountrProtocolManager C) (envs : nat → appEnv C).
Abbreviation console := (App.console C).
Abbreviation A := (App.A (C:=C)).
Implicit Types (s : console).

(** One action on the managers; [Tell] needs the hash of the tip. *)
Definition perform (a : action) : A unit :=
  match a with
  | Page text => A_bind (askPager net pick order others envs text) (λ _, A_ret tt)
  | Read name => A_bind (askCounter others envs (ACountr name) (λ _, Counter.Countr name)) (λ _, A_ret tt)
  | Add name n =>
      A_bind (askCounter others envs (AIncrement name n)
        (λ e, CounterOps.Increment net pick order newTransaction (ae_others e) (ae_clock e) name n)) (λ _, A_ret tt)
  | Subtract name n =>
      A_bind (askCounter others envs (ADecrement name n)
        (λ e, CounterOps.Decrement net pick order newTransaction (ae_others e) (ae_clock e) name n)) (λ _, A_ret tt)
  | Tell =>
      A_bind (askCounter others envs ATip (λ _, Counter.Tip)) (λ '(_, _, hash), λ s, let! _ := deref hash in Ret (s, tt))
  end.

Fixpoint execute (acts : list action) : A unit :=
  match acts with [] => A_ret tt | a :: acts => A_bind (perform a) (λ _, execute acts) end.

(** Two consoles with the same managers, after the same calls *)
Record sees s s' : Prop := {
  see_pager : a_pager s = a_pager s';
  see_counter : a_counter s = a_counter s';
  see_calls : a_calls s = a_calls s';
}.

#[global] Instance sees_equivalence : Equivalence sees.
Proof.
  split; [by split | by intros ? ? []; split|]. intros s1 s2 s3 [H1 H2 H3] [H4 H5 H6]. split; congruence.
Qed.

(** Two runs that end in the same way *)
Definition agree {X Y} (Q : X → Prop) (o : outcome (console * X)) (o' : outcome (console * Y)) : Prop :=
  match o, o' with
  | Ret (s, x), Ret (s', _) => sees s s' ∧ Q x
  | Panic, Panic | OutOfFuel, OutOfFuel => True
  | _, _ => False
  end.

(** A command that does to the managers what the actions do *)
Definition does {X} (x : A X) (acts : list action) (Q : X → Prop) : Prop :=
  ∀ s s', sees s s' → agree Q (x s) (execute acts s').

Lemma execute_app acts acts' s :
  execute (acts ++ acts') s = (let! (s, _) := execute acts s in execute acts' s).
Proof.
  revert s. induction acts as [|a acts IH]; intros s; [done|]. cbn [app execute]. unfold A_bind.
  destruct (perform a s) as [[s1 u]| |]; [|done..]. cbn [outcome_bind]. apply IH.
Qed.

Lemma does_ret {X} (x : X) (Q : X → Prop) : Q x → does (A_ret x) [] Q.
Proof. by intros Hx s s' Hs. Qed.

Lemma does_bind {X Y} (x : A X) (f : X → A Y) acts acts' (Q : X → Prop) (R : Y → Prop) :
  does x acts Q → (∀ a, Q a → does (f a) acts' R) → does (A_bind x f) (acts ++ acts') R.
Proof.
  intros Hx Hf s s' Hs. rewrite execute_app. unfold A_bind. specialize (Hx s s' Hs).
  destruct (x s) as [[s1 a]| |], (execute acts s') as [[s2 u]| |]; try done. destruct Hx as [Hs1 Ha]. by apply Hf.
Qed.

(** Something first that does not touch the managers *)
Lemma does_first {X Y} (x : A X) (f : X → A Y) acts (Q : X → Prop) (R : Y → Prop) :
  does x [] Q → (∀ a, Q a → does (f a) acts R) → does (A_bind x f) acts R.
Proof. exact (does_bind x f [] acts Q R). Qed.

(** Returning something last *)
Lemma does_then {X Y} (x : A X) (y : Y) acts (R : Y → Prop) : does x acts (λ _, True) → R y → does (A_bind x (λ _, A_ret y)) acts R.
Proof. intros Hx Hy. rewrite <- (app_nil_r acts). apply does_bind with (Q := λ _, True); [done|]. intros _ _. by apply does_ret. Qed.

Lemma does_map {X Y} (x : A X) (f : X → Y) acts a : does x acts (eq a) → does (A_bind x (λ a, A_ret (f a))) acts (eq (f a)).
Proof. intros Hx. rewrite <- (app_nil_r acts). apply does_bind with (Q := eq a); [done|]. intros _ <-. by apply does_ret. Qed.

Lemma does_print x : does (print x) [] (λ _, True).
Proof. intros s s' [H1 H2 H3]. by split. Qed.
Lemma does_logging f : does (logging f) [] (λ _, True).
Proof. intros s s' [H1 H2 H3]. by split. Qed.

(** An action for its effect, whatever the call returns *)
Lemma does_perform {X Y} a (x : A X) (f : X → A Y) (Q : X → Prop) (R : Y → Prop) :
  (∀ s s', sees s s' → agree Q (x s) (perform a s')) → (∀ y, Q y → does (f y) [] R) → does (A_bind x f) [a] R.
Proof.
  intros Hx Hf. apply (does_bind x f [a] [] Q R); [|done]. intros s s' Hs. specialize (Hx s s' Hs). cbn [execute]. unfold A_bind.
  destruct (x s) as [[s1 y]| |], (perform a s') as [[s2 u]| |]; done.
Qed.

Lemma askCounter_sees {X} q (x : appEnv C → Counter.K (C:=C) X) s s' : sees s s' →
  match askCounter others envs q x s, askCounter others envs q x s' with
  | Ret (s, a), Ret (s', a') => sees s s' ∧ a = a'
  | Panic, Panic | OutOfFuel, OutOfFuel => True
  | _, _ => False
  end.
Proof.
  intros [Hp Hc Hq]. unfold askCounter. rewrite <- Hp, <- Hc, <- Hq. destruct (a_counter s) as [cm|]; [|done].
  cbn [deref outcome_bind]. destruct (others _ _) as [pm cm']. destruct (x _ cm') as [[cm2 a]| |]; [|done..]. cbn [outcome_bind]. by split.
Qed.

Lemma ask_agree {X} q (x : appEnv C → Counter.K (C:=C) X) s s' : sees s s' →
  agree (λ _, True) (askCounter others envs q x s) (A_bind (askCounter others envs q x) (λ _, A_ret tt) s').
Proof.
  intros Hs. pose proof (askCounter_sees q x s s' Hs) as Ha. unfold A_bind.
  destruct (askCounter others envs q x s) as [[s1 a]| |], (askCounter others envs q x s') as [[s2 a']| |]; try done. by split; [apply Ha|].
Qed.

Lemma page_agree text s s' : sees s s' →
  agree (λ _, True) (askPager net pick order others envs text s) (perform (Page text) s').
Proof.
  intros [Hp Hc Hq]. unfold perform, askPager, A_bind. rewrite <- Hp, <- Hc, <- Hq.
  destruct (Broadcast _ _ _ _ _) as [[pm n]| |]; [|done..]. cbn [outcome_bind]. by split.
Qed.

(** ** The commands *)

Lemma cmd_log_does words : does (cmd_log words) [] (eq (tail words)).
Proof.
  destruct words as [|level words]; cbn [cmd_log next tail]; (apply does_then; [|done]).
  - rewrite decide_True by done. apply does_print.
  - repeat case_decide; auto using does_print, does_logging.
Qed.

Lemma cmd_send_does words : Forall word_ok words →
  does (cmd_send net pick order getenv creates others envs words) [Page (spaced words)] (eq []).
Proof.
  intros Hw. unfold cmd_send. rewrite sendText_spaced by done.
  eapply does_perform; [apply page_agree|]. intros n _. by apply does_then; [apply does_logging|].
Qed.

Lemma cmd_countr_does words : Forall word_ok words →
  does (cmd_countr others envs words) (match words with [] => [] | name :: _ => [Read name] end) (eq (tail words)).
Proof.
  intros Hw. destruct words as [|name words]; cbn [cmd_countr next tail]; (apply does_then; [|done]).
  - rewrite decide_True by done. apply does_print.
  - apply Forall_cons_1 in Hw as [Hn _]. rewrite decide_False by done. eapply does_perform; [apply (ask_agree (ACountr name))|].
    intros z _. apply does_print.
Qed.

Lemma cmd_change_does cmd act q change words :
  (∀ name n, perform (act name n) = A_bind (askCounter others envs (q name n) (λ e, change e name n)) (λ _, A_ret tt)) →
  Forall word_ok words →
  does (cmd_change others envs cmd q change words)
    (match words with [] => [] | name :: words => match amount words with Some n => [act name n] | None => [] end end)
    (eq (drop 2 words)).
Proof.
  intros Hact Hw. destruct words as [|name words]; cbn [cmd_change next drop].
  { rewrite decide_True by done. by apply does_then; [apply does_print|]. }
  apply Forall_cons_1 in Hw as [Hn Hw]. unfold cmd_change. cbn [next]. rewrite decide_False by done.
  assert (∃ word, next words = (word, tail words) ∧ (if decide (word = []) then Some 1 else Atoi word) = amount words) as (word & -> & ->).
  { destruct words as [|w words]; [by exists []|]. apply Forall_cons_1 in Hw as [Hword _]. exists w. by rewrite decide_False. }
  assert (drop 1 words = tail words) as -> by by destruct words.
  destruct (amount words) as [n|]; [|by apply does_then; [apply does_print|]].
  apply does_perform with (Q := λ _, True); [|intros; by apply does_ret]. rewrite Hact. apply ask_agree.
Qed.

Lemma cmd_add_does words : does (cmd_add getenv creates ParseNode words) [] (eq (tail words)).
Proof.
  destruct words as [|node words]; cbn [cmd_add next tail]; (apply does_then; [|done]); [rewrite decide_True by done; apply does_print|].
  case_decide; [apply does_print|]. apply does_then; [|done]. destruct (ParseNode node) as [n|e]; [|by apply does_ret].
  eapply does_first; [apply does_logging|]. intros _ _ s s' Hs. by split.
Qed.

Lemma cmd_save_does words : does (cmd_save srv_PrivateKey words) [] (eq (tail words)).
Proof.
  destruct words as [|file words]; cbn [cmd_save next tail]; (apply does_then; [|done]); [rewrite decide_True by done; apply does_print|].
  case_decide; [apply does_print|]. eapply does_first; [apply does_print|]. intros _ _.
  destruct (Marshal _) as [kp|e]; [|apply does_print]. eapply does_first; [apply does_print|]. intros _ _ s s' [H1 H2 H3].
  destruct (os_Create file (a_files s)); by split.
Qed.

Lemma peersLoop_does peers : ∀ i, does (peersLoop i peers) [] (λ _, True).
Proof.
  induction peers as [|p peers IH]; intros i; cbn [peersLoop]; [by apply does_ret|].
  eapply does_first; [apply does_print|]. intros _ _. apply IH.
Qed.

Lemma cmd_peers_does words : does (cmd_peers srv_PeersInfo words) [] (eq words).
Proof.
  intros s s' Hs. unfold cmd_peers. exact (does_then _ words [] (eq words) (peersLoop_does _ 0) eq_refl s s' Hs).
Qed.

Lemma cmd_tip_does words : does (cmd_tip others envs words) [Tell] (eq words).
Proof.
  intros s s' Hs. unfold cmd_tip, A_bind. cbn [execute perform]. unfold A_bind.
  pose proof (askCounter_sees ATip (λ _, Counter.Tip) s s' Hs) as Ha.
  destruct (askCounter _ _ _ _ s) as [[s1 a]| |], (askCounter _ _ _ _ s') as [[s2 a']| |]; try done. destruct Ha as [Hs1 <-].
  cbn [outcome_bind]. destruct a as [[depth weight] [hash|]]; [|done]. cbn [deref outcome_bind]. split; [|done]. by destruct Hs1; split.
Qed.

Lemma cmd_info_does (cfg : Config.config H Node) words : does (cmd_info (Some cfg) words) [] (eq words).
Proof.
  unfold cmd_info. eapply does_first; [apply does_print|]. intros _ _. eapply does_first; [apply (does_print _)|].
  intros _ _. by apply does_then; [apply does_print|].
Qed.

(** ** The loops *)

Abbreviation run_command := (runCommand net pick order newTransaction getenv creates ParseNode srv_PrivateKey srv_Enode srv_PeersInfo others envs).
Abbreviation run_words := (wordLoop net pick order newTransaction getenv creates ParseNode srv_PrivateKey srv_Enode srv_PeersInfo others envs).
Abbreviation run_lines := (lineLoop net pick order newTransaction getenv creates ParseNode srv_PrivateKey srv_Enode srv_PeersInfo others envs).
Abbreviation run_CLI := (CLI net pick order newTransaction getenv creates ParseNode srv_PrivateKey srv_Enode srv_PeersInfo others envs).

Lemma runCommand_does (cfg : Config.config H Node) cmd words : ¬ quits cmd → Forall word_ok words →
  does (run_command (Some cfg) cmd words) (meaning cmd words).1 (eq (Some (meaning cmd words).2)).
Proof.
  intros Hq Hw. unfold runCommand. rewrite decide_False by exact Hq. apply does_map.
  destruct (decide (cmd = str_bytes "log")) as [->|H1]; [apply cmd_log_does|].
  destruct (decide (cmd = str_bytes "send")) as [->|H2]; [by apply cmd_send_does|].
  destruct (decide (cmd = str_bytes "countr")) as [->|H3]; [by apply cmd_countr_does|].
  destruct (decide (cmd = str_bytes "incr")) as [->|H4]; [by apply (cmd_change_does (str_bytes "incr") Add)|].
  destruct (decide (cmd = str_bytes "decr")) as [->|H5]; [by apply (cmd_change_does (str_bytes "decr") Subtract)|].
  destruct (decide (cmd = str_bytes "add")) as [->|H6]; [apply cmd_add_does|].
  destruct (decide (cmd = str_bytes "save")) as [->|H7]; [apply cmd_save_does|].
  destruct (decide (cmd = str_bytes "peers")) as [->|H8]; [apply cmd_peers_does|].
  destruct (decide (cmd = str_bytes "tip")) as [->|H9]; [apply cmd_tip_does|].
  destruct (decide (cmd = str_bytes "enode")) as [->|H10]; [by apply does_then; [apply does_print|]|].
  destruct (decide (cmd = str_bytes "info")) as [->|H11]; [apply cmd_info_does|].
  unfold meaning. rewrite !decide_False by tauto. by apply does_then; [apply does_print|].
Qed.

Lemma wordLoop_does (cfg : Config.config H Node) fuel : ∀ words, Forall word_ok words → (length words ≤ fuel)%nat →
  does (run_words fuel (Some cfg) words) (lineActions fuel words).1 (eq (lineActions fuel words).2).
Proof.
  induction fuel as [|fuel IH]; intros [|cmd words] Hw Hl; simpl in Hl; cbn [wordLoop lineActions]; try (by apply does_ret); [lia|].
  apply Forall_cons_1 in Hw as [_ Hw]. destruct (decide (quits cmd)) as [Hq|Hq].
  - apply (does_first _ _ _ (eq None)); [|intros _ <-; by apply does_ret]. unfold runCommand. rewrite decide_True by exact Hq. by apply does_ret.
  - pose proof (runCommand_does cfg cmd words Hq Hw) as Hr. pose proof (left_words cmd words) as Hm. pose proof (left_ok cmd words Hw) as Hok.
    destruct (meaning cmd words) as [acts rest]. simpl in Hr, Hm, Hok. specialize (IH rest Hok ltac:(lia)).
    destruct (lineActions fuel rest) as [acts' quit]. apply does_bind with (Q := eq (Some rest)); [done|]. by intros _ <-.
Qed.

Lemma lineLoop_does (cfg : Config.config H Node) lines :
  does (run_lines (Some cfg) lines) (session lines).1 (eq (session lines).2).
Proof.
  induction lines as [|line lines IH]; cbn [lineLoop session]; [by apply does_ret|].
  pose proof (wordLoop_does cfg (length (ScanWords line)) (ScanWords line) (ScanWords_ne line) (le_n _)) as Hr.
  assert (does (if decide (line = []) then A_ret false else run_words (length (ScanWords line)) (Some cfg) (ScanWords line))
    (lineActions (length (ScanWords line)) (ScanWords line)).1 (eq (lineActions (length (ScanWords line)) (ScanWords line)).2)) as Hline.
  { case_decide as Hl; [|done]. rewrite Hl. by apply does_ret. }
  destruct (lineActions _ _) as [acts quit]. simpl in Hline. destruct quit.
  - rewrite <- (app_nil_r (acts, true).1). apply does_bind with (Q := eq true); [done|]. intros _ <-. by apply does_ret.
  - destruct (session lines) as [acts' quit]. apply does_bind with (Q := eq false); [done|]. intros _ <-.
    eapply does_first; [apply does_print|]. by intros _ _.
Qed.

(** One round of the outer loop, over the lines up to an end of file *)
Lemma CLI_once (cfg : Config.config H Node) fuel n stdin s s' :
  let lines := match stdin with [] => [] | lines :: _ => lines end in
  sees s s' →
  match execute (session lines).1 s' with
  | Ret (s2, _) => ∃ s1, sees s1 s2 ∧ run_CLI (S fuel) n (Some cfg) stdin s =
      if (session lines).2 then Ret (s1, deferredSends (S n)) else run_CLI fuel (S n) (Some cfg) (tail stdin) s1
  | Panic => run_CLI (S fuel) n (Some cfg) stdin s = Panic
  | OutOfFuel => run_CLI (S fuel) n (Some cfg) stdin s = OutOfFuel
  end.
Proof.
  intros lines Hs. pose proof (does_first _ _ _ _ _ (does_print cmdPrompt) (λ _ _, lineLoop_does cfg lines) s s' Hs) as Hr.
  cbn [CLI]. unfold A_bind in *. cbn [print outcome_bind] in *. subst lines.
  destruct (lineLoop _ _ _ _ _ _ _ _ _ _ _ _ _ _ _) as [[s1 quit]| |], (execute _ _) as [[s2 u]| |]; try done.
  destruct Hr as [H1 <-]. cbn [outcome_bind]. exists s1. split; [done|]. by destruct (session _).2.
Qed.

(** The rounds of the outer loop up to the one that is told to quit *)
Fixpoint rounds (stdin : list (list bytes)) : nat :=
  match stdin with
  | [] => O
  | lines :: stdin => if (session lines).2 then 1%nat else S (rounds stdin)
  end.

Lemma rounds_quit stdin acts : session (concat stdin) = (acts, true) →
  deferredSends (rounds stdin) = if (session (default [] (head stdin))).2 then Returned tt else Blocked.
Proof.
  destruct stdin as [|lines stdin]; [done|]. change (default [] (head (lines :: stdin))) with lines. cbn [concat rounds]. rewrite session_app.
  destruct (session lines) as [acts1 [|]]; [done|]. destruct stdin as [|l stdin]; [done|].
  intros _. cbn [rounds snd]. by destruct (session l).2.
Qed.

Lemma CLI_agrees (cfg : Config.config H Node) stdin : ∀ fuel n s s' acts,
  sees s s' → session (concat stdin) = (acts, true) → (length stdin ≤ fuel)%nat →
  agree (λ r, r = deferredSends (n + rounds stdin)) (run_CLI fuel n (Some cfg) stdin s) (execute acts s').
Proof.
  induction stdin as [|lines stdin IH]; intros fuel n s s' acts Hs Hacts Hf; simpl in Hacts, Hf; [done|].
  destruct fuel as [|fuel]; [lia|]. pose proof (CLI_once cfg fuel n (lines :: stdin) s s' Hs) as Hr. cbn [tail] in Hr.
  rewrite session_app in Hacts. cbn [rounds]. destruct (session lines) as [acts1 [|]].
  - injection Hacts as <-. cbn [fst snd] in Hr. destruct (execute acts1 s') as [[s2 u]| |]; [|by rewrite Hr..].
    destruct Hr as (s1 & Hs1 & ->). split; [done|]. by rewrite Nat.add_1_r.
  - destruct (session (concat stdin)) as [acts2 q] eqn:Hrest. injection Hacts as <- ->. rewrite execute_app. cbn [fst snd] in Hr.
    destruct (execute acts1 s') as [[s2 u]| |]; [|by rewrite Hr..]. destruct Hr as (s1 & Hs1 & ->). cbn [outcome_bind].
    cbn [snd]. rewrite Nat.add_succ_r. apply (IH fuel (S n)); [done | done | lia].
Qed.

Lemma CLI_never_returns (cfg : Config.config H Node) fuel : ∀ n stdin s acts,
  session (concat stdin) = (acts, false) → ¬ ∃ r, run_CLI fuel n (Some cfg) stdin s = Ret r.
Proof.
  induction fuel as [|fuel IH]; intros n stdin s acts Hacts [r Hrun]; [done|].
  pose proof (CLI_once cfg fuel n stdin s s (reflexivity s)) as Hr. cbn zeta in Hr.
  assert (∃ acts', session (match stdin with [] => [] | lines :: _ => lines end) = (acts', false) ∧ ∃ acts2, session (concat (tail stdin)) = (acts2, false)) as (acts' & Hl & acts2 & Hrest).
  { destruct stdin as [|lines stdin]; [by eexists; split; [|eexists]|]. cbn [concat tail] in *. rewrite session_app in Hacts.
    destruct (session lines) as [acts1 [|]]; [done|]. destruct (session (concat stdin)) as [acts2 q]. injection Hacts as _ ->. by eexists; split; [|eexists]. }
  rewrite Hl in Hr. cbn [fst snd] in Hr. destruct (execute acts' s) as [[s2 u]| |]; [|congruence..].
  destruct Hr as (s1 & _ & Heq). rewrite Hrun in Heq. symmetry in Heq. exact (IH (S n) (tail stdin) s1 acts2 Hrest (ex_intro _ r Heq)).
Qed.

(** C37: A session of the command line of the pager application does to the pager and the
    counter manager exactly what the reference interpreter does with the actions read off the
    typed words (pages, readings, changes of counters, requests for the tip, in order), whatever
    other goroutines do in between, and panics when the interpreter does. Told to quit before
    the first end of its input it returns; told to quit after an end of input it has made the
    one send that main receives and blocks in its second deferred send; without a command to
    quit it never ends. *)
Theorem pager_session_runs_script (cfg : Config.config H Node) stdin s acts quit :
  session (concat stdin) = (acts, quit) →
  if quit : bool then ∀ fuel, (length stdin ≤ fuel)%nat →
    agree (λ r, r = if (session (default [] (head stdin))).2 then Returned tt else Blocked) (run_CLI fuel 0 (Some cfg) stdin s) (execute acts s)
  else ∀ fuel, ¬ ∃ r, run_CLI fuel 0 (Some cfg) stdin s = Ret r.
Proof.
  intros Hacts. destruct quit; intros fuel.
  - intros Hf. rewrite <- (rounds_quit stdin acts Hacts). by apply (CLI_agrees cfg stdin fuel 0).
  - by apply (CLI_never_returns cfg fuel 0 stdin s acts).
Qed.
End execution.

(** ** Pages that are typed *)

Section pages.
Context {C D W : Type} {wso : WorldState W D} {eng : Engine C D W} {sha : Sha512}.
Context {rls : Rlp BlockSpec} {rlt : Rlp BroadcastTextMsg} {rltl : RlpLaws BroadcastTextMsg} {jk : Json keyPair} {Node H : Type}.
Context (net : list (ref * Msg) → ref → Msg → option error) (pick : picker item) (order : nodeOrder).
Context (newTransaction : Z → bytes → Byte64 → Transaction).
Context (getenv : bytes → bytes) (creates : bytes → bool).
Context (ParseNode : bytes → result Node).
Context (srv_PrivateKey : ecKey) (srv_Enode : bytes) (srv_PeersInfo : nat → list peerInfo).
Context (others : nat → PagerProtocolManager * Counter.CountrProtocolManager C → PagerProtocolManager * Counter.CountrProtocolManager C) (envs : nat → appEnv C).
Implicit Types (s : App.console C).
Abbreviation run_command := (runCommand net pick order newTransaction getenv creates ParseNode srv_PrivateKey srv_Enode srv_PeersInfo others envs).
Abbreviation run_lines := (lineLoop net pick order newTransaction getenv creates ParseNode srv_PrivateKey srv_Enode srv_PeersInfo others envs).

(** The pager when the next call of the command line gets to it *)
Definition pager_then s : PagerProtocolManager :=
  match a_counter s with Some cm => (others (length (a_calls s)) (a_pager s, cm)).1 | None => a_pager s end.

(** A line with one command that uses all its words *)
Lemma one_command (cfg : option (Config.config H Node)) cmd args s s' :
  Forall (λ w, w ≠ [] ∧ forallb plain w = true) (cmd :: args) → run_command cfg cmd args s = Ret (s', Some []) →
  run_lines cfg [spaced (cmd :: args)] s = Ret (Console (a_pager s') (a_counter s') (a_log s') (a_files s') (a_out s' ++ nl ++ cmdPrompt) (a_calls s'), false).
Proof.
  intros Hw Hr. cbn [lineLoop]. rewrite ScanWords_spaced by done. rewrite decide_False.
  - cbn [length wordLoop]. unfold A_bind. rewrite Hr. cbn [outcome_bind]. by destruct (length args).
  - apply Forall_cons_1 in Hw as [[Hne _] _]. rewrite spaced_cons. by intros [? _]%app_eq_nil.
Qed.

(** C34: From the keyboard of one node to the screen of another: a line send with words makes
    one page with the words separated by single spaces and a new id, sends it to exactly the
    registered peers that are not known to have that id and shows nothing itself, and every node
    to which this page comes from a registered peer, and which has not seen its id, shows
    exactly that text. *)
Theorem typed_page_is_shown (cfg : option (Config.config H Node)) words s :
  is_node_order order → base_ok (base (pager_then s)) →
  Forall (λ w, w ≠ [] ∧ forallb plain w = true) words →
  let msg := MkText (BytesToByte16 (ae_uuid (envs (length (a_calls s))))) (spaced words) in
  let it := ItemId (MsgId msg) in
  ∃ s', run_lines cfg [spaced (str_bytes "send" :: words)] s = Ret (s', false) ∧
    a_calls s' = a_calls s ++ [ASend msg] ∧ pages (a_pager s') = pages (pager_then s) ∧
    Proto.sent (base (a_pager s')) = sends net BroadcastText msg (Proto.sent (base (pager_then s)))
      (filter (λ r, ¬ knows it (base (pager_then s)) r) (registered order (base (pager_then s)))) ∧
    ∀ payload net' pick' order' id from name m, Encode msg = Ok payload →
      is_node_order order' → base_ok (base m) → PeerNodeForId id (Proto.db (base m)) = Some from →
      it ∉ ps_myHistory (Proto.db (base m)) →
      ∃ m', handleBroadcastMsg net' pick' order' (MkMsg BroadcastText payload) id name m = Ret (m', None) ∧
        pages m' = pages m ++ [(name, spaced words)].
Proof.
  intros Ho Hok Hw msg it.
  destruct (Broadcast_spec net pick order msg (pager_then s) Ho Hok) as (b' & Hb & _ & Hsent & _).
  assert (Forall word_ok words) as Hne by (eapply list.Forall_impl; [exact Hw|]; by intros w [? _]).
  eexists. split; [apply one_command|].
  - by apply Forall_cons_2.
  - unfold runCommand. rewrite decide_False by (intros [|]; done). rewrite decide_False, decide_True by done.
    unfold A_bind at 1, cmd_send, A_bind at 1, askPager. rewrite sendText_spaced by done. fold msg.
    change (match a_counter s with Some mgr => (others (length (a_calls s)) (a_pager s, mgr)).1 | None => a_pager s end) with (pager_then s).
    rewrite Hb. reflexivity.
  - cbn [a_calls a_pager base pages]. split; [done|]. split; [done|]. split; [exact Hsent|].
    intros payload net' pick' order' id from name m Henc Ho' Hm Hfrom Hnew.
    destruct (handle_page net' pick' order' msg payload id from name m Ho' Hm Hfrom (decode_encode _ _ Henc)) as (m' & Hrun & Hpg).
    exists m'. split; [done|]. by apply (pg_new _ _ _ _ _ _ _ Hpg).
Qed.

(** A key that is saved is the one that the configuration reads from the file. *)
Theorem saved_key_is_read {jkl : JsonLaws keyPair} (cfg : option (Config.config H Node)) file s data :
  file ≠ [] → forallb plain file = true → storable srv_PrivateKey → Marshal (keyPairOf srv_PrivateKey) = Ok data →
  f_createErr (a_files s) file = None → f_openErr (a_files s) file = None → f_writeErr (a_files s) file = None →
  ∃ s' saved, run_lines cfg [spaced [str_bytes "save"; file]] s = Ret (s', false) ∧
    a_pager s' = a_pager s ∧ a_counter s' = a_counter s ∧ a_calls s' = a_calls s ∧
    os_Open file (a_files s') = Ok saved ∧ readKey saved = inr srv_PrivateKey.
Proof.
  intros Hne Hpl Hk Hm Hc Hop Hwr. eexists _, data. split; [apply one_command|].
  - apply Forall_cons_2; [done|]. by apply Forall_cons_2.
  - unfold runCommand. rewrite decide_False by (intros [|]; done). repeat (rewrite decide_False by done). rewrite decide_True by done.
    unfold cmd_save. cbn [next]. rewrite decide_False by done. unfold A_bind. rewrite Hm. cbn [print outcome_bind]. unfold os_Create. cbn [a_files]. rewrite Hc. reflexivity.
  - cbn. split; [done|]. split; [done|]. split; [done|]. split; [|by apply readKey_made].
    unfold os_Open, file_Write. cbn [f_writeErr set_data]. rewrite Hwr. cbn [fst f_openErr f_data set_data]. by rewrite Hop, lookup_insert_eq.
Qed.
End pages.

(** ** The whole program *)

Section keeps.
Context {C D W : Type} {wso : WorldState W D} {eng : Engine C D W} {sha : Sha512}.
Context {rls : Rlp BlockSpec} {rlt : Rlp BroadcastTextMsg}.
Context (net : list (ref * Msg) → ref → Msg → option error) (pick : picker item) (order : nodeOrder).
Context (newTransaction : Z → bytes → Byte64 → Transaction).
Context (others : nat → PagerProtocolManager * Counter.CountrProtocolManager C → PagerProtocolManager * Counter.CountrProtocolManager C) (envs : nat → appEnv C).
Implicit Types (s : App.console C).

Lemma askCounter_has {X} q (x : appEnv C → Counter.K (C:=C) X) s s' a :
  askCounter others envs q x s = Ret (s', a) → is_Some (a_counter s) ∧ is_Some (a_counter s').
Proof.
  unfold askCounter. rewrite outcome_bind_ret. intros (cm & Hcm & Hr). destruct (a_counter s); [|done].
  destruct (others _ _) as [pm cm']. apply outcome_bind_ret in Hr as ([cm2 b] & _ & [= <- _]). split; by eexists.
Qed.

(** The command line never loses the counter manager, and never makes one. *)
Lemma perform_has a s s' u : perform net pick order newTransaction others envs a s = Ret (s', u) → is_Some (a_counter s) ↔ is_Some (a_counter s').
Proof.
  destruct a; cbn [perform]; unfold A_bind; rewrite outcome_bind_ret; intros ([s1 x] & Hask & Hr).
  - injection Hr as <- _. unfold askPager in Hask. apply outcome_bind_ret in Hask as ([pm n] & _ & [= <- _]).
    cbn [a_counter]. destruct (a_counter s); [|done]. split; intros _; by eexists.
  - injection Hr as <- _. by apply askCounter_has in Hask as [? ?].
  - injection Hr as <- _. by apply askCounter_has in Hask as [? ?].
  - injection Hr as <- _. by apply askCounter_has in Hask as [? ?].
  - apply askCounter_has in Hask as [? ?]. destruct x as [[depth weight] [hash|]]; [|done]. by injection Hr as <- _.
Qed.

Lemma execute_has acts : ∀ s s' u, execute net pick order newTransaction others envs acts s = Ret (s', u) → is_Some (a_counter s) ↔ is_Some (a_counter s').
Proof.
  induction acts as [|a acts IH]; intros s s' u; cbn [execute]; [by intros [= <- _]|].
  unfold A_bind. rewrite outcome_bind_ret. intros ([s1 x] & Hp & Hr). rewrite (perform_has _ _ _ _ Hp). by eapply IH.
Qed.
End keeps.

Section main.
Context {L H : Type} {lib : LevelDB L H} {ldl : LevelDBLaws L H} `{EqDecision H} {jp : Json configParams} {jk : Json keyPair}.
Context {Node : Type} (ParseNode : bytes → result Node) (FromPub : Z → Z → bytes).
Context {C W : Type} (wso : DatabaseLevelDB H → WorldState W L) (eng : DatabaseLevelDB H → Engine C L W) {sha : Sha512}.
Context {rls : Rlp BlockSpec} {rlt : Rlp BroadcastTextMsg}.
Context (net : list (ref * Msg) → ref → Msg → option error) (pick : picker item) (order : nodeOrder).
Context (newTransaction : Z → bytes → Byte64 → Transaction).
Context (newEngine : DatabaseLevelDB H → Z → Byte64 → L → outcome (result C)).
Context (getenv : bytes → bytes) (creates : bytes → bool).
Context (server_Start : serverConfig Node → result bytes) (srv_PeersInfo : nat → list peerInfo).
Context (others : nat → PagerProtocolManager * Counter.CountrProtocolManager C → PagerProtocolManager * Counter.CountrProtocolManager C) (envs : nat → appEnv C).
Abbreviation main := (App.main ParseNode FromPub wso eng net pick order newTransaction newEngine getenv creates server_Start srv_PeersInfo others envs).
Abbreviation run_script cfg := (execute (wso:=wso (Config.db cfg)) (eng:=eng (Config.db cfg)) net pick order newTransaction others envs).

(** The server that [main] configures *)
Definition server (cfg : Config.config H Node) (port : bytes) (nat : bool) : serverConfig Node :=
  MkServer Node 10 (Config.key cfg) (nodeName cfg) (str_bytes ":" ++ port) nat [pager_Protocol; counter_Protocol] (bootnodes cfg).
(** The managers with which the command line starts *)
Definition fresh (cm : option (Counter.CountrProtocolManager C)) : App.console C := Console NewPagerProtocolManager cm initial (MkFiles ∅ (λ _, None) (λ _, None) (λ _, None)) [] [].

(** [main] ends with the manager of the script stopped and the database
    closed. *)
Definition closed (cfg : Config.config H Node) (s : App.console C) (e : finished) : Prop :=
  ∃ cm, a_counter s = Some cm ∧
    fin_managers e = Some (a_pager s, Counter.Mgr C (Counter.base cm) (Counter.engine cm) (Counter.miner cm) true true (Counter.handshakeMsg cm) (Counter.nextPtr cm)) ∧
    ldb_file (ldb (Config.db cfg)) (ps_ldb (fin_process e)) = None ∧ ps_c (fin_process e) = Some cfg.

Section started.
Context (fuel : nat) (gen : option ecKey) (file port : bytes) (nat : bool) (status : Proto.HandshakeMsg) (stdin : list (list bytes)).
Context (p p1 : Config.process L H Node) (cfg : Config.config H Node) (cm : option (Counter.CountrProtocolManager C)) (enode : bytes) (acts : list action).
Context (Hini : InitializeConfig ParseNode FromPub gen (Some file) (Some port) (Some nat) p = Ret (p1, None)).
Context (Hc0 : ps_c p = None) (Hcfg : ps_c p1 = Some cfg).
Context (Hcm : CounterOps.NewCountrProtocolManager (eng:=eng (Config.db cfg)) (newEngine (Config.db cfg)) (Config.id cfg) (Some (ps_ldb p1)) status = Ret cm).
Context (Hquit : session (concat stdin) = (acts, true)) (Hfuel : (length stdin ≤ fuel)%nat).

Lemma started_config : Config.port cfg = Some port ∧ Config.natEnabled cfg = Some nat.
Proof.
  pose proof (InitializeConfig_spec _ _ _ _ _ _ _ _ _ Hini) as Hspec. rewrite Hc0 in Hspec. destruct Hspec as (c & Hc & _ & _ & _ & Hp & Hn & _).
  rewrite Hc in Hcfg. by injection Hcfg as ->.
Qed.

(** What [main] does once the server runs: the command line, then the deferred calls *)
Lemma main_runs lg : server_Start (server cfg port nat) = Ok enode →
  ∃ lg1 lg2 out, main fuel gen file port nat status stdin p lg =
    let! (s, _) := CLI (wso:=wso (Config.db cfg)) (eng:=eng (Config.db cfg)) net pick order newTransaction getenv creates ParseNode
                     (Config.key cfg) enode srv_PeersInfo others envs fuel 0 (Some cfg) stdin (Console NewPagerProtocolManager cm lg1 (ps_files p1) out []) in
    shutdowns eng cfg (a_pager s) (a_counter s) (a_files s) (a_out s) (lg2 (a_log s)).
Proof.
  intros Hsrv. destruct started_config as [Hp Hn]. unfold App.main. rewrite Hini. cbn [outcome_bind]. unfold Config.Config. rewrite Hcfg.
  cbn [deref outcome_bind]. rewrite Hp. cbn [deref outcome_bind]. rewrite Hcm. cbn [outcome_bind]. rewrite Hn. cbn [deref outcome_bind].
  fold (server cfg port nat). rewrite Hsrv. eexists _, (app_Info getenv creates (str_bytes "done.") []), _. reflexivity.
Qed.

Lemma main_closes lg f s :
  server_Start (server cfg port nat) = Ok enode → is_Some cm → run_script cfg acts (fresh cm) = Ret (s, tt) →
  (∀ cm', a_counter s = Some cm' → ldb_file (ldb (Config.db cfg)) (en_db (Engine:=eng (Config.db cfg)) (Counter.engine cm')) = Some f) →
  ∃ e, main fuel gen file port nat status stdin p lg = Ret e ∧ closed cfg s e.
Proof.
  intros Hsrv Hsome Hrun Hopen. destruct (main_runs lg Hsrv) as (lg1 & lg2 & out & ->).
  set (s0 := Console NewPagerProtocolManager cm lg1 (ps_files p1) out []).
  pose proof (CLI_agrees (wso:=wso (Config.db cfg)) (eng:=eng (Config.db cfg)) net pick order newTransaction getenv creates ParseNode
    (Config.key cfg) enode srv_PeersInfo others envs cfg stdin fuel 0 s0 (fresh cm) acts ltac:(by split) Hquit Hfuel) as Hagree.
  rewrite Hrun in Hagree. destruct (CLI _ _ _ _ _ _ _ _ _ _ _ _ _ _ _ _ s0) as [[s1 u]| |]; try done.
  destruct Hagree as [[Hpm Hk _] _]. cbn [outcome_bind].
  destruct (proj1 (execute_has _ _ _ _ _ _ _ _ _ _ Hrun) Hsome) as [cm1 Hcm1]. rewrite Hcm1 in Hk. unfold shutdowns. rewrite Hk.
  cbn [deref outcome_bind]. unfold Counter.Shutdown, Counter.K_modify. cbn [outcome_bind].
  destruct (close_ok _ _ _ (Hopen cm1 Hcm1)) as [Hclosed _]. cbn [Counter.engine].
  eexists. split; [reflexivity|]. exists cm1. rewrite Hpm. by repeat split.
Qed.
End started.

(** The pager program, once it has its configuration and its counter manager, its server runs
    and it is told to quit, returns with the managers as the script of its input leaves them,
    the counter manager shut down, and the database that InitializeConfig opened closed. *)
Theorem pager_main_closes fuel gen file port nat status stdin p p1 lg cfg cm enode f acts s :
  InitializeConfig ParseNode FromPub gen (Some file) (Some port) (Some nat) p = Ret (p1, None) → ps_c p = None → ps_c p1 = Some cfg →
  CounterOps.NewCountrProtocolManager (eng:=eng (Config.db cfg)) (newEngine (Config.db cfg)) (Config.id cfg) (Some (ps_ldb p1)) status = Ret (Some cm) →
  server_Start (server cfg port nat) = Ok enode → session (concat stdin) = (acts, true) → (length stdin ≤ fuel)%nat →
  run_script cfg acts (fresh (Some cm)) = Ret (s, tt) →
  (∀ cm', a_counter s = Some cm' → ldb_file (ldb (Config.db cfg)) (en_db (Engine:=eng (Config.db cfg)) (Counter.engine cm')) = Some f) →
  ∃ e, main fuel gen file port nat status stdin p lg = Ret e ∧ closed cfg s e.
Proof.
  intros Hini Hc0 Hcfg Hcm Hsrv Hquit Hfuel Hrun Hopen.
  exact (main_closes fuel gen file port nat status stdin p p1 cfg (Some cm) enode acts Hini Hc0 Hcfg Hcm Hquit Hfuel lg f s Hsrv (ex_intro _ cm eq_refl) Hrun Hopen).
Qed.

(** Without a counter manager the program does not end well: once told to
    quit it has panicked, in a command or in the deferred calls. *)
Theorem nil_manager_panics fuel gen file port nat status stdin p p1 lg cfg enode acts :
  InitializeConfig ParseNode FromPub gen (Some file) (Some port) (Some nat) p = Ret (p1, None) → ps_c p = None → ps_c p1 = Some cfg →
  CounterOps.NewCountrProtocolManager (eng:=eng (Config.db cfg)) (newEngine (Config.db cfg)) (Config.id cfg) (Some (ps_ldb p1)) status = Ret None →
  server_Start (server cfg port nat) = Ok enode → session (concat stdin) = (acts, true) → (length stdin ≤ fuel)%nat →
  ¬ ∃ e, main fuel gen file port nat status stdin p lg = Ret e.
Proof.
  intros Hini Hc0 Hcfg Hcm Hsrv Hquit Hfuel [e He].
  destruct (main_runs fuel gen file port nat status stdin p p1 cfg None enode Hini Hc0 Hcfg Hcm lg Hsrv) as (lg1 & lg2 & out & Hm). rewrite Hm in He.
  set (s0 := Console NewPagerProtocolManager None lg1 (ps_files p1) out []) in *.
  pose proof (CLI_agrees (wso:=wso (Config.db cfg)) (eng:=eng (Config.db cfg)) net pick order newTransaction getenv creates ParseNode
    (Config.key cfg) enode srv_PeersInfo others envs cfg stdin fuel 0 s0 s0 acts ltac:(by split) Hquit Hfuel) as Hagree.
  apply outcome_bind_ret in He as ([s1 u] & Hrun & He). rewrite Hrun in Hagree.
  destruct (execute _ _ _ _ _ _ acts s0) as [[s2 v]| |] eqn:Hex; try done. destruct Hagree as [[_ Hk _] _].
  destruct (execute_has _ _ _ _ _ _ _ _ _ _ Hex) as [_ Hback]. unfold shutdowns in He. rewrite Hk in He.
  destruct (a_counter s2) as [cm2|]; [|done]. destruct (Hback (ex_intro _ cm2 eq_refl)) as [x Hx]. done.
Qed.
End main.
