(* ===== verification/PagerAppWitnesses.v ===== *)
(** * Witnesses for the theorems about the pager application

    A session with three peers and a new chain, and a run of the whole program
    over a LevelDB library that keeps its files in memory. *)

From Stdlib Require Import Strings.Byte.
From S2P Require Import Prelude Bytes Db LevelDb Config ConfigTheorems Logger Trie TrieSpec TrieFacts WorldState Concrete TrieTheorems WorldStateI Block BlockFacts BlockTheorems.
From S2P Require Import MainList Consensus ConsensusFacts ConsensusTheorems HistoryFacts HistoryTheorems Trustee TrusteeFacts TrusteeTheorems Text Peers PeersTheorems Platform PlatformFacts PlatformWitnesses Pager PagerTheorems.
From S2P Require Import CounterProto CounterTheorems CounterOps ChainState CounterOpsTheorems Countr Cli CliWitnesses PagerApp PagerAppTheorems.
Import App AppScript.

Section witnesses.
#[local] Existing Instances w_hash w_codec w_laws w_ops w_spec_codec w_cn_codec w_rlp_spec.
#[local] Existing Instances w_rlp_text w_json_kp w_json_kp_laws w_json_params.
Abbreviation wdb := (gmap bytes bytes).
Abbreviation wc := (BlockChainConsensus MptWorldState * wdb)%type.
Abbreviation kmgr := (Counter.CountrProtocolManager wc).
Abbreviation wi_engine := (counting_engine 0 10 3 w_range 0).

#[local] Instance wa_text_laws : RlpLaws BroadcastTextMsg := rlp_of_wire_laws.

(** ** A session *)

Definition wa_others (_ : nat) (m : PagerProtocolManager * kmgr) : PagerProtocolManager * kmgr := m.
Definition wa_envs (i : nat) : appEnv wc := MkAppEnv wc [x75; x01] wi_clock wi_others.
Definition wa_peers (_ : nat) : list peerInfo := [MkPeerInfo [x61] [x62] [x63]].
Definition wa_files : files := MkFiles ∅ (λ _, None) (λ _, None) (λ _, None).
Definition wa_console : App.console wc := Console w_pager (Some wi_mgr) initial wa_files [] [].
Definition wa_stdin : list (list bytes) :=
  [[str_bytes "incr a 2"; str_bytes "send hello  world"]; [str_bytes "countr a tip log INFO"; str_bytes "peers info decr a x"; str_bytes "q tip"]].

Definition wa_session : list action * bool := session (concat wa_stdin).
Lemma wa_acts : wa_session = ([Add (str_bytes "a") 2; Page (str_bytes "hello world"); Read (str_bytes "a"); Tell], true).
Proof. vm_compute. reflexivity. Qed.

Abbreviation wa_run fuel stdin := (CLI (eng:=wi_engine) w_net w_pick w_nodes wi_tx (λ _, []) (λ _, false) w_parse w_key [x65] wa_peers wa_others wa_envs fuel 0 (Some w_conf) stdin wa_console).
Abbreviation wa_execute acts := (execute (eng:=wi_engine) w_net w_pick w_nodes wi_tx wa_others wa_envs acts wa_console).

Lemma pager_session_runs_script_witness :
  agree (λ r, r = Blocked) (wa_run 2 wa_stdin) (wa_execute [Add (str_bytes "a") 2; Page (str_bytes "hello world"); Read (str_bytes "a"); Tell]) ∧
  ¬ ∃ r, wa_run 9 [[str_bytes "tip quits"]] = Ret r.
Proof.
  split.
  - exact (pager_session_runs_script (eng:=wi_engine) w_net w_pick w_nodes wi_tx (λ _, []) (λ _, false) w_parse w_key [x65] wa_peers wa_others wa_envs
      w_conf wa_stdin wa_console _ true wa_acts 2%nat (le_n 2)).
  - exact (pager_session_runs_script (eng:=wi_engine) w_net w_pick w_nodes wi_tx (λ _, []) (λ _, false) w_parse w_key [x65] wa_peers wa_others wa_envs
      w_conf [[str_bytes "tip quits"]] wa_console [Tell] false ltac:(vm_compute; reflexivity) 9%nat).
Defined.

(** The session makes four calls; as it goes on after an end of file, it then
    blocks in its second deferred send.  In one round it returns. *)
Definition calls_made {X} (o : outcome (App.console wc * X)) : option (nat * X) := match o with Ret (s, x) => Some (length (a_calls s), x) | _ => None end.
Example wa_blocks : calls_made (wa_run 2 wa_stdin) = Some (4%nat, Blocked).
Proof. vm_compute. reflexivity. Qed.
Example wa_returns : calls_made (wa_run 1 [concat wa_stdin]) = Some (4%nat, Returned tt).
Proof. vm_compute. reflexivity. Qed.

(** ** Pages and keys *)

Lemma wa_words_plain : Forall (λ w : bytes, w ≠ [] ∧ forallb plain w = true) [str_bytes "hello"; str_bytes "world"].
Proof. apply Forall_cons_2; [by split|]. apply Forall_cons_2; [by split|]. apply Forall_nil_2. Qed.

Lemma typed_page_is_shown_witness :
  ∃ s' payload m', lineLoop (eng:=wi_engine) w_net w_pick w_nodes wi_tx (λ _, []) (λ _, false) w_parse w_key [x65] wa_peers wa_others wa_envs (Some w_conf)
      [spaced [str_bytes "send"; str_bytes "hello"; str_bytes "world"]] wa_console = Ret (s', false) ∧
    handleBroadcastMsg w_net w_pick w_nodes (MkMsg BroadcastText payload) [x62] [x62; x62] w_pager = Ret (m', None) ∧
    pages m' = [([x62; x62], str_bytes "hello world")].
Proof.
  destruct (typed_page_is_shown (eng:=wi_engine) w_net w_pick w_nodes wi_tx (λ _, []) (λ _, false) w_parse w_key [x65] wa_peers wa_others wa_envs (Some w_conf)
    [str_bytes "hello"; str_bytes "world"] wa_console w_nodes_ok w_pager_ok
    wa_words_plain) as (s' & Hrun & _ & _ & _ & Hshow).
  destruct (Hshow _ w_net w_pick w_nodes [x62] 2%positive [x62; x62] w_pager eq_refl w_nodes_ok w_pager_ok ltac:(vm_compute; reflexivity)
    ltac:(apply (bool_decide_eq_true_1 _); vm_compute; reflexivity)) as (m' & Hm & Hp).
  eexists s', _, m'. split; [exact Hrun|]. split; [exact Hm | exact Hp].
Defined.

Lemma saved_key_is_read_witness :
  ∃ s' saved, lineLoop (eng:=wi_engine) w_net w_pick w_nodes wi_tx (λ _, []) (λ _, false) w_parse w_key [x65] wa_peers wa_others wa_envs (Some w_conf)
      [spaced [str_bytes "save"; str_bytes "key"]] wa_console = Ret (s', false) ∧
    os_Open (str_bytes "key") (a_files s') = Ok saved ∧ readKey saved = inr w_key.
Proof.
  destruct (saved_key_is_read (eng:=wi_engine) w_net w_pick w_nodes wi_tx (λ _, []) (λ _, false) w_parse w_key [x65] wa_peers wa_others wa_envs (Some w_conf)
    (str_bytes "key") wa_console w_kdata ltac:(done) eq_refl (w_key_storable w_key eq_refl) w_key_data eq_refl eq_refl eq_refl)
    as (s' & saved & Hrun & _ & _ & _ & Ho & Hr).
  exists s', saved. split; [exact Hrun|]. split; [exact Ho | exact Hr].
Defined.
End witnesses.

(** ** A run of the whole program *)

Section main.
#[local] Existing Instances w_hash w_codec w_spec_codec w_cn_codec w_ops_codec w_rlp_spec w_rlp_text.
#[local] Existing Instances wl_lib wl_laws w_json_kp w_json_params.
Abbreviation lc := (BlockChainConsensus MptWorldState * wl)%type.
Abbreviation lmgr := (Counter.CountrProtocolManager lc).

Definition p_others (_ : nat) (m : PagerProtocolManager * lmgr) : PagerProtocolManager * lmgr := m.
Definition p_envs (_ : nat) : appEnv lc := MkAppEnv lc [x75; x01] wi_clock (λ _ m, m).
Definition p_peers (_ : nat) : list peerInfo := [].
Definition p_start (c : serverConfig bytes) : result bytes := Ok [x65].
Definition p_engine (db : DatabaseLevelDB nat) (ts : Z) (miner : Byte64) (d : wl) : outcome (result lc) :=
  en_New (Engine:=l_engine db) ts (Bytes miner) d.
Definition p_status : Proto.HandshakeMsg := Counter.handshakeMsg0.

Definition p_new : outcome (option lmgr) :=
  CounterOps.NewCountrProtocolManager (eng:=l_engine (Config.db w_c1)) (p_engine (Config.db w_c1)) (Config.id w_c1) (Some (ps_ldb w_p1)) p_status.
Definition p_dead : lmgr := Counter.Mgr lc (Proto.Base NewPeerSetDbInMemory 0 ∅ []) (w_dead_chain, (∅, [])) null false false p_status 0%N.
Definition p_made (o : outcome (option lmgr)) : lmgr := match o with Ret (Some m) => m | _ => p_dead end.
Definition p_is_made (o : outcome (option lmgr)) : bool := match o with Ret (Some _) => true | _ => false end.
Lemma p_made_eq o : p_is_made o = true → o = Ret (Some (p_made o)).
Proof. by destruct o as [[m|]| |]. Qed.
Lemma p_new_ok : p_is_made p_new = true.
Proof. vm_compute. reflexivity. Qed.

Definition p_stdin : list (list bytes) := [[str_bytes "incr a 2"; str_bytes "send hello"]; [str_bytes "countr a tip quit"]].
Definition p_session : list action * bool := session (concat p_stdin).
Lemma p_session_eq : p_session = (p_session.1, true).
Proof. vm_compute. reflexivity. Qed.

Definition p_run : outcome (App.console lc * unit) :=
  execute (wso:=l_ws (Config.db w_c1)) (eng:=l_engine (Config.db w_c1)) w_net w_pick w_nodes wi_tx p_others p_envs p_session.1 (fresh (Some (p_made p_new))).
Definition p_end (o : outcome (App.console lc * unit)) : App.console lc := match o with Ret (s, _) => s | _ => fresh None end.
Definition p_ends (o : outcome (App.console lc * unit)) : bool := match o with Ret _ => true | _ => false end.
Lemma p_end_eq o : p_ends o = true → o = Ret (p_end o, tt).
Proof. by destruct o as [[s []]| |]. Qed.
Lemma p_run_ends : p_ends p_run = true.
Proof. vm_compute. reflexivity. Qed.

Lemma p_run_eq :
  execute (wso:=l_ws (Config.db w_c1)) (eng:=l_engine (Config.db w_c1)) w_net w_pick w_nodes wi_tx p_others p_envs p_session.1 (fresh (Some (p_made p_new))) =
    Ret (p_end p_run, tt).
Proof. pose proof (p_end_eq p_run p_run_ends) as Hr. unfold p_run at 1 in Hr. exact Hr. Qed.

Definition p_open (cm : option lmgr) : bool :=
  match cm with Some cm => bool_decide (wl_file (ldb (Config.db w_c1)) (Counter.engine cm).2 = Some (str_bytes "data")) | None => true end.
Lemma p_open_eq x cm : p_open x = true → x = Some cm →
  ldb_file (ldb (Config.db w_c1)) (en_db (Engine:=l_engine (Config.db w_c1)) (Counter.engine cm)) = Some (str_bytes "data").
Proof. intros Ho ->. exact (bool_decide_eq_true_1 _ Ho). Qed.
Lemma p_run_open : p_open (a_counter (p_end p_run)) = true.
Proof. vm_compute. reflexivity. Qed.

Lemma pager_main_closes_witness :
  ∃ e, main w_parse w_pub l_ws l_engine w_net w_pick w_nodes wi_tx p_engine (λ _, []) (λ _, false) p_start p_peers p_others p_envs
      2 (Some w_key) w_file (str_bytes "30303") false p_status p_stdin w_process initial = Ret e ∧
    ldb_file (ldb (Config.db w_c1)) (ps_ldb (fin_process e)) = None.
Proof.
  destruct w_init_eq as [Hini Hcfg].
  destruct (pager_main_closes w_parse w_pub l_ws l_engine w_net w_pick w_nodes wi_tx p_engine (λ _, []) (λ _, false) p_start p_peers p_others p_envs
    2 (Some w_key) w_file (str_bytes "30303") false p_status p_stdin w_process w_p1 initial w_c1 (p_made p_new) [x65] (str_bytes "data") p_session.1 (p_end p_run)
    Hini eq_refl Hcfg (p_made_eq p_new p_new_ok) eq_refl p_session_eq (le_n 2) p_run_eq
    (λ cm, p_open_eq (a_counter (p_end p_run)) cm p_run_open)) as (e & Hrun & cm & _ & _ & Hclosed & _).
  exists e. split; [exact Hrun | exact Hclosed].
Defined.

(** An engine that cannot be made *)
Definition p_no_engine (db : DatabaseLevelDB nat) (ts : Z) (miner : Byte64) (d : wl) : outcome (result lc) := Ret (Err (StdError "no chain")).

Lemma nil_manager_panics_witness :
  ¬ ∃ e, main w_parse w_pub l_ws l_engine w_net w_pick w_nodes wi_tx p_no_engine (λ _, []) (λ _, false) p_start p_peers p_others p_envs
      2 (Some w_key) w_file (str_bytes "30303") false p_status p_stdin w_process initial = Ret e.
Proof.
  destruct w_init_eq as [Hini Hcfg].
  exact (nil_manager_panics w_parse w_pub l_ws l_engine w_net w_pick w_nodes wi_tx p_no_engine (λ _, []) (λ _, false) p_start p_peers p_others p_envs
    2 (Some w_key) w_file (str_bytes "30303") false p_status p_stdin w_process w_p1 initial w_c1 [x65] p_session.1
    Hini eq_refl Hcfg eq_refl eq_refl p_session_eq (le_n 2)).
Defined.
End main.
